(* ===== verification/_CoqProject ===== *)
-Q . S2P
Prelude.v
Lists.v
Memb.v
CDouble.v
Rtimer.v
Packetbuf.v
Chameleon.v
Headers.v
Announcement.v
Announcers.v
Nullsec.v
Frame802154.v
FrameFacts.v
Csma.v
CsmaFacts.v
CsmaSpec.v
Kernel.v
KernelFacts.v
KernelLife.v
Etimer.v
EtimerFacts.v
EtimerSpec.v
CtimerSpec.v
Cc2420.v
Cc2420Facts.v
Cc2420Spec.v
Cc2420Data.v
Cc2420Sim.v
Cc2420Calls.v
Cc2420Params.v
Cc2420Frame.v
CSync.v
Gtsp.v
Cluster.v
Handlers.v
Process.v
HandleLists.v
Travel.v
GtspFacts.v
Measure.v
Frames.v
Phases.v
Callbacks.v
Rounds.v
Motes.v
Neighbours.v
Trust.v
