(* ===== verification/Prelude.v ===== *)
(** * C-sync: a verification library for the clustering and time synchronisation protocol

    The repository is a fork of the Contiki operating system with the C-sync
    protocol added to it.  Motes in radio range discover each other, elect cluster
    heads (CH), connect the clusters through cluster bridges (CB), agree on a
    clock and then keep it, round after round, by exchanging announcements in
    time slots.  The library models the protocol and the part of Contiki it
    stands on, as functions that run, and proves what makes them correct; where
    the code does not do what it means to, the theorem says what it does.

    ** The program and the files

    From the bottom to the top, each file requiring the ones it builds on:

    - [Prelude]: machine integers ([u8], [u16], [u32] wrap around), record
      update, the outcomes of C code ([Ok], or [Err] with a null pointer, a wild
      access, an endless loop, a division by zero), the state monad [M] over
      them, and two small logics for it: [post] (a relation between the states
      before and after every normal run) and [wp].
    - [Lists], [Memb]: core/lib/list.c over a store of [next] fields, and
      core/lib/memb.c over addresses.  Each refines a view ([is_list], the pool of
      blocks) that the files above use.
    - [CDouble]: [double] in the format of the compiler (class [DoubleFormat]),
      IEEE operations from the specification floats of the Standard Library.
    - [Rtimer]: cpu/msp430/f1xxx/rtimer.c, clock.c and core/sys/rtimer.h.  The
      hardware counters are inputs: the state holds the readings to come.
    - [Packetbuf]: core/net/packetbuf.c and queuebuf.c.
    - [Chameleon], [Headers]: chameleon.c, chameleon-bitopt.c and channel.c of
      core/net/rime, the headers of packets; definitions and theorems.
    - [Announcement], [Announcers], [Travel]: announcement.c, the two back-ends
      broadcast-announcement.c and polite-announcement.c, ipolite.c and the thin
      layers broadcast.c, abc.c and rime.c below them; [Travel] has the theorems.
    - [Nullsec]: core/net/llsec/nullsec.c, between rime.c and the MAC layer.
    - [Frame802154], [FrameFacts]: frame802154.c and framer-802154.c of
      core/net/mac, the frames on the air; definitions and theorems.
    - [Csma], [CsmaFacts], [CsmaSpec]: csma.c, csyncrdc-framer.c and mac.c of
      core/net/mac: queues of packets for each neighbour, back-off,
      retransmission, the reports to the owners of the packets.
    - [Kernel], [KernelFacts], [KernelLife]: core/sys/process.c, the processes and
      the event queue.  The class [Quiet] is the contract between the kernel and
      the threads: they return, yield, and only post events and ask for polls.
    - [Etimer], [EtimerFacts], [EtimerSpec], [CtimerSpec]: timer.c, etimer.c and
      ctimer.c of core/sys and the tick interrupt of clock.c; the event timer
      process is an instance of [Quiet].
    - [Cc2420], [Cc2420Facts], [Cc2420Spec], [Cc2420Data], [Cc2420Calls],
      [Cc2420Params], [Cc2420Frame]: dev/cc2420/cc2420.c, the driver of the radio.  The
      chip is the class [Chip]; its laws are [ChipLaws] (it answers, its clock
      advances) and [ChipData] (registers and FIFOs hold what was written), and
      [Cc2420Sim] is a chip that has them.
    - [CSync], [HandleLists]: the data of core/net/c-sync/c-sync.h and the
      variables of examples/c-sync/c-sync.c (one record [node]), the ranked lists
      of handle_lists.c and the init_consensus files; [HandleLists] has the theorems.
    - [Gtsp], [GtspFacts], [Measure]: core/net/c-sync/gtsp.c, gradient time
      synchronisation: moving the clock, and what is learnt from a packet.
    - [Cluster], [Handlers], [Process]: the rest of c-sync.c and the received
      announcement handlers: the table of neighbours, the callbacks of the timer,
      the five handlers phase by phase, the protothread [c_gtsp_process].
    - [Frames], [Phases], [Callbacks], [Rounds], [Motes], [Neighbours], [Trust]:
      the theorems about the protocol.

    The parts interact as in the code.  The process arms a timer of [Rtimer] with
    a callback of [Cluster] and publishes values in the table of [Announcement];
    an announcer writes them with a time stamp into the packet buffer; the packet
    goes through [Chameleon] and [Nullsec] to the radio; on the other side the
    announcer takes it apart and calls the handlers, which file the sender with
    [add_to_neighbour], correct the clock through [Gtsp] and [Rtimer] and may move
    the node to the next phase; the callback of the timer polls the process.
    Callbacks are names (an inductive type) with one interpretation, so that the
    mutual recursion through function pointers is explicit.  Below [Nullsec] a
    packet is queued by [Csma], framed by [Frame802154] and sent when the back-off
    timer of its neighbour expires; [Cc2420] writes the frame to the chip and takes
    received frames out of it into the packet buffer.  Processes, event timers and callback timers
    meet in [Kernel] and [Etimer]: the tick interrupt asks for a poll, the poll posts
    the events of expired timers, the event calls the function of a callback timer
    ([CtimerSpec.callback_arrives] runs the chain).  [Process.node_event]
    puts the interrupts, packets and polls together: a run of a node is a list of
    events.

    ** What the theorems show

    - Containers: every list and allocator call refines the operation on
      sequences and on sets of blocks its comment promises (and [list_insert]
      makes a cycle when the item is already in the list).
    - Clock: what the time stamps mean, that reading the time returns, which
      timer is the earlier one, how offsets move the clock and the drift of the
      conversion of dates, what [rtimer_schedule] arms; the timer an interrupt
      misses.
    - Kernel: the ring buffer is a bounded queue; every event reaches its receivers,
      once and in order, with any [Quiet] threads; what starting and ending a process
      does.  The tick interrupt asks for a poll exactly when a timer is due, across
      the overflow of the clock; the poll posts every expired timer the queue has
      room for and asks again for the rest; a timer event runs its callback in the
      right process.  A timer set twice outside every process hangs; a callback timer
      set again under a queued event fires early; a process that exits itself and
      goes on is off the list but runs.
    - MAC: in every run of the layer its blocks are used once and belong to one queue,
      every packet handed over is reported to its owner exactly once or waits, and
      a packet at the head of a queue is reported within a bound of timer expiries
      and of delay; a refused packet leaves the queues alone; an expired timer serves
      its queue as an abstract function says.  Frames are read back as they were
      written, whatever bytes arrive the framer stays within the packet buffer, and
      the announced header length is the one written.
    - Radio: every call of the driver returns and gives its lock back; a payload
      written to the FIFO of one chip is handed up from the FIFO of another; the
      parameters are read back as they were set.  With the radio off the channel is
      always clear, since the request to turn it on waits for the lock the caller holds.
    - Packets: the packet buffer refines a header and a payload; a queued packet
      comes back unchanged; a packed header is unpacked bit for bit by another
      node and parsing never leaves the buffer; frames the security layer can
      handle and the ones it cannot.
    - Announcements: what is published arrives at the handlers of the receiver;
      what its length check misses; the one packet the polite announcer holds.
    - Tables: the lists of cluster heads are a sorted insertion bounded by their
      pools; the collection and the mirroring of slots before convergence and
      synchronisation; [add_to_neighbour] keeps the table well formed.
    - Time: [gtsp_recv] files the difference of two logical clocks, with the wrong
      sign in one case of overflow; [gtsp_update_rtimer] moves the clock to the
      average of its close neighbours, or faults when it is outvoted; a synchronised
      node follows the clock of its cluster; who is accused of deviating and who
      never is.
    - Protocol: the moves between phases a handler and a callback can make; a
      received packet never takes a node back; the loops of the process end, the
      process yields along a fixed table, waits with its timer armed (except after
      a missed slot), and its counter of rounds stays within bounds in every run.

    ** Bounds and fuel

    A loop of the code without a structural argument carries fuel, and running
    out of it is [FHang].  In [Process] the loops between two yields have
    [SLOT_FUEL] 8, [ITERATION_FUEL] 4 and [CONVERGENCE_FUEL] 7, for the 5 slots and
    3 iterations of project-conf.h; [Rounds.process_loops_end] proves that this is
    enough from every state whose counters are unsigned.  The busy-waits of
    [Rtimer] run on the list of register readings and
    [Rtimer.rtimer_now_fine_returns] says when they return.  List traversals
    have the number of items as fuel, which [is_list] makes enough, and the loop
    of [Nullsec] has [XOR_FUEL] 17, since the block has 16 bytes.  [Csma] sends the
    list of one neighbour with [SEND_FUEL] 16, the number of queue buffers a list
    can hold.  The busy-waits of [Cc2420] have a fuel that is enough for the tenth of a
    second they are bounded by, counted in the units in which the time of the chip
    advances.  The kernel calls threads that may call it again: its fuel bounds that
    nesting and the walk over the processes, and more fuel than processes is enough
    for [Quiet] threads ([KernelFacts.events_delivered_in_order]).

    ** Assumptions

    The configuration is examples/c-sync/project-conf.h on the sky platform:
    16-bit [int], little endian, [double] of [df_size] bytes.  Random numbers, the
    counters of the hardware, the cipher of the radio chip and the outcome of
    [chameleon_create] inside [Announcers] are inputs, and so are the answers of the
    radio; theorems that need something of them say so.  Functions outside the modelled
    code that are called through a pointer (owners of packets, functions of callback
    timers, threads of other processes) are parameters, or their calls are recorded.  An interrupt happens between two events of a node, not inside
    one, apart from the changing registers.

    ** Not modelled

    The radio chip, which is a parameter of [Cc2420], and its port to the
    microcontroller (the interrupt that captures the time of a frame is a reading).  The
    drivers are not joined to the queues: the answers of the radio are inputs of [Csma],
    and [Cc2420.cc2420_receive] calls a parameter.  The encryption of [Cc2420] waits for
    the chip without a bound, so that no theorem says it returns.  The
    protocol's own process is modelled in [Process] as what it does between two
    yields; its thread is not an instance of the [thread] parameter of [Kernel], since
    the state of a node does not hold the kernel.  Likewise the announcers and [Csma]
    keep the pending interval of a callback timer and not a [ctimer] of [Etimer].
    The blacklisting announcement, which is compiled out; printing, statistics and
    energy accounting.  The older copies of the protocol (c-sync_ftsp_changes,
    gtsp-changed.c) are not built.  The rest of the repository is Contiki code the
    protocol does not use: IP, RPL, TSCH, the other Rime primitives, the shell and
    applications, drivers of other platforms, FatFs. *)
From stdpp Require Import base numbers list gmap option.
From Stdlib Require Import ZArith Lia.

(** ** Machine integers *)

Declare Scope c_scope.
Delimit Scope c_scope with c.
#[global] Open Scope Z_scope.

(** Conversion to an unsigned type of [w] bits: reduction modulo [2^w]. *)
Definition uwrap (w z : Z) : Z := z mod 2 ^ w.

(** Conversion to a two's complement signed type of [w] bits. *)
Definition swrap (w z : Z) : Z := (z + 2 ^ (w - 1)) mod 2 ^ w - 2 ^ (w - 1).

Abbreviation u8 := (uwrap 8).
Abbreviation u16 := (uwrap 16).
Abbreviation u32 := (uwrap 32).
Abbreviation s8 := (swrap 8).
Abbreviation s16 := (swrap 16).
Abbreviation s32 := (swrap 32).

Definition in_u (w z : Z) : Prop := 0 <= z < 2 ^ w.
Definition in_s (w z : Z) : Prop := - 2 ^ (w - 1) <= z < 2 ^ (w - 1).

(** C's truth value of an integer. *)
Definition c_true (z : Z) : bool := negb (z =? 0).
Definition b2z (b : bool) : Z := if b then 1 else 0.

Notation "a +8 b" := (u8 (a + b)) (at level 50, left associativity) : c_scope.
Notation "a -8 b" := (u8 (a - b)) (at level 50, left associativity) : c_scope.
Notation "a +16 b" := (u16 (a + b)) (at level 50, left associativity) : c_scope.
Notation "a -16 b" := (u16 (a - b)) (at level 50, left associativity) : c_scope.
Notation "a +32 b" := (u32 (a + b)) (at level 50, left associativity) : c_scope.
Notation "a -32 b" := (u32 (a - b)) (at level 50, left associativity) : c_scope.
#[global] Open Scope c_scope.

Lemma uwrap_range (w z : Z) : 0 <= w -> in_u w (uwrap w z).
Proof. intros Hw. apply Z.mod_pos_bound. lia. Qed.

Lemma uwrap_small (w z : Z) : in_u w z -> uwrap w z = z.
Proof. intros H. apply Z.mod_small, H. Qed.

Lemma uwrap_idem (w z : Z) : uwrap w (uwrap w z) = uwrap w z.
Proof. apply Zmod_mod. Qed.

Lemma uwrap_add_l (w a b : Z) : uwrap w (uwrap w a + b) = uwrap w (a + b).
Proof. apply Zplus_mod_idemp_l. Qed.

Lemma uwrap_add_r (w a b : Z) : uwrap w (a + uwrap w b) = uwrap w (a + b).
Proof. apply Zplus_mod_idemp_r. Qed.

Lemma uwrap_sub_l (w a b : Z) : uwrap w (uwrap w a - b) = uwrap w (a - b).
Proof. apply Zminus_mod_idemp_l. Qed.

Lemma uwrap_sub_r (w a b : Z) : uwrap w (a - uwrap w b) = uwrap w (a - b).
Proof. apply Zminus_mod_idemp_r. Qed.

Lemma swrap_range (w z : Z) : 0 < w -> in_s w (swrap w z).
Proof.
  intros Hw. unfold in_s, swrap.
  assert (Hp : 2 ^ w = 2 * 2 ^ (w - 1)).
  { rewrite <- Z.pow_succ_r by lia. f_equal. lia. }
  pose proof (Z.mod_pos_bound (z + 2 ^ (w - 1)) (2 ^ w)
                ltac:(apply Z.pow_pos_nonneg; lia)). lia.
Qed.

Lemma swrap_small (w z : Z) : 0 < w -> in_s w z -> swrap w z = z.
Proof.
  intros Hw H. unfold in_s, swrap in *.
  assert (Hp : 2 ^ w = 2 * 2 ^ (w - 1)).
  { rewrite <- Z.pow_succ_r by lia. f_equal. lia. }
  rewrite Z.mod_small by lia. lia.
Qed.

Lemma u8_range (z : Z) : 0 <= u8 z < 256.
Proof. apply (uwrap_range 8). lia. Qed.
Lemma u16_range (z : Z) : 0 <= u16 z < 65536.
Proof. apply (uwrap_range 16). lia. Qed.
Lemma u32_range (z : Z) : 0 <= u32 z < 4294967296.
Proof. apply (uwrap_range 32). lia. Qed.

Create HintDb cint.
Create Rewrite HintDb cint.
#[export] Hint Resolve uwrap_range u8_range u16_range u32_range swrap_range : cint.
#[export] Hint Rewrite uwrap_idem uwrap_add_l uwrap_add_r uwrap_sub_l uwrap_sub_r : cint.

(** Arithmetic modulo a literal power of two, reduced to [lia]. *)
Ltac uwrap_lia :=
  unfold in_u, uwrap, swrap in *;
  repeat match goal with
    | H : context [2 ^ ?n] |- _ =>
        let v := eval vm_compute in (2 ^ n) in progress change (2 ^ n) with v in H
    | |- context [2 ^ ?n] =>
        let v := eval vm_compute in (2 ^ n) in progress change (2 ^ n) with v
    end;
  Z.div_mod_to_equations; lia.

(** ** Record update

    [s <| f := v |>] is the C assignment [s.f = v]. A record type declares its
    eta-expansion once (instance of [Eta]); the setter of each field is derived
    from it by type class resolution. *)

Class Eta (R : Type) := eta : R -> R.
Class Update {R E : Type} (proj : R -> E) := update : (E -> E) -> R -> R.
Arguments update {R E} proj {_} _ _.
#[global] Typeclasses Opaque Eta Update.

Ltac derive_update p :=
  lazymatch type of p with
  | ?R -> ?E =>
      let i := constr:(_ : Eta R) in
      let i := eval hnf in i in
      let i := eval pattern p in i in
      lazymatch i with
      | ?F p =>
          let t := constr:(fun (h : E -> E) => F (fun y : R => h (p y))) in
          let t := eval cbv beta in t in
          exact t
      end
  end.
#[export] Hint Extern 1 (Update ?p) => derive_update p : typeclass_instances.

Notation "s <| p := v |>" := (update p (fun _ => v) s)
  (at level 1, p at level 10, left associativity) : c_scope.
Notation "s <| p ::= f |>" := (update p f s)
  (at level 1, p at level 10, left associativity) : c_scope.

(** Read a field through updates of the same and of other fields. *)
Ltac rsimpl_in_goal :=
  repeat match goal with
    | |- context [?p (update ?p ?h ?s)] =>
        let r := eval cbv beta in (h (p s)) in
        change (p (update p h s)) with r
    | |- context [?p (update ?q ?h ?s)] =>
        change (p (update q h s)) with (p s)
    end.
Ltac rsimpl_in H :=
  repeat match type of H with
    | context [?p (update ?p ?h ?s)] =>
        let r := eval cbv beta in (h (p s)) in
        change (p (update p h s)) with r in H
    | context [?p (update ?q ?h ?s)] =>
        change (p (update q h s)) with (p s) in H
    end.
Ltac rsimpl :=
  rsimpl_in_goal;
  repeat match goal with
    | H : context [?p (update ?q ?h ?s)] |- _ => progress rsimpl_in H
    end.

(** ** Outcomes

    A C function either returns or leaves the behaviour the language defines:
    it dereferences a null pointer, reads through a pointer to something that
    is not the structure it expects, or spins for ever in a loop. *)

Inductive fault :=
  | FNull   (* null pointer dereferenced *)
  | FWild   (* pointer to something else than the expected structure *)
  | FHang   (* a loop that never ends *)
  | FDiv.   (* an integer divided by zero *)

Inductive res (A : Type) :=
  | Ok (a : A)
  | Err (f : fault).
Arguments Ok {A} a.
Arguments Err {A} f.

#[export] Instance fault_eq_dec : EqDecision fault.
Proof. solve_decision. Defined.

(** The state monad over [res]. *)
Definition M (S A : Type) : Type := S -> res (A * S).

#[export] Instance M_ret S : MRet (M S) := fun A a s => Ok (a, s).
#[export] Instance M_bind S : MBind (M S) := fun A B k m s =>
  match m s with
  | Ok (a, s') => k a s'
  | Err f => Err f
  end.

Definition fail {S A} (f : fault) : M S A := fun _ => Err f.
Definition gets {S A} (f : S -> A) : M S A := fun s => Ok (f s, s).
Definition modify {S} (f : S -> S) : M S unit := fun s => Ok (tt, f s).
Definition skip {S} : M S unit := fun s => Ok (tt, s).
Definition when {S} (b : bool) (m : M S unit) : M S unit := if b then m else skip.

(** Assignment of one field. *)
Notation "p <~ v" := (modify (update p (fun _ => v)))
  (at level 70, no associativity) : c_scope.

(** A null pointer is [None]: [deref] is the check C does not make. *)
Definition deref {S A} (o : option A) : M S A :=
  match o with Some a => fun s => Ok (a, s) | None => fail FNull end.

(** Run a computation on one component of a larger state. *)
Definition zoom {S T A} (f : S -> T) {U : Update f} (m : M T A) : M S A := fun s =>
  match m (f s) with
  | Ok (a, t) => Ok (a, s <| f := t |>)
  | Err e => Err e
  end.

(** A [for] loop over the items of a list, in order. *)
Fixpoint forM {S A} (l : list A) (body : A -> M S unit) : M S unit :=
  match l with
  | [] => skip
  | a :: l' => body a ;; forM l' body
  end.

(** Apply a pure function to the result of a computation. *)
Definition res_map {S A B} (f : A -> B) (m : M S A) : M S B := fun s =>
  match m s with
  | Ok (a, s') => Ok (f a, s')
  | Err e => Err e
  end.
Infix "<$$>" := res_map (at level 61, left associativity) : c_scope.

Lemma bind_Ok {S A B} (m : M S A) (k : A -> M S B) s a s' :
  m s = Ok (a, s') -> (m ≫= k) s = k a s'.
Proof. intros E. unfold mbind, M_bind. by rewrite E. Qed.
Lemma bind_Err {S A B} (m : M S A) (k : A -> M S B) s e :
  m s = Err e -> (m ≫= k) s = Err e.
Proof. intros E. unfold mbind, M_bind. by rewrite E. Qed.
Lemma bind_inv {S A B} (m : M S A) (k : A -> M S B) s b s' :
  (m ≫= k) s = Ok (b, s') -> exists a s1, m s = Ok (a, s1) /\ k a s1 = Ok (b, s').
Proof. unfold mbind, M_bind. destruct (m s) as [[a s1]|]; [eauto|done]. Qed.
Lemma bind_modify {S B} (f : S -> S) (k : unit -> M S B) s :
  (modify f ≫= k) s = k tt (f s).
Proof. done. Qed.
Lemma bind_gets {S A B} (f : S -> A) (k : A -> M S B) s :
  (gets f ≫= k) s = k (f s) s.
Proof. done. Qed.

(** ** Reasoning about computations

    [post R m]: every normal run of [m] relates its initial and final states by
    the preorder [R]; [same f] says that a component of the state is left
    alone, [inv P] that a property is preserved. *)
Definition post {S A} (R : S -> S -> Prop) (m : M S A) : Prop :=
  forall s a s', m s = Ok (a, s') -> R s s'.
Definition same {S E} (f : S -> E) : S -> S -> Prop := fun s s' => f s' = f s.
Definition inv {S} (P : S -> Prop) : S -> S -> Prop := fun s s' => P s -> P s'.

#[export] Instance same_preorder {S E} (f : S -> E) : PreOrder (same f).
Proof. unfold same. split; [done|]. intros x y z H1 H2. congruence. Qed.
#[export] Instance inv_preorder {S} (P : S -> Prop) : PreOrder (inv P).
Proof. unfold inv. split; [by intros x|]. intros x y z H1 H2 H. auto. Qed.

Section post.
Context {S : Type} (R : S -> S -> Prop) `{!PreOrder R}.

Lemma post_ret {A} (a : A) : post R (mret a : M S A).
Proof. intros s x s' [= <- <-]. reflexivity. Qed.
Lemma post_gets {A} (f : S -> A) : post R (gets f).
Proof. intros s x s' [= <- <-]. reflexivity. Qed.
Lemma post_skip : post R (skip : M S unit).
Proof. intros s x s' [= <- <-]. reflexivity. Qed.
Lemma post_fail {A} e : post R (fail e : M S A).
Proof. by intros s x s'. Qed.
Lemma post_deref {A} (o : option A) : post R (deref o : M S A).
Proof. destruct o; [|by intros s x s']. intros s x s' [= <- <-]. reflexivity. Qed.
Lemma post_modify f : (forall s, R s (f s)) -> post R (modify f).
Proof. intros H s x s' [= <- <-]. apply H. Qed.
Lemma post_bind {A B} (m : M S A) (k : A -> M S B) :
  post R m -> (forall a, post R (k a)) -> post R (m ≫= k).
Proof.
  intros Hm Hk s b s'. unfold mbind, M_bind. destruct (m s) as [[a s1]|] eqn:E; [|done].
  intros H. transitivity s1; [by eapply Hm|by eapply Hk].
Qed.
Lemma post_when b (m : M S unit) : post R m -> post R (when b m).
Proof. intros Hm. destruct b; [done|]. apply post_skip. Qed.
Lemma post_res_map {A B} (f : A -> B) (m : M S A) : post R m -> post R (f <$$> m).
Proof.
  intros Hm s b s'. unfold res_map. destruct (m s) as [[a s1]|] eqn:E; [|done].
  intros [= _ <-]. by eapply Hm.
Qed.
Lemma post_forM {A} (l : list A) (body : A -> M S unit) :
  (forall a, post R (body a)) -> post R (forM l body).
Proof.
  intros H. induction l as [|a l IH]; simpl; [apply post_skip|]. by apply post_bind.
Qed.
Lemma post_pair {A B C} (p : A * B) (k : A -> B -> M S C) :
  (forall a b, post R (k a b)) -> post R (let '(a, b) := p in k a b).
Proof. destruct p. auto. Qed.
Lemma post_from_state {A} (m : S -> M S A) :
  (forall s, post R (m s)) -> post R (fun s => m s s).
Proof. intros H s a s' E. by eapply H. Qed.
End post.

Lemma post_conj {S A} (R1 R2 : S -> S -> Prop) (m : M S A) :
  post R1 m -> post R2 m -> post (fun s s' => R1 s s' /\ R2 s s') m.
Proof. intros H1 H2 s a s' E. split; [by eapply H1|by eapply H2]. Qed.

(** ** Lists *)

Lemma alter_insert {A} (f : A -> A) (l : list A) i x :
  l !! i = Some x -> alter f i l = <[i := f x]> l.
Proof.
  intros H. apply list_eq. intros j. destruct (decide (i = j)) as [<-|].
  - rewrite list_lookup_alter_eq, list_lookup_insert_eq, H by (by eapply lookup_lt_Some). done.
  - by rewrite list_lookup_alter_ne, list_lookup_insert_ne.
Qed.

Create HintDb post.

(** Decompose a computation down to its assignments; calls are closed by the
    [post] hints. *)
Ltac post_step :=
  lazymatch goal with
  | |- post _ (mbind _ _) => apply post_bind; [exact _| |intros]
  | |- post _ (mret _) => apply post_ret; exact _
  | |- post _ (gets _) => apply post_gets; exact _
  | |- post _ skip => apply post_skip; exact _
  | |- post _ (fail _) => apply post_fail
  | |- post _ (deref _) => apply post_deref; exact _
  | |- post _ (when _ _) => apply post_when; [exact _|]
  | |- post _ (res_map _ _) => apply post_res_map
  | |- post _ (forM _ _) => apply post_forM; [exact _|intros]
  | |- post _ (match ?x with _ => _ end) => destruct x
  end.
Ltac post_auto :=
  repeat first [ solve [eauto with post nocore] | post_step ].

(** [wp m Q s]: if [m] runs normally from [s], then [Q] holds of the result. *)
Definition wp {S A} (m : M S A) (Q : A -> S -> Prop) (s : S) : Prop :=
  forall a s', m s = Ok (a, s') -> Q a s'.

Section wp.
Context {S : Type}.

Lemma wp_ret {A} (a : A) Q (s : S) : Q a s -> wp (mret a) Q s.
Proof. by intros H x s' [= <- <-]. Qed.
Lemma wp_gets {A} (f : S -> A) Q s : Q (f s) s -> wp (gets f) Q s.
Proof. by intros H x s' [= <- <-]. Qed.
Lemma wp_modify f (Q : unit -> S -> Prop) s : Q tt (f s) -> wp (modify f) Q s.
Proof. by intros H x s' [= <- <-]. Qed.
Lemma wp_skip (Q : unit -> S -> Prop) s : Q tt s -> wp skip Q s.
Proof. by intros H x s' [= <- <-]. Qed.
Lemma wp_bind {A B} (m : M S A) (k : A -> M S B) Q s :
  wp m (fun a s' => wp (k a) Q s') s -> wp (m ≫= k) Q s.
Proof.
  intros H b s'. unfold mbind, M_bind. destruct (m s) as [[a s1]|] eqn:E; [|done].
  intros E'. by eapply H.
Qed.
Lemma wp_mono {A} (m : M S A) (Q Q' : A -> S -> Prop) s :
  wp m Q s -> (forall a s', Q a s' -> Q' a s') -> wp m Q' s.
Proof. intros H HQ a s' E. by apply HQ, H. Qed.
Lemma wp_res_map {A B} (f : A -> B) (m : M S A) Q s :
  wp m (fun a s' => Q (f a) s') s -> wp (f <$$> m) Q s.
Proof.
  intros H b s'. unfold res_map. destruct (m s) as [[a s1]|] eqn:E; [|done].
  intros [= <- <-]. by apply H.
Qed.
Lemma wp_post {A} (R : S -> S -> Prop) (m : M S A) (Q : A -> S -> Prop) s :
  post R m -> (forall a s', m s = Ok (a, s') -> R s s' -> Q a s') -> wp m Q s.
Proof. intros Hp H a s' E. apply H; [done|]. by eapply Hp. Qed.
Lemma wp_when b (m : M S unit) (Q : unit -> S -> Prop) s :
  (b = true -> wp m Q s) -> (b = false -> Q tt s) -> wp (when b m) Q s.
Proof. intros H1 H2. destruct b; [by apply H1|]. by apply wp_skip, H2. Qed.
End wp.

Ltac wp_step :=
  lazymatch goal with
  | |- wp (mbind _ _) _ _ => apply wp_bind
  | |- wp (mret _) _ _ => apply wp_ret
  | |- wp (gets _) _ _ => apply wp_gets
  | |- wp (modify _) _ _ => apply wp_modify
  | |- wp skip _ _ => apply wp_skip
  | |- wp (res_map _ _) _ _ => apply wp_res_map
  end.
