(* ===== verification/Lists.v ===== *)
(** * Lists: the linked lists of core/lib/list.c

    Every list of the system (neighbours, cluster heads, announcements, timers)
    is a chain of structures whose first field is the [next] pointer.  The
    functions are translated over a store of [next] fields; [is_list] relates a
    store to the sequence of the items' addresses, and the theorems show that
    each function implements the operation on sequences its comment promises
    and leaves the other structures of the store alone. *)
From stdpp Require Import numbers option gmap list.
From S2P Require Import Prelude.

(** Addresses of structures; a pointer is [None] for [NULL]. *)
Abbreviation loc := positive.
Abbreviation ptr := (option loc).

(** The list variable ([*list]) and the [next] field of every structure. *)
Record list_store := mk_list_store {
  ls_head : ptr;
  ls_next : gmap loc ptr;
}.
#[export] Instance eta_list_store : Eta list_store :=
  fun x => mk_list_store (ls_head x) (ls_next x).

(** Reading and writing [l->next]. *)
Definition get_next (l : loc) : M list_store ptr := fun st =>
  match ls_next st !! l with
  | Some q => Ok (q, st)
  | None => Err FWild
  end.
Definition set_next (l : loc) (q : ptr) : M list_store unit := fun st =>
  match ls_next st !! l with
  | Some _ => Ok (tt, st <| ls_next ::= <[l := q]> |>)
  | None => Err FWild
  end.

(** No acyclic chain is longer than the number of structures. *)
Definition list_fuel (st : list_store) : nat := S (size (ls_next st)).

Definition list_init : M list_store unit := ls_head <~ None.

Definition list_head : M list_store ptr := gets ls_head.

(** [list_copy]: [*dest = *src]; the source's head pointer is the argument. *)
Definition list_copy (src : ptr) : M list_store unit := ls_head <~ src.

(** [for(l = *list; l->next != NULL; l = l->next);] *)
Fixpoint tail_loop (fuel : nat) (l : loc) : M list_store loc :=
  match fuel with
  | O => fail FHang
  | S n =>
      q ← get_next l;
      match q with
      | None => mret l
      | Some l' => tail_loop n l'
      end
  end.

Definition list_tail : M list_store ptr := fun st =>
  match ls_head st with
  | None => Ok (None, st)
  | Some l => (l' ← tail_loop (list_fuel st) l; mret (Some l')) st
  end.

(** The search loop of [list_remove], [r] being the item before [l]. *)
Fixpoint remove_loop (fuel : nat) (item : loc) (r l : ptr) : M list_store unit :=
  match fuel with
  | O => fail FHang
  | S n =>
      match l with
      | None => skip
      | Some l =>
          if decide (l = item) then
            q ← get_next l;
            (match r with
             | None => ls_head <~ q
             | Some r => set_next r q
             end) ;;
            set_next l None
          else
            q ← get_next l;
            remove_loop n item (Some l) q
      end
  end.

Definition list_remove (item : loc) : M list_store unit := fun st =>
  match ls_head st with
  | None => Ok (tt, st)
  | Some l => remove_loop (list_fuel st) item None (Some l) st
  end.

Definition list_add (item : loc) : M list_store unit :=
  list_remove item ;;
  set_next item None ;;
  l ← list_tail;
  match l with
  | None => ls_head <~ Some item
  | Some l => set_next l (Some item)
  end.

Definition list_push (item : loc) : M list_store unit :=
  list_remove item ;;
  h ← list_head;
  set_next item h ;;
  (ls_head <~ Some item).

(** [for(l = *list; l->next->next != NULL; l = l->next);] from an [l] whose
    [next] is not null. *)
Fixpoint chop_loop (fuel : nat) (l : loc) : M list_store loc :=
  match fuel with
  | O => fail FHang
  | S n =>
      q ← get_next l;
      l1 ← deref q;
      q' ← get_next l1;
      match q' with
      | None => mret l
      | Some _ => chop_loop n l1
      end
  end.

Definition list_chop : M list_store ptr := fun st =>
  match ls_head st with
  | None => Ok (None, st)
  | Some h =>
      (q ← get_next h;
       match q with
       | None => (ls_head <~ None) ;; mret (Some h)
       | Some _ =>
           l ← chop_loop (list_fuel st) h;
           r ← get_next l;
           set_next l None ;;
           mret r
       end) st
  end.

Definition list_pop : M list_store ptr := fun st =>
  match ls_head st with
  | None => Ok (None, st)
  | Some l => (q ← get_next l; (ls_head <~ q) ;; mret (Some l)) st
  end.

Fixpoint length_loop (fuel : nat) (l : ptr) (n : Z) : M list_store Z :=
  match fuel with
  | O => fail FHang
  | S k =>
      match l with
      | None => mret n
      | Some l => q ← get_next l; length_loop k q (n + 1)
      end
  end.

Definition list_length : M list_store Z := fun st =>
  length_loop (list_fuel st) (ls_head st) 0 st.

Definition list_insert (previtem : ptr) (newitem : loc) : M list_store unit :=
  match previtem with
  | None => list_push newitem
  | Some prev =>
      q ← get_next prev;
      set_next newitem q ;;
      set_next prev (Some newitem)
  end.

Definition list_item_next (item : ptr) : M list_store ptr :=
  match item with
  | None => mret None
  | Some i => get_next i
  end.

(** ** Sequences of items *)

(** The specification of each function on the sequence of the items.  Clients
    whose items are named otherwise (block indices) use the same sequences. *)
Definition seq_remove `{EqDecision A} (x : A) (l : list A) : list A := filter (.≠ x) l.
Definition seq_add `{EqDecision A} (x : A) (l : list A) : list A := seq_remove x l ++ [x].
Definition seq_push `{EqDecision A} (x : A) (l : list A) : list A := x :: seq_remove x l.
Fixpoint seq_insert `{EqDecision A} (prev x : A) (l : list A) : list A :=
  match l with
  | [] => []
  | y :: l' => if decide (y = prev) then y :: x :: l' else y :: seq_insert prev x l'
  end.

(** [seg m p l q]: following [next] from [p] visits the items [l] and then
    reaches [q]. *)
Fixpoint seg (m : gmap loc ptr) (p : ptr) (l : list loc) (q : ptr) : Prop :=
  match l with
  | [] => p = q
  | x :: l' => p = Some x /\ exists r, m !! x = Some r /\ seg m r l' q
  end.

(** The store represents the list of items [l]. *)
Definition is_list (st : list_store) (l : list loc) : Prop :=
  seg (ls_next st) (ls_head st) l None.

(** The same structures exist in both stores, and those outside [X] keep their
    [next] field. *)
Definition frame (X : gset loc) (st st' : list_store) : Prop :=
  dom (ls_next st') = dom (ls_next st) /\
  forall x, x ∉ X -> ls_next st' !! x = ls_next st !! x.

(** ** Segments *)

Lemma seg_app m p l1 l2 q :
  seg m p (l1 ++ l2) q <-> exists r, seg m p l1 r /\ seg m r l2 q.
Proof.
  revert p. induction l1 as [|x l1 IH]; intros p; simpl.
  - split; [eauto | by intros (r & -> & H)].
  - setoid_rewrite IH. naive_solver.
Qed.

Lemma seg_det m p l1 l2 : seg m p l1 None -> seg m p l2 None -> l1 = l2.
Proof.
  revert p l2. induction l1 as [|x l1 IH]; intros p [|y l2]; simpl; naive_solver.
Qed.

Lemma seg_nodup m p l : seg m p l None -> NoDup l.
Proof.
  revert p. induction l as [|x l IH]; intros p; simpl; [constructor|].
  intros (-> & r & Hr & H). constructor; [|by eapply IH].
  intros (l1 & l2 & ->)%list_elem_of_split.
  apply seg_app in H as Hs. destruct Hs as (r' & _ & H2).
  destruct H2 as (-> & r2 & Hr2 & H2). simplify_eq.
  assert (Hl : l1 ++ x :: l2 = l2) by (by eapply seg_det).
  apply (f_equal length) in Hl. rewrite length_app in Hl. simpl in Hl. lia.
Qed.

Lemma seg_insert_ne m p l q x v :
  x ∉ l -> seg m p l q -> seg (<[x := v]> m) p l q.
Proof.
  revert p. induction l as [|y l IH]; intros p Hx; simpl; [done|].
  intros (-> & r & Hr & H). split; [done|]. exists r.
  rewrite lookup_insert_ne by set_solver. split; [done|]. apply IH; set_solver.
Qed.

Lemma seg_dom m p l q x : seg m p l q -> x ∈ l -> x ∈ dom m.
Proof.
  revert p. induction l as [|y l IH]; intros p; simpl; [set_solver|].
  intros (-> & r & Hr & H) [->|Hx]%elem_of_cons; [by eapply elem_of_dom_2|eauto].
Qed.

Lemma seg_length m p l : seg m p l None -> (length l <= size m)%nat.
Proof.
  intros H. rewrite <- (size_dom m).
  rewrite <- (size_list_to_set (C := gset loc) l) by (by eapply seg_nodup).
  apply subseteq_size. intros x Hx%elem_of_list_to_set. by eapply seg_dom.
Qed.

Lemma seq_remove_notin `{EqDecision A} (x : A) l : x ∉ l -> seq_remove x l = l.
Proof.
  induction l as [|y l IH]; intros Hx; [done|]. unfold seq_remove in *.
  rewrite filter_cons_True by set_solver. rewrite IH; set_solver.
Qed.

Lemma seq_remove_split `{EqDecision A} (x : A) l1 l2 :
  NoDup (l1 ++ x :: l2) -> seq_remove x (l1 ++ x :: l2) = l1 ++ l2.
Proof.
  intros Hn. unfold seq_remove. rewrite filter_app, filter_cons_False by naive_solver.
  apply NoDup_app in Hn as (Hn1 & Hn2 & Hn3). apply NoDup_cons in Hn3 as [Hn3 _].
  f_equal; apply seq_remove_notin; set_solver.
Qed.

(** ** Running the functions *)

Lemma get_next_ok st l q : ls_next st !! l = Some q -> get_next l st = Ok (q, st).
Proof. unfold get_next. by intros ->. Qed.

Lemma set_next_ok st l q :
  l ∈ dom (ls_next st) -> set_next l q st = Ok (tt, st <| ls_next ::= <[l := q]> |>).
Proof. intros [r Hr]%elem_of_dom. unfold set_next. by rewrite Hr. Qed.

Lemma bind_ok {S A B} (m : M S A) (k : A -> M S B) s a s' :
  m s = Ok (a, s') -> (m ≫= k) s = k a s'.
Proof. unfold mbind, M_bind. by intros ->. Qed.

Lemma frame_refl X st : frame X st st.
Proof. done. Qed.

Lemma frame_trans X Y st1 st2 st3 :
  frame X st1 st2 -> frame Y st2 st3 -> frame (X ∪ Y) st1 st3.
Proof.
  intros [Hd1 H1] [Hd2 H2]. split; [congruence|].
  intros x Hx. rewrite H2, H1; set_solver.
Qed.

Lemma frame_weaken X Y st st' : X ⊆ Y -> frame X st st' -> frame Y st st'.
Proof. intros HXY [Hd H]. split; [done|]. intros x Hx. apply H. set_solver. Qed.

Lemma frame_head X st p : frame X st (st <| ls_head := p |>).
Proof. done. Qed.

Lemma frame_set X st x q :
  x ∈ dom (ls_next st) -> x ∈ X -> frame X st (st <| ls_next ::= <[x := q]> |>).
Proof.
  intros Hd Hx. split.
  - change (dom (<[x := q]> (ls_next st)) = dom (ls_next st)).
    rewrite dom_insert_L. set_solver.
  - intros y Hy. change (<[x := q]> (ls_next st) !! y = ls_next st !! y).
    apply lookup_insert_ne. set_solver.
Qed.

Lemma tail_loop_ok st x l fuel y :
  seg (ls_next st) (Some x) (l ++ [y]) None -> (length l < fuel)%nat ->
  tail_loop fuel x st = Ok (y, st).
Proof.
  revert x fuel. induction l as [|z l IH]; intros x [|fuel] H Hf; simpl in *; try lia.
  - destruct H as (Hx & r & Hr & ->). simplify_eq.
    by rewrite (bind_ok _ _ _ _ _ (get_next_ok _ _ _ Hr)).
  - destruct H as (Hx & r & Hr & H). simplify_eq.
    rewrite (bind_ok _ _ _ _ _ (get_next_ok _ _ _ Hr)).
    destruct l as [|z' l]; destruct H as (-> & H'); (apply IH; [by split|simpl in *; lia]).
Qed.

Lemma list_tail_ok st l :
  is_list st l -> list_tail st = Ok (last l, st).
Proof.
  intros H. unfold list_tail. pose proof (seg_length _ _ _ H) as Hlen.
  destruct l as [|y l _] using rev_ind.
  - unfold is_list in H. simpl in H. by rewrite H.
  - rewrite last_snoc. unfold is_list in H.
    destruct (ls_head st) as [x|] eqn:Hh; [|by destruct l; destruct H].
    rewrite (bind_ok _ _ _ y st); [done|].
    eapply tail_loop_ok; [done|]. rewrite length_app in Hlen. simpl in Hlen.
    unfold list_fuel. lia.
Qed.

Lemma remove_loop_notin st item r p l fuel :
  seg (ls_next st) p l None -> item ∉ l -> (length l < fuel)%nat ->
  remove_loop fuel item r p st = Ok (tt, st).
Proof.
  revert r p fuel. induction l as [|x l IH]; intros r p [|fuel] H Hi Hf; simpl in *; try lia.
  - by subst.
  - destruct H as (-> & q & Hq & H). rewrite decide_False by set_solver.
    rewrite (bind_ok _ _ _ _ _ (get_next_ok _ _ _ Hq)). apply IH; [done|set_solver|lia].
Qed.

(** The store after [r->next = l->next; l->next = NULL] (or [*list = l->next]). *)
Definition unlink (r : ptr) (item : loc) (q : ptr) (st : list_store) : list_store :=
  match r with
  | None => st <| ls_head := q |> <| ls_next ::= <[item := None]> |>
  | Some r => st <| ls_next ::= <[r := q]> |> <| ls_next ::= <[item := None]> |>
  end.

Lemma remove_loop_in st item r p l1 q fuel :
  seg (ls_next st) p l1 (Some item) -> item ∉ l1 -> ls_next st !! item = Some q ->
  (forall x, r = Some x -> x ∈ dom (ls_next st)) -> (length l1 < fuel)%nat ->
  remove_loop fuel item r p st = Ok (tt, unlink (from_option Some r (last l1)) item q st).
Proof.
  revert r p fuel. induction l1 as [|x l IH]; intros r p [|fuel] H Hi Hq Hr Hf; simpl in *; try lia.
  - subst p. rewrite decide_True by done.
    rewrite (bind_ok _ _ _ _ _ (get_next_ok _ _ _ Hq)).
    assert (Hd : item ∈ dom (ls_next st)) by (by eapply elem_of_dom_2).
    destruct r as [r|]; simpl.
    + rewrite (bind_ok _ _ _ _ _ (set_next_ok _ _ _ (Hr _ eq_refl))).
      apply set_next_ok. rsimpl. rewrite dom_insert_L. set_solver.
    + unfold mbind, M_bind, modify. by apply set_next_ok.
  - destruct H as (-> & q' & Hq' & H). rewrite decide_False by set_solver.
    rewrite (bind_ok _ _ _ _ _ (get_next_ok _ _ _ Hq')).
    rewrite (IH (Some x) q' fuel); try done; [|set_solver| |lia].
    + do 2 f_equal. f_equal. destruct l as [|y l _] using rev_ind; [done|].
      rewrite app_comm_cons, !last_snoc. done.
    + intros ? [= <-]. by eapply elem_of_dom_2.
Qed.

Lemma seg_last m p l x q :
  seg m p (l ++ [x]) q <-> seg m p l (Some x) /\ m !! x = Some q.
Proof. rewrite seg_app. simpl. naive_solver. Qed.

(** Redirecting the end of a segment. *)
Lemma seg_retarget m p l x q q' :
  x ∉ l -> seg m p (l ++ [x]) q -> seg (<[x := q']> m) p (l ++ [x]) q'.
Proof.
  intros Hx [H1 H2]%seg_last. apply seg_last. split.
  - by apply seg_insert_ne.
  - apply lookup_insert_eq.
Qed.

Lemma unlink_spec st l1 x l2 q :
  is_list st (l1 ++ x :: l2) -> ls_next st !! x = Some q ->
  is_list (unlink (last l1) x q st) (l1 ++ l2) /\
  frame (list_to_set (l1 ++ [x])) st (unlink (last l1) x q st) /\
  ls_next (unlink (last l1) x q st) !! x = Some None.
Proof.
  intros H Hq. pose proof (seg_nodup _ _ _ H) as Hn.
  apply NoDup_app in Hn as (Hn1 & Hn12 & Hn2). apply NoDup_cons in Hn2 as [Hn2 _].
  assert (Hdx : x ∈ dom (ls_next st)) by (by eapply elem_of_dom_2).
  apply seg_app in H as (r & H1 & -> & q' & Hq' & H2). simplify_eq.
  destruct l1 as [|y l1 _] using rev_ind; simpl.
  - split_and!.
    + unfold is_list. rsimpl. by apply seg_insert_ne.
    + change (frame (list_to_set [x]) st (st <| ls_next ::= <[x := None]> |>)).
      apply frame_set; set_solver.
    + rsimpl. apply lookup_insert_eq.
  - rewrite last_snoc. simpl.
    assert (Hdy : y ∈ dom (ls_next st)) by (eapply (seg_dom _ _ _ _ y H1); set_solver).
    split_and!.
    + unfold is_list. rsimpl. apply seg_insert_ne; [set_solver|].
      apply seg_app. exists q'. split.
      * eapply seg_retarget; [|exact H1]. apply NoDup_app in Hn1. set_solver.
      * apply seg_insert_ne; [|done]. intros Hy. apply (Hn12 y); set_solver.
    + eapply frame_weaken with (X := ({[y]} ∪ {[x]} : gset loc)); [set_solver|].
      eapply frame_trans; apply frame_set; [done|set_solver| |set_solver].
      rsimpl. rewrite dom_insert_L. set_solver.
    + rsimpl. apply lookup_insert_eq.
Qed.

(** [list_remove] on any item: the item leaves the sequence, its [next] field
    becomes [NULL], and only items of the list are written. *)
Lemma list_remove_ok st l x :
  is_list st l ->
  exists st', list_remove x st = Ok (tt, st') /\ is_list st' (seq_remove x l) /\
    frame (list_to_set l) st st'.
Proof.
  intros H. pose proof (seg_length _ _ _ H) as Hlen. unfold list_remove.
  destruct (ls_head st) as [h|] eqn:Hh.
  2: { exists st. destruct l; [done|]. unfold is_list in H. rewrite Hh in H. by destruct H. }
  destruct (decide (x ∈ l)) as [(l1 & l2 & ->)%list_elem_of_split|Hx].
  - pose proof (seg_nodup _ _ _ H) as Hn.
    apply seg_app in H as Hs. destruct Hs as (r & H1 & -> & q & Hq & _).
    destruct (unlink_spec _ _ _ _ _ H Hq) as (Ha & Hb & _).
    eexists. rewrite <- Hh. split_and!.
    + rewrite (remove_loop_in _ _ _ _ l1 q); try done.
      * apply NoDup_app in Hn. set_solver.
      * rewrite length_app in Hlen. unfold list_fuel. simpl in Hlen. lia.
    + rewrite seq_remove_split by done. by destruct (last l1).
    + eapply frame_weaken; [|by destruct (last l1)]. set_solver.
  - exists st. rewrite <- Hh. split_and!.
    + eapply remove_loop_notin; [done|done|unfold list_fuel; lia].
    + by rewrite seq_remove_notin.
    + done.
Qed.

Lemma elem_of_seq_remove `{EqDecision A} (x y : A) l : y ∈ seq_remove x l <-> y ≠ x /\ y ∈ l.
Proof. unfold seq_remove. by rewrite list_elem_of_filter. Qed.

Lemma is_list_set_next st l x q :
  x ∉ l -> is_list st l -> is_list (st <| ls_next ::= <[x := q]> |>) l.
Proof. apply seg_insert_ne. Qed.

Lemma list_add_ok st l x :
  is_list st l -> x ∈ dom (ls_next st) ->
  exists st', list_add x st = Ok (tt, st') /\ is_list st' (seq_add x l) /\
    frame (list_to_set (x :: l)) st st'.
Proof.
  intros H Hx. destruct (list_remove_ok st l x H) as (st1 & Hr & H1 & Hf1).
  unfold list_add. rewrite (bind_ok _ _ _ _ _ Hr).
  assert (Hx1 : x ∈ dom (ls_next st1)) by (destruct Hf1 as [-> _]; done).
  rewrite (bind_ok _ _ _ _ _ (set_next_ok _ _ None Hx1)).
  set (st2 := st1 <| ls_next ::= <[x := None]> |>).
  assert (H2 : is_list st2 (seq_remove x l)).
  { apply is_list_set_next; [|done]. rewrite elem_of_seq_remove. naive_solver. }
  assert (Hf2 : frame (list_to_set (x :: l)) st st2).
  { eapply frame_weaken; [|eapply frame_trans; [done|apply (frame_set ({[x]} : gset loc)); set_solver]].
    set_solver. }
  assert (Hl2 : ls_next st2 !! x = Some None) by apply lookup_insert_eq.
  rewrite (bind_ok _ _ _ _ _ (list_tail_ok _ _ H2)).
  unfold seq_add. set (l' := seq_remove x l) in *.
  assert (Hxl' : x ∉ l') by (unfold l'; rewrite elem_of_seq_remove; naive_solver).
  assert (Hl' : forall y, y ∈ l' -> y ∈ l) by (intros y [_ ?]%elem_of_seq_remove; done).
  destruct l' as [|y l'' _] using rev_ind.
  - eexists. split; [done|]. split; [|done]. split; [done|]. by exists None.
  - rewrite last_snoc. unfold is_list in H2.
    assert (Hy : y ∈ dom (ls_next st2)) by (eapply seg_dom; [done|set_solver]).
    eexists. split; [by apply set_next_ok|]. split.
    + unfold is_list. rsimpl. apply seg_last. split.
      * eapply seg_retarget; [|done]. pose proof (seg_nodup _ _ _ H2) as Hn.
        apply NoDup_app in Hn. set_solver.
      * rewrite lookup_insert_ne by set_solver. done.
    + eapply frame_weaken; [|eapply frame_trans; [done|apply (frame_set ({[y]} : gset loc)); set_solver]].
      specialize (Hl' y). set_solver.
Qed.

Lemma list_push_ok st l x :
  is_list st l -> x ∈ dom (ls_next st) ->
  exists st', list_push x st = Ok (tt, st') /\ is_list st' (seq_push x l) /\
    frame (list_to_set (x :: l)) st st'.
Proof.
  intros H Hx. destruct (list_remove_ok st l x H) as (st1 & Hr & H1 & Hf1).
  unfold list_push. rewrite (bind_ok _ _ _ _ _ Hr).
  assert (Hx1 : x ∈ dom (ls_next st1)) by (destruct Hf1 as [-> _]; done).
  unfold list_head, gets. unfold mbind at 1, M_bind at 1.
  rewrite (bind_ok _ _ _ _ _ (set_next_ok _ _ (ls_head st1) Hx1)).
  eexists. split; [done|]. split.
  - split; [done|]. exists (ls_head st1). rsimpl. rewrite lookup_insert_eq. split; [done|].
    apply seg_insert_ne; [|done]. rewrite elem_of_seq_remove. naive_solver.
  - eapply frame_weaken;
      [|eapply frame_trans; [done|apply (frame_set ({[x]} : gset loc)); set_solver]]. set_solver.
Qed.

Lemma chop_loop_ok st x l y z fuel :
  seg (ls_next st) (Some x) (l ++ [y; z]) None -> (length l < fuel)%nat ->
  chop_loop fuel x st = Ok (y, st).
Proof.
  revert x fuel. induction l as [|w l IH]; intros x [|fuel] H Hf; simpl in *; try lia.
  - destruct H as ([= ->] & ? & Hy & -> & ? & Hz & ->).
    rewrite (bind_ok _ _ _ _ _ (get_next_ok _ _ _ Hy)). simpl.
    unfold mbind at 1, M_bind at 1. by rewrite (bind_ok _ _ _ _ _ (get_next_ok _ _ _ Hz)).
  - destruct H as ([= ->] & r & Hr & H).
    rewrite (bind_ok _ _ _ _ _ (get_next_ok _ _ _ Hr)).
    assert (exists v q, r = Some v /\ ls_next st !! v = Some (Some q)) as (v & q & -> & Hq).
    { destruct l as [|v l]; destruct H as (-> & q & Hq & H').
      - destruct H' as (-> & _). eauto.
      - destruct l; destruct H' as (-> & _); eauto. }
    unfold mbind at 1, M_bind at 1. simpl.
    rewrite (bind_ok _ _ _ _ _ (get_next_ok _ _ _ Hq)). apply IH; [done|lia].
Qed.

Lemma list_chop_ok st l :
  is_list st l ->
  exists st', list_chop st = Ok (last l, st') /\ is_list st' (removelast l) /\
    frame (list_to_set l) st st'.
Proof.
  intros H. pose proof (seg_length _ _ _ H) as Hlen. unfold list_chop.
  pose proof (seg_nodup _ _ _ H) as Hn.
  destruct l as [|z l _] using rev_ind.
  { exists st. unfold is_list in H. simpl in H. by rewrite H. }
  rewrite last_snoc, removelast_app, app_nil_r by done. unfold is_list in H.
  destruct l as [|y l _] using rev_ind.
  - destruct H as (-> & r & Hr & ->).
    rewrite (bind_ok _ _ _ _ _ (get_next_ok _ _ _ Hr)). eexists. by split_and!.
  - apply NoDup_app in Hn as (Hn & Hz & _). apply NoDup_app in Hn as (_ & Hy & _).
    rewrite <- app_assoc in H. simpl in H.
    assert (exists h q, ls_head st = Some h /\ ls_next st !! h = Some (Some q))
      as (h & q & Hh & Hq).
    { destruct l as [|v l]; destruct H as (-> & q & Hq & H').
      - destruct H' as (-> & _). eauto.
      - destruct l; destruct H' as (-> & _); eauto. }
    rewrite Hh. rewrite (bind_ok _ _ _ _ _ (get_next_ok _ _ _ Hq)).
    rewrite Hh in H. rewrite (bind_ok _ _ _ y st).
    2: { eapply chop_loop_ok; [done|]. rewrite !length_app in Hlen. simpl in Hlen.
         unfold list_fuel. lia. }
    apply seg_app in H as (r & H1 & -> & ? & Hy' & -> & ? & Hz' & ->).
    rewrite (bind_ok _ _ _ _ _ (get_next_ok _ _ _ Hy')).
    assert (Hyd : y ∈ dom (ls_next st)) by (by eapply elem_of_dom_2).
    rewrite (bind_ok _ _ _ _ _ (set_next_ok _ _ None Hyd)).
    eexists. split; [done|]. split.
    + unfold is_list. rsimpl. rewrite Hh. apply seg_last. split.
      * apply seg_insert_ne; [set_solver|done].
      * apply lookup_insert_eq.
    + apply frame_set; [done|]. set_solver.
Qed.

Lemma list_pop_ok st l :
  is_list st l ->
  exists st', list_pop st = Ok (head l, st') /\ is_list st' (tail l) /\ frame ∅ st st'.
Proof.
  intros H. unfold list_pop, is_list in *. destruct l as [|x l].
  - exists st. simpl in H. rewrite H. by split_and!.
  - destruct H as (-> & r & Hr & H).
    rewrite (bind_ok _ _ _ _ _ (get_next_ok _ _ _ Hr)). eexists. by split_and!.
Qed.

Lemma length_loop_ok st p l fuel n :
  seg (ls_next st) p l None -> (length l < fuel)%nat ->
  length_loop fuel p n st = Ok (n + Z.of_nat (length l), st).
Proof.
  revert p fuel n. induction l as [|x l IH]; intros p [|fuel] n H Hf; simpl in *; try lia.
  - subst. by rewrite Z.add_0_r.
  - destruct H as (-> & r & Hr & H).
    rewrite (bind_ok _ _ _ _ _ (get_next_ok _ _ _ Hr)).
    rewrite IH by (done || lia). do 2 f_equal. lia.
Qed.

Lemma list_length_ok st l :
  is_list st l -> list_length st = Ok (Z.of_nat (length l), st).
Proof.
  intros H. apply (length_loop_ok _ _ _ _ 0 H).
  pose proof (seg_length _ _ _ H). unfold list_fuel. lia.
Qed.

Lemma seq_insert_split `{EqDecision A} (p x : A) l1 l2 :
  p ∉ l1 -> seq_insert p x (l1 ++ p :: l2) = l1 ++ p :: x :: l2.
Proof.
  induction l1 as [|y l1 IH]; intros Hp; simpl.
  - by rewrite decide_True.
  - rewrite decide_False by set_solver. f_equal. apply IH. set_solver.
Qed.

Lemma list_insert_ok st l p x :
  is_list st l -> p ∈ l -> x ∉ l -> x ∈ dom (ls_next st) ->
  exists st', list_insert (Some p) x st = Ok (tt, st') /\
    is_list st' (seq_insert p x l) /\ frame {[p; x]} st st'.
Proof.
  intros H (l1 & l2 & ->)%list_elem_of_split Hx Hxd.
  pose proof (seg_nodup _ _ _ H) as Hn. apply NoDup_app in Hn as (Hn1 & Hn2 & Hn3).
  apply NoDup_cons in Hn3 as [Hn3 _].
  assert (Hp1 : p ∉ l1) by (intros Hp; apply (Hn2 _ Hp); by left).
  apply seg_app in H as (r & H1 & -> & q & Hq & H2).
  unfold list_insert. rewrite (bind_ok _ _ _ _ _ (get_next_ok _ _ _ Hq)).
  rewrite (bind_ok _ _ _ _ _ (set_next_ok _ _ q Hxd)).
  assert (Hpd : p ∈ dom (ls_next (st <| ls_next ::= <[x := q]> |>))).
  { rsimpl. rewrite dom_insert_L. apply elem_of_union_r. by eapply elem_of_dom_2. }
  eexists. split; [by apply set_next_ok|]. split.
  - unfold is_list. rsimpl. rewrite seq_insert_split by done.
    apply seg_app. exists (Some p). split.
    + apply seg_insert_ne; [done|]. apply seg_insert_ne; [set_solver|done].
    + split; [done|]. exists (Some x). rewrite lookup_insert_eq. split; [done|].
      split; [done|]. exists q. rewrite lookup_insert_ne, lookup_insert_eq by set_solver.
      split; [done|]. apply seg_insert_ne; [done|]. apply seg_insert_ne; [set_solver|done].
  - apply (frame_weaken ({[p; x]} ∪ {[p; x]})); [set_solver|].
    eapply frame_trans; apply frame_set; done || set_solver.
Qed.

(** ** Refinement

    A program that uses a list only through the functions of list.h cannot tell
    the store from the sequence of items. *)

Inductive list_call :=
  | CInit
  | CHead
  | CTail
  | CAdd (item : loc)
  | CPush (item : loc)
  | CRemove (item : loc)
  | CChop
  | CPop
  | CLength
  | CInsert (previtem : ptr) (newitem : loc).

Inductive value := VUnit | VPtr (p : ptr) | VInt (n : Z).

Definition exec (c : list_call) : M list_store value :=
  match c with
  | CInit => list_init ;; mret VUnit
  | CHead => VPtr <$$> list_head
  | CTail => VPtr <$$> list_tail
  | CAdd x => list_add x ;; mret VUnit
  | CPush x => list_push x ;; mret VUnit
  | CRemove x => list_remove x ;; mret VUnit
  | CChop => VPtr <$$> list_chop
  | CPop => VPtr <$$> list_pop
  | CLength => VInt <$$> list_length
  | CInsert p x => list_insert p x ;; mret VUnit
  end.

Definition spec (c : list_call) (l : list loc) : value * list loc :=
  match c with
  | CInit => (VUnit, [])
  | CHead => (VPtr (head l), l)
  | CTail => (VPtr (last l), l)
  | CAdd x => (VUnit, seq_add x l)
  | CPush x => (VUnit, seq_push x l)
  | CRemove x => (VUnit, seq_remove x l)
  | CChop => (VPtr (last l), removelast l)
  | CPop => (VPtr (head l), tail l)
  | CLength => (VInt (Z.of_nat (length l)), l)
  | CInsert None x => (VUnit, seq_push x l)
  | CInsert (Some p) x => (VUnit, seq_insert p x l)
  end.

(** What the callers must ensure: items are existing structures; the item
    inserted after another one is not on the list yet and the other one is
    ([list_insert] checks neither). *)
Definition valid (D : gset loc) (c : list_call) (l : list loc) : Prop :=
  match c with
  | CAdd x | CPush x | CInsert None x => x ∈ D
  | CInsert (Some p) x => x ∈ D /\ p ∈ l /\ x ∉ l
  | _ => True
  end.

Definition call_items (c : list_call) : gset loc :=
  match c with
  | CAdd x | CPush x | CInsert _ x => {[x]}
  | _ => ∅
  end.

Fixpoint exec_all (cs : list list_call) : M list_store (list value) :=
  match cs with
  | [] => mret []
  | c :: cs' => v ← exec c; vs ← exec_all cs'; mret (v :: vs)
  end.

Fixpoint spec_all (cs : list list_call) (l : list loc) : list value * list loc :=
  match cs with
  | [] => ([], l)
  | c :: cs' =>
      let '(v, l1) := spec c l in
      let '(vs, l2) := spec_all cs' l1 in (v :: vs, l2)
  end.

Fixpoint valid_all (D : gset loc) (cs : list list_call) (l : list loc) : Prop :=
  match cs with
  | [] => True
  | c :: cs' => valid D c l /\ valid_all D cs' (spec c l).2
  end.

Definition calls_items (cs : list list_call) : gset loc := ⋃ (call_items <$> cs).

Lemma map_ok {S A B} (f : A -> B) (m : M S A) s a s' :
  m s = Ok (a, s') -> (f <$$> m) s = Ok (f a, s').
Proof. unfold res_map. by intros ->. Qed.

Lemma head_is_list st l : is_list st l -> ls_head st = head l.
Proof. unfold is_list. destruct l; simpl; [done|]. by intros [-> _]. Qed.

Lemma seq_spec_items c l x :
  x ∈ (spec c l).2 -> x ∈ l \/ x ∈ call_items c.
Proof.
  destruct c as [| | |y|y|y| | | |[p|] y]; simpl; unfold seq_add, seq_push; try tauto;
    rewrite ?elem_of_app, ?elem_of_cons, ?elem_of_seq_remove; try set_solver.
  - induction l as [|z l IH] using rev_ind; [set_solver|].
    rewrite removelast_app, app_nil_r by done. set_solver.
  - destruct l; set_solver.
  - induction l as [|z l IH]; simpl; [set_solver|]. case_decide; set_solver.
Qed.

Lemma exec_refines st l c :
  is_list st l -> valid (dom (ls_next st)) c l ->
  exists st', exec c st = Ok ((spec c l).1, st') /\ is_list st' (spec c l).2 /\
    frame (list_to_set l ∪ call_items c) st st'.
Proof.
  intros H Hv. pose proof (head_is_list _ _ H) as Hh.
  assert (Hret : forall (m : M list_store unit) l' X,
    (exists st', m st = Ok (tt, st') /\ is_list st' l' /\ frame X st st') ->
    X ⊆ list_to_set l ∪ call_items c ->
    exists st', (m ;; mret VUnit) st = Ok (VUnit, st') /\ is_list st' l' /\
      frame (list_to_set l ∪ call_items c) st st').
  { intros m l' X (st' & Hm & Hl & Hf) HX. exists st'. rewrite (bind_ok _ _ _ _ _ Hm).
    split_and!; [done|done|by eapply frame_weaken]. }
  assert (Hptr : forall (m : M list_store ptr) v l' X,
    (exists st', m st = Ok (v, st') /\ is_list st' l' /\ frame X st st') ->
    X ⊆ list_to_set l ∪ call_items c ->
    exists st', (VPtr <$$> m) st = Ok (VPtr v, st') /\ is_list st' l' /\
      frame (list_to_set l ∪ call_items c) st st').
  { intros m v l' X (st' & Hm & Hl & Hf) HX. exists st'. rewrite (map_ok _ _ _ _ _ Hm).
    split_and!; [done|done|by eapply frame_weaken]. }
  destruct c as [| | |x|x|x| | | |[p|] x]; simpl in *.
  - eexists. split; [done|]. done.
  - eexists. split; [by rewrite <- Hh|]. done.
  - eapply Hptr; [exists st; by split_and!; [by apply list_tail_ok|..]|]. set_solver.
  - eapply Hret; [by apply list_add_ok|]. set_solver.
  - eapply Hret; [by apply list_push_ok|]. set_solver.
  - eapply Hret; [by apply list_remove_ok|]. set_solver.
  - eapply Hptr; [by apply list_chop_ok|]. set_solver.
  - eapply Hptr; [by apply list_pop_ok|]. set_solver.
  - exists st. by rewrite (map_ok _ _ _ _ _ (list_length_ok _ _ H)).
  - destruct Hv as (Hx & Hp & Hxl).
    eapply Hret; [by apply list_insert_ok|]. set_solver.
  - eapply Hret; [by apply list_push_ok|]. set_solver.
Qed.


(** A store of four unlinked structures and an empty list. *)
Definition store4 : list_store :=
  mk_list_store None (list_to_map [(1%positive, None); (2%positive, None);
                                   (3%positive, None); (4%positive, None)]).


(** [list_insert], unlike [list_add] and [list_push], does not remove the new
    item first: inserting an item after itself closes a cycle, and the next
    [list_length] never returns. *)
Theorem list_insert_self_hangs st l1 x l2 :
  is_list st (l1 ++ x :: l2) ->
  exists st', list_insert (Some x) x st = Ok (tt, st') /\
    forall fuel, length_loop fuel (ls_head st') 0 st' = Err FHang.
Proof.
  intros H. pose proof (seg_nodup _ _ _ H) as Hn.
  apply NoDup_app in Hn as (_ & Hx & _).
  apply seg_app in H as (r & H1 & -> & q & Hq & _).
  assert (Hd : x ∈ dom (ls_next st)) by (by eapply elem_of_dom_2).
  assert (Hd' : x ∈ dom (<[x := q]> (ls_next st))) by (rewrite dom_insert_L; set_solver).
  unfold list_insert. rewrite (bind_ok _ _ _ _ _ (get_next_ok _ _ _ Hq)).
  rewrite (bind_ok _ _ _ _ _ (set_next_ok _ _ q Hd)).
  eexists. split; [by apply set_next_ok|]. rsimpl.
  set (st' := st <| ls_next ::= <[x := q]> |> <| ls_next ::= <[x := Some x]> |>).
  assert (Hs : seg (ls_next st') (ls_head st) l1 (Some x)).
  { unfold st'. rsimpl. apply seg_insert_ne; [|apply seg_insert_ne; [|done]];
      intros Hi; apply (Hx _ Hi); by left. }
  assert (Hself : ls_next st' !! x = Some (Some x)) by apply lookup_insert_eq.
  assert (Hcyc : forall fuel n, length_loop fuel (Some x) n st' = Err FHang).
  { induction fuel as [|k IH]; intros n; [done|]. simpl.
    rewrite (bind_ok _ _ _ _ _ (get_next_ok _ _ _ Hself)). apply IH. }
  intros fuel. generalize 0. revert fuel Hs. generalize (ls_head st).
  clearbody st'. clear - Hcyc.
  induction l1 as [|y l1 IH]; intros p fuel Hs n; simpl in Hs.
  - subst. apply Hcyc.
  - destruct Hs as (-> & r & Hr & Hs). destruct fuel as [|k]; [done|]. simpl.
    rewrite (bind_ok _ _ _ _ _ (get_next_ok _ _ _ Hr)). by apply IH.
Qed.

Lemma list_insert_self_hangs_witness :
  let st := mk_list_store (Some 1%positive) {[ 1%positive := None ]} in
  exists st', list_insert (Some 1%positive) 1%positive st = Ok (tt, st') /\
    forall fuel, length_loop fuel (ls_head st') 0 st' = Err FHang.
Proof.
  intros st. apply (list_insert_self_hangs st [] 1%positive []).
  split; [reflexivity|]. exists None. split; reflexivity.
Defined.
