(* ===== verification/Memb.v ===== *)
(** * Memb: the fixed-size block allocator of core/lib/memb.c

    A [struct memb] owns an array of [num] blocks of [size] bytes and one
    reference count per block.  [memb_*] are the C functions, over addresses;
    [pool_*] is the same allocator seen by a client whose blocks hold a C
    structure, a block being named by its index.  The refinement theorem says
    that the allocator keeps the set of the blocks in use. *)
From stdpp Require Import numbers option gmap fin_sets list.
From S2P Require Import Prelude.

Record memb := mk_memb {
  mb_size : Z;          (* bytes of one block *)
  mb_num : Z;           (* number of blocks *)
  mb_count : list Z;    (* reference count of each block *)
  mb_mem : Z;           (* address of the first block *)
  mb_bytes : list Z;    (* the bytes of the blocks *)
}.
#[export] Instance eta_memb : Eta memb :=
  fun x => mk_memb (mb_size x) (mb_num x) (mb_count x) (mb_mem x) (mb_bytes x).

(** [memset(p, 0, n)] on the array [l]. *)
Definition memset0 (n : nat) (l : list Z) : list Z := replicate n 0 ++ drop n l.

Definition memb_init (m : memb) : memb :=
  m <| mb_count ::= memset0 (Z.to_nat (mb_num m)) |>
    <| mb_bytes ::= memset0 (Z.to_nat (u16 (mb_size m * mb_num m))) |>.

(** [for(i = 0; i < m->num; ++i) if(m->count[i] == 0) ...]: the index of the
    first block in no use, if any. *)
Fixpoint find_free (count : list Z) : option nat :=
  match count with
  | [] => None
  | c :: count' => if c =? 0 then Some O else S <$> find_free count'
  end.

(** The address of block [i]: [m->mem] plus [i * m->size] bytes. *)
Definition block_addr (m : memb) (i : nat) : Z := mb_mem m + Z.of_nat i * mb_size m.

Definition memb_alloc (m : memb) : option Z * memb :=
  match find_free (take (Z.to_nat (mb_num m)) (mb_count m)) with
  | Some i => (Some (block_addr m i), m <| mb_count ::= alter (fun c => c + 1) i |>)
  | None => (None, m)
  end.

(** [for(i = 0; i < m->num; ++i) { if(ptr2 == ptr) ...; ptr2 += m->size; }] *)
Fixpoint find_block (ptr ptr2 size : Z) (num : nat) : option nat :=
  match num with
  | O => None
  | S n => if ptr2 =? ptr then Some O else S <$> find_block ptr (ptr2 + size) size n
  end.

Definition memb_free (m : memb) (ptr : Z) : Z * memb :=
  match find_block ptr (mb_mem m) (mb_size m) (Z.to_nat (mb_num m)) with
  | Some i =>
      let c := mb_count m !!! i in
      let c' := if 0 <? c then c - 1 else c in
      (c', m <| mb_count ::= <[i := c']> |>)
  | None => (-1, m)
  end.

Definition memb_inmemb (m : memb) (ptr : Z) : bool :=
  (mb_mem m <=? ptr) && (ptr <? mb_mem m + mb_num m * mb_size m).

Definition memb_numfree (m : memb) : Z :=
  Z.of_nat (length (filter (fun c => c = 0) (take (Z.to_nat (mb_num m)) (mb_count m)))).

(** What the [MEMB] macro declares: [num] counts and [size * num] bytes, within
    the 64 KB of the address space. *)
Record memb_wf (m : memb) : Prop := {
  wf_size : 0 < mb_size m;
  wf_num : 0 <= mb_num m;
  wf_mem : 0 < mb_mem m;
  wf_fits : mb_size m * mb_num m < 65536;
  wf_count : length (mb_count m) = Z.to_nat (mb_num m);
  wf_bytes : length (mb_bytes m) = Z.to_nat (mb_size m * mb_num m);
  wf_01 : Forall (fun c => c = 0 \/ c = 1) (mb_count m);
}.

(** [MEMB(name, structure, num)]: zero-initialised statics. *)
Definition MEMB (size num mem : Z) : memb :=
  mk_memb size num (replicate (Z.to_nat num) 0) mem
    (replicate (Z.to_nat (size * num)) 0).

(** ** Lemmas on the search loops *)

Lemma find_free_Some l i :
  find_free l = Some i <->
  l !! i = Some 0 /\ forall j c, (j < i)%nat -> l !! j = Some c -> c <> 0.
Proof.
  revert i. induction l as [|c l IH]; intros i; simpl; [naive_solver|].
  destruct (Z.eqb_spec c 0) as [->|Hc].
  - split; [intros [= <-]; split; [done|lia]|]. intros [H1 H2].
    destruct i as [|i]; [done|]. by destruct (H2 O 0 ltac:(lia)).
  - rewrite fmap_Some. setoid_rewrite IH. split.
    + intros (k & [H1 H2] & ->). split; [done|]. intros [|j] d Hj; simpl; [naive_solver|].
      apply H2. lia.
    + intros [H1 H2]. destruct i as [|i]; [by simplify_eq/=|]. exists i. split_and!; [done| |done].
      intros j d Hj Hl. apply (H2 (S j) d); [lia|done].
Qed.

Lemma find_free_None l : find_free l = None <-> Forall (.≠ 0) l.
Proof.
  induction l as [|c l IH]; simpl; [naive_solver|]. rewrite Forall_cons.
  destruct (Z.eqb_spec c 0); [naive_solver|]. rewrite fmap_None, IH. naive_solver.
Qed.

Lemma find_block_addr size num i p :
  0 < size -> (i < num)%nat -> find_block (p + Z.of_nat i * size) p size num = Some i.
Proof.
  intros Hs. revert p i. induction num as [|n IH]; intros p i Hi; [lia|]. simpl.
  destruct i as [|i].
  - by rewrite Z.add_0_r, Z.eqb_refl.
  - rewrite (proj2 (Z.eqb_neq _ _)) by nia.
    replace (p + Z.of_nat (S i) * size) with (p + size + Z.of_nat i * size) by lia.
    by rewrite IH by lia.
Qed.

Lemma find_block_Some ptr p size num i :
  find_block ptr p size num = Some i -> (i < num)%nat /\ ptr = p + Z.of_nat i * size.
Proof.
  revert p i. induction num as [|n IH]; intros p i; simpl; [done|].
  destruct (Z.eqb_spec p ptr) as [->|]; [intros [= <-]; lia|].
  rewrite fmap_Some. intros (k & Hk%IH & ->). lia.
Qed.

Lemma memset0_full n l : length l = n -> memset0 n l = replicate n 0.
Proof. intros <-. unfold memset0. by rewrite drop_all, app_nil_r. Qed.

Lemma take_count m :
  memb_wf m -> take (Z.to_nat (mb_num m)) (mb_count m) = mb_count m.
Proof. intros H. rewrite <- (wf_count _ H). apply firstn_all. Qed.

(** ** The set of blocks in use *)

(** Indices of the blocks whose count is not 0. *)
Definition in_use (m : memb) : gset nat :=
  list_to_set (filter (fun i => mb_count m !! i <> Some 0) (seq 0 (length (mb_count m)))).

Lemma elem_of_in_use m i :
  i ∈ in_use m <-> exists c, mb_count m !! i = Some c /\ c <> 0.
Proof.
  unfold in_use. rewrite elem_of_list_to_set, list_elem_of_filter, elem_of_seq. split.
  - intros [H1 H2]. destruct (lookup_lt_is_Some_2 (mb_count m) i) as [c Hc]; [lia|].
    exists c. split; [done|]. congruence.
  - intros (c & Hc & Hn). apply lookup_lt_Some in Hc as Hl. split; [congruence|lia].
Qed.

Lemma in_use_lt m i : memb_wf m -> i ∈ in_use m -> (i < Z.to_nat (mb_num m))%nat.
Proof.
  intros H (c & Hc & _)%elem_of_in_use. rewrite <- (wf_count _ H).
  by eapply lookup_lt_Some.
Qed.

(** The count array after one write, as a set. *)
Lemma in_use_write m i c :
  (i < length (mb_count m))%nat ->
  in_use (m <| mb_count ::= <[i := c]> |>) =
    if decide (c = 0) then in_use m ∖ {[i]} else {[i]} ∪ in_use m.
Proof.
  intros Hi. apply set_eq. intros j. rewrite elem_of_in_use. rsimpl.
  rewrite list_lookup_insert. case_decide as Hij.
  - destruct Hij as [-> _]. case_decide; set_solver.
  - assert (Hne : i <> j) by (intros ->; auto).
    case_decide; rewrite ?elem_of_difference, ?elem_of_union, elem_of_in_use; set_solver.
Qed.

Lemma memb_wf_write m i c :
  memb_wf m -> c = 0 \/ c = 1 -> memb_wf (m <| mb_count ::= <[i := c]> |>).
Proof.
  intros [] Hc. split; rsimpl; rewrite ?length_insert; try done.
  by apply Forall_insert.
Qed.

Lemma memb_alloc_eq m :
  memb_wf m ->
  memb_alloc m = match find_free (mb_count m) with
                 | Some i => (Some (block_addr m i), m <| mb_count ::= <[i := 1]> |>)
                 | None => (None, m)
                 end.
Proof.
  intros H. unfold memb_alloc. rewrite take_count by done.
  destruct (find_free (mb_count m)) as [i|] eqn:Hf; [|done].
  apply find_free_Some in Hf as [Hi _].
  assert (Heq : alter (fun c => c + 1) i (mb_count m) = <[i := 1]> (mb_count m)).
  { apply list_eq. intros j. destruct (decide (i = j)) as [<-|Hne].
    - by rewrite list_lookup_alter_eq, list_lookup_insert_eq, Hi by (by eapply lookup_lt_Some).
    - by rewrite list_lookup_alter_ne, list_lookup_insert_ne. }
  unfold update. by rewrite Heq.
Qed.

Lemma memb_free_block m i :
  memb_wf m -> (i < Z.to_nat (mb_num m))%nat ->
  memb_free m (block_addr m i) = (0, m <| mb_count ::= <[i := 0]> |>).
Proof.
  intros H Hi. unfold memb_free, block_addr.
  rewrite find_block_addr by (done || apply H).
  assert (Hc : mb_count m !!! i = 0 \/ mb_count m !!! i = 1).
  { destruct (lookup_lt_is_Some_2 (mb_count m) i) as [c Hc]; [by rewrite (wf_count _ H)|].
    rewrite (list_lookup_total_correct _ _ _ Hc).
    by apply (proj1 (Forall_lookup _ _) (wf_01 _ H) i). }
  by destruct Hc as [-> | ->].
Qed.

Lemma memb_free_other m ptr :
  (forall i, (i < Z.to_nat (mb_num m))%nat -> ptr <> block_addr m i) ->
  memb_free m ptr = (-1, m).
Proof.
  intros Hp. unfold memb_free. destruct find_block as [i|] eqn:Hf; [|done].
  apply find_block_Some in Hf as [Hi ->]. by destruct (Hp i Hi).
Qed.

Lemma memb_init_wf m : memb_wf m -> memb_wf (memb_init m) /\ in_use (memb_init m) = ∅.
Proof.
  intros H. pose proof (wf_size _ H). pose proof (wf_num _ H). pose proof (wf_fits _ H).
  assert (Hc : mb_count (memb_init m) = replicate (Z.to_nat (mb_num m)) 0).
  { unfold memb_init. rsimpl. apply memset0_full, (wf_count _ H). }
  split.
  - split; try (apply H); rewrite ?Hc.
    + apply length_replicate.
    + unfold memb_init. rsimpl. unfold uwrap. rewrite Z.mod_small by nia.
      rewrite memset0_full by apply (wf_bytes _ H). apply length_replicate.
    + apply Forall_replicate. by left.
  - apply set_eq. intros i. rewrite elem_of_in_use, Hc. split; [|set_solver].
    intros (c & [-> _]%lookup_replicate & Hn). done.
Qed.

Lemma memb_numfree_eq m :
  memb_wf m -> memb_numfree m = mb_num m - Z.of_nat (size (in_use m)).
Proof.
  intros H. unfold memb_numfree, in_use. rewrite take_count by done.
  rewrite size_list_to_set by (apply NoDup_filter, NoDup_seq).
  pose proof (wf_count _ H) as Hl. pose proof (wf_num _ H).
  replace (mb_num m) with (Z.of_nat (length (mb_count m))) by lia. clear.
  induction (mb_count m) as [|c l IH] using rev_ind; [done|].
  rewrite length_app, filter_app, length_app, seq_app, filter_app, length_app.
  assert (Hext : filter (fun i => (l ++ [c]) !! i <> Some 0) (seq 0 (length l)) =
                 filter (fun i => l !! i <> Some 0) (seq 0 (length l))).
  { assert (Hs : forall i, i ∈ seq 0 (length l) -> (i < length l)%nat)
      by (intros i Hi%elem_of_seq; lia).
    revert Hs. generalize (seq 0 (length l)) as s. intros s Hs.
    induction s as [|i s IHs]; [done|].
    rewrite !filter_cons, IHs by (intros j Hj; apply Hs; by right).
    rewrite lookup_app_l by (apply Hs; by left). done. }
  rewrite Hext. simpl. destruct (decide (c = 0)) as [->|Hc].
  - rewrite filter_cons_True, filter_cons_False by (rewrite ?lookup_app_r, ?Nat.sub_diag by lia; naive_solver).
    simpl. lia.
  - rewrite filter_cons_False, filter_cons_True
      by (rewrite ?lookup_app_r, ?Nat.sub_diag by lia; simpl; congruence).
    simpl. lia.
Qed.

(** ** The allocator as a set of blocks *)

Inductive memb_call :=
  | MInit
  | MAlloc
  | MFree (ptr : Z)
  | MInmemb (ptr : Z)
  | MNumfree.

Inductive memb_value := MVoid | MPtr (p : option Z) | MInt (n : Z) | MBool (b : bool).

Definition memb_exec (c : memb_call) (m : memb) : memb_value * memb :=
  match c with
  | MInit => (MVoid, memb_init m)
  | MAlloc => let '(p, m') := memb_alloc m in (MPtr p, m')
  | MFree ptr => let '(n, m') := memb_free m ptr in (MInt n, m')
  | MInmemb ptr => (MBool (memb_inmemb m ptr), m)
  | MNumfree => (MInt (memb_numfree m), m)
  end.

(** The contract of memb.h: [addr i] is the address of block [i] of [num], and
    [s] the set of blocks handed out and not returned. *)
Inductive memb_step (num : nat) (addr : nat -> Z) (inside : Z -> bool) (s : gset nat) :
    memb_call -> memb_value -> gset nat -> Prop :=
  | step_init : memb_step num addr inside s MInit MVoid ∅
  | step_alloc i :
      (i < num)%nat -> i ∉ s ->
      memb_step num addr inside s MAlloc (MPtr (Some (addr i))) ({[i]} ∪ s)
  | step_alloc_full :
      (forall i, (i < num)%nat -> i ∈ s) ->
      memb_step num addr inside s MAlloc (MPtr None) s
  | step_free i :
      (i < num)%nat ->
      memb_step num addr inside s (MFree (addr i)) (MInt 0) (s ∖ {[i]})
  | step_free_other ptr :
      (forall i, (i < num)%nat -> ptr <> addr i) ->
      memb_step num addr inside s (MFree ptr) (MInt (-1)) s
  | step_inmemb ptr : memb_step num addr inside s (MInmemb ptr) (MBool (inside ptr)) s
  | step_numfree :
      memb_step num addr inside s MNumfree
        (MInt (Z.of_nat num - Z.of_nat (size s))) s.

(** The parts of a [struct memb] that no call changes. *)
Definition same_memb (m m' : memb) : Prop :=
  mb_size m' = mb_size m /\ mb_num m' = mb_num m /\ mb_mem m' = mb_mem m.

Lemma memb_exec_step m c :
  memb_wf m ->
  let '(v, m') := memb_exec c m in
  memb_wf m' /\ same_memb m m' /\
  memb_step (Z.to_nat (mb_num m)) (block_addr m) (memb_inmemb m) (in_use m) c v (in_use m').
Proof.
  intros H. destruct c as [| |ptr|ptr|]; simpl.
  - destruct (memb_init_wf m H) as [Hw ->]. split_and!; [done|done|constructor].
  - rewrite memb_alloc_eq by done. destruct (find_free (mb_count m)) as [i|] eqn:Hf.
    + apply find_free_Some in Hf as [Hi _]. apply lookup_lt_Some in Hi as Hl.
      split_and!; [apply memb_wf_write; [done|by right]|done|].
      rewrite in_use_write, decide_False by done. constructor.
      * by rewrite <- (wf_count _ H).
      * rewrite elem_of_in_use. naive_solver.
    + apply find_free_None in Hf. split_and!; [done|done|]. constructor.
      intros i Hi. rewrite <- (wf_count _ H) in Hi.
      apply lookup_lt_is_Some_2 in Hi as [c Hc]. apply elem_of_in_use. exists c.
      split; [done|]. by eapply (proj1 (Forall_lookup _ _) Hf).
  - destruct (find_block ptr (mb_mem m) (mb_size m) (Z.to_nat (mb_num m))) as [i|] eqn:Hf.
    + apply find_block_Some in Hf as [Hi ->]. fold (block_addr m i).
      rewrite memb_free_block by done.
      split_and!; [apply memb_wf_write; [done|by left]|done|].
      rewrite in_use_write by (by rewrite (wf_count _ H)). rewrite decide_True by done.
      by constructor.
    + assert (Hp : forall i, (i < Z.to_nat (mb_num m))%nat -> ptr <> block_addr m i).
      { intros i Hi ->. unfold block_addr in Hf.
        by rewrite find_block_addr in Hf by (done || apply H). }
      rewrite memb_free_other by done. split_and!; [done|done|by constructor].
  - split_and!; [done|done|constructor].
  - split_and!; [done|done|]. rewrite memb_numfree_eq by done.
    replace (mb_num m) with (Z.of_nat (Z.to_nat (mb_num m))) at 2
      by (pose proof (wf_num _ H); lia). constructor.
Qed.

Fixpoint memb_exec_all (cs : list memb_call) (m : memb) : list memb_value * memb :=
  match cs with
  | [] => ([], m)
  | c :: cs' =>
      let '(v, m1) := memb_exec c m in
      let '(vs, m2) := memb_exec_all cs' m1 in (v :: vs, m2)
  end.

(** Runs of the contract. *)
Inductive memb_steps (num : nat) (addr : nat -> Z) (inside : Z -> bool) :
    gset nat -> list memb_call -> list memb_value -> gset nat -> Prop :=
  | steps_nil s : memb_steps num addr inside s [] [] s
  | steps_cons s1 s2 s3 c cs v vs :
      memb_step num addr inside s1 c v s2 -> memb_steps num addr inside s2 cs vs s3 ->
      memb_steps num addr inside s1 (c :: cs) (v :: vs) s3.


Lemma MEMB_wf size num mem :
  0 < size -> 0 <= num -> 0 < mem -> size * num < 65536 ->
  memb_wf (MEMB size num mem) /\ in_use (MEMB size num mem) = ∅.
Proof.
  intros. split.
  - split; simpl; rewrite ?length_replicate; try done. apply Forall_replicate. by left.
  - apply set_eq. intros i. rewrite elem_of_in_use. simpl. split; [|set_solver].
    intros (c & [-> _]%lookup_replicate & Hn). done.
Qed.


(** ** Typed pools

    The clients declare their blocks as arrays of one structure and only see
    block pointers; a block is named by its index, its contents are a value of
    the structure's type. *)

Record pool (A : Type) := mk_pool {
  pl_count : list Z;    (* reference counts *)
  pl_blocks : list A;   (* contents of the blocks *)
}.
Arguments mk_pool {A} _ _.
Arguments pl_count {A} _.
Arguments pl_blocks {A} _.
#[export] Instance eta_pool A : Eta (pool A) := fun x => mk_pool (pl_count x) (pl_blocks x).

Section pool.
Context {A : Type}.
Implicit Types p : pool A.

(** [zero] is the structure all of whose bytes are 0. *)
Definition pool_new (zero : A) (n : nat) : pool A :=
  mk_pool (replicate n 0) (replicate n zero).
Definition pool_init (zero : A) p : pool A :=
  mk_pool (replicate (length (pl_count p)) 0) (replicate (length (pl_blocks p)) zero).
Definition pool_alloc p : option nat * pool A :=
  match find_free (pl_count p) with
  | Some i => (Some i, p <| pl_count ::= alter (fun c => c + 1) i |>)
  | None => (None, p)
  end.
Definition pool_free (i : nat) p : pool A :=
  p <| pl_count ::= alter (fun c => if 0 <? c then c - 1 else c) i |>.

Definition pool_wf p : Prop := length (pl_count p) = length (pl_blocks p).

(** The blocks handed out. *)
Definition pool_used p (i : nat) : Prop := exists c, pl_count p !! i = Some c /\ c <> 0.

(** A pool tracks the [struct memb] with the same reference counts. *)
Lemma pool_alloc_memb p m :
  memb_wf m -> pl_count p = mb_count m ->
  fst (memb_alloc m) = block_addr m <$> fst (pool_alloc p) /\
  mb_count (snd (memb_alloc m)) = pl_count (snd (pool_alloc p)).
Proof.
  intros H Hc. unfold memb_alloc, pool_alloc. rewrite take_count, Hc by done.
  destruct (find_free (mb_count m)); simpl; [|done]. split; [done|].
  rsimpl. by rewrite Hc.
Qed.

Lemma pool_free_memb p m i :
  memb_wf m -> pl_count p = mb_count m -> (i < Z.to_nat (mb_num m))%nat ->
  mb_count (snd (memb_free m (block_addr m i))) = pl_count (pool_free i p).
Proof.
  intros H Hc Hi. unfold memb_free, block_addr, pool_free.
  rewrite find_block_addr by (done || apply H). simpl. rsimpl. rewrite Hc.
  rewrite <- (wf_count _ H) in Hi. apply lookup_lt_is_Some_2 in Hi as [c Hi].
  rewrite (list_lookup_total_correct _ _ _ Hi). apply list_eq. intros j.
  destruct (decide (i = j)) as [<-|Hne].
  - rewrite list_lookup_alter_eq, list_lookup_insert_eq, Hi by (by eapply lookup_lt_Some). done.
  - by rewrite list_lookup_alter_ne, list_lookup_insert_ne.
Qed.

Lemma pool_alloc_Some p p' i :
  pool_alloc p = (Some i, p') ->
  ~ pool_used p i /\ pool_used p' i /\ (i < length (pl_count p))%nat /\
  pl_blocks p' = pl_blocks p /\
  forall j, j <> i -> pool_used p' j <-> pool_used p j.
Proof.
  unfold pool_alloc, pool_used. destruct find_free as [k|] eqn:Hf; [|done].
  intros [= -> <-]. apply find_free_Some in Hf as [Hi _]. rsimpl. split_and!.
  - intros (c & Hc & Hn). congruence.
  - exists 1. by rewrite list_lookup_alter_eq, Hi.
  - by eapply lookup_lt_Some.
  - done.
  - intros j Hj. by rewrite list_lookup_alter_ne.
Qed.

Lemma pool_alloc_None p p' :
  pool_alloc p = (None, p') ->
  p' = p /\ forall i, (i < length (pl_count p))%nat -> pool_used p i.
Proof.
  unfold pool_alloc, pool_used. destruct find_free as [k|] eqn:Hf; [done|].
  intros [= <-]. split; [done|]. apply find_free_None in Hf. intros i Hi.
  apply lookup_lt_is_Some_2 in Hi as [c Hc]. exists c. split; [done|].
  by eapply (proj1 (Forall_lookup _ _) Hf).
Qed.

(** Reference counts that only tell used from free. *)
Definition pool_bits p : Prop := Forall (fun c => 0 <= c <= 1) (pl_count p).

Lemma pool_alloc_bits p i p' : pool_alloc p = (i, p') -> pool_bits p -> pool_bits p'.
Proof.
  unfold pool_alloc, pool_bits. destruct find_free as [k|] eqn:Hf; intros [= <- <-] H; [|done].
  apply find_free_Some in Hf as [Hf _]. rsimpl. rewrite (alter_insert _ _ _ _ Hf).
  apply Forall_insert; [done|lia].
Qed.

Lemma pool_free_spec p i :
  pool_bits p -> pool_bits (pool_free i p) /\ ~ pool_used (pool_free i p) i /\
  forall j, j <> i -> pool_used (pool_free i p) j <-> pool_used p j.
Proof.
  intros H. unfold pool_bits, pool_used, pool_free. rsimpl. split_and!.
  - apply Forall_lookup. intros j c. destruct (decide (i = j)) as [<-|Hne].
    + rewrite list_lookup_alter_eq. destruct (pl_count p !! i) as [d|] eqn:E; [|done].
      pose proof (proj1 (Forall_lookup _ _) H _ _ E) as Hd. cbn in *. intros [= <-]. destruct (Z.ltb_spec 0 d); lia.
    + rewrite list_lookup_alter_ne by done. by apply (proj1 (Forall_lookup _ _) H).
  - intros (c & Hc & Hn). rewrite list_lookup_alter_eq in Hc.
    destruct (pl_count p !! i) as [d|] eqn:E; [|done].
    pose proof (proj1 (Forall_lookup _ _) H _ _ E) as Hd. cbn in *. injection Hc as <-.
    destruct (Z.ltb_spec 0 d); lia.
  - intros j Hj. by rewrite list_lookup_alter_ne.
Qed.
End pool.

(** ** Pools whose blocks are owned

    A client that never loses a block knows the blocks it holds as a list: they
    are exactly the blocks in use. *)
Record pool_owned {A} (p : pool A) (l : list nat) : Prop := {
  own_wf : pool_wf p;
  own_bits : pool_bits p;
  own_nodup : NoDup l;
  own_used : forall i, i ∈ l <-> pool_used p i;
}.

#[export] Instance pool_owned_perm {A} (p : pool A) : Proper (Permutation ==> iff) (pool_owned p).
Proof.
  intros l l' E. split; intros [H1 H2 H3 H4]; split; try done; rewrite E in * || rewrite <- E in *; try done.
  - intros i. by rewrite <- E.
  - intros i. by rewrite E.
Qed.

Section owned.
Context {A : Type}.
Implicit Types p : pool A.

Lemma owned_alloc p l i p' :
  pool_owned p l -> pool_alloc p = (Some i, p') ->
  i ∉ l /\ pool_owned p' (i :: l) /\ pl_blocks p' = pl_blocks p /\ is_Some (pl_blocks p' !! i).
Proof.
  intros [H1 H2 H3 H4] E. pose proof (pool_alloc_Some _ _ _ E) as (Hu & Hu' & Hi & Hb & Hj).
  assert (Hl : length (pl_count p') = length (pl_count p)).
  { unfold pool_alloc in E. destruct find_free; [|done]. injection E as _ <-. rsimpl. apply length_alter. }
  split; [by rewrite H4|]. split; [|split; [done|]].
  - split.
    + unfold pool_wf in *. by rewrite Hl, Hb.
    + by eapply pool_alloc_bits.
    + apply NoDup_cons. split; [by rewrite H4|done].
    + intros j. rewrite elem_of_cons, H4. destruct (decide (j = i)) as [->|Hne]; [by split; [|left]|].
      rewrite Hj by done. naive_solver.
  - rewrite Hb. apply lookup_lt_is_Some_2. by rewrite <- H1.
Qed.

Lemma owned_free p l i :
  pool_owned p (i :: l) -> pool_owned (pool_free i p) l /\ pl_blocks (pool_free i p) = pl_blocks p.
Proof.
  intros [H1 H2 [H3 H3']%NoDup_cons H4]. destruct (pool_free_spec p i H2) as (Hb & Hu & Hj).
  split; [|done]. split; [|done..|].
  - unfold pool_wf, pool_free in *. rsimpl. by rewrite length_alter.
  - intros j. destruct (decide (j = i)) as [->|Hne]; [naive_solver|].
    rewrite Hj, <- H4, elem_of_cons by done. naive_solver.
Qed.

Lemma owned_write p l h i : pool_owned p l -> pool_owned (p <| pl_blocks ::= alter h i |>) l.
Proof.
  intros [H1 H2 H3 H4]. split; try done. unfold pool_wf in *. rsimpl. by rewrite length_alter.
Qed.

Lemma owned_block p l i : pool_owned p l -> i ∈ l -> is_Some (pl_blocks p !! i).
Proof.
  intros H (c & Hc & _)%(own_used _ _ H). apply lookup_lt_is_Some_2.
  rewrite <- (own_wf _ _ H). by eapply lookup_lt_Some.
Qed.

Lemma owned_length p l : pool_owned p l -> (length l <= length (pl_blocks p))%nat.
Proof.
  intros [H1 H2 H3 H4]. rewrite <- H1, <- (length_seq (length (pl_count p)) 0).
  apply submseteq_length, NoDup_submseteq; [done|].
  intros i (c & Hc & _)%H4. apply elem_of_seq. apply lookup_lt_Some in Hc. lia.
Qed.

Lemma owned_full p l p' :
  pool_owned p l -> pool_alloc p = (None, p') -> p' = p.
Proof. intros _ E. by apply pool_alloc_None in E as [-> _]. Qed.
End owned.
