(* ===== verification/CDouble.v ===== *)
(** * CDouble: the [double] arithmetic of the clock code

    Clock rates are [double]s.  C leaves the format of [double] to the compiler
    (msp430-gcc uses the 32-bit IEEE format for it), so everything is generic in
    the precision and the exponent range; the operations are IEEE 754's, from
    the specification floats of the Standard Library.  Converting a value that
    does not fit to an integer type is undefined in C: what the compiler's run
    time returns then is a parameter of the format. *)
From Stdlib Require Import ZArith SpecFloat.
From stdpp Require Import numbers option list.
From S2P Require Import Prelude.

Class DoubleFormat := {
  df_prec : Z;
  df_emax : Z;
  df_fix : spec_float -> Z;          (* out-of-range conversion to an integer *)
  df_size : nat;                     (* sizeof(double) *)
  df_bytes : spec_float -> list Z;   (* the representation in memory *)
  df_unbytes : list Z -> spec_float;
}.

(** [n] bytes of [z], the least significant first. *)
Fixpoint le_bytes (n : nat) (z : Z) : list Z :=
  match n with
  | O => []
  | S n' => z mod 256 :: le_bytes n' (z / 256)
  end.
Fixpoint le_int (l : list Z) : Z :=
  match l with
  | [] => 0
  | b :: l' => b + 256 * le_int l'
  end.

(** The IEEE 32-bit interchange format. *)
Definition b32_bits (x : spec_float) : Z :=
  let sign (s : bool) := if s then 2 ^ 31 else 0 in
  match x with
  | S754_zero s => sign s
  | S754_infinity s => sign s + 255 * 2 ^ 23
  | S754_nan => 255 * 2 ^ 23 + 2 ^ 22
  | S754_finite s m e =>
      if Zpos m <? 2 ^ 23 then sign s + Zpos m
      else sign s + (e + 150) * 2 ^ 23 + (Zpos m - 2 ^ 23)
  end.
Definition b32_of_bits (z : Z) : spec_float :=
  let s := 2 ^ 31 <=? z in
  let ex := z / 2 ^ 23 mod 2 ^ 8 in
  let fr := z mod 2 ^ 23 in
  if ex =? 255 then if fr =? 0 then S754_infinity s else S754_nan
  else if ex =? 0 then
    if fr =? 0 then S754_zero s else S754_finite s (Z.to_pos fr) (-149)
  else S754_finite s (Z.to_pos (fr + 2 ^ 23)) (ex - 150).

(** The format of msp430-gcc, with a run time that saturates to 0. *)
Definition binary32 : DoubleFormat :=
  {| df_prec := 24; df_emax := 128; df_fix := fun _ => 0; df_size := 4;
     df_bytes := fun x => le_bytes 4 (b32_bits x);
     df_unbytes := fun l => b32_of_bits (le_int l) |}.

Abbreviation double := spec_float.

Section double.
Context {DF : DoubleFormat}.

Definition d_of_Z (z : Z) : double := binary_normalize df_prec df_emax z 0 false.
Definition d_add : double -> double -> double := SFadd df_prec df_emax.
Definition d_sub : double -> double -> double := SFsub df_prec df_emax.
Definition d_mul : double -> double -> double := SFmul df_prec df_emax.
Definition d_div : double -> double -> double := SFdiv df_prec df_emax.
Definition d_lt : double -> double -> bool := SFltb.
Definition d_eq : double -> double -> bool := SFeqb.

(** The literal [n/d]: the quotient of two exact integers is correctly rounded. *)
Definition d_lit (n d : Z) : double := d_div (d_of_Z n) (d_of_Z d).

(** The integral part, when the value is finite. *)
Definition d_trunc (x : double) : option Z :=
  match x with
  | S754_zero _ => Some 0
  | S754_finite s m e =>
      let a := if 0 <=? e then Z.shiftl (Zpos m) e else Z.shiftr (Zpos m) (- e) in
      Some (if s then - a else a)
  | _ => None
  end.

(** Conversion to an unsigned integer type of [w] bits. *)
Definition d_to_u (w : Z) (x : double) : Z :=
  match d_trunc x with
  | Some z => if (0 <=? z) && (z <? 2 ^ w) then z else uwrap w (df_fix x)
  | None => uwrap w (df_fix x)
  end.

(** The representation of [x] can be read back. *)
Definition d_repr (x : double) : Prop :=
  length (df_bytes x) = df_size /\ df_unbytes (df_bytes x) = x.

Lemma d_to_u_range w x : 0 <= w -> in_u w (d_to_u w x).
Proof.
  intros Hw. unfold d_to_u. destruct (d_trunc x) as [z|]; [|by apply uwrap_range].
  destruct (Z.leb_spec 0 z), (Z.ltb_spec z (2 ^ w)); simpl; try by apply uwrap_range.
  done.
Qed.

Lemma d_to_u_trunc w x z : d_trunc x = Some z -> in_u w z -> d_to_u w x = z.
Proof.
  intros Hx [H1 H2]. unfold d_to_u. rewrite Hx.
  by rewrite (proj2 (Z.leb_le _ _) H1), (proj2 (Z.ltb_lt _ _) H2).
Qed.

Lemma d_trunc_mul_zero x s z : d_trunc x = Some z -> d_trunc (d_mul x (S754_zero s)) = Some 0.
Proof. destruct x; done. Qed.
End double.

Lemma le_bytes_length n z : length (le_bytes n z) = n.
Proof. revert z. induction n as [|n IH]; intros z; simpl; [done|]. by rewrite IH. Qed.

Lemma le_int_bytes n z : 0 <= z < 256 ^ Z.of_nat n -> le_int (le_bytes n z) = z.
Proof.
  revert z. induction n as [|n IH]; intros z Hz; cbn [le_bytes le_int].
  - change (256 ^ Z.of_nat 0) with 1 in Hz. lia.
  - rewrite Nat2Z.inj_succ, Z.pow_succ_r in Hz by lia.
    rewrite IH; Z.div_mod_to_equations; lia.
Qed.
