(* ===== verification/Rtimer.v ===== *)
(** * Rtimer: the two-timer clock of cpu/msp430/f1xxx/rtimer.c

    Time is a pair of a coarse count (overflows of timer A) and a fine count
    (timer A extended by timer B); the logical time of the network is the
    hardware time plus [fine_offset], advancing at the rate [1 + avg_rate].
    The module converts between the two, keeps the offset, and schedules
    callbacks on hardware dates.

    The timer registers change by themselves: a reading of them is a
    [reg_read], and the state holds the readings the program will make, in
    order.  [TACCTL1 ^= CCIS0], which triggers a capture, is part of the next
    reading.  A busy-wait whose condition only an interrupt could change, and
    the exhaustion of the readings, are [FHang]. *)
From stdpp Require Import numbers option list.
From S2P Require Import Prelude CDouble.

(** ** Constants (project-conf.h, rtimer.h) *)

Definition RTIMER_SECOND : Z := 524288.
Definition RTIMER_AB_RESOLUTION : Z := 1024.
Definition RTIMER_AB_RESOLUTION_SHIFT : Z := 10.
Definition RTIMER_AB_UPDATE : Z := 4.
Definition RTIMER_AB_UPDATE_SHIFT : Z := 12.
Definition RTIMER_AB_UPDATE_RESOLUTION : Z := 4096.
Definition RTIMER_SCHEDULE_SAFETY_MARGIN : Z := 2000.
Definition RTIMER_COARSE_FINE_SHIFT : Z := 16 + RTIMER_AB_RESOLUTION_SHIFT.
Definition RTIMER_FINE_MAX : Z := Z.shiftl 1 (16 + RTIMER_AB_RESOLUTION_SHIFT) - 1.

Inductive rtimer_state_t :=
  | RTIMER_JUST_EXPIRED
  | RTIMER_INACTIVE
  | RTIMER_SCHEDULED
  | RTIMER_SINGLEPASS.

Definition rtimer_state_val (s : rtimer_state_t) : Z :=
  match s with
  | RTIMER_JUST_EXPIRED => 0
  | RTIMER_INACTIVE => 1
  | RTIMER_SCHEDULED => 2
  | RTIMER_SINGLEPASS => 3
  end.

#[export] Instance rtimer_state_eq_dec : EqDecision rtimer_state_t.
Proof. solve_decision. Defined.

Definition RTIMER_0 : nat := 0.
Definition RTIMER_1 : nat := 1.
Definition NUM_OF_RTIMERS : nat := 2.

Inductive rtimer_scheduletype_t :=
  | RTIMER_DATE
  | RTIMER_INTERVAL_NOW
  | RTIMER_INTERVAL_REF.
#[export] Instance rtimer_scheduletype_eq_dec : EqDecision rtimer_scheduletype_t.
Proof. solve_decision. Defined.

(** [clock_state_t] and [scheduler_state_t]. *)
Inductive lock := FREE | OCCUPIED.
#[export] Instance lock_eq_dec : EqDecision lock.
Proof. solve_decision. Defined.

(** ** Data *)

(** [struct rtimer]; [F] names the callbacks, a null [func] is [None]. *)
Record rtimer_t (F : Type) := mk_rtimer {
  time_coarse_lg : Z;
  time_fine_lg : Z;
  time_coarse_hw : Z;
  time_fine_hw : Z;
  rt_ta : Z;
  rt_tb : Z;
  rt_func : option F;
  rt_state : rtimer_state_t;
}.
Arguments mk_rtimer {F}.
Arguments time_coarse_lg {F}. Arguments time_fine_lg {F}.
Arguments time_coarse_hw {F}. Arguments time_fine_hw {F}.
Arguments rt_ta {F}. Arguments rt_tb {F}. Arguments rt_func {F}. Arguments rt_state {F}.
#[export] Instance eta_rtimer F : Eta (rtimer_t F) := fun x =>
  mk_rtimer (time_coarse_lg x) (time_fine_lg x) (time_coarse_hw x) (time_fine_hw x)
    (rt_ta x) (rt_tb x) (rt_func x) (rt_state x).

(** What [memset(rt, 0, sizeof(rt))] writes. *)
Definition rtimer_zero {F} : rtimer_t F := mk_rtimer 0 0 0 0 0 0 None RTIMER_JUST_EXPIRED.

(** [timesync_frame_t], the clock reading carried by every packet. *)
Record timesync_frame_t := mk_timesync {
  sf_coarse_now : Z;
  sf_fine_offset : Z;
  sf_clock_rate : double;
  sf_avg_rate : double;
  sf_ta : Z;
  sf_tb : Z;
  sf_ta_compare : Z;
  sf_tb_compare : Z;
  sf_hw_mac_timestamp : Z;
}.
#[export] Instance eta_timesync : Eta timesync_frame_t := fun x =>
  mk_timesync (sf_coarse_now x) (sf_fine_offset x) (sf_clock_rate x) (sf_avg_rate x)
    (sf_ta x) (sf_tb x) (sf_ta_compare x) (sf_tb_compare x) (sf_hw_mac_timestamp x).

(** One reading of the timer registers, and [last_tbcrr0] at that moment. *)
Record reg_read := mk_reg_read {
  r_TACCR0 : Z;
  r_TBCCR0 : Z;
  r_TACCR1 : Z;
  r_TBCCR3 : Z;
  r_last_tbcrr0 : Z;
}.

Record rtimer_st (F : Type) := mk_rtimer_st {
  coarse_count : Z;
  avg_rate : double;
  coarse_offset_ref : Z;
  fine_offset_ref : Z;
  fine_offset : Z;
  scheduler_fine_offset_ref : Z;
  scheduler_state : lock;
  clock_state : lock;
  clock_priority : lock;
  coarse_schedule_ref : Z;
  fine_schedule_ref : Z;
  rt : list (rtimer_t F);
  TACCR2 : Z;
  TACCTL2_CCIE : bool;
  TBCCR4 : Z;
  TBCCTL4_CCIE : bool;
  TBCCR5 : Z;
  TBCCTL5_CCIE : bool;
  reads : list reg_read;
}.
Arguments mk_rtimer_st {F}.
Arguments coarse_count {F}. Arguments avg_rate {F}. Arguments coarse_offset_ref {F}.
Arguments fine_offset_ref {F}. Arguments fine_offset {F}.
Arguments scheduler_fine_offset_ref {F}. Arguments scheduler_state {F}.
Arguments clock_state {F}. Arguments clock_priority {F}.
Arguments coarse_schedule_ref {F}. Arguments fine_schedule_ref {F}. Arguments rt {F}.
Arguments TACCR2 {F}. Arguments TACCTL2_CCIE {F}. Arguments TBCCR4 {F}.
Arguments TBCCTL4_CCIE {F}. Arguments TBCCR5 {F}. Arguments TBCCTL5_CCIE {F}.
Arguments reads {F}.
#[export] Instance eta_rtimer_st F : Eta (rtimer_st F) := fun x =>
  mk_rtimer_st (coarse_count x) (avg_rate x) (coarse_offset_ref x) (fine_offset_ref x)
    (fine_offset x) (scheduler_fine_offset_ref x) (scheduler_state x) (clock_state x)
    (clock_priority x) (coarse_schedule_ref x) (fine_schedule_ref x) (rt x) (TACCR2 x)
    (TACCTL2_CCIE x) (TBCCR4 x) (TBCCTL4_CCIE x) (TBCCR5 x) (TBCCTL5_CCIE x) (reads x).

(** ** Pure time arithmetic *)

(** [rtimer_diff]: both arguments and the result are [int32_t]. *)
Definition rtimer_diff (time_a time_b : Z) : Z := s32 (s32 time_a - s32 time_b).

(** The date arguments are passed by reference in C: here the updated pair is
    returned. *)
Definition rtimer_hwdate_to_lgdate (time_coarse time_fine offset : Z) : Z * Z :=
  let '(time_coarse, offset) :=
    if RTIMER_FINE_MAX <? offset
    then (time_coarse +32 1, offset -32 RTIMER_FINE_MAX)
    else (time_coarse, offset) in
  let time_fine := time_fine +32 offset in
  if RTIMER_FINE_MAX <? time_fine
  then (time_coarse +32 1, time_fine -32 RTIMER_FINE_MAX)
  else (time_coarse, time_fine).

(** The interval from [(coarse_then, fine_then)] to the date. *)
Definition rtimer_interval (time_coarse time_fine coarse_then fine_then : Z) : Z :=
  let delta_coarse := time_coarse -32 coarse_then in
  let '(delta_fine, delta_coarse) :=
    if fine_then <? time_fine
    then (time_fine -32 fine_then, delta_coarse)
    else (time_fine +32 (RTIMER_FINE_MAX -32 fine_then), delta_coarse -32 1) in
  u32 (u32 (Z.shiftl delta_coarse RTIMER_COARSE_FINE_SHIFT) + delta_fine).

Definition rtimer_lgdates_to_lg_interval
    (time_coarse time_fine coarse_then fine_then : Z) : Z * Z :=
  (0, rtimer_interval time_coarse time_fine coarse_then fine_then).

Section rtimer.
Context {DF : DoubleFormat} {F : Type}.
Local Abbreviation St := (rtimer_st F).
Local Abbreviation R := (M St).

(** [while(tb_compare > tb) { tb += RES; tb_compare += RES; }] on 16 bits; the
    pair comes back to its start after 64 rounds. *)
Fixpoint align_loop (fuel : nat) (tb tb_compare : Z) : option (Z * Z) :=
  if tb <? tb_compare then
    match fuel with
    | O => None
    | S n => align_loop n (tb +16 RTIMER_AB_RESOLUTION) (tb_compare +16 RTIMER_AB_RESOLUTION)
    end
  else Some (tb, tb_compare).

(** [while(ta_compare < ta) { ta_compare++; tb -= RES; }] *)
Fixpoint lag_loop (fuel : nat) (ta ta_compare tb : Z) : Z :=
  if ta_compare <? ta then
    match fuel with
    | O => tb
    | S n => lag_loop n ta (ta_compare +16 1) (tb -16 RTIMER_AB_RESOLUTION)
    end
  else tb.

Definition rtimer_stamps_to_now (ta tb ta_compare tb_compare : Z) (clock_rate : double) : res Z :=
  let t_out := u32 (Z.shiftl ta RTIMER_AB_RESOLUTION_SHIFT) in
  match align_loop 64 tb tb_compare with
  | None => Err FHang
  | Some (tb, tb_compare) =>
      let tb := tb -16 tb_compare in
      let tb := d_to_u 16 (d_mul (d_of_Z tb) clock_rate) in
      let tb := lag_loop (Z.to_nat (ta - ta_compare)) ta ta_compare tb in
      Ok (if 65535 - RTIMER_AB_RESOLUTION <? tb then
            let tb := 65535 -16 tb in t_out -32 tb
          else if RTIMER_AB_RESOLUTION <=? tb then 0
          else t_out +32 tb)
  end.

(** A function of the program that neither reads nor writes the clock. *)
Definition lift {A} (r : res A) : R A := fun st =>
  match r with Ok a => Ok (a, st) | Err e => Err e end.

Definition read_regs : R reg_read := fun st =>
  match reads st with
  | [] => Err FHang
  | r :: l => Ok (r, st <| reads := l |>)
  end.

(** [clock_get_rate] of clock.c: read again until the rate is plausible. *)
Definition reading_rate (r : reg_read) : double :=
  d_div (d_of_Z RTIMER_AB_UPDATE_RESOLUTION) (d_of_Z (r_TBCCR0 r -16 r_last_tbcrr0 r)).
Definition implausible (rate : double) : bool :=
  d_lt rate (d_lit 7 10) || d_lt (d_lit 13 10) rate.
Fixpoint rate_loop (fuel : nat) : R double :=
  match fuel with
  | O => fail FHang
  | S n =>
      r ← read_regs;
      let new_rate := reading_rate r in
      if implausible new_rate then rate_loop n else mret new_rate
  end.
Definition clock_get_rate : R double := fun st => rate_loop (length (reads st)) st.

(** The values one pass of a sampling loop reads. *)
Record stamps := mk_stamps {
  sp_rate : double;
  sp_ta : Z;
  sp_tb : Z;
  sp_ta_compare : Z;
  sp_tb_compare : Z;
}.

(** One pass: the rate, then the registers with a capture, then the lock is
    released. *)
Definition sample_once : R (stamps * Z) :=
  my_clock_rate ← clock_get_rate;
  r ← read_regs;
  let ta_compare := r_TACCR0 r -16 RTIMER_AB_UPDATE in
  let tb_compare := r_TBCCR0 r in
  let ta := r_TACCR1 r in
  let tb := r_TBCCR3 r in
  (clock_state <~ FREE) ;;
  now_my_fine ← lift (rtimer_stamps_to_now ta tb ta_compare tb_compare my_clock_rate);
  mret (mk_stamps my_clock_rate ta tb ta_compare tb_compare, now_my_fine).

(** [do { ... } while(now_my_fine == 0)] *)
Fixpoint sample_loop (fuel : nat) : R (stamps * Z) :=
  match fuel with
  | O => fail FHang
  | S n =>
      '(sp, now) ← sample_once;
      if now =? 0 then sample_loop n else mret (sp, now)
  end.
Definition sample : R (stamps * Z) := fun st => sample_loop (length (reads st)) st.

(** [while(x);] on a lock that only this thread of control would release. *)
Definition wait_free (x : St -> lock) : R unit := fun st =>
  match x st with FREE => Ok (tt, st) | OCCUPIED => Err FHang end.

(** The sampling of [rtimer_now_fine] and [rtimer_lginterval_to_hwdate]: with
    [clock_priority] raised and the lock taken once, before the loop. *)
Definition sample_priority : R (stamps * Z) :=
  (clock_priority <~ OCCUPIED) ;;
  wait_free clock_state ;;
  (clock_state <~ OCCUPIED) ;;
  r ← sample;
  (clock_priority <~ FREE) ;;
  mret r.

(** The sampling of [rtimer_sync_send] and [gtsp_recv]: the loop waits for both
    locks and takes [clock_state] in every pass. *)
Definition sample_locked_once : R (stamps * Z) :=
  wait_free clock_state ;;
  wait_free clock_priority ;;
  (clock_state <~ OCCUPIED) ;;
  sample_once.
Fixpoint sample_locked_loop (fuel : nat) : R (stamps * Z) :=
  match fuel with
  | O => fail FHang
  | S n =>
      '(sp, now) ← sample_locked_once;
      if now =? 0 then sample_locked_loop n else mret (sp, now)
  end.
Definition sample_locked : R (stamps * Z) := fun st =>
  sample_locked_loop (length (reads st)) st.

Definition rtimer_coarse_now : R Z := gets coarse_count.
Definition rtimer_fine_offset : R Z := gets fine_offset.
Definition rtimer_avg_rate : R double := gets avg_rate.
Definition rtimer_set_avg_rate (rate : double) : R unit := avg_rate <~ rate.

Definition rtimer_now : R Z := r ← read_regs; mret (r_TACCR1 r).

Definition rtimer_now_fine : R Z := snd <$$> sample_priority.

Definition rtimer_init : R unit := modify (fun st => st
  <| coarse_count := 0 |>
  <| avg_rate := d_of_Z 0 |>
  <| coarse_offset_ref := 0 |>
  <| fine_offset_ref := 0 |>
  <| scheduler_state := FREE |>
  <| coarse_schedule_ref := 0 |>
  <| fine_schedule_ref := 0 |>
  <| fine_offset := RTIMER_FINE_MAX |>
  <| scheduler_fine_offset_ref := RTIMER_FINE_MAX |>
  <| rt := replicate NUM_OF_RTIMERS rtimer_zero |>).

(** ** Timers *)

Definition get_rt (i : nat) : R (rtimer_t F) := fun st =>
  match rt st !! i with Some r => Ok (r, st) | None => Err FWild end.
Definition upd_rt (i : nat) (f : rtimer_t F -> rtimer_t F) : R unit :=
  modify (fun st => st <| rt ::= alter f i |>).

(** The search for the earliest timer in [rtimer_lf_update]. *)
Fixpoint earliest (timers : list (rtimer_t F)) (timer : nat)
    (time_coarse time_fine : Z) (timer_use : option nat) : option nat :=
  match timers with
  | [] => timer_use
  | r :: timers' =>
      if decide (rt_state r = RTIMER_SCHEDULED) then
        if time_coarse_hw r <=? time_coarse then
          if time_fine_hw r <=? time_fine
          then earliest timers' (S timer) (time_coarse_hw r) (time_fine_hw r) (Some timer)
          else earliest timers' (S timer) (time_coarse_hw r) time_fine timer_use
        else earliest timers' (S timer) time_coarse time_fine timer_use
      else earliest timers' (S timer) time_coarse time_fine timer_use
  end.

(** [TBCCR0 + (uint16_t)((tb + UPDATE_RESOLUTION) / clock_get_rate())] *)
Definition hf_compare (tb : Z) : R Z :=
  rate ← clock_get_rate;
  r ← read_regs;
  mret (r_TBCCR0 r +16 d_to_u 16 (d_div (d_of_Z (tb + RTIMER_AB_UPDATE_RESOLUTION)) rate)).

(** The macro [RTIMER_LF_CALLBACK]; its second condition compares with the
    [ta] of timer 0, as the source does. *)
Definition RTIMER_LF_CALLBACK : R unit :=
  r0 ← get_rt RTIMER_0;
  r1 ← get_rt RTIMER_1;
  cmp ← gets TACCR2;
  now ← rtimer_coarse_now;
  when (bool_decide (rt_state r0 = RTIMER_SCHEDULED)
        && (cmp =? (rt_ta r0 -16 RTIMER_AB_UPDATE)) && (time_coarse_hw r0 <=? now))
    (c ← hf_compare (rt_tb r0); (TBCCR4 <~ c) ;; (TBCCTL4_CCIE <~ true)) ;;
  when (bool_decide (rt_state r1 = RTIMER_SCHEDULED)
        && (cmp =? (rt_ta r0 -16 RTIMER_AB_UPDATE)) && (time_coarse_hw r1 <=? now))
    (c ← hf_compare (rt_tb r1); (TBCCR5 <~ c) ;; (TBCCTL5_CCIE <~ true)).

Definition rtimer_lf_update : R unit :=
  timers ← gets rt;
  match earliest timers 0 (2 ^ 32 - 1) (2 ^ 32 - 1) None with
  | Some timer_use =>
      r ← get_rt timer_use;
      (TACCTL2_CCIE <~ true) ;;
      (TACCR2 <~ (rt_ta r -16 RTIMER_AB_UPDATE)) ;;
      regs ← read_regs;
      cmp ← gets TACCR2;
      when ((rt_ta r <? (r_TACCR0 regs +16 RTIMER_AB_UPDATE)) || (r_TACCR1 regs =? cmp))
        ((TACCTL2_CCIE <~ false) ;; RTIMER_LF_CALLBACK)
  | None => TACCTL2_CCIE <~ false
  end.

(** The overflow interrupt of timer A. *)
Definition rtimer_lf_overflow : R unit :=
  wait_free scheduler_state ;;
  modify (fun st => st <| coarse_count ::= fun c => c +32 1 |>) ;;
  rtimer_lf_update.

(** The macros [RTIMER0_HF_CALLBACK] and [RTIMER1_HF_CALLBACK], the fine compare
    interrupt; callbacks act on the program, whose state [S] has the clock inside:
    [run] runs a computation on the clock there. *)
Definition hf_due (r : rtimer_t F) (TACCR0 : Z) : bool :=
  ((rt_ta r <=? (TACCR0 -16 RTIMER_AB_UPDATE))
   || ((rt_ta r <=? (TACCR0 -16 2 * RTIMER_AB_UPDATE))
       && (RTIMER_AB_UPDATE_RESOLUTION / 2 <? rt_tb r)))
  && bool_decide (rt_state r = RTIMER_SCHEDULED).
Definition RTIMER_HF_CALLBACK {S} (run : forall A, R A -> M S A) (timer : nat)
    (call : F -> M S unit) : M S unit :=
  regs ← run _ read_regs;
  r ← run _ (get_rt timer);
  when (hf_due r (r_TACCR0 regs))
    (run _ (upd_rt timer (fun r => r <| rt_state := RTIMER_JUST_EXPIRED |>)) ;;
     run _ (if (timer =? RTIMER_0)%nat then TBCCTL4_CCIE <~ false else TBCCTL5_CCIE <~ false) ;;
     run _ rtimer_lf_update ;;
     r ← run _ (get_rt timer);
     func ← deref (rt_func r);
     call func ;;
     run _ (upd_rt timer (fun r => r <| rt_state := RTIMER_INACTIVE |>))).

(** ** Offset and conversions *)

(** The offset grows by the interval since the last reference times the
    average rate.  A result outside [OFFSET_MIN, OFFSET_MAX] is not handled. *)
Definition rtimer_update_offset (time_coarse time_fine : Z) : R unit :=
  modify (fun st =>
    let interval := rtimer_interval time_coarse time_fine (coarse_offset_ref st) (fine_offset_ref st) in
    st <| fine_offset := fine_offset st +32 d_to_u 32 (d_mul (d_of_Z interval) (avg_rate st)) |>
       <| coarse_offset_ref := time_coarse |>
       <| fine_offset_ref := time_fine |>).

Definition rtimer_estimate_offset (time_coarse time_fine : Z) : R Z := gets (fun st =>
  let interval := rtimer_interval time_coarse time_fine (coarse_offset_ref st) (fine_offset_ref st) in
  d_to_u 32 (d_add (d_of_Z (fine_offset st)) (d_mul (d_of_Z interval) (avg_rate st)))).

(** Scale the interval by the rate and split it in coarse and fine parts. *)
Definition scale_interval (rate : double) (time_fine : Z) : Z * Z :=
  let time_fine := d_to_u 32 (d_mul (d_of_Z time_fine) (d_add (d_of_Z 1) rate)) in
  if RTIMER_FINE_MAX <? time_fine
  then (time_fine / RTIMER_FINE_MAX, time_fine mod RTIMER_FINE_MAX)
  else (0, time_fine).

(** Add the interval to the reference date. *)
Definition add_interval (time_coarse time_fine coarse_then fine_then : Z) : Z * Z :=
  let time_fine := time_fine +32 fine_then in
  let '(time_coarse, time_fine) :=
    if RTIMER_FINE_MAX <? time_fine
    then (time_coarse +32 1, time_fine -32 RTIMER_FINE_MAX)
    else (time_coarse, time_fine) in
  (time_coarse +32 coarse_then, time_fine).

(** Returns the current fine time and the hardware date. *)
Definition rtimer_lginterval_to_hwdate (time_coarse time_fine : Z)
    (interval : rtimer_scheduletype_t) : R (Z * (Z * Z)) :=
  rate ← rtimer_avg_rate;
  let '(time_coarse, time_fine) := scale_interval rate time_fine in
  match interval with
  | RTIMER_INTERVAL_REF =>
      coarse_then ← gets coarse_schedule_ref;
      fine_then ← gets fine_schedule_ref;
      now ← rtimer_now_fine;
      mret (now, add_interval time_coarse time_fine coarse_then fine_then)
  | _ =>
      fine_then ← rtimer_now_fine;
      coarse_then ← rtimer_coarse_now;
      mret (fine_then, add_interval time_coarse time_fine coarse_then fine_then)
  end.

Definition rtimer_lgdate_to_hwdate (time_coarse time_fine : Z) : R (Z * (Z * Z)) :=
  coarse_now ← rtimer_coarse_now;
  fine_now ← rtimer_now_fine;
  (coarse_schedule_ref <~ coarse_now) ;;
  (fine_schedule_ref <~ fine_now) ;;
  rtimer_update_offset coarse_now fine_now ;;
  offset ← rtimer_fine_offset;
  let '(coarse_now, fine_now) := rtimer_hwdate_to_lgdate coarse_now fine_now offset in
  let '(time_coarse, time_fine) :=
    rtimer_lgdates_to_lg_interval time_coarse time_fine coarse_now fine_now in
  rtimer_lginterval_to_hwdate time_coarse time_fine RTIMER_INTERVAL_REF.

Definition rtimer_lg_now : R Z :=
  coarse_now ← rtimer_coarse_now;
  fine_now ← rtimer_now_fine;
  rtimer_update_offset coarse_now fine_now ;;
  offset ← rtimer_fine_offset;
  let '(coarse_now, fine_now) := rtimer_hwdate_to_lgdate coarse_now fine_now offset in
  mret (u32 (u32 (Z.shiftl coarse_now RTIMER_COARSE_FINE_SHIFT) + fine_now)).

(** ** Scheduling *)

Definition rtimer_compare (timer : nat) (time_coarse time_fine : Z) : R Z :=
  r ← get_rt timer;
  mret (if rtimer_state_val (rt_state r) <? rtimer_state_val RTIMER_SCHEDULED then 1
        else if time_coarse_lg r =? time_coarse then
          if time_fine <? time_fine_lg r then -1
          else if time_fine_lg r <? time_fine then 1 else 0
        else if time_coarse <? time_coarse_lg r then -1 else 1).

(** The hardware date is not far enough in the future. *)
Definition too_late (coarse_mod fine_mod coarse_now quick_ref : Z) : bool :=
  (coarse_mod <? coarse_now)
  || ((coarse_mod =? coarse_now)
      && (fine_mod <? (quick_ref +32 RTIMER_SCHEDULE_SAFETY_MARGIN))).

(** Compare register values of a fine date. *)
Definition date_ta (fine_mod : Z) : Z :=
  u16 (Z.shiftl (Z.shiftr fine_mod RTIMER_AB_UPDATE_SHIFT)
                (RTIMER_AB_UPDATE_SHIFT - RTIMER_AB_RESOLUTION_SHIFT)).
Definition date_tb (fine_mod : Z) : Z :=
  Z.shiftr (u16 (Z.shiftl (u16 fine_mod) (16 - RTIMER_AB_UPDATE_SHIFT)))
           (16 - RTIMER_AB_UPDATE_SHIFT).

(** Arm the timer with the compare values and reprogram timer A. *)
Definition arm (timer : nat) (fine_mod : Z) : R Z :=
  upd_rt timer (fun r => r
    <| rt_ta := date_ta fine_mod |> <| rt_tb := date_tb fine_mod |>
    <| rt_state := RTIMER_SCHEDULED |>) ;;
  rtimer_lf_update ;;
  mret 1.

Definition rtimer_schedule (timer : nat) (interval : rtimer_scheduletype_t)
    (time_coarse time_fine : Z) (func : option F) : R Z :=
  if negb (timer <? NUM_OF_RTIMERS)%nat then mret 0
  else if (time_coarse =? 0) && (time_fine =? 0) then mret 0
  else
    r ← get_rt timer;
    if decide (rt_state r = RTIMER_SINGLEPASS) then
      upd_rt timer (fun r => r <| rt_state := RTIMER_SCHEDULED |>) ;;
      mret 1
    else
      upd_rt timer (fun r => r <| rt_func := func |>) ;;
      (scheduler_state <~ OCCUPIED) ;;
      if decide (interval = RTIMER_DATE) then
        '(quick_ref, (coarse_mod, fine_mod)) ← rtimer_lgdate_to_hwdate time_coarse time_fine;
        now ← rtimer_coarse_now;
        (scheduler_state <~ FREE) ;;
        if too_late coarse_mod fine_mod now quick_ref then mret 0
        else
          upd_rt timer (fun r => r
            <| time_coarse_lg := time_coarse |> <| time_fine_lg := time_fine |>
            <| time_coarse_hw := coarse_mod |> <| time_fine_hw := fine_mod |>) ;;
          arm timer fine_mod
      else
        '(quick_ref, (coarse_mod, fine_mod)) ←
          rtimer_lginterval_to_hwdate time_coarse time_fine interval;
        now ← rtimer_coarse_now;
        (scheduler_state <~ FREE) ;;
        if too_late coarse_mod fine_mod now quick_ref then mret 0
        else
          offset ← rtimer_estimate_offset coarse_mod fine_mod;
          let '(coarse_lg, fine_lg) := rtimer_hwdate_to_lgdate coarse_mod fine_mod offset in
          upd_rt timer (fun r => r
            <| time_coarse_hw := coarse_mod |> <| time_fine_hw := fine_mod |>
            <| time_coarse_lg := coarse_lg |> <| time_fine_lg := fine_lg |>) ;;
          arm timer fine_mod.

Definition rtimer_adjust_coarse_count (diff : Z) : R unit :=
  wait_free scheduler_state ;;
  modify (fun st => st <| coarse_count ::= fun c => c -32 diff |>).

(** Keep [fine_offset] between half and one and a half coarse units. *)
Definition normalise_offset (st : St) : St :=
  let fo := d_of_Z (fine_offset st) in
  if d_lt fo (d_mul (d_of_Z RTIMER_FINE_MAX) (d_lit 1 2)) then
    st <| coarse_count ::= fun c => c -32 1 |>
       <| fine_offset ::= fun o => o +32 RTIMER_FINE_MAX |>
  else if d_lt (d_mul (d_of_Z RTIMER_FINE_MAX) (d_lit 3 2)) fo then
    st <| coarse_count ::= fun c => c +32 1 |>
       <| fine_offset ::= fun o => o -32 RTIMER_FINE_MAX |>
  else st.

(** Schedule an armed timer again, at the same logical date. *)
Definition reschedule (timer : nat) : R unit :=
  r ← get_rt timer;
  when (bool_decide (rt_state r = RTIMER_SCHEDULED))
    (rtimer_schedule timer RTIMER_DATE (time_coarse_lg r) (time_fine_lg r) (rt_func r) ;;
     skip).

Definition rtimer_adjust_fine_offset (diff : Z) : R unit :=
  wait_free scheduler_state ;;
  modify (fun st => st <| fine_offset ::= fun o => o -32 diff |>) ;;
  modify normalise_offset ;;
  diff ← gets (fun st => rtimer_diff (scheduler_fine_offset_ref st) (fine_offset st));
  when ((diff <? -200) || (200 <? diff))
    (reschedule RTIMER_0 ;; reschedule RTIMER_1) ;;
  modify (fun st => st <| scheduler_fine_offset_ref := fine_offset st |>).

(** Fill the clock reading of an outgoing packet. *)
Definition rtimer_sync_send : R timesync_frame_t :=
  '(sp, now_my_fine) ← sample_locked;
  coarse_now ← rtimer_coarse_now;
  rate ← rtimer_avg_rate;
  rtimer_update_offset coarse_now now_my_fine ;;
  offset ← rtimer_fine_offset;
  mret (mk_timesync coarse_now offset (sp_rate sp) rate (sp_ta sp) (sp_tb sp)
          (sp_ta_compare sp) (sp_tb_compare sp) 0).
End rtimer.

(** ** Time arithmetic is exact *)

(** A date in ticks, when a coarse unit is [unit] ticks. *)
Definition ticks (unit time_coarse time_fine : Z) : Z := time_coarse * unit + time_fine.

Lemma hwdate_to_lgdate_ticks tc tf offset :
  0 <= tc < 2 ^ 32 - 2 -> 0 <= tf <= RTIMER_FINE_MAX -> 0 <= offset <= 2 * RTIMER_FINE_MAX ->
  let '(tc', tf') := rtimer_hwdate_to_lgdate tc tf offset in
  ticks RTIMER_FINE_MAX tc' tf' = ticks RTIMER_FINE_MAX tc tf + offset /\
  0 <= tf' <= RTIMER_FINE_MAX /\ tc <= tc' <= tc + 2.
Proof.
  assert (E : RTIMER_FINE_MAX = 67108863) by reflexivity.
  intros Hc Hf Ho. unfold rtimer_hwdate_to_lgdate, ticks. rewrite E in *.
  destruct (Z.ltb_spec 67108863 offset); cbv beta iota;
    (match goal with |- context [67108863 <? ?x] =>
       destruct (Z.ltb_spec 67108863 x) end); uwrap_lia.
Qed.

Lemma rtimer_interval_range c2 f2 c1 f1 : in_u 32 (rtimer_interval c2 f2 c1 f1).
Proof. unfold rtimer_interval. destruct (f1 <? f2); by apply uwrap_range. Qed.

Lemma rtimer_interval_ticks c2 f2 c1 f1 :
  in_u 32 c2 -> in_u 32 f2 -> in_u 32 c1 -> in_u 32 f1 ->
  rtimer_interval c2 f2 c1 f1 =
    u32 (ticks (2 ^ 26) c2 f2 - ticks (2 ^ 26) c1 f1 - b2z (f2 <=? f1)).
Proof.
  intros H1 H2 H3 H4. unfold rtimer_interval, ticks.
  change RTIMER_COARSE_FINE_SHIFT with 26. change RTIMER_FINE_MAX with 67108863.
  destruct (Z.ltb_spec f1 f2), (Z.leb_spec f2 f1); try lia;
    rewrite Z.shiftl_mul_pow2 by done; cbn [b2z]; uwrap_lia.
Qed.

(** ** From capture registers to the fine time *)

Lemma align_loop_done tb tbc fuel :
  in_u 16 tb -> in_u 16 tbc -> tb / 1024 <> tbc / 1024 \/ tbc <= tb ->
  (Z.to_nat (64 - tbc / 1024) <= fuel)%nat ->
  exists tb' tbc', align_loop fuel tb tbc = Some (tb', tbc') /\
    in_u 16 tb' /\ in_u 16 tbc' /\ u16 (tb' - tbc') = u16 (tb - tbc).
Proof.
  unfold in_u. change (2 ^ 16) with 65536.
  revert tb tbc. induction fuel as [|n IH]; intros tb tbc H1 H2 H3 Hf; simpl;
    (destruct (Z.ltb_spec tb tbc); [|by exists tb, tbc]).
  { exfalso. assert (0 < 64 - tbc / 1024) by (Z.div_mod_to_equations; lia). lia. }
  destruct (Z.ltb_spec (tbc + 1024) 65536).
  - rewrite !(uwrap_small 16) by (unfold in_u, RTIMER_AB_RESOLUTION; change (2 ^ 16) with 65536; lia).
    unfold RTIMER_AB_RESOLUTION.
    destruct (IH (tb + 1024) (tbc + 1024)) as (tb' & tbc' & E & Hb1 & Hb2 & Eq).
    + lia.
    + lia.
    + Z.div_mod_to_equations; lia.
    + Z.div_mod_to_equations; lia.
    + exists tb', tbc'. split_and!; try done; try lia. rewrite Eq. f_equal. lia.
  - assert (Hw : u16 (tbc + RTIMER_AB_RESOLUTION) = tbc + 1024 - 65536)
      by (unfold RTIMER_AB_RESOLUTION; uwrap_lia).
    assert (Hb : u16 (tb + RTIMER_AB_RESOLUTION) = tb + 1024).
    { unfold RTIMER_AB_RESOLUTION. assert (tb < 64512) by (Z.div_mod_to_equations; lia). uwrap_lia. }
    rewrite Hw, Hb. exists (tb + 1024), (tbc + 1024 - 65536). split_and!; try lia.
    + destruct n; simpl; (destruct (Z.ltb_spec (tb + 1024) (tbc + 1024 - 65536)); [lia|done]).
    + assert (tb < 64512) by (Z.div_mod_to_equations; lia). lia.
    + uwrap_lia.
Qed.

Lemma align_loop_hang tb tbc fuel :
  in_u 16 tb -> in_u 16 tbc -> tb / 1024 = tbc / 1024 -> tb < tbc ->
  align_loop fuel tb tbc = None.
Proof.
  unfold in_u. change (2 ^ 16) with 65536.
  revert tb tbc. induction fuel as [|n IH]; intros tb tbc H1 H2 H3 H4; simpl;
    (destruct (Z.ltb_spec tb tbc); [|lia]); [done|].
  assert (u16 (tb + RTIMER_AB_RESOLUTION) =
          if tb <? 64512 then tb + 1024 else tb + 1024 - 65536) as ->.
  { unfold RTIMER_AB_RESOLUTION. destruct (Z.ltb_spec tb 64512); uwrap_lia. }
  assert (u16 (tbc + RTIMER_AB_RESOLUTION) =
          if tb <? 64512 then tbc + 1024 else tbc + 1024 - 65536) as ->.
  { unfold RTIMER_AB_RESOLUTION.
    destruct (Z.ltb_spec tb 64512);
      assert (if tb <? 64512 then tbc < 64512 else 64512 <= tbc)
        by (destruct (Z.ltb_spec tb 64512); Z.div_mod_to_equations; lia);
      destruct (Z.ltb_spec tb 64512); uwrap_lia. }
  destruct (Z.ltb_spec tb 64512); apply IH; Z.div_mod_to_equations; lia.
Qed.

Lemma lag_loop_eq ta tac tb fuel :
  in_u 16 ta -> in_u 16 tac -> in_u 16 tb -> (Z.to_nat (ta - tac) <= fuel)%nat ->
  lag_loop fuel ta tac tb = u16 (tb - 1024 * Z.max 0 (ta - tac)).
Proof.
  unfold in_u. change (2 ^ 16) with 65536.
  revert tac tb. induction fuel as [|n IH]; intros tac tb H1 H2 H3 Hf; simpl;
    destruct (Z.ltb_spec tac ta).
  - lia.
  - rewrite Z.max_l by lia. uwrap_lia.
  - assert (u16 (tac + 1) = tac + 1) as -> by uwrap_lia.
    assert (Hb : 0 <= u16 (tb - RTIMER_AB_RESOLUTION) < 65536) by apply u16_range.
    rewrite IH by lia. rewrite uwrap_sub_l. f_equal. unfold RTIMER_AB_RESOLUTION. lia.
  - rewrite Z.max_l by lia. uwrap_lia.
Qed.

(** The ticks of timer B since the last update of its reference, corrected for
    the clock rate and for the updates of timer A not yet accounted for. *)
Definition tb_ticks `{DoubleFormat} (ta tb ta_compare tb_compare : Z) (clock_rate : double) : Z :=
  u16 (d_to_u 16 (d_mul (d_of_Z (u16 (tb - tb_compare))) clock_rate)
       - 1024 * Z.max 0 (ta - ta_compare)).

Section rtimer_facts.
Context {DF : DoubleFormat} {F : Type}.
Local Abbreviation St := (rtimer_st F).
Implicit Types st : St.

Lemma stamps_to_now_Ok ta tb tac tbc rate :
  in_u 16 ta -> in_u 16 tb -> in_u 16 tac -> in_u 16 tbc ->
  tb / 1024 <> tbc / 1024 \/ tbc <= tb ->
  let d := tb_ticks ta tb tac tbc rate in
  rtimer_stamps_to_now ta tb tac tbc rate =
    Ok (if 64511 <? d then u32 (1024 * ta - (65535 - d))
        else if 1024 <=? d then 0 else u32 (1024 * ta + d)).
Proof.
  intros H1 H2 H3 H4 H d. unfold rtimer_stamps_to_now.
  destruct (align_loop_done tb tbc 64 H2 H4 H) as (tb' & tbc' & -> & Hb1 & Hb2 & Eq).
  { unfold in_u in *. change (2 ^ 16) with 65536 in *. Z.div_mod_to_equations; lia. }
  rewrite Eq, lag_loop_eq; first [done | by apply d_to_u_range | lia | idtac].
  fold (tb_ticks ta tb tac tbc rate). fold d.
  assert (Hd : 0 <= d < 65536) by apply u16_range.
  rewrite Z.shiftl_mul_pow2 by done.
  change (2 ^ RTIMER_AB_RESOLUTION_SHIFT) with 1024.
  change (65535 - RTIMER_AB_RESOLUTION) with 64511.
  unfold RTIMER_AB_RESOLUTION. unfold in_u in *. change (2 ^ 16) with 65536 in *.
  destruct (Z.ltb_spec 64511 d); [|destruct (Z.leb_spec 1024 d)];
    f_equal; try done; uwrap_lia.
Qed.

(** [rtimer_stamps_to_now] in closed form.  The alignment loop never ends
    when the two timer B captures lie in the same block of 1024 ticks with the
    later one first; in every other case the loops reduce to a subtraction on
    16 bits, and the fine time is timer A's count refined by the corrected
    ticks [d], 0 flagging a reading that cannot be used.  The captures of a
    neighbour arrive in its packets. *)
Theorem stamps_to_now_spec ta tb tac tbc rate :
  in_u 16 ta -> in_u 16 tb -> in_u 16 tac -> in_u 16 tbc ->
  rtimer_stamps_to_now ta tb tac tbc rate =
    if (tb <? tbc) && (tb / 1024 =? tbc / 1024) then Err FHang
    else
      let d := tb_ticks ta tb tac tbc rate in
      Ok (if 64511 <? d then u32 (1024 * ta - (65535 - d))
          else if 1024 <=? d then 0 else u32 (1024 * ta + d)).
Proof.
  intros H1 H2 H3 H4.
  destruct (Z.ltb_spec tb tbc); [destruct (Z.eqb_spec (tb / 1024) (tbc / 1024))|]; simpl.
  - unfold rtimer_stamps_to_now. by rewrite align_loop_hang.
  - apply stamps_to_now_Ok; try done. by left.
  - apply stamps_to_now_Ok; try done. right. lia.
Qed.
End rtimer_facts.

Lemma stamps_to_now_spec_witness :
  @rtimer_stamps_to_now binary32 700 10 698 64000 (d_of_Z (DF := binary32) 1) =
      if (10 <? 64000) && (10 / 1024 =? 64000 / 1024) then Err FHang
      else
        let d := @tb_ticks binary32 700 10 698 64000 (d_of_Z (DF := binary32) 1) in
        Ok (if 64511 <? d then u32 (1024 * 700 - (65535 - d))
            else if 1024 <=? d then 0 else u32 (1024 * 700 + d)).
Proof.
  apply (stamps_to_now_spec (DF := binary32)); unfold in_u; lia.
Defined.

(** ** Sampling *)

Section sampling.
Context {DF : DoubleFormat} {F : Type}.
Local Abbreviation St := (rtimer_st F).
Implicit Types st : St.

(** Everything but the pending readings and the two clock locks. *)
Definition core_view st :=
  (coarse_count st, avg_rate st, coarse_offset_ref st, fine_offset_ref st,
   fine_offset st, scheduler_fine_offset_ref st, scheduler_state st,
   (coarse_schedule_ref st, fine_schedule_ref st, rt st, TACCR2 st, TACCTL2_CCIE st,
    TBCCR4 st, TBCCTL4_CCIE st, TBCCR5 st, TBCCTL5_CCIE st)).

Definition clock_free st : Prop := clock_state st = FREE /\ clock_priority st = FREE.

Lemma post_assign (R : St -> St -> Prop) (f : St -> St) :
  (forall s, R s (f s)) -> post R (modify f).
Proof. intros H s a s' [= <- <-]. apply H. Qed.

Lemma read_regs_core : post (same core_view) (read_regs (F := F)).
Proof. intros s a s'. unfold read_regs. destruct (reads s); [done|]. by intros [= <- <-]. Qed.

Lemma rate_loop_core n : post (same core_view) (rate_loop (F := F) n).
Proof.
  induction n as [|n IH]; simpl; [apply post_fail|].
  post_step; [apply read_regs_core|]. destruct (implausible _); [done|post_step].
Qed.
Lemma clock_get_rate_core : post (same core_view) (clock_get_rate (F := F)).
Proof. intros s a s' E. by eapply rate_loop_core. Qed.

Lemma lift_core {A} (x : res A) : post (same core_view) (lift (F := F) x).
Proof. intros s a s'. unfold lift. destruct x; [|done]. by intros [= <- <-]. Qed.

Lemma wait_free_core x : post (same core_view) (wait_free (F := F) x).
Proof. intros s a s'. unfold wait_free. destruct (x s); [|done]. by intros [= <- <-]. Qed.

Hint Resolve read_regs_core rate_loop_core clock_get_rate_core lift_core wait_free_core : post.

Lemma sample_once_core : post (same core_view) (sample_once (F := F)).
Proof. unfold sample_once. post_auto; by apply post_assign. Qed.
Hint Resolve sample_once_core : post.

Lemma sample_loop_core n : post (same core_view) (sample_loop (F := F) n).
Proof. induction n as [|n IH]; simpl; post_auto. Qed.
Lemma sample_core : post (same core_view) (sample (F := F)).
Proof. intros s a s' E. by eapply sample_loop_core. Qed.
Hint Resolve sample_core : post.

Lemma sample_priority_core : post (same core_view) (sample_priority (F := F)).
Proof. unfold sample_priority. post_auto; by apply post_assign. Qed.
Hint Resolve sample_priority_core : post.

Lemma rtimer_now_fine_core : post (same core_view) (rtimer_now_fine (F := F)).
Proof. unfold rtimer_now_fine. post_auto. Qed.

(** A pass of the loop leaves [clock_state] free. *)
Lemma sample_once_free st :
  wp sample_once (fun _ st' => clock_state st' = FREE /\ clock_priority st' = clock_priority st) st.
Proof.
  unfold sample_once.
  apply wp_bind. intros rate s1 E1.
  assert (Hp1 : clock_priority s1 = clock_priority st).
  { revert E1. unfold clock_get_rate. generalize (length (reads st)). intros n. revert st.
    induction n as [|n IH]; intros st; simpl; [done|]. unfold mbind, M_bind, read_regs at 1.
    destruct (reads st); [done|]. destruct (implausible _).
    - intros E. apply IH in E. by rewrite E.
    - by intros [= <- <-]. }
  apply wp_bind. intros r s2 E2. unfold read_regs in E2.
  destruct (reads s1); [done|]. injection E2 as <- <-.
  apply wp_bind, wp_modify. apply wp_bind. intros now s3 E3. unfold lift in E3.
  destruct rtimer_stamps_to_now; [|done]. injection E3 as <- <-.
  by apply wp_ret.
Qed.

Lemma sample_loop_free n st :
  wp (sample_loop n)
    (fun _ st' => clock_state st' = FREE /\ clock_priority st' = clock_priority st) st.
Proof.
  revert st. induction n as [|n IH]; intros st; simpl; [by intros ? ? ?|].
  apply wp_bind. eapply wp_mono; [apply sample_once_free|]. intros [sp now] s' [H1 H2]. simpl.
  destruct (now =? 0); [|by apply wp_ret]. eapply wp_mono; [apply IH|]. simpl.
  intros _ s2 [H3 H4]. split; congruence.
Qed.
Lemma sample_free st :
  wp sample (fun _ st' => clock_state st' = FREE /\ clock_priority st' = clock_priority st) st.
Proof. intros a s' E. by eapply sample_loop_free. Qed.

Lemma sample_priority_free st : wp sample_priority (fun _ st' => clock_free st') st.
Proof.
  unfold sample_priority. apply wp_bind, wp_modify, wp_bind.
  intros [] s1 E1. unfold wait_free in E1. destruct (clock_state _); [|done].
  injection E1 as <-. apply wp_bind, wp_modify, wp_bind.
  eapply wp_mono; [apply sample_free|]. intros r s2 [H1 H2].
  apply wp_bind, wp_modify, wp_ret. by split.
Qed.

Lemma rtimer_now_fine_free st :
  wp rtimer_now_fine (fun _ st' => clock_free st' /\ core_view st' = core_view st) st.
Proof.
  intros a s' E. split; [|by eapply rtimer_now_fine_core].
  revert a s' E. apply wp_res_map. eapply wp_mono; [apply sample_priority_free|]. done.
Qed.

(** The readings contain a usable one: after as many implausible rates and
    unusable captures as one likes. *)
Inductive usable : list reg_read -> Prop :=
  | usable_now r1 r2 l n :
      implausible (reading_rate r1) = false ->
      rtimer_stamps_to_now (r_TACCR1 r2) (r_TBCCR3 r2) (r_TACCR0 r2 -16 RTIMER_AB_UPDATE)
        (r_TBCCR0 r2) (reading_rate r1) = Ok n -> n <> 0 -> usable (r1 :: r2 :: l)
  | usable_rate r l : implausible (reading_rate r) = true -> usable l -> usable (r :: l)
  | usable_zero r1 r2 l :
      implausible (reading_rate r1) = false ->
      rtimer_stamps_to_now (r_TACCR1 r2) (r_TBCCR3 r2) (r_TACCR0 r2 -16 RTIMER_AB_UPDATE)
        (r_TBCCR0 r2) (reading_rate r1) = Ok 0 -> usable l -> usable (r1 :: r2 :: l).

(** One more implausible reading costs [clock_get_rate] one more round. *)
Lemma clock_get_rate_skip r l st :
  reads st = r :: l -> implausible (reading_rate r) = true ->
  clock_get_rate st = clock_get_rate (st <| reads := l |>).
Proof.
  intros Hr Hi. unfold clock_get_rate. rewrite Hr. rsimpl. cbn [length rate_loop].
  unfold mbind at 1, M_bind at 1, read_regs at 1. by rewrite Hr, Hi.
Qed.
Lemma clock_get_rate_ok r l st :
  reads st = r :: l -> implausible (reading_rate r) = false ->
  clock_get_rate st = Ok (reading_rate r, st <| reads := l |>).
Proof.
  intros Hr Hi. unfold clock_get_rate. rewrite Hr. cbn [length rate_loop].
  unfold mbind at 1, M_bind at 1, read_regs at 1. by rewrite Hr, Hi.
Qed.

Lemma sample_once_ok r1 r2 l n st :
  reads st = r1 :: r2 :: l -> implausible (reading_rate r1) = false ->
  rtimer_stamps_to_now (r_TACCR1 r2) (r_TBCCR3 r2) (r_TACCR0 r2 -16 RTIMER_AB_UPDATE)
    (r_TBCCR0 r2) (reading_rate r1) = Ok n ->
  exists sp, sample_once st =
    Ok ((sp, n), st <| reads := r2 :: l |> <| reads := l |> <| clock_state := FREE |>).
Proof.
  intros Hr Hi Hn. eexists. unfold sample_once.
  erewrite bind_Ok by (by apply (clock_get_rate_ok _ _ _ Hr)).
  erewrite bind_Ok by done. rewrite bind_modify.
  erewrite bind_Ok by (unfold lift; by rewrite Hn). done.
Qed.
Lemma sample_once_skip r l st :
  reads st = r :: l -> implausible (reading_rate r) = true ->
  sample_once st = sample_once (st <| reads := l |>).
Proof.
  intros Hr Hi. unfold sample_once. unfold mbind at 1 4, M_bind at 1 4.
  by rewrite (clock_get_rate_skip _ _ _ Hr Hi).
Qed.

Lemma sample_loop_usable l n st :
  usable l -> reads st = l -> (length l <= n)%nat ->
  exists sp now st', sample_loop n st = Ok ((sp, now), st') /\ now <> 0.
Proof.
  intros Hu. revert n st.
  induction Hu as [r1 r2 l m H1 H2 H3|r l H1 Hu IH|r1 r2 l H1 H2 Hu IH];
    intros [|n] st Hr Hn; simpl in Hn; try lia; cbn [sample_loop].
  - destruct (sample_once_ok _ _ _ _ _ Hr H1 H2) as [sp E].
    rewrite (bind_Ok _ _ _ _ _ E). rewrite (proj2 (Z.eqb_neq _ _) H3). eexists _, _, _. done.
  - destruct (IH (S n) (st <| reads := l |>)) as (sp & now & st' & E & Hnow); [done|lia|].
    exists sp, now, st'. split; [|done]. cbn [sample_loop] in E.
    revert E. unfold mbind at 1 2, M_bind at 1 2. by rewrite (sample_once_skip _ _ _ Hr H1).
  - destruct (sample_once_ok _ _ _ _ _ Hr H1 H2) as [sp E].
    rewrite (bind_Ok _ _ _ _ _ E). apply IH; [done|lia].
Qed.

Lemma rtimer_now_fine_usable st :
  clock_state st = FREE -> usable (reads st) ->
  exists now st', rtimer_now_fine st = Ok (now, st') /\ now <> 0.
Proof.
  intros Hf Hu. unfold rtimer_now_fine, res_map, sample_priority.
  set (st1 := st <| clock_priority := OCCUPIED |> <| clock_state := OCCUPIED |>).
  destruct (sample_loop_usable (reads st) (length (reads st)) st1) as (sp & now & st' & E & Hn);
    [done|done|done|].
  exists now, (st' <| clock_priority := FREE |>). split; [|done]. rewrite bind_modify.
  erewrite bind_Ok by (unfold wait_free; rsimpl; by rewrite Hf). rewrite bind_modify.
  by erewrite bind_Ok by exact E.
Qed.

(** Termination of the clock sampling loops: when the clock lock is free and
    the timers eventually give a plausible rate followed by a usable capture,
    [rtimer_now_fine] returns a nonzero fine time, releases both clock locks
    and changes nothing else. *)
Theorem rtimer_now_fine_returns st :
  clock_state st = FREE -> usable (reads st) ->
  exists now st', rtimer_now_fine st = Ok (now, st') /\ now <> 0 /\
    clock_free st' /\ core_view st' = core_view st.
Proof.
  intros Hf Hu. destruct (rtimer_now_fine_usable st Hf Hu) as (now & st' & E & Hn).
  exists now, st'. split; [done|]. split; [done|]. by apply (rtimer_now_fine_free st now).
Qed.
End sampling.

(** A node that has just started, with the given readings to come. *)
Definition st_example (l : list reg_read) : rtimer_st unit :=
  mk_rtimer_st 5 (d_of_Z (DF := binary32) 0) 0 0 RTIMER_FINE_MAX RTIMER_FINE_MAX FREE FREE FREE
    0 0 (replicate 2 rtimer_zero) 0 false 0 false 0 false l.
(** Two implausible readings, a capture out of range, and two good readings. *)
Definition reads_example : list reg_read :=
  [ mk_reg_read 100 1000 104 5000 0; mk_reg_read 100 9000 104 5000 0;
    mk_reg_read 104 8192 104 9000 4096; mk_reg_read 104 8192 101 12000 4096;
    mk_reg_read 104 8192 104 9000 4096; mk_reg_read 104 8192 101 9000 4096 ].

Lemma rtimer_now_fine_returns_witness :
  exists now st', @rtimer_now_fine binary32 unit (st_example reads_example) = Ok (now, st') /\
    now <> 0 /\ clock_free st' /\ core_view st' = core_view (st_example reads_example).
Proof.
  apply (rtimer_now_fine_returns (DF := binary32)); [done|].
  apply usable_rate; [by vm_compute|]. apply usable_rate; [by vm_compute|].
  apply usable_zero; [by vm_compute..|].
  by eapply usable_now; [vm_compute; reflexivity..|].
Defined.

(** ** Scheduling *)

Section scheduling.
Context {DF : DoubleFormat} {F : Type}.
Local Abbreviation St := (rtimer_st F).
Implicit Types st : St.

(** What the conversion of a date leaves alone: all but the clock locks, the
    readings, the network offset and the reference dates. *)
Definition conv_view st :=
  (coarse_count st, avg_rate st, scheduler_fine_offset_ref st, scheduler_state st, rt st,
   (TACCR2 st, TACCTL2_CCIE st, TBCCR4 st, TBCCTL4_CCIE st, TBCCR5 st, TBCCTL5_CCIE st)).
(** What programming the compare registers leaves alone. *)
Definition soft_view st :=
  (coarse_count st, avg_rate st, coarse_offset_ref st, fine_offset_ref st, fine_offset st,
   scheduler_fine_offset_ref st,
   (scheduler_state st, clock_state st, clock_priority st, coarse_schedule_ref st,
    fine_schedule_ref st, rt st)).

Lemma core_conv st st' : core_view st' = core_view st -> conv_view st' = conv_view st.
Proof. unfold core_view, conv_view. congruence. Qed.
Lemma core_soft st st' :
  core_view st' = core_view st -> clock_state st' = clock_state st ->
  clock_priority st' = clock_priority st -> soft_view st' = soft_view st.
Proof. unfold core_view, soft_view. congruence. Qed.

Lemma now_fine_conv : post (same conv_view) (rtimer_now_fine (F := F)).
Proof. intros s a s' E. apply core_conv. by eapply rtimer_now_fine_core. Qed.
Hint Resolve now_fine_conv : post.

Lemma update_offset_conv c f : post (same conv_view) (rtimer_update_offset (F := F) c f).
Proof. by intros s a s' [= _ <-]. Qed.
Hint Resolve update_offset_conv : post.

Lemma lginterval_to_hwdate_conv c f i :
  post (same conv_view) (rtimer_lginterval_to_hwdate (F := F) c f i).
Proof.
  unfold rtimer_lginterval_to_hwdate, rtimer_avg_rate, rtimer_coarse_now.
  post_step; [post_auto|]. destruct (scale_interval _ _), i; post_auto.
Qed.
Hint Resolve lginterval_to_hwdate_conv : post.

Lemma lgdate_to_hwdate_conv c f : post (same conv_view) (rtimer_lgdate_to_hwdate (F := F) c f).
Proof.
  unfold rtimer_lgdate_to_hwdate, rtimer_coarse_now, rtimer_fine_offset.
  post_auto; by apply post_assign.
Qed.

Lemma read_regs_soft : post (same soft_view) (read_regs (F := F)).
Proof. intros s a s'. unfold read_regs. destruct (reads s); [done|]. by intros [= <- <-]. Qed.
Hint Resolve read_regs_soft : post.
Lemma rate_loop_soft n : post (same soft_view) (rate_loop (F := F) n).
Proof. induction n as [|n IH]; simpl; post_auto. Qed.
Lemma clock_get_rate_soft : post (same soft_view) (clock_get_rate (F := F)).
Proof. intros s a s' E. by eapply rate_loop_soft. Qed.
Hint Resolve clock_get_rate_soft : post.
Lemma get_rt_same {E} (f : St -> E) i : post (same f) (get_rt i).
Proof. intros s a s'. unfold get_rt. destruct (rt s !! i); [|done]. by intros [= <- <-]. Qed.
Hint Resolve get_rt_same : post.

Lemma hf_compare_soft tb : post (same soft_view) (hf_compare (F := F) tb).
Proof. unfold hf_compare. post_auto. Qed.
Hint Resolve hf_compare_soft : post.
Lemma lf_callback_soft : post (same soft_view) (RTIMER_LF_CALLBACK (F := F)).
Proof. unfold RTIMER_LF_CALLBACK, rtimer_coarse_now. post_auto; by apply post_assign. Qed.
Hint Resolve lf_callback_soft : post.
Lemma lf_update_soft : post (same soft_view) (rtimer_lf_update (F := F)).
Proof. unfold rtimer_lf_update. post_auto; by apply post_assign. Qed.

Hint Resolve lgdate_to_hwdate_conv lf_update_soft : post.

(** The outcome of [rtimer_schedule] on an existing timer that is not in
    single-pass mode, for a date that is not zero. *)
Inductive scheduled (timer : nat) (interval : rtimer_scheduletype_t) (time_coarse time_fine : Z)
    (func : option F) (st : St) : Z -> St -> Prop :=
  | schedule_too_late st' :
      rt st' = alter (fun r => r <| rt_func := func |>) timer (rt st) ->
      (TACCR2 st', TACCTL2_CCIE st', TBCCR4 st', TBCCTL4_CCIE st', TBCCR5 st', TBCCTL5_CCIE st')
        = (TACCR2 st, TACCTL2_CCIE st, TBCCR4 st, TBCCTL4_CCIE st, TBCCR5 st, TBCCTL5_CCIE st) ->
      scheduled timer interval time_coarse time_fine func st 0 st'
  | schedule_ok st' coarse_lg fine_lg coarse_mod fine_mod quick_ref :
      too_late coarse_mod fine_mod (coarse_count st) quick_ref = false ->
      (interval = RTIMER_DATE -> (coarse_lg, fine_lg) = (time_coarse, time_fine)) ->
      (interval <> RTIMER_DATE -> exists offset,
         (coarse_lg, fine_lg) = rtimer_hwdate_to_lgdate coarse_mod fine_mod offset) ->
      rt st' = alter (fun _ => mk_rtimer coarse_lg fine_lg coarse_mod fine_mod
                        (date_ta fine_mod) (date_tb fine_mod) func RTIMER_SCHEDULED)
                 timer (rt st) ->
      scheduled timer interval time_coarse time_fine func st 1 st'.

Lemma conv_view_fields st st' :
  conv_view st' = conv_view st ->
  rt st' = rt st /\ coarse_count st' = coarse_count st /\
  scheduler_state st' = scheduler_state st /\
  (TACCR2 st', TACCTL2_CCIE st', TBCCR4 st', TBCCTL4_CCIE st', TBCCR5 st', TBCCTL5_CCIE st')
    = (TACCR2 st, TACCTL2_CCIE st, TBCCR4 st, TBCCTL4_CCIE st, TBCCR5 st, TBCCTL5_CCIE st).
Proof. unfold conv_view. intros H. split_and!; congruence. Qed.

Lemma arm_wp timer fine_mod st :
  wp (arm timer fine_mod) (fun v st' => v = 1 /\ scheduler_state st' = scheduler_state st /\
    coarse_count st' = coarse_count st /\
    rt st' = alter (fun r => r <| rt_ta := date_ta fine_mod |> <| rt_tb := date_tb fine_mod |>
                               <| rt_state := RTIMER_SCHEDULED |>) timer (rt st)) st.
Proof.
  unfold arm, upd_rt. apply wp_bind, wp_modify, wp_bind.
  eapply wp_post; [apply lf_update_soft|]. intros [] st1 _ Hs. apply wp_ret.
  unfold same, soft_view in Hs. rsimpl. split_and!; congruence.
Qed.

(** Both ways of scheduling end alike: with the date converted, free the
    scheduler, refuse a date too close, or record it and arm the timer. *)
Lemma schedule_tail_wp timer interval tc tf func st0 st1 (set : rtimer_t F -> rtimer_t F)
    coarse_mod fine_mod quick_ref now cl fl :
  rt st1 = alter (fun r => r <| rt_func := func |>) timer (rt st0) ->
  coarse_count st1 = coarse_count st0 -> now = coarse_count st0 ->
  scheduler_state st1 = FREE ->
  (interval = RTIMER_DATE -> (cl, fl) = (tc, tf)) ->
  (interval <> RTIMER_DATE -> exists offset,
     (cl, fl) = rtimer_hwdate_to_lgdate coarse_mod fine_mod offset) ->
  too_late coarse_mod fine_mod now quick_ref = false ->
  (forall r, set r = r <| time_coarse_lg := cl |> <| time_fine_lg := fl |>
                       <| time_coarse_hw := coarse_mod |> <| time_fine_hw := fine_mod |>) ->
  wp (upd_rt timer set ;; arm timer fine_mod)
    (fun v st' => scheduler_state st' = FREE /\ coarse_count st' = coarse_count st0 /\
       scheduled timer interval tc tf func st0 v st') st1.
Proof.
  intros Hrt Hc -> Hs Hd Hi Hl Hset. unfold upd_rt. apply wp_bind, wp_modify.
  eapply wp_mono; [apply arm_wp|]. intros v st' (-> & E1 & E2 & E3). rsimpl.
  split_and!; [congruence..|]. eapply schedule_ok; [done..|].
  rewrite E3, Hrt. apply list_eq. intros i.
  destruct (decide (i = timer)) as [->|]; [|by rewrite !list_lookup_alter_ne].
  rewrite !list_lookup_alter_eq. destruct (rt st0 !! timer) as [[]|]; [|done].
  simpl. by rewrite Hset.
Qed.

Lemma rtimer_schedule_wp timer interval tc tf func st r :
  (timer < NUM_OF_RTIMERS)%nat -> ~ (tc = 0 /\ tf = 0) ->
  rt st !! timer = Some r -> rt_state r <> RTIMER_SINGLEPASS ->
  wp (rtimer_schedule timer interval tc tf func)
    (fun v st' => scheduler_state st' = FREE /\ coarse_count st' = coarse_count st /\
       scheduled timer interval tc tf func st v st') st.
Proof.
  intros Ht Hz Hr Hs. unfold rtimer_schedule.
  rewrite (proj2 (Nat.ltb_lt _ _) Ht). simpl.
  replace ((tc =? 0) && (tf =? 0)) with false
    by (destruct (Z.eqb_spec tc 0), (Z.eqb_spec tf 0); try done; exfalso; auto).
  apply wp_bind. intros r' s1 E1. unfold get_rt in E1. rewrite Hr in E1. injection E1 as <- <-.
  rewrite decide_False by done. apply wp_bind, wp_modify, wp_bind, wp_modify.
  set (s1 := st <| rt ::= _ |> <| scheduler_state := OCCUPIED |>).
  case_decide as Hi.
  - apply wp_bind. eapply wp_post; [apply lgdate_to_hwdate_conv|].
    intros [quick_ref [cm fm]] s2 _ Hv. apply conv_view_fields in Hv as (V1 & V2 & V3 & V4).
    apply wp_bind, wp_gets, wp_bind, wp_modify.
    destruct (too_late cm fm (coarse_count s2) quick_ref) eqn:El.
    + apply wp_ret. split_and!; [done..|]. by apply schedule_too_late.
    + eapply schedule_tail_wp; try done.
  - apply wp_bind. eapply wp_post; [apply lginterval_to_hwdate_conv|].
    intros [quick_ref [cm fm]] s2 _ Hv. apply conv_view_fields in Hv as (V1 & V2 & V3 & V4).
    apply wp_bind, wp_gets, wp_bind, wp_modify.
    destruct (too_late cm fm (coarse_count s2) quick_ref) eqn:El.
    + apply wp_ret. split_and!; [done..|]. by apply schedule_too_late.
    + apply wp_bind, wp_gets. destruct (rtimer_hwdate_to_lgdate _ _ _) as [cl fl] eqn:Eh.
      eapply (schedule_tail_wp _ _ _ _ _ _ _ _ _ _ _ _ cl fl); try done. eauto.
Qed.

(** ** Termination

    Good readings: every rate is plausible and every capture usable.  [runs k m]
    says that [m] returns, consuming at most [k] of them. *)
Definition steady (l : list reg_read) : Prop :=
  forall r1 r2, r1 ∈ l -> r2 ∈ l ->
    implausible (reading_rate r1) = false /\
    exists n, n <> 0 /\
      rtimer_stamps_to_now (r_TACCR1 r2) (r_TBCCR3 r2) (r_TACCR0 r2 -16 RTIMER_AB_UPDATE)
        (r_TBCCR0 r2) (reading_rate r1) = Ok n.
Definition ready (n : nat) (st : St) : Prop :=
  steady (reads st) /\ (n <= length (reads st))%nat /\ clock_free st /\
  length (rt st) = NUM_OF_RTIMERS.
Definition runs {A} (k : nat) (m : M St A) : Prop :=
  forall n st, ready (k + n) st -> exists a st', m st = Ok (a, st') /\ ready n st'.

Lemma runs_weaken {A} k k' (m : M St A) : (k <= k')%nat -> runs k m -> runs k' m.
Proof.
  intros Hk Hm n st (H1 & H2 & H3). destruct (Hm (k' - k + n)%nat st) as (a & st' & E & H1' & H2' & H3').
  - split; [done|]. split; [lia|done].
  - exists a, st'. split; [done|]. split; [done|]. split; [lia|done].
Qed.
Lemma runs_bind {A B} k1 k2 (m : M St A) (f : A -> M St B) :
  runs k1 m -> (forall a, runs k2 (f a)) -> runs (k1 + k2) (m ≫= f).
Proof.
  intros Hm Hf n st H. destruct (Hm (k2 + n)%nat st) as (a & s1 & E1 & R1).
  { by rewrite Nat.add_assoc. }
  destruct (Hf a n s1 R1) as (b & s2 & E2 & R2). exists b, s2.
  by rewrite (bind_Ok _ _ _ _ _ E1).
Qed.
Lemma runs_ret {A} (a : A) : runs 0 (mret a).
Proof. intros n st H. by exists a, st. Qed.
Lemma runs_gets {A} (f : St -> A) : runs 0 (gets f).
Proof. intros n st H. by exists (f st), st. Qed.
Lemma runs_skip : runs 0 skip.
Proof. intros n st H. by exists tt, st. Qed.
Lemma runs_modify (f : St -> St) :
  (forall st, reads (f st) = reads st /\ clock_state (f st) = clock_state st /\
     clock_priority (f st) = clock_priority st /\ length (rt (f st)) = length (rt st)) ->
  runs 0 (modify f).
Proof.
  intros Hf n st H. exists tt, (f st). split; [done|]. unfold ready, clock_free in *.
  destruct (Hf st) as (-> & -> & -> & ->). done.
Qed.
Lemma runs_when k b m : runs k m -> runs k (when b m).
Proof.
  intros H. destruct b; [done|]. eapply runs_weaken; [|apply runs_skip]. lia.
Qed.

Lemma steady_tail r l : steady (r :: l) -> steady l.
Proof. intros H r1 r2 H1 H2. apply H; by right. Qed.

Lemma runs_read_regs : runs 1 read_regs.
Proof.
  intros n st (H1 & H2 & H3 & H4). unfold read_regs.
  destruct (reads st) as [|r l] eqn:E; [simpl in H2; lia|]. eexists _, _. split; [done|].
  unfold ready. rsimpl. split; [by eapply steady_tail|]. simpl in H2. split; [lia|done].
Qed.
Lemma runs_clock_get_rate : runs 1 clock_get_rate.
Proof.
  intros n st (H1 & H2 & H3 & H4).
  destruct (reads st) as [|r l] eqn:E; [simpl in H2; lia|].
  destruct (H1 r r ltac:(left) ltac:(left)) as [Hr _].
  exists (reading_rate r), (st <| reads := l |>). split; [by apply clock_get_rate_ok|].
  unfold ready. rsimpl. split; [by eapply steady_tail|]. simpl in H2. split; [lia|done].
Qed.
Lemma runs_get_rt i : (i < NUM_OF_RTIMERS)%nat -> runs 0 (get_rt i).
Proof.
  intros Hi n st H. unfold get_rt.
  destruct (lookup_lt_is_Some_2 (rt st) i) as [r ->]; [|by exists r, st].
  destruct H as (_ & _ & _ & ->). done.
Qed.
Lemma runs_upd_rt i f : runs 0 (upd_rt i f).
Proof. apply runs_modify. intros st. rsimpl. by rewrite length_alter. Qed.

Lemma runs_now_fine : runs 2 rtimer_now_fine.
Proof.
  intros n st (H1 & H2 & H3 & H4).
  destruct (reads st) as [|r1 [|r2 l]] eqn:E; [simpl in H2; lia..|].
  destruct (H1 r1 r2 ltac:(left) ltac:(right; left)) as (Hr & m & Hm & Hs).
  set (st1 := st <| clock_priority := OCCUPIED |> <| clock_state := OCCUPIED |>).
  destruct (sample_once_ok r1 r2 l m st1 E Hr Hs) as [sp Esp].
  assert (Es : sample st1 =
    Ok ((sp, m), st1 <| reads := r2 :: l |> <| reads := l |> <| clock_state := FREE |>)).
  { unfold sample. change (reads st1) with (reads st). rewrite E. cbn [length sample_loop].
    rewrite (bind_Ok _ _ _ _ _ Esp). by rewrite (proj2 (Z.eqb_neq _ _) Hm). }
  eexists m, _. split.
  - unfold rtimer_now_fine, res_map, sample_priority. rewrite bind_modify.
    erewrite bind_Ok by (unfold wait_free; rsimpl; by rewrite (proj1 H3)). rewrite bind_modify.
    erewrite bind_Ok by exact Es. done.
  - split; [rsimpl; by do 2 eapply steady_tail|]. simpl in H2. split; [rsimpl; lia|].
    split; [by split|]. done.
Qed.

Lemma runs_if {A} k1 k2 (b : bool) (m1 m2 : M St A) :
  runs k1 m1 -> runs k2 m2 -> runs (Nat.max k1 k2) (if b then m1 else m2).
Proof. intros H1 H2. destruct b; eapply runs_weaken; [|done| |done]; lia. Qed.
Lemma runs_decide {A} k1 k2 P `{Decision P} (m1 m2 : M St A) :
  runs k1 m1 -> runs k2 m2 -> runs (Nat.max k1 k2) (if decide P then m1 else m2).
Proof. intros H1 H2. destruct (decide P); eapply runs_weaken; [|done| |done]; lia. Qed.

Ltac runs_step :=
  lazymatch goal with
  | |- runs _ (mbind _ _) => eapply runs_bind; [|intros]
  | |- runs _ (mret _) => apply runs_ret
  | |- runs _ (gets _) => apply runs_gets
  | |- runs _ skip => apply runs_skip
  | |- runs _ (modify _) => apply runs_modify; intros; by split_and!
  | |- runs _ read_regs => apply runs_read_regs
  | |- runs _ clock_get_rate => apply runs_clock_get_rate
  | |- runs _ rtimer_now_fine => apply runs_now_fine
  | |- runs _ (upd_rt _ _) => apply runs_upd_rt
  | |- runs _ (get_rt _) => apply runs_get_rt; first [assumption | unfold RTIMER_0, RTIMER_1, NUM_OF_RTIMERS; lia]
  | |- runs _ (when _ _) => apply runs_when
  | |- runs _ (if decide _ then _ else _) => apply runs_decide
  | |- runs _ (let '(_, _) := ?p in _) => destruct p
  | |- runs _ (if _ then _ else _) => apply runs_if
  end.
Ltac runs_auto := eapply runs_weaken; cycle 1; [solve [repeat runs_step] | simpl; lia].

Lemma runs_hf_compare tb : runs 2 (hf_compare tb).
Proof. unfold hf_compare. runs_auto. Qed.
Lemma runs_lf_callback : runs 4 RTIMER_LF_CALLBACK.
Proof.
  unfold RTIMER_LF_CALLBACK, rtimer_coarse_now. pose proof runs_hf_compare.
  eapply runs_weaken; cycle 1; [repeat first [apply runs_hf_compare|runs_step]|simpl; lia].
Qed.

Lemma earliest_bound (timers : list (rtimer_t F)) timer c f use i :
  earliest timers timer c f use = Some i -> use = Some i \/ (timer <= i < timer + length timers)%nat.
Proof.
  revert timer c f use. induction timers as [|r timers IH]; intros timer c f use; simpl; [auto|].
  repeat case_match; intros E; apply IH in E as [E|E]; auto; try (right; lia).
  injection E as <-. right. lia.
Qed.

Lemma runs_lf_update : runs 5 rtimer_lf_update.
Proof.
  intros n st H. unfold rtimer_lf_update. rewrite bind_gets.
  destruct (earliest (rt st) 0 _ _ None) as [i|] eqn:E.
  - apply earliest_bound in E as [|E]; [done|].
    assert (Hi : (i < NUM_OF_RTIMERS)%nat) by (destruct H as (_ & _ & _ & Hl); lia).
    clear E. revert n st H. change (runs 5 (r ← get_rt i;
      (TACCTL2_CCIE <~ true) ;;
      (TACCR2 <~ (rt_ta r -16 RTIMER_AB_UPDATE)) ;;
      regs ← read_regs;
      cmp ← gets TACCR2;
      when ((rt_ta r <? (r_TACCR0 regs +16 RTIMER_AB_UPDATE)) || (r_TACCR1 regs =? cmp))
        ((TACCTL2_CCIE <~ false) ;; RTIMER_LF_CALLBACK))).
    eapply runs_weaken; cycle 1; [repeat first [apply runs_lf_callback|runs_step]|simpl; lia].
  - eapply (runs_weaken 0 5); [lia| |done]. runs_step.
Qed.

Lemma runs_lginterval_to_hwdate c f i : runs 2 (rtimer_lginterval_to_hwdate c f i).
Proof.
  unfold rtimer_lginterval_to_hwdate, rtimer_avg_rate, rtimer_coarse_now.
  eapply (runs_bind 0 2); [runs_step|intros rate]. destruct (scale_interval _ _), i; runs_auto.
Qed.
Lemma runs_lgdate_to_hwdate c f : runs 4 (rtimer_lgdate_to_hwdate c f).
Proof.
  unfold rtimer_lgdate_to_hwdate, rtimer_coarse_now, rtimer_fine_offset, rtimer_update_offset.
  eapply runs_weaken; cycle 1.
  { repeat first [apply runs_lginterval_to_hwdate|runs_step]. } simpl. lia.
Qed.
Lemma runs_schedule timer interval tc tf func :
  runs 9 (rtimer_schedule timer interval tc tf func).
Proof.
  unfold rtimer_schedule.
  destruct (Nat.ltb_spec timer NUM_OF_RTIMERS) as [Ht|]; simpl; [|runs_auto].
  eapply runs_weaken; cycle 1.
  { repeat first [apply runs_lgdate_to_hwdate|apply runs_lginterval_to_hwdate
                 |apply runs_lf_update|unfold arm, rtimer_coarse_now, rtimer_estimate_offset; runs_step]. }
  simpl. lia.
Qed.

End scheduling.


(** ** Which timer the compare interrupt serves *)

(** The order of hardware dates. *)
Definition date_le {F} (r s : rtimer_t F) : Prop :=
  time_coarse_hw r < time_coarse_hw s \/
  (time_coarse_hw r = time_coarse_hw s /\ time_fine_hw r <= time_fine_hw s).

Section selection.
Context {DF : DoubleFormat} {F : Type}.
Implicit Types st : rtimer_st F.

(** C36. The compare interrupt is programmed for the timer with the earliest
    hardware date, except in one configuration: both timers armed, timer 1
    strictly earlier in coarse time but later in fine time.  There the search
    keeps timer 0, the later of the two. *)
Theorem earliest_is_minimum (r0 r1 : rtimer_t F) :
  rt_state r0 = RTIMER_SCHEDULED -> rt_state r1 = RTIMER_SCHEDULED ->
  in_u 32 (time_coarse_hw r0) -> in_u 32 (time_fine_hw r0) ->
  in_u 32 (time_coarse_hw r1) -> in_u 32 (time_fine_hw r1) ->
  let i := earliest [r0; r1] 0 (2 ^ 32 - 1) (2 ^ 32 - 1) None in
  ((i = Some 0%nat /\ date_le r0 r1) \/ (i = Some 1%nat /\ date_le r1 r0))
  <-> ~ (time_coarse_hw r1 < time_coarse_hw r0 /\ time_fine_hw r0 < time_fine_hw r1).
Proof.
  unfold in_u, date_le. change (2 ^ 32) with 4294967296. intros S0 S1 H1 H2 H3 H4. cbn [earliest].
  rewrite !decide_True by done.
  rewrite (proj2 (Z.leb_le (time_coarse_hw r0) (4294967296 - 1))) by lia.
  rewrite (proj2 (Z.leb_le (time_fine_hw r0) (4294967296 - 1))) by lia.
  destruct (Z.leb_spec (time_coarse_hw r1) (time_coarse_hw r0)),
    (Z.leb_spec (time_fine_hw r1) (time_fine_hw r0)); intuition (first [congruence|lia]).
Qed.
End selection.

Lemma earliest_is_minimum_witness :
  let r0 := mk_rtimer 0 0 3 10 0 0 (Some tt) RTIMER_SCHEDULED in
  let r1 := mk_rtimer 0 0 2 20 0 0 (Some tt) RTIMER_SCHEDULED in
  let i := earliest [r0; r1] 0 (2 ^ 32 - 1) (2 ^ 32 - 1) None in
  i = Some 0%nat /\
  (((i = Some 0%nat /\ date_le r0 r1) \/ (i = Some 1%nat /\ date_le r1 r0))
   <-> ~ (time_coarse_hw r1 < time_coarse_hw r0 /\ time_fine_hw r0 < time_fine_hw r1)).
Proof.
  intros r0 r1 i. split; [reflexivity|].
  apply (earliest_is_minimum r0 r1); [reflexivity..| | | |]; simpl; unfold in_u; lia.
Defined.

Section callback.
Context {DF : DoubleFormat} {F : Type}.
Implicit Types st : rtimer_st F.

(** When the compare interrupt hits at the compare value of timer 1 and timer
    0 does not share it, the interrupt arms the fine compare of neither timer:
    the date of timer 1 is missed. *)
Theorem lf_callback_misses_timer1 st r0 r1 :
  rt st !! RTIMER_0 = Some r0 -> rt st !! RTIMER_1 = Some r1 ->
  rt_state r1 = RTIMER_SCHEDULED -> time_coarse_hw r1 <= coarse_count st ->
  TACCR2 st = (rt_ta r1 -16 RTIMER_AB_UPDATE) ->
  (rt_ta r1 -16 RTIMER_AB_UPDATE) <> (rt_ta r0 -16 RTIMER_AB_UPDATE) ->
  RTIMER_LF_CALLBACK st = Ok (tt, st).
Proof.
  intros H0 H1 Hs Hc Hcmp Hne. unfold RTIMER_LF_CALLBACK, rtimer_coarse_now.
  erewrite bind_Ok by (unfold get_rt; by rewrite H0).
  erewrite bind_Ok by (unfold get_rt; by rewrite H1). rewrite !bind_gets, Hcmp.
  rewrite (proj2 (Z.eqb_neq _ _) Hne), !andb_false_r. done.
Qed.

(** ** Logical time *)

(** The logical time of the start of the current coarse unit, up to the wrap of
    the coarse count. *)
Definition logical st : Z := coarse_count st * RTIMER_FINE_MAX + fine_offset st.

Lemma normalise_offset_logical st : u32 (logical (normalise_offset st)) = u32 (logical st).
Proof.
  unfold normalise_offset, logical. change RTIMER_FINE_MAX with 67108863.
  repeat case_match; rsimpl; uwrap_lia.
Qed.
Lemma normalise_offset_rt st :
  rt (normalise_offset st) = rt st /\ scheduler_state (normalise_offset st) = scheduler_state st.
Proof. unfold normalise_offset. repeat case_match; by split. Qed.

Lemma reschedule_idle i st r :
  rt st !! i = Some r -> rt_state r <> RTIMER_SCHEDULED -> reschedule i st = Ok (tt, st).
Proof.
  intros Hr Hs. unfold reschedule. erewrite bind_Ok by (unfold get_rt; by rewrite Hr).
  by rewrite bool_decide_false.
Qed.

(** With no timer armed, [rtimer_adjust_fine_offset diff] moves the logical
    time back by exactly [diff] ticks, whichever of the two corrections between
    the coarse count and the offset it makes, and records the new offset as the
    one the schedule is based on; with the scheduler busy it never returns. *)
Theorem adjust_fine_offset_spec st diff r0 r1 :
  rt st = [r0; r1] -> rt_state r0 <> RTIMER_SCHEDULED -> rt_state r1 <> RTIMER_SCHEDULED ->
  match scheduler_state st with
  | OCCUPIED => rtimer_adjust_fine_offset diff st = Err FHang
  | FREE => exists st', rtimer_adjust_fine_offset diff st = Ok (tt, st') /\
      u32 (logical st') = u32 (logical st - diff) /\
      scheduler_fine_offset_ref st' = fine_offset st' /\ rt st' = rt st
  end.
Proof.
  intros Hrt H0 H1. unfold rtimer_adjust_fine_offset.
  destruct (scheduler_state st) eqn:Hs; [|by erewrite bind_Err by (unfold wait_free; by rewrite Hs)].
  erewrite bind_Ok by (unfold wait_free; by rewrite Hs). rewrite !bind_modify, bind_gets.
  set (s1 := normalise_offset _).
  assert (Hrt1 : rt s1 = [r0; r1]).
  { unfold s1. by rewrite (proj1 (normalise_offset_rt _)). }
  assert (Hl : u32 (logical s1) = u32 (logical st - diff)).
  { unfold s1. rewrite normalise_offset_logical. unfold logical. rsimpl. uwrap_lia. }
  exists (s1 <| scheduler_fine_offset_ref := fine_offset s1 |>).
  split; [|split; [exact Hl|split; [done|rsimpl; congruence]]].
  destruct (_ || _); [|done]. cbn [when].
  rewrite (bind_Ok _ _ s1 tt s1); [done|].
  rewrite (bind_Ok _ _ _ _ _ (reschedule_idle RTIMER_0 s1 r0 ltac:(by rewrite Hrt1) H0)).
  apply (reschedule_idle _ _ r1); [by rewrite Hrt1|done].
Qed.

End callback.

Lemma lf_callback_misses_timer1_witness :
  let r0 := mk_rtimer 0 0 0 0 400 0 None RTIMER_INACTIVE in
  let r1 := mk_rtimer 0 0 5 0 800 0 (Some tt) RTIMER_SCHEDULED in
  let st := (st_example reads_example) <| rt := [r0; r1] |> <| TACCR2 := 796 |> in
  @RTIMER_LF_CALLBACK binary32 unit st = Ok (tt, st).
Proof.
  intros r0 r1 st.
  by apply (lf_callback_misses_timer1 (DF := binary32) st r0 r1); vm_compute.
Defined.

Lemma adjust_fine_offset_spec_witness :
  let st := (st_example reads_example) <| rt := [rtimer_zero; rtimer_zero] |> in
  exists st', @rtimer_adjust_fine_offset binary32 unit 300 st = Ok (tt, st') /\
    u32 (logical st') = u32 (logical st - 300) /\
    scheduler_fine_offset_ref st' = fine_offset st' /\ rt st' = rt st.
Proof.
  intros st. by apply (adjust_fine_offset_spec (DF := binary32) st 300 rtimer_zero rtimer_zero).
Defined.

(** ** Logical dates to hardware dates *)

Section conversion.
Context {DF : DoubleFormat} {F : Type}.
Implicit Types st : rtimer_st F.

Lemma scale_interval_ticks rate i :
  in_u 32 i -> d_trunc (d_mul (d_of_Z i) (d_add (d_of_Z 1) rate)) = Some i ->
  let '(c, f) := scale_interval rate i in
  ticks RTIMER_FINE_MAX c f = i /\ 0 <= c < 65 /\ 0 <= f <= RTIMER_FINE_MAX.
Proof.
  unfold in_u. intros Hi Hx. unfold scale_interval, ticks.
  rewrite (d_to_u_trunc 32 _ i Hx Hi). change RTIMER_FINE_MAX with 67108863.
  change (2 ^ 32) with 4294967296 in Hi.
  destruct (Z.ltb_spec 67108863 i); Z.div_mod_to_equations; lia.
Qed.

Lemma add_interval_ticks c f c0 f0 :
  0 <= c < 65 -> 0 <= c0 < 2 ^ 32 - 70 -> 0 <= f <= RTIMER_FINE_MAX ->
  0 <= f0 <= RTIMER_FINE_MAX ->
  let '(c', f') := add_interval c f c0 f0 in
  ticks RTIMER_FINE_MAX c' f' = ticks RTIMER_FINE_MAX c f + ticks RTIMER_FINE_MAX c0 f0.
Proof.
  intros H1 H2 H3 H4. unfold add_interval, ticks.
  change RTIMER_FINE_MAX with 67108863 in *.
  match goal with |- context [67108863 <? ?x] => destruct (Z.ltb_spec 67108863 x) end;
    uwrap_lia.
Qed.

(** The references an interval is counted from are the ones just sampled. *)
Lemma lgdate_to_hwdate_result tc tf st q date st' :
  rtimer_lgdate_to_hwdate tc tf st = Ok ((q, date), st') ->
  let '(lc, lf) := rtimer_hwdate_to_lgdate (coarse_count st) (fine_schedule_ref st') (fine_offset st') in
  let '(c, f) := scale_interval (avg_rate st) (rtimer_interval tc tf lc lf) in
  date = add_interval c f (coarse_count st) (fine_schedule_ref st').
Proof.
  unfold rtimer_lgdate_to_hwdate, rtimer_coarse_now, rtimer_fine_offset. rewrite bind_gets.
  intros (now & s1 & E1 & E)%bind_inv. rewrite !bind_modify in E.
  unfold rtimer_update_offset in E. rewrite bind_modify, bind_gets in E.
  apply rtimer_now_fine_core in E1. unfold same, core_view in E1.
  destruct (rtimer_hwdate_to_lgdate _ _ _) as [lc lf] eqn:El.
  cbn [rtimer_lgdates_to_lg_interval] in E.
  unfold rtimer_lginterval_to_hwdate, rtimer_avg_rate in E. rewrite bind_gets in E. rsimpl.
  assert (Hr : avg_rate s1 = avg_rate st) by congruence. rewrite Hr in E.
  destruct (scale_interval _ _) as [c f] eqn:Es. rewrite !bind_gets in E. rsimpl.
  apply bind_inv in E as (now' & s2 & E2 & E). injection E as <- <- <-.
  apply rtimer_now_fine_core in E2. unfold same, core_view in E2. rsimpl.
  assert (fine_schedule_ref s2 = now) as -> by congruence.
  assert (Ho : fine_offset s2 = fine_offset s1 +32
    d_to_u 32 (d_mul (d_of_Z (rtimer_interval (coarse_count st) now (coarse_offset_ref s1)
      (fine_offset_ref s1))) (avg_rate s1))) by congruence.
  rewrite Ho. rewrite Hr in *. rewrite El, Es. done.
Qed.

(** Converting a logical date in the future to a hardware date is not exact:
    the interval counts [2^26] ticks per coarse unit where every other
    conversion counts [2^26 - 1], so the hardware date is late by one tick for
    each complete coarse unit between now and the date (rate 1; less than 63
    units ahead). *)
Theorem lgdate_to_hwdate_drift tc tf st q c f st' lc lf :
  rtimer_lgdate_to_hwdate tc tf st = Ok ((q, (c, f)), st') ->
  rtimer_hwdate_to_lgdate (coarse_count st) (fine_schedule_ref st') (fine_offset st') = (lc, lf) ->
  0 <= coarse_count st < 2 ^ 32 - 70 -> 0 <= fine_schedule_ref st' <= RTIMER_FINE_MAX ->
  0 <= fine_offset st' <= 2 * RTIMER_FINE_MAX -> 0 <= tf <= RTIMER_FINE_MAX ->
  lc < tc < lc + 63 \/ (tc = lc /\ lf < tf) ->
  let i := rtimer_interval tc tf lc lf in
  d_trunc (d_mul (d_of_Z i) (d_add (d_of_Z 1) (avg_rate st))) = Some i ->
  ticks RTIMER_FINE_MAX c f + fine_offset st' =
    ticks RTIMER_FINE_MAX tc tf + (tc - lc - b2z (tf <=? lf)).
Proof.
  intros E El Hc Hf Ho Htf Hlt i Hx. apply lgdate_to_hwdate_result in E. rewrite El in E.
  assert (Hl := hwdate_to_lgdate_ticks (coarse_count st) _ _ ltac:(lia) Hf Ho). rewrite El in Hl.
  destruct Hl as (Hl & Hlf & Hlc). assert (Hi : in_u 32 i) by apply rtimer_interval_range.
  assert (Hs := scale_interval_ticks _ _ Hi Hx). fold i in E.
  destruct (scale_interval _ _) as [c1 f1]. destruct Hs as (Hs1 & Hs2 & Hs3).
  assert (Ha := add_interval_ticks c1 f1 _ _ Hs2 Hc Hs3 Hf). rewrite <- E, Hs1 in Ha.
  assert (Hi' : i = ticks (2 ^ 26) tc tf - ticks (2 ^ 26) lc lf - b2z (tf <=? lf)).
  { unfold i, ticks in *. change RTIMER_FINE_MAX with 67108863 in *.
    rewrite rtimer_interval_ticks by (unfold in_u in *; change (2 ^ 32) with 4294967296 in *; lia).
    apply uwrap_small. unfold in_u, ticks. change (2 ^ 32) with 4294967296.
    change (2 ^ 26) with 67108864. destruct (Z.leb_spec tf lf); simpl; lia. }
  rewrite Hi' in Ha. unfold ticks in *. change RTIMER_FINE_MAX with 67108863 in *.
  change (2 ^ 26) with 67108864 in *. lia.
Qed.
End conversion.

Lemma lgdate_to_hwdate_drift_witness :
  let st := st_example (replicate 4 (mk_reg_read 104 8192 101 9000 4096)) in
  exists q c f st',
    @rtimer_lgdate_to_hwdate binary32 unit 8 103225 st = Ok ((q, (c, f)), st') /\
    ticks RTIMER_FINE_MAX c f + fine_offset st' = ticks RTIMER_FINE_MAX 8 103225 + (8 - 6 - 0).
Proof.
  intros st. destruct (rtimer_lgdate_to_hwdate 8 103225 st) as [[[q [c f]] st']|] eqn:E;
    [|by vm_compute in E].
  exists q, c, f, st'. split; [done|]. assert (E' := E). vm_compute in E'.
  injection E' as <- <- <- <-.
  apply (lgdate_to_hwdate_drift (DF := binary32) 8 103225 st _ _ _ _ 6 103209 E);
    [by vm_compute|vm_compute; split; congruence..|lia|by vm_compute].
Defined.
