(* ===== verification/Packetbuf.v ===== *)
(** * Packetbuf: the packet buffer and the queue buffers

    core/net/packetbuf.c keeps the one packet being built or examined in an array
    of [PACKETBUF_SIZE] bytes with a header that grows to the left of the data;
    core/net/queuebuf.c stores copies of it.  A read or write outside the array is
    [FWild].  Attributes and addresses are 16-bit numbers; the swap to flash and
    the statistics of queuebuf.c are compiled out in this configuration. *)
From stdpp Require Import numbers option list.
From S2P Require Import Prelude Memb.

Definition PACKETBUF_SIZE : Z := 128.
Definition PACKETBUF_ATTR_CSYNC_CONN_DOAES : nat := 13.
Definition PACKETBUF_ATTR_CSYNC_CONN_AES_XORPLAINTEXT_A : nat := 14.
Definition PACKETBUF_ATTR_CSYNC_CONN_AES_XORPLAINTEXT_B : nat := 15.
Definition PACKETBUF_ATTR_PACKET_TYPE : nat := 16.
Definition PACKETBUF_ATTR_PACKET_TYPE_TIMESTAMP : Z := 4.
Definition PACKETBUF_ADDR_FIRST : nat := 29.
Definition PACKETBUF_ADDR_SENDER : nat := 29.
Definition PACKETBUF_ADDR_RECEIVER : nat := 30.
Definition PACKETBUF_NUM_ATTRS : nat := 29.
Definition PACKETBUF_NUM_ADDRS : nat := 4.
Definition QUEUEBUF_NUM : nat := 16.

Record packetbuf_st := mk_packetbuf {
  packetbuf : list Z;
  buflen : Z;
  bufptr : Z;
  hdrlen : Z;
  packetbuf_attrs : list Z;
  packetbuf_addrs : list Z;
}.
#[export] Instance eta_packetbuf : Eta packetbuf_st := fun x =>
  mk_packetbuf (packetbuf x) (buflen x) (bufptr x) (hdrlen x) (packetbuf_attrs x)
    (packetbuf_addrs x).

Abbreviation PB := (M packetbuf_st).

(** ** Memory accesses *)

Definition pb_read (i : Z) : PB Z := fun st =>
  match (if 0 <=? i then packetbuf st !! Z.to_nat i else None) with
  | Some b => Ok (b, st)
  | None => Err FWild
  end.
Definition pb_write (i b : Z) : PB unit := fun st =>
  if (0 <=? i) && (i <? Z.of_nat (length (packetbuf st)))
  then Ok (tt, st <| packetbuf ::= <[Z.to_nat i := b]> |>)
  else Err FWild.

(** [memcpy] from and to the array. *)
Definition pb_load (i : Z) (n : nat) : PB (list Z) := fun st =>
  if (0 <=? i) && (i + Z.of_nat n <=? Z.of_nat (length (packetbuf st)))
  then Ok (take n (drop (Z.to_nat i) (packetbuf st)), st)
  else Err FWild.
Definition pb_store (i : Z) (bs : list Z) : PB unit := fun st =>
  if (0 <=? i) && (i + Z.of_nat (length bs) <=? Z.of_nat (length (packetbuf st)))
  then Ok (tt, st <| packetbuf ::= fun l =>
         take (Z.to_nat i) l ++ bs ++ drop (Z.to_nat i + length bs) l |>)
  else Err FWild.

(** ** packetbuf.c *)

Definition packetbuf_attr_clear : PB unit := modify (fun st => st
  <| packetbuf_attrs := replicate PACKETBUF_NUM_ATTRS 0 |>
  <| packetbuf_addrs := replicate PACKETBUF_NUM_ADDRS 0 |>).

Definition packetbuf_clear : PB unit :=
  modify (fun st => st <| bufptr := 0 |> <| buflen := 0 |>) ;;
  (hdrlen <~ 0) ;;
  packetbuf_attr_clear.

(** [from] holds [len] bytes. *)
Definition packetbuf_copyfrom (from : list Z) (len : Z) : PB Z :=
  packetbuf_clear ;;
  let l := Z.min PACKETBUF_SIZE len in
  pb_store 0 (take (Z.to_nat l) from) ;;
  (buflen <~ l) ;;
  mret l.

(** Pointers into the buffer are offsets; [packetbuf_hdrlen] is a [uint8_t]. *)
Definition packetbuf_hdrlen : PB Z := gets (fun st => bufptr st +8 hdrlen st).
Definition packetbuf_dataptr : PB Z := packetbuf_hdrlen.
Definition packetbuf_hdrptr : PB Z := mret 0.
Definition packetbuf_datalen : PB Z := gets buflen.
Definition packetbuf_set_datalen (len : Z) : PB unit := buflen <~ u16 len.
Definition packetbuf_totlen : PB Z :=
  h ← packetbuf_hdrlen; d ← packetbuf_datalen; mret (h +16 d).
Definition packetbuf_remaininglen : PB Z :=
  t ← packetbuf_totlen; mret (PACKETBUF_SIZE -16 t).

Definition packetbuf_compact : PB unit :=
  p ← gets bufptr;
  when (c_true p)
    (n ← gets buflen;
     forM (seq 0 (Z.to_nat n)) (fun i =>
       src ← packetbuf_hdrlen;
       dst ← gets hdrlen;
       b ← pb_read (src + Z.of_nat i);
       pb_write (dst + Z.of_nat i) b) ;;
     (bufptr <~ 0)).

(** Returns the bytes written to the destination with the length. *)
Definition packetbuf_copyto : PB (list Z * Z) :=
  h ← gets hdrlen;
  n ← gets buflen;
  if PACKETBUF_SIZE <? h + n then mret ([], 0)
  else
    p ← packetbuf_hdrptr;
    hdr ← pb_load p (Z.to_nat h);
    d ← packetbuf_dataptr;
    data ← pb_load d (Z.to_nat n);
    mret (hdr ++ data, h + n).

Definition packetbuf_hdralloc (size : Z) : PB Z :=
  t ← packetbuf_totlen;
  if PACKETBUF_SIZE <? size + t then mret 0
  else
    forM (rev (seq 0 (Z.to_nat t))) (fun i =>
      b ← pb_read (Z.of_nat i);
      pb_write (Z.of_nat i + size) b) ;;
    modify (fun st => st <| hdrlen ::= fun h => h +8 size |>) ;;
    mret 1.

Definition packetbuf_hdrreduce (size : Z) : PB Z :=
  n ← gets buflen;
  if n <? size then mret 0
  else
    modify (fun st => st <| bufptr ::= fun p => p +16 size |>
                         <| buflen ::= fun n => n -16 size |>) ;;
    mret 1.

Definition packetbuf_attr_copyto : PB (list Z * list Z) :=
  gets (fun st => (packetbuf_attrs st, packetbuf_addrs st)).
Definition packetbuf_attr_copyfrom (attrs addrs : list Z) : PB unit :=
  modify (fun st => st <| packetbuf_attrs := attrs |> <| packetbuf_addrs := addrs |>).
Definition packetbuf_set_attr (type : nat) (val : Z) : PB unit :=
  modify (fun st => st <| packetbuf_attrs ::= <[type := u16 val]> |>).
Definition packetbuf_attr (type : nat) : PB Z :=
  gets (fun st => packetbuf_attrs st !!! type).
Definition packetbuf_set_addr (type : nat) (addr : Z) : PB unit :=
  modify (fun st => st <| packetbuf_addrs ::= <[(type - PACKETBUF_ADDR_FIRST)%nat := addr]> |>).
Definition packetbuf_addr (type : nat) : PB Z :=
  gets (fun st => packetbuf_addrs st !!! (type - PACKETBUF_ADDR_FIRST)%nat).
Definition packetbuf_holds_broadcast : PB bool :=
  a ← packetbuf_addr PACKETBUF_ADDR_RECEIVER; mret (a =? 0).

(** ** queuebuf.c *)

Record queuebuf_data := mk_queuebuf_data {
  qd_data : list Z;
  qd_len : Z;
  qd_attrs : list Z;
  qd_addrs : list Z;
}.

(** A [struct queuebuf] is its [ram_ptr]. *)
Record queue_st := mk_queue {
  qu_packetbuf : packetbuf_st;
  bufmem : pool nat;
  buframmem : pool queuebuf_data;
}.
#[export] Instance eta_queue : Eta queue_st := fun x =>
  mk_queue (qu_packetbuf x) (bufmem x) (buframmem x).

Definition queuebuf_data_zero : queuebuf_data :=
  mk_queuebuf_data (replicate (Z.to_nat PACKETBUF_SIZE) 0) 0
    (replicate PACKETBUF_NUM_ATTRS 0) (replicate PACKETBUF_NUM_ADDRS 0).

Abbreviation QB := (M queue_st).

(** Allocation in one of the pools. *)
Definition bufmem_alloc : QB (option nat) := fun st =>
  let '(i, p) := pool_alloc (bufmem st) in Ok (i, st <| bufmem := p |>).
Definition buframmem_alloc : QB (option nat) := fun st =>
  let '(i, p) := pool_alloc (buframmem st) in Ok (i, st <| buframmem := p |>).

Definition queuebuf_init : QB unit := modify (fun st => st
  <| buframmem ::= pool_init queuebuf_data_zero |> <| bufmem ::= pool_init 0%nat |>).

Definition queuebuf_numfree : QB Z := gets (fun st =>
  Z.of_nat (length (filter (.= 0) (pl_count (bufmem st))))).

(** [queuebuf_load_to_ram]: the block the queue buffer points to. *)
Definition queuebuf_load_to_ram (b : nat) : QB nat := fun st =>
  match pl_blocks (bufmem st) !! b with Some r => Ok (r, st) | None => Err FWild end.
Definition ram_block (r : nat) : QB queuebuf_data := fun st =>
  match pl_blocks (buframmem st) !! r with Some d => Ok (d, st) | None => Err FWild end.

(** Copy the packet buffer and its attributes to the block [r]. *)
Definition store_packet (r : nat) : QB unit :=
  '(data, len) ← zoom qu_packetbuf packetbuf_copyto;
  '(attrs, addrs) ← zoom qu_packetbuf packetbuf_attr_copyto;
  modify (fun st => st <| buframmem ::= fun p =>
    p <| pl_blocks ::= alter (fun old =>
           mk_queuebuf_data (data ++ drop (length data) (qd_data old)) len attrs addrs) r |> |>).

Definition queuebuf_new_from_packetbuf : QB (option nat) :=
  buf ← bufmem_alloc;
  match buf with
  | None => mret None
  | Some b =>
      r ← buframmem_alloc;
      modify (fun st => st <| bufmem ::= fun p => p <| pl_blocks ::= <[b := default 0%nat r]> |> |>) ;;
      match r with
      | None =>
          modify (fun st => st <| bufmem ::= pool_free b |>) ;;
          mret None
      | Some r =>
          store_packet r ;;
          mret (Some b)
      end
  end.

Definition queuebuf_update_from_packetbuf (b : nat) : QB unit :=
  r ← queuebuf_load_to_ram b; store_packet r.

Definition queuebuf_update_attr_from_packetbuf (b : nat) : QB unit :=
  r ← queuebuf_load_to_ram b;
  '(attrs, addrs) ← zoom qu_packetbuf packetbuf_attr_copyto;
  modify (fun st => st <| buframmem ::= fun p =>
    p <| pl_blocks ::= alter (fun old =>
           mk_queuebuf_data (qd_data old) (qd_len old) attrs addrs) r |> |>).

(** A queue buffer is a block of [bufmem], so [memb_inmemb] holds. *)
Definition queuebuf_free (b : nat) : QB unit :=
  r ← queuebuf_load_to_ram b;
  modify (fun st => st <| buframmem ::= pool_free r |> <| bufmem ::= pool_free b |>).

Definition queuebuf_to_packetbuf (b : nat) : QB unit :=
  r ← queuebuf_load_to_ram b;
  d ← ram_block r;
  zoom qu_packetbuf (packetbuf_copyfrom (qd_data d) (qd_len d)) ;;
  zoom qu_packetbuf (packetbuf_attr_copyfrom (qd_attrs d) (qd_addrs d)).

Definition queuebuf_dataptr (b : nat) : QB (list Z) :=
  r ← queuebuf_load_to_ram b; d ← ram_block r; mret (qd_data d).
Definition queuebuf_datalen (b : nat) : QB Z :=
  r ← queuebuf_load_to_ram b; d ← ram_block r; mret (qd_len d).
Definition queuebuf_attr (b type : nat) : QB Z :=
  r ← queuebuf_load_to_ram b; d ← ram_block r; mret (qd_attrs d !!! type).
Definition queuebuf_addr (b type : nat) : QB Z :=
  r ← queuebuf_load_to_ram b; d ← ram_block r;
  mret (qd_addrs d !!! (type - PACKETBUF_ADDR_FIRST)%nat).

(** ** The packet as two sequences of bytes *)

Definition pb_header (st : packetbuf_st) : list Z := take (Z.to_nat (hdrlen st)) (packetbuf st).
Definition pb_payload (st : packetbuf_st) : list Z :=
  take (Z.to_nat (buflen st)) (drop (Z.to_nat (bufptr st + hdrlen st)) (packetbuf st)).

Record pb_wf (st : packetbuf_st) : Prop := {
  wf_size : length (packetbuf st) = Z.to_nat PACKETBUF_SIZE;
  wf_hdrlen : 0 <= hdrlen st;
  wf_bufptr : 0 <= bufptr st;
  wf_buflen : 0 <= buflen st;
  wf_total : bufptr st + hdrlen st + buflen st <= PACKETBUF_SIZE;
}.

Lemma pb_read_ok i b st :
  packetbuf st !! i = Some b -> pb_read (Z.of_nat i) st = Ok (b, st).
Proof.
  intros H. unfold pb_read. rewrite (proj2 (Z.leb_le _ _)) by lia. by rewrite Nat2Z.id, H.
Qed.
Lemma pb_write_ok i b st :
  (i < length (packetbuf st))%nat ->
  pb_write (Z.of_nat i) b st = Ok (tt, st <| packetbuf ::= <[i := b]> |>).
Proof.
  intros H. unfold pb_write. rewrite (proj2 (Z.leb_le _ _)), (proj2 (Z.ltb_lt _ _)) by lia.
  by rewrite Nat2Z.id.
Qed.

(** The loop of [packetbuf_compact]: copying upwards to a lower place. *)
Lemma shift_left_loop (src dst : packetbuf_st -> Z) (a b k n : nat) st :
  (forall l, src (st <| packetbuf := l |>) = Z.of_nat a /\ dst (st <| packetbuf := l |>) = Z.of_nat b) ->
  (b <= a)%nat -> (a + k + n <= length (packetbuf st))%nat ->
  exists l,
    forM (seq k n) (fun i =>
      s ← gets src; d ← gets dst;
      x ← pb_read (s + Z.of_nat i);
      pb_write (d + Z.of_nat i) x) st = Ok (tt, st <| packetbuf := l |>) /\
    length l = length (packetbuf st) /\
    forall j, l !! j = if decide (b + k <= j < b + k + n)%nat
                       then packetbuf st !! (j - b + a)%nat else packetbuf st !! j.
Proof.
  revert k st. induction n as [|n IH]; intros k st Hf Hab Hl.
  - exists (packetbuf st). split; [by destruct st|]. split; [done|]. intros j.
    by rewrite decide_False by lia.
  - destruct (lookup_lt_is_Some_2 (packetbuf st) (a + k)%nat) as [x Hx]; [lia|].
    set (l1 := <[(b + k)%nat := x]> (packetbuf st)).
    assert (Hl1 : length l1 = length (packetbuf st)) by (apply length_insert).
    destruct (IH (S k) (st <| packetbuf := l1 |>)) as (l & E & Hlen & Hl').
    { intros l. apply (Hf l). } { done. } { rsimpl. lia. }
    exists l. split; [|split; [by rewrite Hlen; rsimpl|]].
    + cbn [seq forM]. rewrite (bind_Ok _ _ _ tt (st <| packetbuf := l1 |>)); [exact E|].
      specialize (Hf (packetbuf st)). assert (Est : st <| packetbuf := packetbuf st |> = st) by by destruct st.
      rewrite Est in Hf. destruct Hf as [Hs Hd]. rewrite !bind_gets, Hs, Hd.
      rewrite <- !Nat2Z.inj_add. rewrite (bind_Ok _ _ _ _ _ (pb_read_ok _ _ _ Hx)).
      by rewrite pb_write_ok by lia.
    + intros j. rewrite Hl'. rsimpl. unfold l1.
      destruct (decide (j = b + k)%nat) as [->|Hj].
      * rewrite decide_False, decide_True by lia.
        rewrite list_lookup_insert_eq by lia. rewrite <- Hx. f_equal. lia.
      * destruct (decide (b + S k <= j < b + S k + n)%nat).
        -- rewrite (decide_True (P := (b + k <= j < b + k + S n)%nat)) by lia.
           by rewrite list_lookup_insert_ne by lia.
        -- rewrite (decide_False (P := (b + k <= j < b + k + S n)%nat)) by lia.
           by rewrite list_lookup_insert_ne by lia.
Qed.

(** The loop of [packetbuf_hdralloc]: copying downwards to a higher place. *)
Lemma shift_right_loop (size n : nat) st :
  (size + n <= length (packetbuf st))%nat ->
  exists l,
    forM (rev (seq 0 n)) (fun i =>
      x ← pb_read (Z.of_nat i);
      pb_write (Z.of_nat i + Z.of_nat size) x) st = Ok (tt, st <| packetbuf := l |>) /\
    length l = length (packetbuf st) /\
    forall j, l !! j = if decide (size <= j < size + n)%nat
                       then packetbuf st !! (j - size)%nat else packetbuf st !! j.
Proof.
  revert st. induction n as [|n IH]; intros st Hl.
  - exists (packetbuf st). split; [by destruct st|]. split; [done|]. intros j.
    by rewrite decide_False by lia.
  - destruct (lookup_lt_is_Some_2 (packetbuf st) n) as [x Hx]; [lia|].
    set (l1 := <[(n + size)%nat := x]> (packetbuf st)).
    assert (Hl1 : length l1 = length (packetbuf st)) by (apply length_insert).
    destruct (IH (st <| packetbuf := l1 |>)) as (l & E & Hlen & Hl'); [rsimpl; lia|].
    exists l. split; [|split; [by rewrite Hlen; rsimpl|]].
    + rewrite seq_S, rev_app_distr. cbn [rev app forM Nat.add].
      rewrite (bind_Ok _ _ _ tt (st <| packetbuf := l1 |>)); [exact E|].
      rewrite (bind_Ok _ _ _ _ _ (pb_read_ok _ _ _ Hx)). rewrite <- !Nat2Z.inj_add.
      by rewrite pb_write_ok by lia.
    + intros j. rewrite Hl'. rsimpl. unfold l1.
      destruct (decide (j = n + size)%nat) as [->|Hj].
      * rewrite decide_False, decide_True by lia.
        rewrite list_lookup_insert_eq by lia. rewrite <- Hx. f_equal. lia.
      * destruct (decide (size <= j < size + n)%nat).
        -- rewrite (decide_True (P := (size <= j < size + S n)%nat)) by lia.
           by rewrite list_lookup_insert_ne by lia.
        -- rewrite (decide_False (P := (size <= j < size + S n)%nat)) by lia.
           by rewrite list_lookup_insert_ne by lia.
Qed.

Inductive pb_call :=
  | PbClear
  | PbCopyfrom (from : list Z)
  | PbCopyto
  | PbCompact
  | PbHdralloc (size : Z)
  | PbHdrreduce (size : Z)
  | PbTotlen.
Inductive pb_value := PbUnit | PbInt (n : Z) | PbBytes (l : list Z) (n : Z).

Definition pb_exec (c : pb_call) : PB pb_value :=
  match c with
  | PbClear => packetbuf_clear ;; mret PbUnit
  | PbCopyfrom from => PbInt <$$> packetbuf_copyfrom from (Z.of_nat (length from))
  | PbCopyto => '(l, n) ← packetbuf_copyto; mret (PbBytes l n)
  | PbCompact => packetbuf_compact ;; mret PbUnit
  | PbHdralloc size => PbInt <$$> packetbuf_hdralloc size
  | PbHdrreduce size => PbInt <$$> packetbuf_hdrreduce size
  | PbTotlen => PbInt <$$> packetbuf_totlen
  end.

(** What each call promises, on the header and the payload; [gap] is the number
    of bytes reduced from the front and not yet compacted away. *)
Inductive pb_step : pb_call -> list Z * Z * list Z -> pb_value -> list Z * Z * list Z -> Prop :=
  | step_clear h g p : pb_step PbClear (h, g, p) PbUnit ([], 0, [])
  | step_copyfrom h g p from l :
      l = take (Z.to_nat PACKETBUF_SIZE) from ->
      pb_step (PbCopyfrom from) (h, g, p) (PbInt (Z.of_nat (length l))) ([], 0, l)
  | step_copyto h g p :
      pb_step PbCopyto (h, g, p) (PbBytes (h ++ p) (Z.of_nat (length (h ++ p)))) (h, g, p)
  | step_compact h g p : pb_step PbCompact (h, g, p) PbUnit (h, 0, p)
  | step_hdralloc h g p size room :
      size + Z.of_nat (length h) + g + Z.of_nat (length p) <= PACKETBUF_SIZE ->
      Z.of_nat (length room) = size ->
      pb_step (PbHdralloc size) (h, g, p) (PbInt 1) (room ++ h, g, p)
  | step_hdralloc_full h g p size :
      PACKETBUF_SIZE < size + Z.of_nat (length h) + g + Z.of_nat (length p) ->
      pb_step (PbHdralloc size) (h, g, p) (PbInt 0) (h, g, p)
  | step_hdrreduce h g p size :
      size <= Z.of_nat (length p) ->
      pb_step (PbHdrreduce size) (h, g, p) (PbInt 1) (h, g + size, drop (Z.to_nat size) p)
  | step_hdrreduce_short h g p size :
      Z.of_nat (length p) < size ->
      pb_step (PbHdrreduce size) (h, g, p) (PbInt 0) (h, g, p)
  | step_totlen h g p :
      pb_step PbTotlen (h, g, p) (PbInt (Z.of_nat (length h) + g + Z.of_nat (length p))) (h, g, p).

Definition pb_view (st : packetbuf_st) : list Z * Z * list Z :=
  (pb_header st, bufptr st, pb_payload st).

Section packetbuf_facts.
Implicit Types st : packetbuf_st.

Lemma pb_header_length st : pb_wf st -> Z.of_nat (length (pb_header st)) = hdrlen st.
Proof. intros []. unfold pb_header, PACKETBUF_SIZE in *. rewrite length_take. lia. Qed.
Lemma pb_payload_length st : pb_wf st -> Z.of_nat (length (pb_payload st)) = buflen st.
Proof. intros []. unfold pb_payload, PACKETBUF_SIZE in *. rewrite length_take, length_drop. lia. Qed.

Lemma hdrlen_u8 st : pb_wf st -> (bufptr st +8 hdrlen st) = bufptr st + hdrlen st.
Proof. intros []. unfold PACKETBUF_SIZE in *. uwrap_lia. Qed.
Lemma totlen_eq st :
  pb_wf st -> packetbuf_totlen st = Ok (bufptr st + hdrlen st + buflen st, st).
Proof.
  intros H. unfold packetbuf_totlen, packetbuf_hdrlen, packetbuf_datalen. rewrite !bind_gets. cbv beta.
  rewrite hdrlen_u8 by done. destruct H. unfold PACKETBUF_SIZE in *.
  replace (bufptr st + hdrlen st +16 buflen st) with (bufptr st + hdrlen st + buflen st) by uwrap_lia.
  done.
Qed.

(** The frame: header and payload side by side. *)
Lemma frame_bytes pb :
  pb_wf pb -> bufptr pb = 0 ->
  take (Z.to_nat (hdrlen pb + buflen pb)) (packetbuf pb) = pb_header pb ++ pb_payload pb.
Proof.
  intros [] Hb. unfold pb_header, pb_payload. rewrite Hb, Z.add_0_l.
  rewrite Z2Nat.inj_add by done. by rewrite take_take_drop.
Qed.

Lemma pb_load_ok i n st :
  0 <= i -> i + Z.of_nat n <= Z.of_nat (length (packetbuf st)) ->
  pb_load i n st = Ok (take n (drop (Z.to_nat i) (packetbuf st)), st).
Proof. intros H1 H2. unfold pb_load. by rewrite !(proj2 (Z.leb_le _ _)) by lia. Qed.
Lemma pb_store_ok i bs st :
  0 <= i -> i + Z.of_nat (length bs) <= Z.of_nat (length (packetbuf st)) ->
  pb_store i bs st = Ok (tt, st <| packetbuf ::= fun l =>
         take (Z.to_nat i) l ++ bs ++ drop (Z.to_nat i + length bs) l |>).
Proof. intros H1 H2. unfold pb_store. by rewrite !(proj2 (Z.leb_le _ _)) by lia. Qed.

Lemma copyto_eq st :
  pb_wf st -> packetbuf_copyto st =
    Ok ((pb_header st ++ pb_payload st, hdrlen st + buflen st), st).
Proof.
  intros H. unfold packetbuf_copyto, packetbuf_dataptr, packetbuf_hdrlen, packetbuf_hdrptr.
  rewrite !bind_gets. cbv beta. assert (Hw := H). destruct H. unfold PACKETBUF_SIZE in *.
  rewrite (proj2 (Z.ltb_ge _ _)) by lia.
  erewrite bind_Ok by reflexivity.
  erewrite bind_Ok by (apply pb_load_ok; lia). rewrite bind_gets.
  cbv beta. rewrite hdrlen_u8 by done.
  erewrite bind_Ok by (apply pb_load_ok; lia).
  done.
Qed.

Lemma copyfrom_eq from len st :
  pb_wf st -> 0 <= len <= Z.of_nat (length from) ->
  let l := take (Z.to_nat (Z.min PACKETBUF_SIZE len)) from in
  exists st', packetbuf_copyfrom from len st = Ok (Z.of_nat (length l), st') /\
    pb_wf st' /\ pb_view st' = ([], 0, l) /\
    packetbuf_attrs st' = replicate PACKETBUF_NUM_ATTRS 0 /\
    packetbuf_addrs st' = replicate PACKETBUF_NUM_ADDRS 0.
Proof.
  intros [] Hlen l. unfold packetbuf_copyfrom, packetbuf_clear, packetbuf_attr_clear, PACKETBUF_SIZE in *.
  assert (Hl : Z.of_nat (length l) = Z.min 128 len) by (unfold l; rewrite length_take; lia).
  erewrite bind_Ok by reflexivity. fold l.
  erewrite bind_Ok by (apply pb_store_ok; rsimpl; lia). rewrite bind_modify. rewrite Hl.
  eexists. split; [reflexivity|]. split; [|split; [|by split]].
  - split; rsimpl; unfold PACKETBUF_SIZE; [|lia..].
    rewrite length_app, length_app, length_take, length_drop. lia.
  - unfold pb_view, pb_header, pb_payload. rsimpl. rewrite take_0. f_equal.
    change (Z.to_nat (0 + 0)) with 0%nat. rewrite drop_0, take_0. cbn [app].
    rewrite take_app_le by lia. apply take_ge. lia.
Qed.

Lemma copyfrom_run from pb :
  pb_wf pb -> Z.of_nat (length from) <= PACKETBUF_SIZE ->
  packetbuf_copyfrom from (Z.of_nat (length from)) pb =
    Ok (Z.of_nat (length from),
        mk_packetbuf (from ++ drop (length from) (packetbuf pb)) (Z.of_nat (length from)) 0 0
          (replicate PACKETBUF_NUM_ATTRS 0) (replicate PACKETBUF_NUM_ADDRS 0)).
Proof.
  intros [] Hl. unfold packetbuf_copyfrom, packetbuf_clear, packetbuf_attr_clear.
  rewrite Z.min_r, Nat2Z.id, take_ge by lia.
  erewrite bind_Ok by reflexivity. unfold PACKETBUF_SIZE in *.
  by erewrite bind_Ok by (apply pb_store_ok; rsimpl; lia).
Qed.

Lemma compact_eq st :
  pb_wf st ->
  exists st', packetbuf_compact st = Ok (tt, st') /\ pb_wf st' /\
    pb_view st' = (pb_header st, 0, pb_payload st).
Proof.
  intros H. unfold packetbuf_compact. rewrite bind_gets. unfold when, c_true.
  destruct (Z.eqb_spec (bufptr st) 0) as [E|E]; cbn [negb].
  { exists st. split; [done|]. split; [done|]. unfold pb_view. by rewrite E. }
  rewrite bind_gets. assert (Hw := H). destruct H. unfold PACKETBUF_SIZE in *.
  destruct (shift_left_loop (fun s => bufptr s +8 hdrlen s) hdrlen
    (Z.to_nat (bufptr st + hdrlen st)) (Z.to_nat (hdrlen st)) 0 (Z.to_nat (buflen st)) st)
    as (l & El & Hlen & Hl); [|lia..|].
  { intros l. rsimpl. rewrite hdrlen_u8 by done. lia. }
  rewrite (bind_Ok _ _ _ _ _ El).
  exists (st <| packetbuf := l |> <| bufptr := 0 |>). split; [done|]. split.
  - split; rsimpl; unfold PACKETBUF_SIZE; lia.
  - unfold pb_view, pb_header, pb_payload. rsimpl. f_equal; [f_equal|]; apply list_eq; intros j.
    + destruct (decide (j < Z.to_nat (hdrlen st))%nat).
      * rewrite !lookup_take_lt, Hl by done. by rewrite decide_False by lia.
      * by rewrite !lookup_take_ge by lia.
    + destruct (decide (j < Z.to_nat (buflen st))%nat).
      * rewrite !lookup_take_lt, !lookup_drop, Hl by done. rewrite decide_True by lia.
        f_equal. lia.
      * by rewrite !lookup_take_ge by lia.
Qed.

Lemma hdralloc_eq size st :
  pb_wf st -> 0 <= size -> size + hdrlen st + bufptr st + buflen st <= PACKETBUF_SIZE ->
  exists st' room, packetbuf_hdralloc size st = Ok (1, st') /\ pb_wf st' /\
    Z.of_nat (length room) = size /\
    pb_view st' = (room ++ pb_header st, bufptr st, pb_payload st).
Proof.
  intros H Hs Hfit. unfold packetbuf_hdralloc. rewrite (bind_Ok _ _ _ _ _ (totlen_eq st H)).
  rewrite (proj2 (Z.ltb_ge _ _)) by lia. assert (Hw := H). destruct H. unfold PACKETBUF_SIZE in *.
  destruct (shift_right_loop (Z.to_nat size) (Z.to_nat (bufptr st + hdrlen st + buflen st)) st)
    as (l & El & Hlen & Hl); [lia|]. rewrite Z2Nat.id in El by done.
  rewrite (bind_Ok _ _ _ _ _ El), bind_modify.
  assert (Hh : (hdrlen st +8 size) = hdrlen st + size) by uwrap_lia.
  eexists _, (take (Z.to_nat size) l). split; [reflexivity|]. split; [|split].
  - split; rsimpl; rewrite ?Hh; unfold PACKETBUF_SIZE; lia.
  - rewrite length_take. lia.
  - unfold pb_view, pb_header, pb_payload. rsimpl. rewrite Hh.
    f_equal; [f_equal|]; apply list_eq; intros j.
    + rewrite lookup_app. destruct (decide (j < Z.to_nat size)%nat).
      * rewrite !lookup_take_lt by lia. rewrite Hl, decide_False by lia.
        destruct (lookup_lt_is_Some_2 (packetbuf st) j) as [x ->]; [lia|done].
      * rewrite (lookup_take_ge l (Z.to_nat size)) by lia. rewrite length_take.
        destruct (decide (j < Z.to_nat (hdrlen st + size))%nat).
        -- rewrite !lookup_take_lt by lia. rewrite Hl, decide_True by lia. f_equal. lia.
        -- by rewrite !lookup_take_ge by lia.
    + destruct (decide (j < Z.to_nat (buflen st))%nat).
      * rewrite !lookup_take_lt, !lookup_drop, Hl by done. rewrite decide_True by lia.
        f_equal. lia.
      * by rewrite !lookup_take_ge by lia.
Qed.

Lemma hdrreduce_eq size st :
  pb_wf st -> 0 <= size <= buflen st ->
  exists st', packetbuf_hdrreduce size st = Ok (1, st') /\ pb_wf st' /\
    pb_view st' = (pb_header st, bufptr st + size, drop (Z.to_nat size) (pb_payload st)).
Proof.
  intros [] Hs. unfold packetbuf_hdrreduce, PACKETBUF_SIZE in *. rewrite bind_gets.
  rewrite (proj2 (Z.ltb_ge _ _)), bind_modify by lia. eexists. split; [reflexivity|].
  assert (E1 : (bufptr st +16 size) = bufptr st + size) by uwrap_lia.
  assert (E2 : (buflen st -16 size) = buflen st - size) by uwrap_lia.
  split.
  - split; rsimpl; rewrite ?E1, ?E2; unfold PACKETBUF_SIZE; lia.
  - unfold pb_view, pb_header, pb_payload. rsimpl. rewrite E1, E2. f_equal.
    apply list_eq. intros j.
    rewrite lookup_drop. destruct (decide (j < Z.to_nat (buflen st - size))%nat).
    + rewrite !lookup_take_lt, !lookup_drop by lia. f_equal. lia.
    + by rewrite !lookup_take_ge by lia.
Qed.

Lemma hdrreduce_run size st :
  pb_wf st -> 0 <= size <= buflen st ->
  packetbuf_hdrreduce size st =
    Ok (1, st <| bufptr := bufptr st + size |> <| buflen := buflen st - size |>).
Proof.
  intros [] Hs. unfold packetbuf_hdrreduce, PACKETBUF_SIZE in *. rewrite bind_gets.
  rewrite (proj2 (Z.ltb_ge _ _)), bind_modify by lia.
  assert (E1 : (bufptr st +16 size) = bufptr st + size) by uwrap_lia.
  assert (E2 : (buflen st -16 size) = buflen st - size) by uwrap_lia.
  unfold update. cbn. by rewrite E1, E2.
Qed.
Lemma hdrreduce_short size st : buflen st < size -> packetbuf_hdrreduce size st = Ok (0, st).
Proof. intros Hs. unfold packetbuf_hdrreduce. by rewrite bind_gets, (proj2 (Z.ltb_lt _ _)). Qed.

(** C39. The packet buffer refines a pair of byte sequences, the header and the
    payload: from any well-formed state each call returns and leaves a
    well-formed state (no access leaves the array), and clearing, copying in and
    out, compacting, allocating and reducing headers act on the two sequences as
    documented.  In particular allocating a header keeps the payload, reducing
    removes a prefix of it, and a header that does not fit changes nothing. *)
Theorem packetbuf_call_refines c st :
  pb_wf st ->
  match c with PbHdralloc size | PbHdrreduce size => 0 <= size | _ => True end ->
  exists v st', pb_exec c st = Ok (v, st') /\ pb_wf st' /\
    pb_step c (pb_view st) v (pb_view st').
Proof.
  intros H Hc. assert (Lh := pb_header_length st H). assert (Lp := pb_payload_length st H).
  destruct c as [|from| | |size|size|]; cbn [pb_exec].
  - eexists _, _. split; [reflexivity|]. split; [|apply step_clear]. destruct H.
    split; rsimpl; unfold PACKETBUF_SIZE; try lia; done.
  - destruct (copyfrom_eq from (Z.of_nat (length from)) st H ltac:(lia)) as (st' & E & H' & Hv & _).
    eexists _, st'. unfold res_map. rewrite E. split; [reflexivity|]. split; [done|].
    rewrite Hv. apply step_copyfrom. unfold PACKETBUF_SIZE.
    destruct (decide (128 <= Z.of_nat (length from))); [f_equal; lia|].
    rewrite !take_ge by lia. done.
  - eexists _, st. rewrite (bind_Ok _ _ _ _ _ (copyto_eq st H)). split; [reflexivity|].
    split; [done|]. unfold pb_view at 1 2. rewrite <- Lh, <- Lp, <- Nat2Z.inj_add, <- length_app.
    apply step_copyto.
  - destruct (compact_eq st H) as (st' & E & H' & Hv). eexists _, st'.
    rewrite (bind_Ok _ _ _ _ _ E). split; [reflexivity|]. split; [done|]. rewrite Hv.
    apply step_compact.
  - unfold res_map. destruct (decide (size + hdrlen st + bufptr st + buflen st <= PACKETBUF_SIZE)).
    + destruct (hdralloc_eq size st H Hc ltac:(done)) as (st' & room & E & H' & Hr & Hv).
      eexists _, st'. rewrite E. split; [reflexivity|]. split; [done|]. rewrite Hv.
      apply step_hdralloc; [lia|done].
    + eexists _, st. unfold packetbuf_hdralloc.
      rewrite (bind_Ok _ _ _ _ _ (totlen_eq st H)), (proj2 (Z.ltb_lt _ _)) by lia.
      split; [reflexivity|]. split; [done|]. apply step_hdralloc_full. lia.
  - unfold res_map. destruct (decide (size <= buflen st)).
    + destruct (hdrreduce_eq size st H ltac:(lia)) as (st' & E & H' & Hv).
      eexists _, st'. rewrite E. split; [reflexivity|]. split; [done|]. rewrite Hv.
      apply step_hdrreduce. lia.
    + eexists _, st. unfold packetbuf_hdrreduce. rewrite bind_gets, (proj2 (Z.ltb_lt _ _)) by lia.
      split; [reflexivity|]. split; [done|]. apply step_hdrreduce_short. lia.
  - eexists _, st. unfold res_map. rewrite totlen_eq by done. split; [reflexivity|].
    split; [done|]. replace (bufptr st + hdrlen st + buflen st) with
      (Z.of_nat (length (pb_header st)) + bufptr st + Z.of_nat (length (pb_payload st))) by lia.
    apply step_totlen.
Qed.
End packetbuf_facts.

Definition pb_example : packetbuf_st :=
  mk_packetbuf (replicate 128 7) 5 2 3 (replicate 29 0) (replicate 4 0).

Lemma packetbuf_call_refines_witness :
  exists v st', pb_exec (PbHdralloc 4) pb_example = Ok (v, st') /\ pb_wf st' /\
    pb_step (PbHdralloc 4) (pb_view pb_example) v (pb_view st').
Proof.
  apply (packetbuf_call_refines (PbHdralloc 4) pb_example); [|lia].
  split; simpl; unfold PACKETBUF_SIZE; lia.
Defined.

(** ** Queue buffers hold a copy *)

(** The blocks of both pools stand for memory of the right size, and a queue
    buffer in use points to a data block in use, not shared with another. *)
Record queue_wf (st : queue_st) : Prop := {
  qwf_packetbuf : pb_wf (qu_packetbuf st);
  qwf_bufmem : pool_wf (bufmem st);
  qwf_buframmem : pool_wf (buframmem st);
  qwf_ram : forall b r, pool_used (bufmem st) b -> pl_blocks (bufmem st) !! b = Some r ->
              pool_used (buframmem st) r;
  qwf_inj : forall b b' r, pool_used (bufmem st) b -> pool_used (bufmem st) b' ->
              pl_blocks (bufmem st) !! b = Some r -> pl_blocks (bufmem st) !! b' = Some r -> b = b';
}.

(** What a queue buffer in use holds. *)
Definition queued (st : queue_st) (b : nat) (d : queuebuf_data) : Prop :=
  pool_used (bufmem st) b /\
  exists r, pl_blocks (bufmem st) !! b = Some r /\ pl_blocks (buframmem st) !! r = Some d.

Section queuebuf_facts.
Implicit Types st : queue_st.

(** A successful [queuebuf_new_from_packetbuf], in one step. *)
Lemma queuebuf_new_eq st b r p1 p2 d :
  pb_wf (qu_packetbuf st) ->
  pool_alloc (bufmem st) = (Some b, p1) -> pool_alloc (buframmem st) = (Some r, p2) ->
  pl_blocks p2 !! r = Some d ->
  let data := pb_header (qu_packetbuf st) ++ pb_payload (qu_packetbuf st) in
  queuebuf_new_from_packetbuf st = Ok (Some b,
    st <| bufmem := p1 <| pl_blocks ::= <[b := r]> |> |>
       <| buframmem := p2 <| pl_blocks ::=
            <[r := mk_queuebuf_data (data ++ drop (length data) (qd_data d)) (Z.of_nat (length data))
                    (packetbuf_attrs (qu_packetbuf st)) (packetbuf_addrs (qu_packetbuf st))]> |> |>).
Proof.
  intros Hw E1 E2 Hd data. unfold queuebuf_new_from_packetbuf.
  erewrite bind_Ok by (unfold bufmem_alloc; rewrite E1; reflexivity). cbv beta iota.
  erewrite bind_Ok by (unfold buframmem_alloc; rsimpl; rewrite E2; reflexivity).
  rewrite bind_modify. cbv beta iota delta [default from_option id].
  assert (Hlen : Z.of_nat (length data) = hdrlen (qu_packetbuf st) + buflen (qu_packetbuf st)).
  { unfold data. rewrite length_app, Nat2Z.inj_add, pb_header_length, pb_payload_length by done. done. }
  unfold store_packet. erewrite bind_Ok; [reflexivity|].
  erewrite bind_Ok by (unfold zoom; rsimpl; rewrite (copyto_eq _ Hw); reflexivity).
  cbv beta iota. erewrite bind_Ok by reflexivity. cbv beta iota. unfold modify. rsimpl. fold data. rewrite <- Hlen.
  unfold update. simpl. by rewrite (alter_insert _ _ _ _ Hd).
Qed.

Lemma queuebuf_new_inv st b st1 :
  queue_wf st -> queuebuf_new_from_packetbuf st = Ok (Some b, st1) ->
  exists r p1 p2 d, pool_alloc (bufmem st) = (Some b, p1) /\
    pool_alloc (buframmem st) = (Some r, p2) /\ pl_blocks p2 !! r = Some d.
Proof.
  intros [] E. unfold queuebuf_new_from_packetbuf in E.
  apply bind_inv in E as (ob & s1 & E1 & E). unfold bufmem_alloc in E1.
  destruct (pool_alloc (bufmem st)) as [i p1] eqn:Ea. injection E1 as <- <-.
  destruct i as [b'|]; [|done].
  apply bind_inv in E as (orr & s2 & E2 & E). unfold buframmem_alloc in E2. rsimpl.
  destruct (pool_alloc (buframmem st)) as [i2 p2] eqn:Ea2. injection E2 as <- <-.
  rewrite bind_modify in E. destruct i2 as [r|]; [|done].
  apply bind_inv in E as (u & s3 & _ & E). injection E as -> _.
  pose proof (pool_alloc_Some _ _ _ Ea2) as (_ & _ & Hr & Hb & _).
  rewrite qwf_buframmem0, <- Hb in Hr. apply lookup_lt_is_Some_2 in Hr as [d Hd].
  by exists r, p1, p2, d.
Qed.

(** C40. Queueing the packet buffer and taking the packet out again, whatever has
    happened to the packet buffer in between, gives the packet back: the header
    and payload as the new payload and every attribute and address unchanged.
    The queue buffer is a fresh block and the contents of every other queue
    buffer in use are kept. *)
Theorem queuebuf_roundtrip st b st1 pb :
  queue_wf st -> queuebuf_new_from_packetbuf st = Ok (Some b, st1) -> pb_wf pb ->
  ~ pool_used (bufmem st) b /\
  (forall b' d, queued st b' d -> queued st1 b' d) /\
  exists st2, queuebuf_to_packetbuf b (st1 <| qu_packetbuf := pb |>) = Ok (tt, st2) /\
    pb_view (qu_packetbuf st2) =
      ([], 0, pb_header (qu_packetbuf st) ++ pb_payload (qu_packetbuf st)) /\
    packetbuf_attrs (qu_packetbuf st2) = packetbuf_attrs (qu_packetbuf st) /\
    packetbuf_addrs (qu_packetbuf st2) = packetbuf_addrs (qu_packetbuf st).
Proof.
  intros H E Hpb. destruct (queuebuf_new_inv _ _ _ H E) as (r & p1 & p2 & d & E1 & E2 & Hd).
  assert (Hw := qwf_packetbuf _ H).
  rewrite (queuebuf_new_eq _ _ _ _ _ _ Hw E1 E2 Hd) in E. injection E as <-.
  set (data := pb_header (qu_packetbuf st) ++ pb_payload (qu_packetbuf st)).
  destruct (pool_alloc_Some _ _ _ E1) as (Hb1 & Hb2 & Hb3 & Hb4 & Hb5).
  destruct (pool_alloc_Some _ _ _ E2) as (Hr1 & Hr2 & Hr3 & Hr4 & Hr5).
  assert (Hbl : (b < length (pl_blocks p1))%nat).
  { rewrite Hb4. rewrite <- (qwf_bufmem _ H). done. }
  assert (Hrl : (r < length (pl_blocks p2))%nat) by (by eapply lookup_lt_Some).
  assert (Hlen : Z.of_nat (length data) = hdrlen (qu_packetbuf st) + buflen (qu_packetbuf st)).
  { unfold data. rewrite length_app, Nat2Z.inj_add, pb_header_length, pb_payload_length by done. done. }
  assert (Hsz : Z.of_nat (length data) <= PACKETBUF_SIZE).
  { destruct Hw. rewrite Hlen. lia. }
  split; [done|]. split.
  - intros b' d' (Hu & r' & Hl & Hd'). assert (b' <> b) by (intros ->; done).
    assert (Hr' : pool_used (buframmem st) r') by (by eapply (qwf_ram _ H)).
    assert (r' <> r) by (intros ->; done).
    split; [by apply Hb5|]. exists r'. rsimpl.
    rewrite !list_lookup_insert_ne by done. rewrite Hb4, Hr4. done.
  - unfold queuebuf_to_packetbuf, queuebuf_load_to_ram, ram_block.
    erewrite bind_Ok by (rsimpl; rewrite list_lookup_insert_eq by done; reflexivity).
    erewrite bind_Ok by (rsimpl; rewrite list_lookup_insert_eq by done; reflexivity).
    cbn [qd_data qd_len qd_attrs qd_addrs].
    destruct (copyfrom_eq (data ++ drop (length data) (qd_data d)) (Z.of_nat (length data)) pb Hpb)
      as (pb' & Ec & Hw' & Hv & _); [rewrite length_app; lia|].
    erewrite bind_Ok by (unfold zoom; rsimpl; rewrite Ec; reflexivity).
    eexists. split; [reflexivity|]. rsimpl. split; [|done].
    unfold pb_view, pb_header, pb_payload in Hv |- *. rsimpl. rewrite Hv. f_equal.
    rewrite Z.min_r by lia. rewrite Nat2Z.id. by rewrite take_app_length.
Qed.
End queuebuf_facts.

Definition queue_example : queue_st :=
  mk_queue pb_example (pool_new 0%nat 8) (pool_new queuebuf_data_zero 8).

Lemma queuebuf_roundtrip_witness :
  exists b st1, queuebuf_new_from_packetbuf queue_example = Ok (Some b, st1) /\
  (~ pool_used (bufmem queue_example) b /\
  (forall b' d, queued queue_example b' d -> queued st1 b' d) /\
  exists st2, queuebuf_to_packetbuf b (st1 <| qu_packetbuf := pb_example |>) = Ok (tt, st2) /\
    pb_view (qu_packetbuf st2) = ([], 0, pb_header pb_example ++ pb_payload pb_example) /\
    packetbuf_attrs (qu_packetbuf st2) = packetbuf_attrs pb_example /\
    packetbuf_addrs (qu_packetbuf st2) = packetbuf_addrs pb_example).
Proof.
  eexists 0%nat, _. split; [reflexivity|].
  assert (Hp : pb_wf pb_example) by (split; simpl; unfold PACKETBUF_SIZE; lia).
  eapply (queuebuf_roundtrip queue_example); [|reflexivity|exact Hp].
  assert (Hu : forall b, ~ pool_used (bufmem queue_example) b).
  { intros b (c & Hc & Hn). change (pl_count (bufmem queue_example)) with (replicate 8 0) in Hc.
    apply lookup_replicate in Hc as [-> _]. done. }
  split; [exact Hp|done|done|intros b r Hb; by destruct (Hu b)|intros b b' r Hb; by destruct (Hu b)].
Defined.

(** Moving the packet leaves its attributes alone. *)
Lemma hdralloc_attrs size :
  post (same (fun pb => (packetbuf_attrs pb, packetbuf_addrs pb))) (packetbuf_hdralloc size).
Proof.
  unfold packetbuf_hdralloc, packetbuf_totlen, packetbuf_hdrlen, packetbuf_datalen, pb_read, pb_write.
  post_auto; [| |by apply post_modify].
  - intros s x s'. case_match; [|done]. by intros [= _ <-].
  - intros s x s'. case_match; [|done]. by intros [= _ <-].
Qed.
