(* ===== verification/Chameleon.v ===== *)
(** * Chameleon: packet headers as packed bit fields

    core/net/rime/chameleon.c puts the attributes of an outgoing packet into a
    header and reads them back from an incoming one; chameleon-bitopt.c, the
    module it uses, packs them bit after bit without alignment.  channel.c keeps
    the open channels with the list of attributes each of them sends.  A pointer
    into the packet buffer is an offset, a pointer to a channel its index.

    The theorems are in Headers.v. *)
From stdpp Require Import numbers option sets list.
From S2P Require Import Prelude Lists Packetbuf.

(** ** Channels *)

Definition PACKETBUF_ATTR_NONE : nat := 0.
Definition PACKETBUF_ATTR_CHANNEL : nat := 1.
Definition PACKETBUF_ATTR_BYTE : Z := 8.
Definition LINKADDR_SIZE : Z := 2.
Definition PACKETBUF_ADDRSIZE : Z := LINKADDR_SIZE * PACKETBUF_ATTR_BYTE.

(** [struct packetbuf_attrlist]: the type of an attribute and its bits in the
    header; an attribute list is an array of them, ended by
    [PACKETBUF_ATTR_NONE]. *)
Record packetbuf_attrlist := mk_attr { at_type : nat; at_len : Z }.

Record channel := mk_channel {
  channelno : Z;
  attrlist : list packetbuf_attrlist;
  hdrsize : Z;
}.
#[export] Instance eta_channel : Eta channel := fun x =>
  mk_channel (channelno x) (attrlist x) (hdrsize x).

(** The packet buffer, the [struct channel]s and the list of the open ones. *)
Record rime_st := mk_rime {
  r_packetbuf : packetbuf_st;
  channels : list channel;
  channel_list : list nat;
}.
#[export] Instance eta_rime : Eta rime_st := fun x =>
  mk_rime (r_packetbuf x) (channels x) (channel_list x).

Abbreviation RM := (M rime_st).
Definition on_pb {A} (m : PB A) : RM A := zoom r_packetbuf m.
Definition get_channel (c : nat) : RM channel := fun st =>
  match channels st !! c with Some ch => Ok (ch, st) | None => Err FWild end.

(** The entries before the terminator. *)
Fixpoint attributes (a : list packetbuf_attrlist) : list packetbuf_attrlist :=
  match a with
  | [] => []
  | x :: a' => if decide (at_type x = PACKETBUF_ATTR_NONE) then [] else x :: attributes a'
  end.

(** ** Bits *)

Definition bitmask : list Z := [0x00; 0x80; 0xc0; 0xe0; 0xf0; 0xf8; 0xfc; 0xfe; 0xff].

Definition le16_write (v : Z) : list Z := [Z.land v 0xff; Z.shiftr v 8].
Definition le16_read (p : list Z) : Z := Z.lor (u16 (Z.shiftl (p !!! 1%nat) 8)) (p !!! 0%nat).

(** Access to a local buffer of bytes. *)
Definition buf_read (buf : list Z) (i : nat) : PB Z :=
  match buf !! i with Some b => mret b | None => fail FWild end.
Definition buf_write (buf : list Z) (i : nat) (b : Z) : PB (list Z) :=
  if (i <? length buf)%nat then mret (<[i := b]> buf) else fail FWild.

Definition get_bits_in_byte (from bitpos vallen : Z) : PB Z :=
  b0 ← pb_read from;
  b1 ← pb_read (from + 1);
  let shifted_val := u16 (Z.lor (Z.shiftl b0 8) b1) in
  mret (u8 (Z.shiftr (Z.land (Z.shiftr (u16 (Z.shiftl shifted_val bitpos)) 8)
                             (bitmask !!! Z.to_nat vallen)) (8 - vallen))).

(** The loop of [get_bits] over whole bytes, [get i] reading the byte [i]. *)
Fixpoint get_bytes (get : nat -> PB Z) (to : list Z) (i n : nat) : PB (list Z) :=
  match n with
  | O => mret to
  | S n' =>
      b ← get i;
      to ← buf_write to i b;
      get_bytes get to (S i) n'
  end.

(** [to] is the destination; its new contents are returned. *)
Definition get_bits (to : list Z) (from bitpos vallen : Z) : PB (list Z) :=
  if vallen <? 8 then
    b ← get_bits_in_byte from bitpos vallen; buf_write to 0 b
  else
    let n := Z.to_nat (vallen / 8) in
    let bits := Z.land vallen 7 in
    if bitpos =? 0 then
      to ← get_bytes (fun i => pb_read (from + Z.of_nat i)) to 0 n;
      if c_true bits then
        b ← get_bits_in_byte (from + Z.of_nat n) 0 bits; buf_write to n b
      else mret to
    else
      to ← get_bytes (fun i => get_bits_in_byte (from + Z.of_nat i) bitpos 8) to 0 n;
      if c_true bits then
        b ← get_bits_in_byte (from + Z.of_nat n) bitpos bits; buf_write to n b
      else mret to.

(** Sums the lengths of the attributes. *)
Fixpoint header_size_from (size : Z) (a : list packetbuf_attrlist) : Z :=
  match a with
  | [] => size
  | x :: a' => header_size_from (size + at_len x) a'
  end.
Definition header_size (a : list packetbuf_attrlist) : Z := header_size_from 0 (attributes a).

Definition set_bits_in_byte (target bitpos val vallen : Z) : PB unit :=
  let shifted_val := u16 (Z.shiftl val (8 - bitpos + 8 - vallen)) in
  b0 ← pb_read target;
  pb_write target (Z.lor b0 (Z.shiftr shifted_val 8)) ;;
  b1 ← pb_read (target + 1);
  pb_write (target + 1) (Z.lor b1 (Z.land shifted_val 0xff)).

Definition set_bits (ptr bitpos : Z) (val : list Z) (vallen : Z) : PB unit :=
  if vallen <? 8 then
    v ← buf_read val 0; set_bits_in_byte ptr bitpos v vallen
  else
    let n := Z.to_nat (vallen / 8) in
    let bits := Z.land vallen 7 in
    if bitpos =? 0 then
      forM (seq 0 n) (fun i => v ← buf_read val i; pb_write (ptr + Z.of_nat i) v) ;;
      when (c_true bits)
        (v ← buf_read val n;
         set_bits_in_byte (ptr + Z.of_nat n) 0 (Z.shiftr v (8 - bits)) bits)
    else
      forM (seq 0 n) (fun i =>
        v ← buf_read val i; set_bits_in_byte (ptr + Z.of_nat i) bitpos v 8) ;;
      when (c_true bits)
        (v ← buf_read val n;
         set_bits_in_byte (ptr + Z.of_nat n) 0 (Z.shiftr v (8 - bits + bitpos)) bits).

Definition PACKETBUF_IS_ADDR (type : nat) : bool := (PACKETBUF_ADDR_FIRST <=? type)%nat.

(** ** chameleon-bitopt.c *)

Definition BITOPT_HDR_SIZE : Z := 2.

Definition hdrbytes (hdrsize : Z) : Z :=
  hdrsize / 8 + (if Z.land hdrsize 7 =? 0 then 0 else 1).

(** The attribute or address as the bytes in memory; a link address is a
    [uint16_t] in little endian order. *)
Definition attr_bytes (type : nat) : PB (list Z) :=
  if PACKETBUF_IS_ADDR type then le16_write <$$> packetbuf_addr type
  else le16_write <$$> packetbuf_attr type.

(** The loop of [pack_header]. *)
Fixpoint pack_attributes (hdrptr : Z) (a : list packetbuf_attrlist) (bitptr : Z) : PB unit :=
  match a with
  | [] => skip
  | x :: a' =>
      buffer ← attr_bytes (at_type x);
      set_bits (hdrptr + bitptr / 8) (Z.land bitptr 7) buffer (at_len x) ;;
      pack_attributes hdrptr a' (bitptr + at_len x)
  end.

Definition pack_header (c : channel) : PB Z :=
  let hdrbytesize := hdrbytes (hdrsize c) in
  ok ← packetbuf_hdralloc (hdrbytesize + BITOPT_HDR_SIZE);
  if ok =? 0 then mret 0
  else
    hdr ← packetbuf_hdrptr;
    pb_write hdr (Z.land (channelno c) 0xff) ;;
    pb_write (hdr + 1) (Z.land (Z.shiftr (channelno c) 8) 0xff) ;;
    p ← packetbuf_hdrptr;
    let hdrptr := p + BITOPT_HDR_SIZE in
    pb_store hdrptr (replicate (Z.to_nat hdrbytesize) 0) ;;
    pack_attributes hdrptr (attributes (attrlist c)) 0 ;;
    mret 1.

(** [garbage] is what the stack holds where [unpack_header] has its
    uninitialised address. *)
Section unpack.
Variable garbage : list Z.

Definition unpack_attribute (type : nat) (from bitpos len : Z) : PB unit :=
  if PACKETBUF_IS_ADDR type then
    addr ← get_bits garbage from bitpos len;
    packetbuf_set_addr type (le16_read addr)
  else
    buffer ← get_bits [0; 0] from bitpos len;
    packetbuf_set_attr type (le16_read buffer).

(** The loop of [unpack_header]. *)
Fixpoint unpack_attributes (hdrptr : Z) (a : list packetbuf_attrlist) (bitptr : Z) : PB unit :=
  match a with
  | [] => skip
  | x :: a' =>
      unpack_attribute (at_type x) (hdrptr + bitptr / 8) (Z.land bitptr 7) (at_len x) ;;
      unpack_attributes hdrptr a' (bitptr + at_len x)
  end.

(** The first open channel with the number. *)
Definition channel_lookup (no : Z) : RM (option nat) :=
  gets (fun st => head (filter (fun c => channelno <$> channels st !! c = Some no) (channel_list st))).

Definition unpack_header : RM (option nat) :=
  hdr ← on_pb packetbuf_dataptr;
  ok ← on_pb (packetbuf_hdrreduce BITOPT_HDR_SIZE);
  if ok =? 0 then mret None
  else
    b1 ← on_pb (pb_read (hdr + 1));
    b0 ← on_pb (pb_read hdr);
    c ← channel_lookup (u16 (Z.shiftl b1 8 + b0));
    match c with
    | None => mret None
    | Some i =>
        c ← get_channel i;
        hdrptr ← on_pb packetbuf_dataptr;
        ok ← on_pb (packetbuf_hdrreduce (hdrbytes (hdrsize c)));
        if ok =? 0 then mret None
        else
          on_pb (unpack_attributes hdrptr (attributes (attrlist c)) 0) ;;
          mret (Some i)
    end.

(** ** chameleon.c *)

Definition chameleon_parse : RM (option nat) :=
  c ← unpack_header;
  match c with
  | None => mret None
  | Some i =>
      ch ← get_channel i;
      on_pb (packetbuf_set_attr PACKETBUF_ATTR_CHANNEL (channelno ch)) ;;
      mret (Some i)
  end.
End unpack.

Definition chameleon_create (i : nat) : RM Z :=
  c ← get_channel i;
  ret ← on_pb (pack_header c);
  on_pb (packetbuf_set_attr PACKETBUF_ATTR_CHANNEL (channelno c)) ;;
  mret (if c_true ret then 1 else 0).

(** ** rime.c

    What reaches the link-layer security is the packet in the buffer: the result
    is that of the function with this frame, when there is one. *)
Definition rime_output (i : nat) : RM (Z * option (list Z)) :=
  ok ← chameleon_create i;
  if c_true ok then
    on_pb packetbuf_compact ;;
    '(frame, _) ← on_pb packetbuf_copyto;
    mret (1, Some frame)
  else mret (0, None).

Definition chameleon_hdrsize (a : list packetbuf_attrlist) : Z := header_size a.

(** ** channel.c *)

Definition channel_init : RM unit := channel_list <~ [].
Definition chameleon_init : RM unit := channel_init.

Definition channel_set_attributes (no : Z) (a : list packetbuf_attrlist) : RM unit :=
  c ← channel_lookup no;
  match c with
  | None => skip
  | Some i => modify (fun st => st <| channels ::= alter (fun c =>
                c <| attrlist := a |> <| hdrsize := u8 (chameleon_hdrsize a) |>) i |>)
  end.
Definition channel_open (c : nat) (no : Z) : RM unit :=
  modify (fun st => st
    <| channels ::= alter (fun ch => ch <| channelno := u16 no |>) c |>
    <| channel_list ::= seq_add c |>).
Definition channel_close (c : nat) : RM unit :=
  modify (fun st => st <| channel_list ::= seq_remove c |>).

(** ** broadcast.h *)

Definition BROADCAST_ATTRIBUTES : list packetbuf_attrlist :=
  [mk_attr PACKETBUF_ADDR_SENDER PACKETBUF_ADDRSIZE;
   mk_attr PACKETBUF_ATTR_CSYNC_CONN_DOAES PACKETBUF_ATTR_BYTE;
   mk_attr PACKETBUF_ATTR_CSYNC_CONN_AES_XORPLAINTEXT_A PACKETBUF_ADDRSIZE;
   mk_attr PACKETBUF_ATTR_CSYNC_CONN_AES_XORPLAINTEXT_B PACKETBUF_ADDRSIZE].

(** [abc_open] opens the channel and declares no attributes; [broadcast_open]
    then declares its own. *)
Definition broadcast_open (c : nat) (no : Z) : RM unit :=
  channel_open c no ;;
  channel_set_attributes no [] ;;
  channel_set_attributes no BROADCAST_ATTRIBUTES.
