(* ===== verification/Headers.v ===== *)
(** * Headers: what chameleon packs, it unpacks

    A header as a string of bits: which bits [set_bits] and [get_bits] touch, the
    fields a header holds, the round trip of a packet from one node to another
    and the parsing of arbitrary bytes. *)
From stdpp Require Import numbers option sets list.
From S2P Require Import Prelude Lists Packetbuf Chameleon.

(** ** Bits of a byte string

    Bit [k] of the packet, the most significant bit of each byte first. *)
Definition hbit (l : list Z) (k : Z) : bool := Z.testbit (l !!! Z.to_nat (k / 8)) (7 - k mod 8).

(** [l'] is [l] but for the bits [q], ..., [q + n - 1]. *)
Definition outside (q n : Z) (l l' : list Z) : Prop :=
  length l' = length l /\
  forall i j, 0 <= j -> ~ (j < 8 /\ q <= 8 * Z.of_nat i + 7 - j < q + n) ->
    Z.testbit (l' !!! i) j = Z.testbit (l !!! i) j.

(** The bits [q], ..., [q + n - 1] of [l] are the number [v]: most significant bit
    first up to 8 bits, low byte first above. *)
Definition field (q n v : Z) (l : list Z) : Prop :=
  forall t, 0 <= t < n -> hbit l (q + t) = Z.testbit v (8 * (t / 8) + Z.min n 8 - 1 - t mod 8).
Definition blank (q n : Z) (l : list Z) : Prop := forall t, 0 <= t < n -> hbit l (q + t) = false.

Lemma testbit_out v n j : 0 <= v < 2 ^ n -> j < 0 \/ n <= j -> Z.testbit v j = false.
Proof.
  intros Hv [Hj|Hj]; [by apply Z.testbit_neg_r|].
  destruct (decide (v = 0)) as [->|]; [by apply Z.bits_0|].
  destruct (decide (0 <= n)); [|rewrite Z.pow_neg_r in Hv; lia].
  apply Z.bits_above_log2; [lia|]. apply Z.log2_lt_pow2; [lia|].
  apply Z.lt_le_trans with (2 ^ n); [lia|]. apply Z.pow_le_mono_r; lia.
Qed.

Lemma bits_eq v w n :
  0 <= v < 2 ^ n -> 0 <= w < 2 ^ n ->
  (forall j, 0 <= j < n -> Z.testbit v j = Z.testbit w j) -> v = w.
Proof.
  intros Hv Hw H. apply Z.bits_inj'. intros j Hj. destruct (decide (j < n)).
  - apply H. lia.
  - by rewrite !(testbit_out _ n) by (done || lia).
Qed.

Lemma outside_refl q n l : outside q n l l.
Proof. by split. Qed.
Lemma outside_hbit q n l l' k :
  outside q n l l' -> 0 <= k -> k < q \/ q + n <= k -> hbit l' k = hbit l k.
Proof.
  intros [_ H] Hk Ho. unfold hbit. pose proof (Z.mod_pos_bound k 8 ltac:(lia)).
  apply H; [lia|]. rewrite Z2Nat.id by (apply Z.div_pos; lia).
  pose proof (Z.div_mod k 8 ltac:(lia)). lia.
Qed.
Lemma outside_mono q n q' n' l l' :
  outside q n l l' -> q' <= q -> q + n <= q' + n' -> outside q' n' l l'.
Proof. intros [Hl H] H1 H2. split; [done|]. intros i j Hj Hn. apply H; lia. Qed.
Lemma outside_trans q n l1 l2 l3 :
  outside q n l1 l2 -> outside q n l2 l3 -> outside q n l1 l3.
Proof.
  intros [L1 H1] [L2 H2]. split; [congruence|]. intros i j Hj Hn. by rewrite H2, H1.
Qed.
Lemma outside_drop q n l l' m :
  outside q n l l' -> q + n <= 8 * Z.of_nat m -> drop m l' = drop m l.
Proof.
  intros [L H] Hm. apply list_eq_same_length with (length l - m)%nat; rewrite ?length_drop; [done|lia|].
  intros i x y Hi. rewrite !lookup_drop. intros Hx Hy.
  apply list_lookup_total_correct in Hx as <-, Hy as <-. apply Z.bits_inj'. intros j Hj.
  apply H; [done|]. lia.
Qed.
Lemma outside_take q n l l' m :
  outside q n l l' -> 8 * Z.of_nat m <= q -> take m l' = take m l.
Proof.
  intros [L H] Hm. apply list_eq. intros i. destruct (decide (i < m)%nat).
  2:{ by rewrite !lookup_take_ge by lia. }
  rewrite !lookup_take_lt by done. destruct (decide (i < length l)%nat) as [Hi|].
  2:{ rewrite !lookup_ge_None_2 by lia. done. }
  rewrite !list_lookup_lookup_total_lt by lia. f_equal. apply Z.bits_inj'. intros j Hj.
  apply H; [done|]. lia.
Qed.
Lemma outside_field q n q' n' v l l' :
  outside q n l l' -> 0 <= q' -> q' + n' <= q \/ q + n <= q' -> field q' n' v l -> field q' n' v l'.
Proof. intros Ho Hq Hd H t Ht. rewrite (outside_hbit q n l l') by (done || lia). by apply H. Qed.
Lemma outside_blank q n q' n' l l' :
  outside q n l l' -> 0 <= q' -> q' + n' <= q \/ q + n <= q' -> blank q' n' l -> blank q' n' l'.
Proof. intros Ho Hq Hd H t Ht. rewrite (outside_hbit q n l l') by (done || lia). by apply H. Qed.
Lemma blank_sub q n q' n' l : blank q n l -> q <= q' -> q' + n' <= q + n -> blank q' n' l.
Proof. intros H H1 H2 t Ht. replace (q' + t) with (q + (q' + t - q)) by lia. apply H. lia. Qed.

(** A number of 16 bits is written as two fields of 8. *)
Lemma field_16 q v l :
  field q 8 (Z.land v 255) l -> field (q + 8) 8 (Z.shiftr v 8) l -> field q 16 v l.
Proof.
  intros H1 H2 t Ht. change (Z.min 16 8) with 8. change (Z.min 8 8) with 8 in *.
  unfold field in *. change (Z.min 8 8) with 8 in *.
  assert (E255 : 255 = Z.ones 8) by reflexivity. destruct (decide (t < 8)).
  - rewrite H1 by lia. rewrite Z.div_small, Z.mod_small by lia.
    rewrite Z.land_spec, E255, Z.ones_spec_low, andb_true_r by lia. done.
  - replace (q + t) with (q + 8 + (t - 8)) by lia. rewrite H2 by lia.
    assert (t / 8 = 1) as -> by (Z.div_mod_to_equations; lia).
    assert (t mod 8 = t - 8) as -> by (Z.div_mod_to_equations; lia).
    rewrite Z.div_small, Z.mod_small, Z.shiftr_spec by lia. f_equal. lia.
Qed.

(** ** Packing *)

Section pack.
Implicit Types st : packetbuf_st.

(** Running [m] writes the number [v] in the [n] bits from [q]. *)
Definition deposits (m : PB unit) (q n v : Z) st : Prop :=
  exists l', m st = Ok (tt, st <| packetbuf := l' |>) /\
    outside q n (packetbuf st) l' /\ field q n v l'.

Lemma lookup_total_insert2 (l : list Z) i x y k :
  (S i < length l)%nat ->
  <[S i := y]> (<[i := x]> l) !!! k =
    if decide (k = S i) then y else if decide (k = i) then x else l !!! k.
Proof.
  intros Hi. destruct (decide (k = S i)) as [->|].
  - apply list_lookup_total_insert_eq. rewrite length_insert. lia.
  - rewrite list_lookup_total_insert_ne by done. destruct (decide (k = i)) as [->|].
    + apply list_lookup_total_insert_eq. lia.
    + by rewrite list_lookup_total_insert_ne.
Qed.

Lemma shifted_val_eq v b n :
  0 <= b < 8 -> 1 <= n <= 8 -> 0 <= v < 2 ^ n ->
  u16 (Z.shiftl v (8 - b + 8 - n)) = Z.shiftl v (16 - b - n).
Proof.
  intros Hb Hn Hv. replace (8 - b + 8 - n) with (16 - b - n) by lia. apply uwrap_small. unfold in_u.
  rewrite Z.shiftl_mul_pow2 by lia. split; [nia|].
  replace 16 with (n + (16 - b - n) + b) at 2 by lia. rewrite !Z.pow_add_r by lia.
  pose proof (Z.pow_pos_nonneg 2 (16 - b - n) ltac:(lia) ltac:(lia)).
  pose proof (Z.pow_pos_nonneg 2 b ltac:(lia) ltac:(lia)).
  apply Z.lt_le_trans with (2 ^ n * 2 ^ (16 - b - n)); [apply Z.mul_lt_mono_pos_r; lia|].
  rewrite <- (Z.mul_1_r (2 ^ n * 2 ^ (16 - b - n))) at 1. apply Z.mul_le_mono_nonneg_l; nia.
Qed.

(** Decide in which part of the field [q], ..., [q + n - 1] the bit [k] is. *)
Ltac by_place j q n k :=
  destruct (Z.ltb_spec j 8), (Z.leb_spec q k), (Z.ltb_spec k (q + n)); cbn [andb orb];
  try (rewrite orb_false_r); try done; try lia.

(** The two bytes [set_bits_in_byte] writes, bit by bit. *)
Lemma or_bits l i b v n k j :
  let q := 8 * Z.of_nat i + b in
  let p := 8 * Z.of_nat k + 7 - j in
  let sv := Z.shiftl v (16 - b - n) in
  0 <= b < 8 -> 1 <= n <= 8 -> 0 <= v < 2 ^ n -> (S i < length l)%nat -> 0 <= j ->
  Z.testbit (<[S i := Z.lor (l !!! S i) (Z.land sv 255)]>
               (<[i := Z.lor (l !!! i) (Z.shiftr sv 8)]> l) !!! k) j =
  Z.testbit (l !!! k) j ||
    ((j <? 8) && (q <=? p) && (p <? q + n) && Z.testbit v (n - 1 - (p - q))).
Proof.
  intros q p sv Hb Hn Hv Hi Hj.
  assert (Hsv : forall m, 0 <= m -> Z.testbit sv m = Z.testbit v (m - (16 - b - n))).
  { intros m Hm. unfold sv. by rewrite Z.shiftl_spec by lia. }
  rewrite lookup_total_insert2 by done. unfold p, q. repeat case_decide; [subst k|subst k|].
  - rewrite Z.lor_spec, Z.land_spec, Hsv by lia. f_equal.
    change 255 with (Z.ones 8). rewrite Z.testbit_ones_nonneg by lia.
    replace (n - 1 - _) with (j - (16 - b - n)) by lia.
    by_place j (8 * Z.of_nat i + b) n (8 * Z.of_nat (S i) + 7 - j); rewrite ?andb_true_r, ?andb_false_r;
      try done; apply (testbit_out v n); (done || lia).
  - rewrite Z.lor_spec, Z.shiftr_spec, Hsv by lia. f_equal.
    replace (n - 1 - _) with (j + 8 - (16 - b - n)) by lia.
    by_place j (8 * Z.of_nat i + b) n (8 * Z.of_nat i + 7 - j); apply (testbit_out v n); (done || lia).
  - by_place j (8 * Z.of_nat i + b) n (8 * Z.of_nat k + 7 - j).
Qed.

Lemma set_bits_in_byte_run st i b v n :
  let l := packetbuf st in
  let sv := Z.shiftl v (16 - b - n) in
  0 <= b < 8 -> 1 <= n <= 8 -> 0 <= v < 2 ^ n -> (S i < length l)%nat ->
  set_bits_in_byte (Z.of_nat i) b v n st = Ok (tt, st <| packetbuf :=
    <[S i := Z.lor (l !!! S i) (Z.land sv 255)]> (<[i := Z.lor (l !!! i) (Z.shiftr sv 8)]> l) |>).
Proof.
  intros l sv Hb Hn Hv Hi. unfold set_bits_in_byte. rewrite shifted_val_eq by done. fold sv.
  assert (Hx : packetbuf st !! i = Some (l !!! i)) by (apply list_lookup_lookup_total_lt; fold l; lia).
  assert (Hy : packetbuf st !! S i = Some (l !!! S i)) by (apply list_lookup_lookup_total_lt; fold l; lia).
  erewrite bind_Ok by (apply pb_read_ok; exact Hx).
  erewrite bind_Ok by (apply pb_write_ok; fold l; lia).
  replace (Z.of_nat i + 1) with (Z.of_nat (S i)) by lia.
  erewrite bind_Ok by (apply pb_read_ok; rsimpl; fold l; rewrite list_lookup_insert_ne by lia; exact Hy).
  by rewrite pb_write_ok by (rsimpl; rewrite length_insert; fold l; lia).
Qed.

Lemma set_bits_in_byte_ok st i b v n :
  0 <= b < 8 -> 1 <= n <= 8 -> 0 <= v < 2 ^ n -> (S i < length (packetbuf st))%nat ->
  blank (8 * Z.of_nat i + b) n (packetbuf st) ->
  deposits (set_bits_in_byte (Z.of_nat i) b v n) (8 * Z.of_nat i + b) n v st.
Proof.
  intros Hb Hn Hv Hi Hz. eexists. split; [by apply set_bits_in_byte_run|].
  split; [split|].
  - by rewrite !length_insert.
  - intros k j Hj Ho. rewrite or_bits by done.
    by_place j (8 * Z.of_nat i + b) n (8 * Z.of_nat k + 7 - j).
  - intros t Ht. specialize (Hz t Ht). unfold hbit in *.
    set (p := 8 * Z.of_nat i + b + t) in *.
    pose proof (Z.mod_pos_bound p 8 ltac:(lia)). pose proof (Z.div_mod p 8 ltac:(lia)).
    rewrite or_bits, Hz by (done || lia). rewrite Z2Nat.id by (apply Z.div_pos; lia).
    replace (8 * (p / 8) + 7 - (7 - p mod 8)) with p by lia.
    rewrite !(proj2 (Z.ltb_lt _ _)), (proj2 (Z.leb_le _ _)) by lia. cbn [andb orb].
    rewrite (Z.div_small t), (Z.mod_small t) by lia. f_equal. lia.
Qed.

(** The same for a whole byte assigned. *)
Lemma write_byte_ok st i v :
  0 <= v < 256 -> (i < length (packetbuf st))%nat ->
  (forall j, 8 <= j -> Z.testbit (packetbuf st !!! i) j = false) ->
  deposits (pb_write (Z.of_nat i) v) (8 * Z.of_nat i) 8 v st.
Proof.
  intros Hv Hi Hhigh. rewrite <- (Z.add_0_r (8 * _)). eexists. split; [by apply pb_write_ok|].
  split; [split|].
  - apply length_insert.
  - intros k j Hj Ho. destruct (decide (k = i)) as [->|].
    + rewrite list_lookup_total_insert_eq by done. rewrite Hhigh by lia.
      apply (testbit_out v 8); [done|lia].
    + by rewrite list_lookup_total_insert_ne.
  - intros t Ht. unfold hbit. replace (8 * Z.of_nat i + 0 + t) with (t + Z.of_nat i * 8) by lia.
    rewrite Z.div_add, Z.mod_add, Z.div_small, Z.mod_small by lia. rewrite Z.add_0_l, Nat2Z.id.
    by rewrite list_lookup_total_insert_eq by done.
Qed.

(** Two bytes in a row are a number of 16 bits. *)
Lemma deposits_16 (m1 m2 : PB unit) q v st :
  0 <= q -> deposits m1 q 8 (Z.land v 255) st ->
  (forall l, outside q 8 (packetbuf st) l -> deposits m2 (q + 8) 8 (Z.shiftr v 8) (st <| packetbuf := l |>)) ->
  deposits (m1 ;; m2 ;; skip) q 16 v st.
Proof.
  intros Hq (l1 & E1 & Ho1 & Hf1) H2. destruct (H2 l1 Ho1) as (l2 & E2 & Ho2 & Hf2). rsimpl.
  exists l2. erewrite bind_Ok by exact E1. erewrite bind_Ok by exact E2. split; [done|]. split.
  - eapply outside_trans; eapply outside_mono; try eassumption; lia.
  - apply field_16; [|done]. eapply outside_field; [exact Ho2|lia..|done].
Qed.

(** The bytes [a], ..., [b - 1] are bytes. *)
Definition bytes_in (a b : Z) (l : list Z) : Prop :=
  forall i j, a <= Z.of_nat i < b -> 8 <= j -> Z.testbit (l !!! i) j = false.
Definition field_len (n : Z) : Prop := 0 < n <= 8 \/ n = 16.

Lemma outside_bytes q n a b l l' : outside q n l l' -> bytes_in a b l -> bytes_in a b l'.
Proof. intros [_ H] Hb i j Hi Hj. rewrite H by lia. by apply Hb. Qed.

(** A whole byte at any bit position, as both branches of [set_bits] do it. *)
Lemma set_byte_ok st q v :
  0 <= q -> 0 <= v < 256 -> q + 15 < 8 * Z.of_nat (length (packetbuf st)) ->
  blank q 8 (packetbuf st) -> bytes_in (q / 8) (q / 8 + 1) (packetbuf st) ->
  deposits (if q mod 8 =? 0 then pb_write (q / 8) v else set_bits_in_byte (q / 8) (q mod 8) v 8)
    q 8 v st.
Proof.
  intros Hq Hv Hl Hz Hb. pose proof (Z.mod_pos_bound q 8 ltac:(lia)).
  pose proof (Z.div_mod q 8 ltac:(lia)). pose proof (Z.div_pos q 8 ltac:(lia) ltac:(lia)).
  set (i := Z.to_nat (q / 8)). assert (Ei : q / 8 = Z.of_nat i) by lia. rewrite Ei in *.
  destruct (Z.eqb_spec (q mod 8) 0) as [E|E].
  - replace q with (8 * Z.of_nat i) by lia. apply write_byte_ok; [done|lia|].
    intros j Hj. apply Hb; lia.
  - replace q with (8 * Z.of_nat i + q mod 8) at 2 by lia.
    apply set_bits_in_byte_ok; [lia..|]. replace (8 * Z.of_nat i + q mod 8) with q by lia. done.
Qed.

Lemma u16_bytes v : 0 <= v < 2 ^ 16 -> 0 <= Z.land v 255 < 256 /\ 0 <= Z.shiftr v 8 < 256.
Proof.
  intros Hv. change 255 with (Z.ones 8). rewrite Z.land_ones, Z.shiftr_div_pow2 by lia.
  split; [apply Z.mod_pos_bound; lia|]. Z.div_mod_to_equations; lia.
Qed.
Lemma land_255 v : 0 <= v < 256 -> Z.land v 255 = v.
Proof. intros Hv. change 255 with (Z.ones 8). rewrite Z.land_ones by lia. by apply Z.mod_small. Qed.

(** The loops of [set_bits], unrolled. *)
Lemma set_bits_8 p b v st :
  set_bits p b (le16_write v) 8 st =
  (if b =? 0 then pb_write p (Z.land v 255) else set_bits_in_byte p b (Z.land v 255) 8) st.
Proof.
  unfold set_bits. change (8 <? 8) with false. change (Z.to_nat (8 / 8)) with 1%nat.
  change (c_true (Z.land 8 7)) with false. cbv iota zeta. cbn [seq forM when].
  change (Z.of_nat 0) with 0. rewrite Z.add_0_r. unfold le16_write, buf_read. cbn [lookup list_lookup].
  destruct (b =? 0); unfold mbind, M_bind, mret, M_ret, skip;
    [destruct (pb_write p _ _) as [[[] ?]|]|destruct (set_bits_in_byte p _ _ _ _) as [[[] ?]|]]; done.
Qed.
Lemma set_bits_16 p b v st :
  set_bits p b (le16_write v) 16 st =
  ((if b =? 0 then pb_write p (Z.land v 255) else set_bits_in_byte p b (Z.land v 255) 8) ;;
   (if b =? 0 then pb_write (p + 1) (Z.shiftr v 8) else set_bits_in_byte (p + 1) b (Z.shiftr v 8) 8) ;;
   skip) st.
Proof.
  unfold set_bits. change (16 <? 8) with false. change (Z.to_nat (16 / 8)) with 2%nat.
  change (c_true (Z.land 16 7)) with false. cbv iota zeta. cbn [seq forM when].
  change (Z.of_nat 0) with 0. change (Z.of_nat 1) with 1. rewrite Z.add_0_r.
  unfold le16_write, buf_read. cbn [lookup list_lookup].
  destruct (b =? 0); unfold mbind, M_bind, mret, M_ret, skip;
    [destruct (pb_write p _ _) as [[[] s1]|]|destruct (set_bits_in_byte p _ _ _ _) as [[[] s1]|]]; try done;
    [destruct (pb_write (p + 1) _ _) as [[[] ?]|]|destruct (set_bits_in_byte (p + 1) _ _ _ _) as [[[] ?]|]]; done.
Qed.

Lemma set_bits_ok st q n v :
  0 <= q -> field_len n -> 0 <= v < 2 ^ n -> q + n + 7 < 8 * Z.of_nat (length (packetbuf st)) ->
  blank q n (packetbuf st) -> bytes_in (q / 8) ((q + n + 7) / 8) (packetbuf st) ->
  deposits (set_bits (q / 8) (q mod 8) (le16_write v) n) q n v st.
Proof.
  intros Hq Hn Hv Hl Hz Hb. destruct (decide (n = 16)) as [->|]; [|destruct (decide (n = 8)) as [->|]].
  - destruct (u16_bytes v Hv) as [Hlo Hhi]. unfold deposits. rewrite set_bits_16. apply deposits_16; [done|..].
    + apply set_byte_ok; [done|done|lia|eapply blank_sub; [exact Hz|lia..]|].
      intros i j Hi. apply Hb. Z.div_mod_to_equations; lia.
    + intros l Ho. assert (E8 : (q + 8) / 8 = q / 8 + 1) by (Z.div_mod_to_equations; lia).
      assert (Em : (q + 8) mod 8 = q mod 8) by (Z.div_mod_to_equations; lia).
      rewrite <- E8, <- Em. apply set_byte_ok; rsimpl; [lia|done|destruct Ho as [-> _]; lia|..].
      * eapply outside_blank; [exact Ho|lia..|]. eapply blank_sub; [exact Hz|lia..].
      * eapply outside_bytes; [exact Ho|]. intros i j Hi. apply Hb. Z.div_mod_to_equations; lia.
  - unfold deposits. rewrite set_bits_8, land_255 by done. apply set_byte_ok; [done|done|lia|done|].
    intros i j Hi. apply Hb. Z.div_mod_to_equations; lia.
  - assert (Hn' : 0 < n < 8) by (destruct Hn; lia).
    assert (E : Z.land v 255 = v).
    { apply land_255. pose proof (Z.pow_lt_mono_r 2 n 8 ltac:(lia) ltac:(lia) ltac:(lia)). lia. }
    unfold set_bits. rewrite (proj2 (Z.ltb_lt _ _)) by lia.
    change (buf_read (le16_write v) 0) with (mret (Z.land v 255) : PB Z). rewrite E.
    unfold deposits. erewrite bind_Ok by reflexivity.
    pose proof (Z.mod_pos_bound q 8 ltac:(lia)). pose proof (Z.div_mod q 8 ltac:(lia)).
    pose proof (Z.div_pos q 8 ltac:(lia) ltac:(lia)).
    set (i := Z.to_nat (q / 8)). assert (Ei : q / 8 = Z.of_nat i) by lia. rewrite Ei in *.
    pose proof (set_bits_in_byte_ok st i (q mod 8) v n) as Hs. rewrite <- H0 in Hs.
    apply Hs; (done || lia).
Qed.

(** The value of an attribute or address. *)
Definition attr_value st (type : nat) : Z :=
  if PACKETBUF_IS_ADDR type then packetbuf_addrs st !!! (type - PACKETBUF_ADDR_FIRST)%nat
  else packetbuf_attrs st !!! type.

Lemma attr_bytes_eq type st : attr_bytes type st = Ok (le16_write (attr_value st type), st).
Proof. unfold attr_bytes, attr_value. by destruct (PACKETBUF_IS_ADDR type). Qed.

Lemma attr_value_ext st st' :
  packetbuf_attrs st' = packetbuf_attrs st -> packetbuf_addrs st' = packetbuf_addrs st ->
  attr_value st' = attr_value st.
Proof. unfold attr_value. by intros -> ->. Qed.

(** The bits of a list of attributes, and the list at its place in a packet. *)
Definition total (a : list packetbuf_attrlist) : Z := foldr (fun x n => at_len x + n) 0 a.
Fixpoint holds (val : nat -> Z) (q : Z) (a : list packetbuf_attrlist) (l : list Z) : Prop :=
  match a with
  | [] => True
  | x :: a' => field q (at_len x) (val (at_type x)) l /\ holds val (q + at_len x) a' l
  end.

Lemma field_len_pos n : field_len n -> 0 < n.
Proof. intros []; lia. Qed.
Lemma total_nonneg a : Forall (fun x => field_len (at_len x)) a -> 0 <= total a.
Proof.
  induction 1 as [|x a Hx _ IH]; [done|]. apply field_len_pos in Hx.
  change (total (x :: a)) with (at_len x + total a). lia.
Qed.
Lemma header_size_from_eq s a : header_size_from s a = s + total a.
Proof.
  revert s. induction a as [|x a IH]; intros s; simpl; [lia|]. rewrite IH. lia.
Qed.
Lemma header_size_eq a : header_size a = total (attributes a).
Proof. apply header_size_from_eq. Qed.

Lemma outside_holds q n val q' a l l' :
  outside q n l l' -> Forall (fun x => field_len (at_len x)) a -> 0 <= q' ->
  q + n <= q' \/ q' + total a <= q -> holds val q' a l -> holds val q' a l'.
Proof.
  intros Ho Ha. revert q'. induction Ha as [|x a Hx Ha IH]; intros q' Hq Hd; [done|].
  simpl in *. fold (total a) in Hd. pose proof (total_nonneg a Ha). pose proof (field_len_pos _ Hx).
  intros [Hf Hh]. split; [eapply outside_field; [exact Ho|lia..|done]|]. apply IH; [lia|lia|done].
Qed.

(** [8 h + bp] is the place of the next bit. *)
Lemma byte_of h bp : h + bp / 8 = (8 * h + bp) / 8 /\ Z.land bp 7 = (8 * h + bp) mod 8.
Proof.
  change 7 with (Z.ones 3). rewrite Z.land_ones by lia. change (2 ^ 3) with 8.
  split; Z.div_mod_to_equations; lia.
Qed.

Lemma pack_attributes_ok h a : 0 <= h -> forall bp st,
  Forall (fun x => field_len (at_len x) /\ 0 <= attr_value st (at_type x) < 2 ^ at_len x) a ->
  0 <= bp -> 8 * h + bp + total a + 7 < 8 * Z.of_nat (length (packetbuf st)) ->
  blank (8 * h + bp) (total a) (packetbuf st) ->
  bytes_in h ((8 * h + bp + total a + 7) / 8) (packetbuf st) ->
  exists l, pack_attributes h a bp st = Ok (tt, st <| packetbuf := l |>) /\
    outside (8 * h + bp) (total a) (packetbuf st) l /\ holds (attr_value st) (8 * h + bp) a l.
Proof.
  intros Hh. induction a as [|x a IH]; intros bp st Ha Hbp Hl Hz Hb.
  { exists (packetbuf st). split; [by destruct st|]. split; [apply outside_refl|done]. }
  apply Forall_cons in Ha as [[Hx Hv] Ha]. simpl in *. fold (total a) in *.
  assert (Ha' : Forall (fun x => field_len (at_len x)) a) by (eapply Forall_impl; [exact Ha|tauto]).
  pose proof (total_nonneg a Ha'). pose proof (field_len_pos _ Hx).
  erewrite bind_Ok by apply attr_bytes_eq. destruct (byte_of h bp) as [-> ->].
  destruct (set_bits_ok st (8 * h + bp) (at_len x) (attr_value st (at_type x)))
    as (l1 & E1 & Ho1 & Hf1); [lia|done|done|lia|eapply blank_sub; [exact Hz|lia..]|..].
  { intros i j Hi. apply Hb. Z.div_mod_to_equations; lia. }
  erewrite bind_Ok by exact E1.
  destruct (IH (bp + at_len x) (st <| packetbuf := l1 |>)) as (l & E & Ho & Hh'); rsimpl.
  { exact Ha. } { lia. } { destruct Ho1 as [-> _]. lia. }
  { eapply outside_blank; [exact Ho1|lia..|]. eapply blank_sub; [exact Hz|lia..]. }
  { eapply outside_bytes; [exact Ho1|]. replace (8 * h + (bp + at_len x) + total a + 7)
      with (8 * h + bp + (at_len x + total a) + 7) by lia. done. }
  exists l. split; [exact E|]. split.
  - eapply outside_trans; eapply outside_mono; try eassumption; lia.
  - split; [eapply outside_field; [exact Ho|lia..|done]|].
    replace (8 * h + bp + at_len x) with (8 * h + (bp + at_len x)) by lia. done.
Qed.
End pack.

(** ** Unpacking *)

Section unpack_facts.
Implicit Types st : packetbuf_st.

Lemma u_testbit w z j : 0 <= j < w -> Z.testbit (uwrap w z) j = Z.testbit z j.
Proof. intros Hj. unfold uwrap. by rewrite Z.mod_pow2_bits_low by lia. Qed.

Lemma bitmask_eq n : 0 <= n <= 8 -> bitmask !!! Z.to_nat n = Z.shiftl (Z.ones n) (8 - n).
Proof.
  intros Hn. assert (n = 0 \/ n = 1 \/ n = 2 \/ n = 3 \/ n = 4 \/ n = 5 \/ n = 6 \/ n = 7 \/ n = 8)
    as Hc by lia. by destruct_or! Hc; subst n.
Qed.

Lemma get_bits_in_byte_run st i b n :
  (S i < length (packetbuf st))%nat ->
  get_bits_in_byte (Z.of_nat i) b n st =
  Ok (u8 (Z.shiftr (Z.land (Z.shiftr (u16 (Z.shiftl (u16 (Z.lor
         (Z.shiftl (packetbuf st !!! i) 8) (packetbuf st !!! S i))) b)) 8)
         (bitmask !!! Z.to_nat n)) (8 - n)), st).
Proof.
  intros Hi. unfold get_bits_in_byte.
  erewrite bind_Ok by (apply pb_read_ok, list_lookup_lookup_total_lt; lia).
  replace (Z.of_nat i + 1) with (Z.of_nat (S i)) by lia.
  by erewrite bind_Ok by (apply pb_read_ok, list_lookup_lookup_total_lt; lia).
Qed.

(** A bit of the two bytes read as one number of 16 bits. *)
Lemma two_bytes_bit l i m :
  bytes_in (Z.of_nat i) (Z.of_nat i + 2) l -> 0 <= m < 16 ->
  Z.testbit (u16 (Z.lor (Z.shiftl (l !!! i) 8) (l !!! S i))) m = hbit l (8 * Z.of_nat i + 15 - m).
Proof.
  intros Hb Hm. rewrite u_testbit, Z.lor_spec, Z.shiftl_spec by lia. unfold hbit.
  destruct (decide (8 <= m)).
  - rewrite (Hb (S i)), orb_false_r by lia.
    replace (8 * Z.of_nat i + 15 - m) with (15 - m + Z.of_nat i * 8) by lia.
    rewrite Z.div_add, Z.mod_add, Z.div_small, Z.mod_small by lia. rewrite Z.add_0_l, Nat2Z.id.
    f_equal. lia.
  - rewrite (Z.testbit_neg_r _ (m - 8)) by lia. rewrite orb_false_l.
    replace (8 * Z.of_nat i + 15 - m) with (7 - m + Z.of_nat (S i) * 8) by lia.
    rewrite Z.div_add, Z.mod_add, Z.div_small, Z.mod_small by lia. rewrite Z.add_0_l, Nat2Z.id.
    f_equal. lia.
Qed.

Lemma get_bits_in_byte_ok st i b n v :
  0 <= b < 8 -> 1 <= n <= 8 -> 0 <= v < 2 ^ n -> (S i < length (packetbuf st))%nat ->
  bytes_in (Z.of_nat i) (Z.of_nat i + 2) (packetbuf st) ->
  field (8 * Z.of_nat i + b) n v (packetbuf st) ->
  get_bits_in_byte (Z.of_nat i) b n st = Ok (v, st).
Proof.
  intros Hb Hn Hv Hi Hbytes Hf. rewrite get_bits_in_byte_run by done. do 2 f_equal.
  assert (Hv8 : v < 2 ^ 8).
  { apply Z.lt_le_trans with (2 ^ n); [lia|]. apply Z.pow_le_mono_r; lia. }
  apply (bits_eq _ _ 8); [apply u8_range|lia|]. intros j Hj.
  rewrite u_testbit, Z.shiftr_spec, Z.land_spec, Z.shiftr_spec by lia.
  rewrite bitmask_eq, Z.shiftl_spec, Z.testbit_ones_nonneg by lia.
  destruct (Z.ltb_spec (j + (8 - n) - (8 - n)) n).
  - rewrite andb_true_r, u_testbit, Z.shiftl_spec, two_bytes_bit by (done || lia).
    replace (8 * Z.of_nat i + 15 - _) with (8 * Z.of_nat i + b + (n - 1 - j)) by lia.
    rewrite Hf by lia. rewrite (Z.div_small (n - 1 - j)), (Z.mod_small (n - 1 - j)) by lia.
    f_equal. lia.
  - rewrite andb_false_r. symmetry. apply (testbit_out v n); [lia|lia].
Qed.

(** A byte at any bit position, as both branches of [get_bits] read it. *)
Lemma get_byte_ok st q v :
  0 <= q -> 0 <= v < 256 -> q + 15 < 8 * Z.of_nat (length (packetbuf st)) ->
  bytes_in (q / 8) (q / 8 + 2) (packetbuf st) -> field q 8 v (packetbuf st) ->
  (if q mod 8 =? 0 then pb_read (q / 8) else get_bits_in_byte (q / 8) (q mod 8) 8) st = Ok (v, st).
Proof.
  intros Hq Hv Hl Hb Hf. pose proof (Z.mod_pos_bound q 8 ltac:(lia)).
  pose proof (Z.div_mod q 8 ltac:(lia)) as Eq. pose proof (Z.div_pos q 8 ltac:(lia) ltac:(lia)).
  set (i := Z.to_nat (q / 8)) in *. assert (Ei : q / 8 = Z.of_nat i) by lia. rewrite Ei in *.
  destruct (Z.eqb_spec (q mod 8) 0) as [E|E].
  - erewrite pb_read_ok; [reflexivity|]. rewrite list_lookup_lookup_total_lt by lia. f_equal.
    apply Z.bits_inj'. intros j Hj. destruct (decide (j < 8)).
    2:{ rewrite (Hb i) by lia. symmetry. apply (testbit_out v 8); [done|lia]. }
    specialize (Hf (7 - j) ltac:(lia)). unfold hbit in Hf.
    rewrite (Z.div_small (7 - j)), (Z.mod_small (7 - j)) in Hf by lia.
    replace (q + (7 - j)) with (7 - j + Z.of_nat i * 8) in Hf by lia.
    rewrite Z.div_add, Z.mod_add, Z.div_small, Z.mod_small in Hf by lia.
    rewrite Z.add_0_l, Nat2Z.id in Hf. change (8 * 0 + Z.min 8 8 - 1) with 7 in Hf.
    replace (7 - (7 - j)) with j in Hf by lia. done.
  - apply get_bits_in_byte_ok; [lia..|done|]. rewrite Eq in Hf. done.
Qed.

Lemma field_16_inv q v l :
  field q 16 v l -> field q 8 (Z.land v 255) l /\ field (q + 8) 8 (Z.shiftr v 8) l.
Proof.
  intros H. unfold field in *. change (Z.min 16 8) with 8 in H. change (Z.min 8 8) with 8.
  assert (E255 : 255 = Z.ones 8) by reflexivity. split; intros t Ht.
  - rewrite H by lia. rewrite Z.div_small, Z.mod_small by lia.
    rewrite Z.land_spec, E255, Z.ones_spec_low, andb_true_r by lia. done.
  - replace (q + 8 + t) with (q + (t + 8)) by lia. rewrite H by lia.
    assert ((t + 8) / 8 = 1) as -> by (Z.div_mod_to_equations; lia).
    assert ((t + 8) mod 8 = t) as -> by (Z.div_mod_to_equations; lia).
    rewrite Z.div_small, Z.mod_small, Z.shiftr_spec by lia. f_equal. lia.
Qed.

Lemma le16_read_write v : 0 <= v < 2 ^ 16 -> le16_read (le16_write v) = v.
Proof.
  intros Hv. destruct (u16_bytes v Hv) as [Hlo Hhi]. unfold le16_read, le16_write.
  cbn [lookup_total list_lookup_total]. apply Z.bits_inj'. intros j Hj.
  rewrite uwrap_small by (unfold in_u; rewrite Z.shiftl_mul_pow2 by lia; lia).
  rewrite Z.lor_spec, Z.shiftl_spec, Z.land_spec by lia. change 255 with (Z.ones 8).
  rewrite Z.testbit_ones_nonneg by lia. destruct (decide (j < 8)).
  - rewrite (Z.testbit_neg_r _ (j - 8)), (proj2 (Z.ltb_lt _ _)) by lia. by rewrite andb_true_r.
  - rewrite Z.shiftr_spec, (proj2 (Z.ltb_ge _ _)), andb_false_r, orb_false_r by lia. f_equal. lia.
Qed.

Lemma get_bits_8 to p b st :
  length to = 2%nat ->
  get_bits to p b 8 st =
  (v ← if b =? 0 then pb_read p else get_bits_in_byte p b 8; mret (<[0%nat := v]> to)) st.
Proof.
  intros Ht. unfold get_bits. change (8 <? 8) with false. change (Z.to_nat (8 / 8)) with 1%nat.
  change (c_true (Z.land 8 7)) with false. cbv iota zeta. cbn [get_bytes].
  change (Z.of_nat 0) with 0. rewrite Z.add_0_r. unfold buf_write. rewrite Ht. cbn [Nat.ltb Nat.leb].
  destruct (b =? 0); unfold mbind, M_bind, mret, M_ret;
    [destruct (pb_read p _) as [[? ?]|]|destruct (get_bits_in_byte p _ _ _) as [[? ?]|]]; done.
Qed.
Lemma get_bits_16 to p b st :
  length to = 2%nat ->
  get_bits to p b 16 st =
  (lo ← if b =? 0 then pb_read p else get_bits_in_byte p b 8;
   hi ← if b =? 0 then pb_read (p + 1) else get_bits_in_byte (p + 1) b 8; mret [lo; hi]) st.
Proof.
  intros Ht. destruct to as [|x [|y [|]]]; try done. unfold get_bits.
  change (16 <? 8) with false. change (Z.to_nat (16 / 8)) with 2%nat.
  change (c_true (Z.land 16 7)) with false. cbv iota zeta. cbn [get_bytes].
  change (Z.of_nat 0) with 0. change (Z.of_nat 1) with 1. rewrite Z.add_0_r.
  unfold buf_write. cbn.
  destruct (b =? 0); unfold mbind, M_bind, mret, M_ret;
    [destruct (pb_read p _) as [[? s1]|]|destruct (get_bits_in_byte p _ _ _) as [[? s1]|]]; try done; cbn;
    [destruct (pb_read (p + 1) _) as [[? ?]|]|destruct (get_bits_in_byte (p + 1) _ _ _) as [[? ?]|]]; done.
Qed.

Lemma le16_read_byte v : 0 <= v < 256 -> le16_read [v; 0] = v.
Proof.
  intros Hv. rewrite <- (le16_read_write v) at 2 by lia. unfold le16_write.
  rewrite land_255, Z.shiftr_div_pow2 by lia. by rewrite Z.div_small by lia.
Qed.

Lemma get_bits_ok st to q n v :
  0 <= q -> field_len n -> 0 <= v < 2 ^ n -> q + n + 7 < 8 * Z.of_nat (length (packetbuf st)) ->
  bytes_in 0 (Z.of_nat (length (packetbuf st))) (packetbuf st) -> field q n v (packetbuf st) ->
  length to = 2%nat -> (n <= 8 -> to = [0; 0]) ->
  exists to', get_bits to (q / 8) (q mod 8) n st = Ok (to', st) /\ le16_read to' = v.
Proof.
  intros Hq Hn Hv Hl Hb Hf Ht Hto.
  assert (Hb' : forall k, k + 8 < 8 * Z.of_nat (length (packetbuf st)) -> 0 <= k ->
    bytes_in (k / 8) (k / 8 + 2) (packetbuf st)).
  { intros k Hk Hk' i j Hi. apply Hb. Z.div_mod_to_equations; lia. }
  destruct (decide (n = 16)) as [->|]; [|destruct (decide (n = 8)) as [->|]].
  - destruct (u16_bytes v Hv) as [Hlo Hhi]. destruct (field_16_inv _ _ _ Hf) as [H1 H2].
    exists (le16_write v). split; [|by apply le16_read_write].
    rewrite get_bits_16 by done.
    erewrite bind_Ok by (apply get_byte_ok; [done|exact Hlo|lia|apply Hb'; lia|done]).
    assert (E8 : q / 8 + 1 = (q + 8) / 8) by (Z.div_mod_to_equations; lia).
    assert (Em : q mod 8 = (q + 8) mod 8) by (Z.div_mod_to_equations; lia).
    rewrite E8, Em.
    by erewrite bind_Ok by (apply get_byte_ok; [lia|exact Hhi|lia|apply Hb'; lia|done]).
  - rewrite Hto in * by lia. exists [v; 0]. split; [|by apply le16_read_byte].
    rewrite get_bits_8 by done.
    by erewrite bind_Ok by (apply get_byte_ok; [done|exact Hv|lia|apply Hb'; lia|done]).
  - assert (Hn' : 0 < n < 8) by (destruct Hn; lia). rewrite Hto in * by lia.
    pose proof (Z.pow_lt_mono_r 2 n 8 ltac:(lia) ltac:(lia) ltac:(lia)).
    exists [v; 0]. split; [|apply le16_read_byte; lia].
    unfold get_bits. rewrite (proj2 (Z.ltb_lt _ _)) by lia.
    pose proof (Z.mod_pos_bound q 8 ltac:(lia)). pose proof (Z.div_mod q 8 ltac:(lia)) as Eq.
    pose proof (Z.div_pos q 8 ltac:(lia) ltac:(lia)). specialize (Hb' q ltac:(lia) Hq).
    set (i := Z.to_nat (q / 8)) in *. assert (Ei : q / 8 = Z.of_nat i) by lia. rewrite Ei in *.
    erewrite bind_Ok; [reflexivity|]. apply get_bits_in_byte_ok; [lia..|done|]. rewrite Eq in Hf. done.
Qed.
End unpack_facts.

(** An attribute list that can be carried: fields of 1 to 8 or of 16 bits, for
    attributes there are and values that fit. *)
Record field_ok (val : nat -> Z) (x : packetbuf_attrlist) : Prop := {
  fo_len : field_len (at_len x);
  fo_value : 0 <= val (at_type x) < 2 ^ at_len x;
  fo_slot : (at_type x < PACKETBUF_NUM_ATTRS + PACKETBUF_NUM_ADDRS)%nat;
  fo_addr : PACKETBUF_IS_ADDR (at_type x) = true -> at_len x = PACKETBUF_ADDRSIZE;
}.
Record attrs_wf (st : packetbuf_st) : Prop := {
  aw_attrs : length (packetbuf_attrs st) = PACKETBUF_NUM_ATTRS;
  aw_addrs : length (packetbuf_addrs st) = PACKETBUF_NUM_ADDRS;
}.

(** The two states hold the same packet. *)
Definition same_packet (st st' : packetbuf_st) : Prop :=
  packetbuf st' = packetbuf st /\ hdrlen st' = hdrlen st /\ bufptr st' = bufptr st /\
  buflen st' = buflen st.

Section unpack_loop.
Implicit Types st : packetbuf_st.

Lemma set_value_ok type v st :
  (type < PACKETBUF_NUM_ATTRS + PACKETBUF_NUM_ADDRS)%nat -> attrs_wf st -> 0 <= v < 2 ^ 16 ->
  exists st', (if PACKETBUF_IS_ADDR type then packetbuf_set_addr type v else packetbuf_set_attr type v) st =
      Ok (tt, st') /\
    same_packet st st' /\ attrs_wf st' /\
    forall ty, attr_value st' ty = if decide (ty = type) then v else attr_value st ty.
Proof.
  unfold PACKETBUF_NUM_ATTRS, PACKETBUF_NUM_ADDRS, attr_value, PACKETBUF_IS_ADDR, PACKETBUF_ADDR_FIRST.
  intros Ht [Ha1 Ha2] Hv. unfold PACKETBUF_NUM_ATTRS, PACKETBUF_NUM_ADDRS in *.
  destruct (Nat.leb_spec 29 type); eexists; (split; [reflexivity|]); (split; [by split|]); split.
  - split; rsimpl; by rewrite ?length_insert.
  - intros ty. rsimpl. unfold PACKETBUF_ADDR_FIRST. case_decide as Hd.
    + subst ty. rewrite (proj2 (Nat.leb_le _ _)) by lia. apply list_lookup_total_insert_eq. lia.
    + destruct (Nat.leb_spec 29 ty); [|done]. by rewrite list_lookup_total_insert_ne by lia.
  - split; rsimpl; by rewrite ?length_insert.
  - intros ty. rsimpl. case_decide as Hd.
    + subst ty. rewrite (proj2 (Nat.leb_gt _ _)) by lia. rewrite list_lookup_total_insert_eq by lia.
      by apply uwrap_small.
    + destruct (Nat.leb_spec 29 ty); [done|]. by rewrite list_lookup_total_insert_ne by lia.
Qed.

Lemma unpack_attribute_ok g st q x val :
  length g = 2%nat -> field_ok val x -> attrs_wf st -> 0 <= q ->
  q + at_len x + 7 < 8 * Z.of_nat (length (packetbuf st)) ->
  bytes_in 0 (Z.of_nat (length (packetbuf st))) (packetbuf st) ->
  field q (at_len x) (val (at_type x)) (packetbuf st) ->
  exists st', unpack_attribute g (at_type x) (q / 8) (q mod 8) (at_len x) st = Ok (tt, st') /\
    same_packet st st' /\ attrs_wf st' /\
    forall ty, attr_value st' ty = if decide (ty = at_type x) then val ty else attr_value st ty.
Proof.
  intros Hg [Hn Hv Hs Ha] Hw Hq Hl Hb Hf. set (v := val (at_type x)) in *.
  assert (Hv16 : 0 <= v < 2 ^ 16).
  { split; [lia|]. apply Z.lt_le_trans with (2 ^ at_len x); [lia|].
    apply Z.pow_le_mono_r; [lia|]. destruct Hn; lia. }
  destruct (set_value_ok (at_type x) v st Hs Hw Hv16) as (st' & E & Hp & Hw' & Hval).
  exists st'. split; [|split; [done|split; [done|]]].
  2:{ intros ty. rewrite Hval. case_decide as Hd; [by subst|done]. }
  unfold unpack_attribute. destruct (PACKETBUF_IS_ADDR (at_type x)) eqn:Eaddr.
  - destruct (get_bits_ok st g q (at_len x) v) as (to & E1 & Ev); try done.
    { rewrite Ha by done. unfold PACKETBUF_ADDRSIZE, LINKADDR_SIZE, PACKETBUF_ATTR_BYTE. lia. }
    erewrite bind_Ok by exact E1. by rewrite Ev.
  - destruct (get_bits_ok st [0; 0] q (at_len x) v) as (to & E1 & Ev); try done.
    erewrite bind_Ok by exact E1. by rewrite Ev.
Qed.

Lemma unpack_attributes_ok g h a val :
  length g = 2%nat -> 0 <= h -> Forall (field_ok val) a -> forall bp st,
  attrs_wf st -> 0 <= bp -> 8 * h + bp + total a + 7 < 8 * Z.of_nat (length (packetbuf st)) ->
  bytes_in 0 (Z.of_nat (length (packetbuf st))) (packetbuf st) ->
  holds val (8 * h + bp) a (packetbuf st) ->
  exists st', unpack_attributes g h a bp st = Ok (tt, st') /\ same_packet st st' /\ attrs_wf st' /\
    forall ty, attr_value st' ty = if decide (ty ∈ at_type <$> a) then val ty else attr_value st ty.
Proof.
  intros Hg Hh Ha. induction Ha as [|x a Hx Ha IH]; intros bp st Hw Hbp Hl Hb Hhold.
  { exists st. split; [done|]. split; [done|]. split; [done|]. intros ty.
    rewrite decide_False; [done|]. by apply not_elem_of_nil. }
  simpl in *. fold (total a) in *. destruct Hhold as [Hf Hhold].
  assert (Ha' : Forall (fun x => field_len (at_len x)) a) by (eapply Forall_impl; [exact Ha|by intros y []]).
  pose proof (total_nonneg a Ha'). pose proof (field_len_pos _ (fo_len _ _ Hx)).
  destruct (byte_of h bp) as [-> ->].
  destruct (unpack_attribute_ok g st (8 * h + bp) x val) as (s1 & E1 & Hp1 & Hw1 & Hval1); try done; [lia..|].
  erewrite bind_Ok by exact E1. assert (Hp1' := Hp1). destruct Hp1' as (Ep & Eh & Eb & El).
  destruct (IH (bp + at_len x) s1) as (s2 & E2 & Hp2 & Hw2 & Hval2); rewrite ?Ep; try done; [lia..| |].
  { replace (8 * h + (bp + at_len x)) with (8 * h + bp + at_len x) by lia. done. }
  exists s2. split; [exact E2|]. split; [|split; [done|]].
  - unfold same_packet in *. naive_solver congruence.
  - intros ty. rewrite Hval2, Hval1. repeat case_decide; set_solver.
Qed.
End unpack_loop.

(** ** Headers *)

Section header.
Implicit Types st : packetbuf_st.

(** Replacing the first [m] bytes of the header. *)
Lemma view_replace st l m :
  pb_wf st -> length l = length (packetbuf st) -> drop m l = drop m (packetbuf st) ->
  (m <= Z.to_nat (hdrlen st))%nat ->
  pb_wf (st <| packetbuf := l |>) /\
  pb_view (st <| packetbuf := l |>) = (take m l ++ drop m (pb_header st), bufptr st, pb_payload st).
Proof.
  intros Hw Hl Hd Hm. split; [destruct Hw; split; rsimpl; by rewrite ?Hl|].
  unfold pb_view, pb_header, pb_payload. rsimpl. destruct Hw.
  rewrite skipn_firstn_comm, <- Hd, <- skipn_firstn_comm. f_equal; [f_equal|].
  - rewrite <- (take_drop m (take (Z.to_nat (hdrlen st)) l)) at 1. rewrite take_take.
    by rewrite Nat.min_l by lia.
  - f_equal. replace (Z.to_nat (bufptr st + hdrlen st)) with (m + (Z.to_nat (bufptr st + hdrlen st) - m))%nat by lia.
    by rewrite <- !drop_drop, Hd.
Qed.

(** Only the first bytes of a packet matter for what its header holds. *)
Lemma hbit_take m l k : 0 <= k < 8 * Z.of_nat m -> hbit (take m l) k = hbit l k.
Proof.
  intros Hk. unfold hbit. f_equal. rewrite !list_lookup_total_alt, lookup_take_lt; [done|].
  Z.div_mod_to_equations; lia.
Qed.
Lemma holds_take val a l l' m q :
  Forall (fun x => field_len (at_len x)) a -> take m l = take m l' -> 0 <= q ->
  q + total a <= 8 * Z.of_nat m -> holds val q a l -> holds val q a l'.
Proof.
  intros Ha Ht. revert q. induction Ha as [|x a Hx Ha IH]; intros q Hq Hm; [done|].
  simpl in *. fold (total a) in *. pose proof (total_nonneg a Ha). pose proof (field_len_pos _ Hx).
  intros [Hf Hh]. split; [|apply IH; [lia|lia|done]].
  intros t Hb. rewrite <- Hf by done. rewrite <- (hbit_take m l'), <- Ht, hbit_take by lia. done.
Qed.

Lemma hdrbytes_eq n : 0 <= n -> n <= 8 * hdrbytes n < n + 8 /\ 0 <= hdrbytes n.
Proof.
  intros Hn. unfold hdrbytes. change 7 with (Z.ones 3). rewrite Z.land_ones by lia.
  change (2 ^ 3) with 8. destruct (Z.eqb_spec (n mod 8) 0); Z.div_mod_to_equations; lia.
Qed.

Definition hdr_len (c : channel) : Z := BITOPT_HDR_SIZE + hdrbytes (hdrsize c).

(** A channel whose declared attributes can be carried with their values. *)
Record channel_ok (val : nat -> Z) (c : channel) : Prop := {
  co_fields : Forall (field_ok val) (attributes (attrlist c));
  co_hdrsize : hdrsize c = chameleon_hdrsize (attrlist c);
  co_no : in_u 16 (channelno c);
}.

(** The bytes of a header of the channel with these values. *)
Record carries (val : nat -> Z) (c : channel) (hdr : list Z) : Prop := {
  ca_len : Z.of_nat (length hdr) = hdr_len c;
  ca_no0 : hdr !!! 0%nat = Z.land (channelno c) 0xff;
  ca_no1 : hdr !!! 1%nat = Z.land (Z.shiftr (channelno c) 8) 0xff;
  ca_holds : holds val 16 (attributes (attrlist c)) hdr;
  ca_bytes : bytes_in 0 (Z.of_nat (length hdr)) hdr;
}.

Lemma channel_ok_size val c :
  channel_ok val c -> hdrsize c = total (attributes (attrlist c)) /\ 0 <= hdrsize c.
Proof.
  intros [Hf Hs _]. rewrite Hs. unfold chameleon_hdrsize. rewrite header_size_eq. split; [done|].
  apply total_nonneg. eapply Forall_impl; [exact Hf|by intros x []].
Qed.

Lemma lookup_total_zeros (a z d : list Z) i :
  Forall (eq 0) z -> (length a <= i < length a + length z)%nat -> (a ++ z ++ d) !!! i = 0.
Proof.
  intros Hz Hi. rewrite lookup_total_app_r, lookup_total_app_l by lia.
  rewrite Forall_lookup in Hz. symmetry. eapply Hz. apply list_lookup_lookup_total_lt. lia.
Qed.

(** The header after the channel number is written and the rest zeroed. *)
Lemma blank_header b0 b1 (n : nat) d :
  0 <= b0 < 256 -> 0 <= b1 < 256 ->
  let l := [b0; b1] ++ replicate n 0 ++ d in
  blank 16 (8 * Z.of_nat n) l /\ bytes_in 0 (2 + Z.of_nat n) l.
Proof.
  intros H0 H1 l. assert (Hz : forall i, (2 <= i < 2 + n)%nat -> l !!! i = 0).
  { intros i Hi. apply (lookup_total_zeros [b0; b1]); [|rewrite length_replicate; done].
    apply Forall_replicate. done. }
  split.
  - intros t Ht. unfold hbit. rewrite Hz by (Z.div_mod_to_equations; lia). apply Z.bits_0.
  - intros i j Hi Hj. destruct i as [|[|i]].
    + apply (testbit_out b0 8); [done|lia].
    + apply (testbit_out b1 8); [done|lia].
    + rewrite Hz by lia. apply Z.bits_0.
Qed.

(** [pack_header] up to the loop. *)
Lemma pack_start c st1 (n : nat) :
  let l1 := packetbuf st1 in
  (2 + n <= length l1)%nat ->
  let l := [Z.land (channelno c) 255; Z.land (Z.shiftr (channelno c) 8) 255] ++ replicate n 0 ++ drop (2 + n) l1 in
  forall B (k : Z -> PB B),
  (hdr ← packetbuf_hdrptr;
   pb_write hdr (Z.land (channelno c) 0xff) ;;
   pb_write (hdr + 1) (Z.land (Z.shiftr (channelno c) 8) 0xff) ;;
   p ← packetbuf_hdrptr;
   let hdrptr := p + BITOPT_HDR_SIZE in
   pb_store hdrptr (replicate n 0) ;; k hdrptr) st1 = k 2 (st1 <| packetbuf := l |>).
Proof.
  intros l1 Hl l B k. destruct l1 as [|x [|y l']] eqn:E; unfold l1 in *; try (simpl in Hl; lia).
  erewrite bind_Ok by reflexivity.
  assert (H0 : (0 < length (packetbuf st1))%nat) by (rewrite E; simpl; lia).
  erewrite bind_Ok by exact (pb_write_ok 0 _ st1 H0).
  set (st2 := st1 <| packetbuf ::= _ |>).
  assert (H1 : (1 < length (packetbuf st2))%nat) by (unfold st2; rsimpl; rewrite E; simpl; lia).
  erewrite bind_Ok by exact (pb_write_ok 1 _ st2 H1). unfold st2.
  erewrite bind_Ok by reflexivity.
  erewrite bind_Ok by (apply pb_store_ok; rsimpl; rewrite ?E, ?length_replicate; unfold BITOPT_HDR_SIZE;
    simpl in *; lia).
  change (0 + BITOPT_HDR_SIZE) with 2. f_equal. unfold update. cbn -[Z.land Z.shiftr]. unfold l.
  change (Z.to_nat 2) with 2%nat. rewrite E, length_replicate. cbn -[Z.land Z.shiftr].
  done.
Qed.

Lemma take_app_take {A} (m : nat) (l d : list A) :
  length l = m -> take m (l ++ d) = l /\ drop m (l ++ d) = d.
Proof. intros <-. by rewrite take_app_length, drop_app_length. Qed.

(** The header is what the loop leaves in front of the old one. *)
Lemma carries_intro c st l0 l n :
  channel_ok (attr_value st) c -> Z.of_nat n = hdrbytes (hdrsize c) -> (2 + n <= length l)%nat ->
  take 2 l0 = [Z.land (channelno c) 255; Z.land (Z.shiftr (channelno c) 8) 255] ->
  bytes_in 0 (2 + Z.of_nat n) l0 ->
  outside 16 (total (attributes (attrlist c))) l0 l ->
  holds (attr_value st) 16 (attributes (attrlist c)) l ->
  carries (attr_value st) c (take (2 + n) l).
Proof.
  intros Hc En Hl Ht0 Hby Ho Hh. destruct (channel_ok_size _ _ Hc) as [Hs Hs0].
  destruct (hdrbytes_eq _ Hs0) as [Hhb Hhb0].
  pose proof (outside_take _ _ _ _ 2%nat Ho ltac:(lia)) as Ht. rewrite Ht0 in Ht.
  destruct l as [|x [|y l']]; try done. cbn [take] in Ht. injection Ht as -> ->. split.
  - rewrite length_take. unfold hdr_len, BITOPT_HDR_SIZE. lia.
  - done.
  - done.
  - eapply (holds_take _ _ (_ :: _ :: l') _ (2 + n)%nat); [|by rewrite take_take, Nat.min_id|lia|lia|done].
    eapply Forall_impl; [apply (co_fields _ _ Hc)|by intros z []].
  - intros i j Hi Hj. rewrite length_take in Hi.
    rewrite list_lookup_total_alt, lookup_take_lt, <- list_lookup_total_alt by lia.
    apply (outside_bytes _ _ _ _ _ _ Ho Hby); lia.
Qed.

Lemma pack_header_ok c st :
  pb_wf st -> channel_ok (attr_value st) c ->
  hdr_len c + hdrlen st + bufptr st + buflen st < PACKETBUF_SIZE ->
  exists st' hdr, pack_header c st = Ok (1, st') /\ pb_wf st' /\
    carries (attr_value st) c hdr /\
    pb_view st' = (hdr ++ pb_header st, bufptr st, pb_payload st) /\
    packetbuf_attrs st' = packetbuf_attrs st /\ packetbuf_addrs st' = packetbuf_addrs st.
Proof.
  intros Hw Hc Hfit. destruct (channel_ok_size _ _ Hc) as [Hs Hs0].
  destruct (hdrbytes_eq _ Hs0) as [Hhb Hhb0]. unfold hdr_len, BITOPT_HDR_SIZE in Hfit.
  set (n := Z.to_nat (hdrbytes (hdrsize c))). assert (En : hdrbytes (hdrsize c) = Z.of_nat n) by lia.
  destruct (hdralloc_eq (hdrbytes (hdrsize c) + 2) st Hw ltac:(lia) ltac:(lia))
    as (st1 & room & E1 & Hw1 & Hroom & Hv1).
  injection (hdralloc_attrs _ _ _ _ E1) as Ea1 Ea2.
  assert (Hh1 : hdrlen st1 = Z.of_nat n + 2 + hdrlen st).
  { rewrite <- (pb_header_length st1 Hw1), <- (pb_header_length st Hw).
    assert (pb_header st1 = room ++ pb_header st) as -> by (by injection Hv1).
    rewrite length_app. lia. }
  set (l0 := [Z.land (channelno c) 255; Z.land (Z.shiftr (channelno c) 8) 255] ++
             replicate n 0 ++ drop (2 + n) (packetbuf st1)).
  assert (Hlen1 : length (packetbuf st1) = 128%nat) by apply Hw1.
  assert (Hn : (2 + n < 128)%nat).
  { destruct Hw. unfold PACKETBUF_SIZE in *. lia. }
  assert (Hl0 : length l0 = 128%nat).
  { unfold l0. rewrite !length_app, length_replicate, length_drop. simpl. lia. }
  destruct (u16_bytes (channelno c) (co_no _ _ Hc)) as [Hb0 Hb1].
  assert (Hb1' : 0 <= Z.land (Z.shiftr (channelno c) 8) 255 < 256) by (by rewrite land_255).
  destruct (blank_header _ _ n (drop (2 + n) (packetbuf st1)) Hb0 Hb1') as [Hz Hby]. fold l0 in Hz, Hby.
  destruct (pack_attributes_ok 2 (attributes (attrlist c)) ltac:(lia) 0 (st1 <| packetbuf := l0 |>))
    as (l & E2 & Ho & Hh); rsimpl; rewrite ?Hl0.
  { eapply Forall_impl; [apply (co_fields _ _ Hc)|]. intros x []. by rewrite (attr_value_ext st). }
  { lia. } { lia. } { eapply blank_sub; [exact Hz|lia..]. }
  { intros i j Hi. apply Hby. Z.div_mod_to_equations; lia. }
  change (8 * 2 + 0) with 16 in *.
  assert (Hd : drop (2 + n) l = drop (2 + n) (packetbuf st1)).
  { rewrite (outside_drop _ _ _ _ (2 + n)%nat Ho) by lia. unfold l0. rewrite app_assoc.
    apply take_app_take. rewrite length_app, length_replicate. done. }
  assert (Hl : length l = 128%nat) by (destruct Ho as [-> _]; done).
  destruct (view_replace st1 l (2 + n)%nat Hw1) as [Hw2 Hv2]; [congruence|done|destruct Hw; lia|].
  exists (st1 <| packetbuf := l |>), (take (2 + n)%nat l). split; [|split; [done|split; [|split; [|done]]]].
  - unfold pack_header. erewrite bind_Ok by exact E1. change (1 =? 0) with false. cbv iota.
    fold n. etransitivity; [exact (pack_start c st1 n ltac:(lia) Z (fun hdrptr =>
      pack_attributes hdrptr (attributes (attrlist c)) 0 ;; mret 1))|].
    fold l0. by erewrite bind_Ok by exact E2.
  - eapply (carries_intro _ _ l0); [done|lia|lia|done|done|done|].
    rewrite <- (attr_value_ext st st1 Ea1 Ea2). exact Hh.
  - unfold pb_view in Hv1. injection Hv1 as Eh Eb Ep. rewrite Hv2, Eh, Eb, Ep.
    by rewrite (proj2 (take_app_take (2 + n)%nat room (pb_header st) ltac:(lia))).
Qed.

End header.

(** ** Parsing *)

(** Where the data starts, and the channel number found there. *)
Definition data_at (pb : packetbuf_st) : nat := Z.to_nat (bufptr pb + hdrlen pb).
Definition frame_no (pb : packetbuf_st) : Z :=
  u16 (Z.shiftl (packetbuf pb !!! S (data_at pb)) 8 + packetbuf pb !!! data_at pb).
Definition find_channel (no : Z) (st : rime_st) : option nat :=
  head (filter (fun c => channelno <$> channels st !! c = Some no) (channel_list st)).
Definition reduced (n : Z) (pb : packetbuf_st) : packetbuf_st :=
  pb <| bufptr := bufptr pb + n |> <| buflen := buflen pb - n |>.

Lemma on_pb_Ok {A} (m : PB A) st a pb :
  m (r_packetbuf st) = Ok (a, pb) -> on_pb m st = Ok (a, st <| r_packetbuf := pb |>).
Proof. intros E. unfold on_pb, zoom. by rewrite E. Qed.
Lemma rime_same st : st <| r_packetbuf := r_packetbuf st |> = st.
Proof. by destruct st. Qed.

Lemma reduced_wf n pb : pb_wf pb -> 0 <= n <= buflen pb -> pb_wf (reduced n pb).
Proof. intros [] Hn. unfold reduced. split; rsimpl; try done; lia. Qed.
Lemma reduced_payload n pb :
  pb_wf pb -> 0 <= n <= buflen pb -> pb_payload (reduced n pb) = drop (Z.to_nat n) (pb_payload pb).
Proof.
  intros Hw Hn. destruct (hdrreduce_eq n pb Hw Hn) as (pb' & E & _ & Hv).
  rewrite hdrreduce_run in E by done. injection E as <-. by injection Hv.
Qed.
Lemma reduced_reduced a b pb : reduced b (reduced a pb) = reduced (a + b) pb.
Proof. unfold reduced, update. cbn. f_equal; lia. Qed.

Section parse.
Variable garbage : list Z.
Hypothesis garbage_len : length garbage = 2%nat.
Implicit Types st : rime_st.

(** The rest of [unpack_header], once the channel is known. *)
Definition unpack_fields (i : nat) : RM (option nat) :=
  c ← get_channel i;
  hdrptr ← on_pb packetbuf_dataptr;
  ok ← on_pb (packetbuf_hdrreduce (hdrbytes (hdrsize c)));
  if ok =? 0 then mret None
  else
    on_pb (unpack_attributes garbage hdrptr (attributes (attrlist c)) 0) ;;
    mret (Some i).

Lemma dataptr_eq pb : pb_wf pb -> packetbuf_dataptr pb = Ok (Z.of_nat (data_at pb), pb).
Proof.
  intros H. unfold packetbuf_dataptr, packetbuf_hdrlen, gets. rewrite hdrlen_u8 by done.
  unfold data_at. destruct H. by rewrite Z2Nat.id by lia.
Qed.

Lemma unpack_short st : buflen (r_packetbuf st) < 2 -> pb_wf (r_packetbuf st) ->
  unpack_header garbage st = Ok (None, st).
Proof.
  intros Hs Hw. unfold unpack_header.
  erewrite bind_Ok by (apply on_pb_Ok, dataptr_eq, Hw). rewrite rime_same.
  erewrite bind_Ok by (apply on_pb_Ok, hdrreduce_short, Hs). by rewrite rime_same.
Qed.

Lemma unpack_start st :
  pb_wf (r_packetbuf st) -> 2 <= buflen (r_packetbuf st) ->
  unpack_header garbage st =
  match find_channel (frame_no (r_packetbuf st)) st with
  | None => mret None
  | Some i => unpack_fields i
  end (st <| r_packetbuf := reduced 2 (r_packetbuf st) |>).
Proof.
  intros Hw Hl. unfold unpack_header. set (pb := r_packetbuf st) in *.
  erewrite bind_Ok by (apply on_pb_Ok, dataptr_eq, Hw). rewrite rime_same.
  erewrite bind_Ok by (apply on_pb_Ok, hdrreduce_run; [exact Hw|unfold BITOPT_HDR_SIZE; fold pb; lia]).
  change (1 =? 0) with false. cbv iota.
  fold pb. assert (Hd : (S (data_at pb) < length (packetbuf pb))%nat).
  { unfold data_at. destruct Hw. unfold PACKETBUF_SIZE in *. lia. }
  replace (Z.of_nat (data_at pb) + 1) with (Z.of_nat (S (data_at pb))) by lia.
  erewrite bind_Ok by (apply on_pb_Ok, pb_read_ok, list_lookup_lookup_total_lt; rsimpl; lia).
  rewrite rime_same.
  erewrite bind_Ok by (apply on_pb_Ok, pb_read_ok, list_lookup_lookup_total_lt; rsimpl; lia).
  rewrite rime_same. erewrite bind_Ok by reflexivity. rsimpl. fold (frame_no pb).
  fold (find_channel (frame_no pb) st). by destruct (find_channel (frame_no pb) st).
Qed.

(** *** Any bytes at all *)

Lemma get_bits_in_byte_total pb p b n :
  0 <= p -> p + 1 < Z.of_nat (length (packetbuf pb)) ->
  exists v, get_bits_in_byte p b n pb = Ok (v, pb).
Proof.
  intros Hp Hl. rewrite <- (Z2Nat.id p) by done. eexists. apply get_bits_in_byte_run. lia.
Qed.
Lemma get_byte_total pb p b :
  0 <= p -> p + 1 < Z.of_nat (length (packetbuf pb)) ->
  exists v, (if b =? 0 then pb_read p else get_bits_in_byte p b 8) pb = Ok (v, pb).
Proof.
  intros Hp Hl. destruct (b =? 0); [|by apply get_bits_in_byte_total].
  rewrite <- (Z2Nat.id p) by done. eexists. apply pb_read_ok, list_lookup_lookup_total_lt. lia.
Qed.
Lemma get_bits_total pb to q n :
  0 <= q -> field_len n -> length to = 2%nat -> q + n + 7 < 8 * Z.of_nat (length (packetbuf pb)) ->
  exists to', get_bits to (q / 8) (q mod 8) n pb = Ok (to', pb).
Proof.
  intros Hq Hn Ht Hl. pose proof (Z.div_mod q 8 ltac:(lia)). pose proof (Z.mod_pos_bound q 8 ltac:(lia)).
  destruct (decide (n = 16)) as [->|]; [|destruct (decide (n = 8)) as [->|]].
  - rewrite get_bits_16 by done. destruct (get_byte_total pb (q / 8) (q mod 8)) as [v1 E1]; [lia..|].
    destruct (get_byte_total pb (q / 8 + 1) (q mod 8)) as [v2 E2]; [lia..|].
    erewrite bind_Ok by exact E1. erewrite bind_Ok by exact E2. by eexists.
  - rewrite get_bits_8 by done. destruct (get_byte_total pb (q / 8) (q mod 8)) as [v1 E1]; [lia..|].
    erewrite bind_Ok by exact E1. by eexists.
  - assert (Hn' : 0 < n < 8) by (destruct Hn; lia). unfold get_bits.
    rewrite (proj2 (Z.ltb_lt _ _)) by lia.
    destruct (get_bits_in_byte_total pb (q / 8) (q mod 8) n) as [v E]; [lia..|].
    erewrite bind_Ok by exact E. unfold buf_write. rewrite Ht. by eexists.
Qed.

Lemma unpack_attributes_total h a : 0 <= h -> Forall (fun x => field_len (at_len x)) a -> forall bp pb,
  0 <= bp -> 8 * h + bp + total a + 7 < 8 * Z.of_nat (length (packetbuf pb)) ->
  exists pb', unpack_attributes garbage h a bp pb = Ok (tt, pb') /\ same_packet pb pb'.
Proof.
  intros Hh Ha. induction Ha as [|x a Hx Ha IH]; intros bp pb Hbp Hl; [by exists pb|].
  simpl in *. fold (total a) in *. pose proof (total_nonneg a Ha). pose proof (field_len_pos _ Hx).
  destruct (byte_of h bp) as [-> ->].
  assert (exists pb1, unpack_attribute garbage (at_type x) ((8 * h + bp) / 8) ((8 * h + bp) mod 8) (at_len x) pb =
    Ok (tt, pb1) /\ same_packet pb pb1) as (pb1 & E1 & Hp1).
  { unfold unpack_attribute. destruct (PACKETBUF_IS_ADDR (at_type x)).
    - destruct (get_bits_total pb garbage (8 * h + bp) (at_len x)) as [to E]; [lia|done|done|lia|].
      erewrite bind_Ok by exact E. eexists. split; [reflexivity|]. by split.
    - destruct (get_bits_total pb [0; 0] (8 * h + bp) (at_len x)) as [to E]; [lia|done|done|lia|].
      erewrite bind_Ok by exact E. eexists. split; [reflexivity|]. by split. }
  erewrite bind_Ok by exact E1. assert (Hp1' := Hp1). destruct Hp1' as (Ep & Eh & Eb & El).
  destruct (IH (bp + at_len x) pb1) as (pb2 & E2 & Hp2); [lia|rewrite Ep; lia|].
  exists pb2. split; [exact E2|]. unfold same_packet in *. naive_solver congruence.
Qed.

(** The declarations of a channel as [channel_set_attributes] leaves them. *)
Record channel_wf (c : channel) : Prop := {
  cw_fields : Forall (fun x => field_len (at_len x)) (attributes (attrlist c));
  cw_hdrsize : hdrsize c = chameleon_hdrsize (attrlist c);
}.
Lemma channel_wf_size c :
  channel_wf c -> hdrsize c = total (attributes (attrlist c)) /\ 0 <= hdrsize c.
Proof.
  intros [Hf Hs]. rewrite Hs. unfold chameleon_hdrsize. rewrite header_size_eq.
  split; [done|]. by apply total_nonneg.
Qed.

Lemma same_packet_payload pb pb' : same_packet pb pb' -> pb_payload pb' = pb_payload pb.
Proof. intros (E1 & E2 & E3 & E4). unfold pb_payload. by rewrite E1, E2, E3, E4. Qed.
Lemma same_packet_wf pb pb' : same_packet pb pb' -> pb_wf pb -> pb_wf pb'.
Proof. intros (E1 & E2 & E3 & E4) []. split; by rewrite ?E1, ?E2, ?E3, ?E4. Qed.

(** [unpack_fields] when the header is complete; the loop runs on the reduced
    packet. *)
Lemma unpack_fields_run i c st pb' :
  pb_wf (r_packetbuf st) -> channels st !! i = Some c ->
  0 <= hdrbytes (hdrsize c) <= buflen (r_packetbuf st) ->
  unpack_attributes garbage (Z.of_nat (data_at (r_packetbuf st))) (attributes (attrlist c)) 0
    (reduced (hdrbytes (hdrsize c)) (r_packetbuf st)) = Ok (tt, pb') ->
  unpack_fields i st = Ok (Some i, st <| r_packetbuf := pb' |>).
Proof.
  intros Hw Hi Hl E. unfold unpack_fields.
  erewrite bind_Ok by (unfold get_channel; rewrite Hi; reflexivity).
  erewrite bind_Ok by (apply on_pb_Ok, dataptr_eq, Hw). rewrite rime_same.
  erewrite bind_Ok by (apply on_pb_Ok, hdrreduce_run; done).
  change (1 =? 0) with false. cbv iota.
  by erewrite bind_Ok by (apply on_pb_Ok; rsimpl; exact E).
Qed.
Lemma unpack_fields_short i c st :
  pb_wf (r_packetbuf st) -> channels st !! i = Some c ->
  buflen (r_packetbuf st) < hdrbytes (hdrsize c) -> unpack_fields i st = Ok (None, st).
Proof.
  intros Hw Hi Hl. unfold unpack_fields.
  erewrite bind_Ok by (unfold get_channel; rewrite Hi; reflexivity).
  erewrite bind_Ok by (apply on_pb_Ok, dataptr_eq, Hw). rewrite rime_same.
  erewrite bind_Ok by (apply on_pb_Ok, hdrreduce_short, Hl). by rewrite rime_same.
Qed.

Lemma find_channel_Some no st i :
  find_channel no st = Some i -> i ∈ channel_list st /\ exists c, channels st !! i = Some c /\ channelno c = no.
Proof.
  unfold find_channel. intros H. destruct (filter _ _) as [|j l] eqn:E; [done|]. injection H as ->.
  assert (Hin : i ∈ filter (fun c => channelno <$> channels st !! c = Some no) (channel_list st))
    by (rewrite E; left).
  apply list_elem_of_filter in Hin as [Hc Hi]. split; [done|].
  apply fmap_Some in Hc as (c & Hc & ->). by exists c.
Qed.

(** The channel a received packet names. *)
Definition frame_channel (st : rime_st) : option nat :=
  if buflen (r_packetbuf st) <? 2 then None else find_channel (frame_no (r_packetbuf st)) st.

(** After the fields, [chameleon_parse] notes the channel number. *)
Lemma parse_Some i c st pb' :
  unpack_header garbage st = Ok (Some i, st <| r_packetbuf := pb' |>) -> channels st !! i = Some c ->
  chameleon_parse garbage st = Ok (Some i, st <| r_packetbuf :=
    (pb' <| packetbuf_attrs ::= <[PACKETBUF_ATTR_CHANNEL := u16 (channelno c)]> |>) |>).
Proof.
  intros E Hi. unfold chameleon_parse. erewrite bind_Ok by exact E. cbv iota beta.
  erewrite bind_Ok by (unfold get_channel; rsimpl; rewrite Hi; reflexivity).
  by erewrite bind_Ok by (apply on_pb_Ok; reflexivity).
Qed.
Lemma parse_None st st' :
  unpack_header garbage st = Ok (None, st') -> chameleon_parse garbage st = Ok (None, st').
Proof. intros E. unfold chameleon_parse. by erewrite bind_Ok by exact E. Qed.

Lemma unpack_complete st i c :
  pb_wf (r_packetbuf st) -> channels st !! i = Some c -> channel_wf c ->
  Z.of_nat (data_at (r_packetbuf st)) + hdr_len c < PACKETBUF_SIZE ->
  frame_channel st = Some i -> hdr_len c <= buflen (r_packetbuf st) ->
  exists pb', unpack_header garbage st = Ok (Some i, st <| r_packetbuf := pb' |>) /\
    same_packet (reduced (hdr_len c) (r_packetbuf st)) pb'.
Proof.
  intros Hw Hi Hc Hd Hf Hl. unfold frame_channel in Hf. case_match eqn:E2; [done|].
  apply Z.ltb_ge in E2. destruct (channel_wf_size c Hc) as [Hs Hs0]. destruct (hdrbytes_eq _ Hs0) as [Hhb Hhb0].
  unfold hdr_len, BITOPT_HDR_SIZE, PACKETBUF_SIZE in *. rewrite unpack_start by done. rewrite Hf.
  set (st1 := st <| r_packetbuf := reduced 2 (r_packetbuf st) |>).
  assert (Hw1 : pb_wf (r_packetbuf st1)) by (apply reduced_wf; [done|lia]).
  assert (Hd1 : Z.of_nat (data_at (r_packetbuf st1)) = Z.of_nat (data_at (r_packetbuf st)) + 2).
  { unfold data_at, st1, reduced. rsimpl. destruct Hw. lia. }
  destruct (unpack_attributes_total (Z.of_nat (data_at (r_packetbuf st1))) (attributes (attrlist c))
    ltac:(lia) (cw_fields c Hc) 0 (reduced (hdrbytes (hdrsize c)) (r_packetbuf st1))) as (pb' & E & Hp); [lia| |].
  { change (packetbuf (reduced (hdrbytes (hdrsize c)) (r_packetbuf st1))) with (packetbuf (r_packetbuf st)).
    rewrite (wf_size _ Hw). unfold PACKETBUF_SIZE. lia. }
  exists pb'. split.
  - rewrite (unpack_fields_run i c st1 pb'); [done|done|done| |done].
    change (buflen (r_packetbuf st1)) with (buflen (r_packetbuf st) - 2). lia.
  - unfold st1 in Hp. rsimpl. by rewrite reduced_reduced in Hp.
Qed.

(** C28. Parsing never reads outside the packet buffer, whatever bytes have been
    received: if the header of every open channel fits in front of the end of the
    buffer, [chameleon_parse] returns, and it returns the first open channel with
    the number in the frame, with the header removed from the data and the number
    noted as an attribute; it returns no channel when the frame is shorter than
    the channel number, names no open channel or is shorter than the header of
    the one it names.  The channels are left alone. *)
Theorem chameleon_parse_any_frame st :
  let data := pb_payload (r_packetbuf st) in
  pb_wf (r_packetbuf st) ->
  (forall i c, i ∈ channel_list st -> channels st !! i = Some c ->
     channel_wf c /\ Z.of_nat (data_at (r_packetbuf st)) + hdr_len c < PACKETBUF_SIZE) ->
  exists r st', chameleon_parse garbage st = Ok (r, st') /\ pb_wf (r_packetbuf st') /\
    channels st' = channels st /\ channel_list st' = channel_list st /\
    match frame_channel st with
    | None => r = None /\
        pb_payload (r_packetbuf st') = drop (if (length data <? 2)%nat then 0 else 2)%nat data
    | Some i => exists c, channels st !! i = Some c /\
        if Z.of_nat (length data) <? hdr_len c
        then r = None /\ pb_payload (r_packetbuf st') = drop 2 data
        else r = Some i /\ pb_payload (r_packetbuf st') = drop (Z.to_nat (hdr_len c)) data
    end.
Proof.
  intros data Hw Hch. assert (Hlen : Z.of_nat (length data) = buflen (r_packetbuf st))
    by (apply pb_payload_length, Hw).
  unfold frame_channel. destruct (Z.ltb_spec (buflen (r_packetbuf st)) 2) as [Hb|Hb].
  { exists None, st. rewrite (parse_None st st) by (by apply unpack_short).
    do 4 (split; [done|]). split; [done|]. rewrite (proj2 (Nat.ltb_lt _ _)) by lia. by rewrite drop_0. }
  assert (Hw2 : pb_wf (reduced 2 (r_packetbuf st))) by (apply reduced_wf; [done|lia]).
  assert (Hp2 : pb_payload (reduced 2 (r_packetbuf st)) = drop 2 data)
    by (apply reduced_payload; [done|lia]).
  destruct (find_channel _ st) as [i|] eqn:Ef.
  2:{ eexists None, _. rewrite (parse_None st (st <| r_packetbuf := reduced 2 (r_packetbuf st) |>)).
      2:{ rewrite unpack_start, Ef by done. done. }
      do 4 (split; [done|]). split; [done|]. rewrite (proj2 (Nat.ltb_ge _ _)) by lia. done. }
  destruct (find_channel_Some _ _ _ Ef) as (Hin & c & Hi & _). destruct (Hch i c Hin Hi) as [Hc Hd].
  destruct (channel_wf_size c Hc) as [_ Hs0]. destruct (hdrbytes_eq _ Hs0) as [_ Hhb0].
  destruct (Z.ltb_spec (Z.of_nat (length data)) (hdr_len c)) as [Hs|Hs].
  - eexists None, _. rewrite (parse_None st (st <| r_packetbuf := reduced 2 (r_packetbuf st) |>)).
    2:{ rewrite unpack_start, Ef by done. apply (unpack_fields_short i c); [done|done|].
        unfold hdr_len, BITOPT_HDR_SIZE in Hs. unfold reduced. rsimpl. lia. }
    do 4 (split; [done|]). exists c. by rewrite (proj2 (Z.ltb_lt _ _) Hs).
  - destruct (unpack_complete st i c Hw Hi Hc Hd) as (pb' & E & Hp); [|lia|].
    { unfold frame_channel. by rewrite (proj2 (Z.ltb_ge _ _)). }
    eexists (Some i), _. rewrite (parse_Some i c st pb' E Hi).
    assert (Hr : 0 <= hdr_len c <= buflen (r_packetbuf st)) by (unfold hdr_len, BITOPT_HDR_SIZE in *; lia).
    split; [reflexivity|]. split; [|split; [done|split; [done|]]].
    + apply (same_packet_wf pb'); [by split|]. by apply (same_packet_wf _ _ Hp), reduced_wf.
    + exists c. rewrite (proj2 (Z.ltb_ge _ _) Hs). do 2 (split; [done|]).
      unfold data. rewrite <- (reduced_payload (hdr_len c)) by done.
      rewrite <- (same_packet_payload _ _ Hp). by apply same_packet_payload.
Qed.
End parse.

(** ** The round trip *)

Section roundtrip.
Variable garbage : list Z.
Hypothesis garbage_len : length garbage = 2%nat.

Lemma bytes_Forall l a b : Forall (in_u 8) l -> bytes_in a b l.
Proof.
  intros H i j _ Hj. destruct (decide (i < length l)%nat) as [Hi|Hi].
  - rewrite Forall_lookup in H. apply (testbit_out _ 8); [|lia].
    apply (H i), list_lookup_lookup_total_lt, Hi.
  - rewrite list_lookup_total_alt, lookup_ge_None_2 by lia. apply (testbit_out 1 8); [done|lia].
Qed.
Lemma bytes_app l1 l2 b :
  bytes_in 0 (Z.of_nat (length l1)) l1 -> Forall (in_u 8) l2 -> bytes_in 0 b (l1 ++ l2).
Proof.
  intros H1 H2 i j Hi Hj. destruct (decide (i < length l1)%nat).
  - rewrite lookup_total_app_l by done. apply H1; lia.
  - rewrite lookup_total_app_r by lia. by apply (bytes_Forall _ 0 (Z.of_nat (S (i - length l1))) H2); [lia|].
Qed.

Lemma channelno_eq no : in_u 16 no ->
  u16 (Z.shiftl (Z.land (Z.shiftr no 8) 255) 8 + Z.land no 255) = no.
Proof.
  intros H. unfold in_u in H. destruct (u16_bytes no H) as [_ Hhi]. rewrite (land_255 (Z.shiftr no 8)) by done.
  change 255 with (Z.ones 8). rewrite Z.land_ones, Z.shiftl_mul_pow2, Z.shiftr_div_pow2 by lia.
  uwrap_lia.
Qed.

(** A frame that begins with the header of the channel, freshly copied into the
    packet buffer. *)
Lemma unpack_frame st j d val hdr rest l :
  let pb := mk_packetbuf (hdr ++ rest ++ l) (Z.of_nat (length (hdr ++ rest))) 0 0
              (replicate PACKETBUF_NUM_ATTRS 0) (replicate PACKETBUF_NUM_ADDRS 0) in
  pb_wf pb -> Forall (in_u 8) (rest ++ l) -> channel_ok val d -> carries val d hdr ->
  hdr_len d < PACKETBUF_SIZE -> find_channel (channelno d) st = Some j -> channels st !! j = Some d ->
  exists pb', unpack_header garbage (st <| r_packetbuf := pb |>) = Ok (Some j, st <| r_packetbuf := pb' |>) /\
    pb_payload pb' = rest /\ attrs_wf pb' /\
    forall ty, (ty < PACKETBUF_NUM_ATTRS + PACKETBUF_NUM_ADDRS)%nat ->
      attr_value pb' ty = if decide (ty ∈ at_type <$> attributes (attrlist d)) then val ty else 0.
Proof.
  intros pb Hw Hby Hd Hc Hl Hf Hj. destruct (channel_ok_size _ _ Hd) as [Hs Hs0].
  destruct (hdrbytes_eq _ Hs0) as [Hhb Hhb0]. destruct Hc as [Clen C0 C1 Ch Cb].
  unfold hdr_len, BITOPT_HDR_SIZE, PACKETBUF_SIZE in *. set (n := hdrbytes (hdrsize d)) in *.
  assert (Hno : frame_no pb = channelno d).
  { unfold frame_no. change (data_at pb) with 0%nat. change (packetbuf pb) with (hdr ++ rest ++ l).
    rewrite !lookup_total_app_l by lia.
    rewrite C0, C1. apply channelno_eq, (co_no _ _ Hd). }
  assert (Hbuf : 2 + n <= buflen pb) by (unfold pb; cbn; rewrite length_app; lia).
  rewrite unpack_start; [|done|done|rsimpl; lia]. rsimpl. rewrite Hno.
  change (find_channel (channelno d) st <| r_packetbuf := pb |>) with (find_channel (channelno d) st).
  rewrite Hf. set (st1 := st <| r_packetbuf := reduced 2 pb |>).
  assert (Hw1 : pb_wf (r_packetbuf st1)) by (apply reduced_wf; [done|lia]).
  destruct (unpack_attributes_ok garbage 2 (attributes (attrlist d)) val garbage_len ltac:(lia)
    (co_fields _ _ Hd) 0 (reduced n (reduced 2 pb))) as (pb' & E & Hp & Hwa & Hval).
  { done. } { done. }
  { change (packetbuf (reduced n (reduced 2 pb))) with (packetbuf pb). rewrite (wf_size _ Hw).
    unfold PACKETBUF_SIZE. lia. }
  { change (packetbuf (reduced n (reduced 2 pb))) with (hdr ++ rest ++ l). by apply bytes_app. }
  { change (packetbuf (reduced n (reduced 2 pb))) with (hdr ++ rest ++ l).
    apply (holds_take val _ hdr _ (length hdr)); [|by rewrite take_app_length, take_ge|lia|lia|done].
    eapply Forall_impl; [apply (co_fields _ _ Hd)|by intros x []]. }
  exists pb'. split; [|split; [|split; [done|]]].
  - change (st <| r_packetbuf := pb |> <| r_packetbuf := reduced 2 pb |>) with st1.
    apply (unpack_fields_run garbage garbage_len j d st1); [done|done| |exact E].
    change (buflen (r_packetbuf st1)) with (buflen pb - 2). fold n. lia.
  - rewrite (same_packet_payload _ _ Hp), reduced_reduced, reduced_payload by (done || lia).
    unfold pb_payload, pb. cbn. rewrite drop_0, Nat2Z.id, app_assoc, take_app_length.
    apply take_app_take. lia.
  - intros ty Hty. rewrite Hval. case_decide; [done|].
    unfold attr_value, PACKETBUF_IS_ADDR, PACKETBUF_ADDR_FIRST, PACKETBUF_NUM_ATTRS, PACKETBUF_NUM_ADDRS in *.
    destruct (Nat.leb_spec 29 ty); apply list_lookup_total_correct, lookup_replicate_2; lia.
Qed.

(** A frame arrives: the radio driver copies it into the packet buffer and
    [input] of rime.c parses it. *)
Definition receive_frame (frame : list Z) : RM (option nat) :=
  on_pb (packetbuf_copyfrom frame (Z.of_nat (length frame))) ;;
  chameleon_parse garbage.

(** What is in an attribute after parsing: the channel number, what the sender
    had there, or nothing. *)
Definition carried (c : channel) (val : nat -> Z) (type : nat) : Z :=
  if decide (type = PACKETBUF_ATTR_CHANNEL) then channelno c
  else if decide (type ∈ at_type <$> attributes (attrlist c)) then val type else 0.

Lemma rime_output_ok st i c :
  let pb := r_packetbuf st in
  pb_wf pb -> channels st !! i = Some c -> channel_ok (attr_value pb) c ->
  hdr_len c + hdrlen pb + bufptr pb + buflen pb < PACKETBUF_SIZE ->
  exists hdr st', rime_output i st = Ok ((1, Some (hdr ++ pb_header pb ++ pb_payload pb)), st') /\
    carries (attr_value pb) c hdr /\ pb_payload (r_packetbuf st') = pb_payload pb /\
    channels st' = channels st /\ channel_list st' = channel_list st.
Proof.
  intros pb Hw Hi Hc Hfit. destruct (pack_header_ok c pb Hw Hc Hfit) as (pb1 & hdr & E & Hw1 & Hcar & Hv & _).
  set (pb2 := pb1 <| packetbuf_attrs ::= <[PACKETBUF_ATTR_CHANNEL := u16 (channelno c)]> |>).
  assert (Hw2 : pb_wf pb2) by (apply (same_packet_wf pb1); [by split|done]).
  destruct (compact_eq pb2 Hw2) as (pb3 & Ecomp & Hw3 & Hv3).
  exists hdr, (st <| r_packetbuf := pb3 |>). split; [|split; [done|split; [|done]]].
  2:{ transitivity (pb_payload pb2); [by injection Hv3|by injection Hv]. }
  assert (Ec : chameleon_create i st = Ok (1, st <| r_packetbuf := pb2 |>)).
  { unfold chameleon_create. erewrite bind_Ok by (unfold get_channel; rewrite Hi; reflexivity).
    erewrite bind_Ok by (apply on_pb_Ok; exact E).
    by erewrite bind_Ok by (apply on_pb_Ok; reflexivity). }
  unfold rime_output. erewrite bind_Ok by exact Ec. change (c_true 1) with true. cbv iota.
  erewrite bind_Ok by (apply on_pb_Ok; exact Ecomp).
  erewrite bind_Ok by (apply on_pb_Ok, copyto_eq, Hw3).
  assert (Hh : pb_header pb3 = hdr ++ pb_header pb).
  { transitivity (pb_header pb2); [by injection Hv3|by injection Hv]. }
  assert (Hp : pb_payload pb3 = pb_payload pb).
  { transitivity (pb_payload pb2); [by injection Hv3|by injection Hv]. }
  rsimpl. by rewrite Hh, Hp, <- app_assoc.
Qed.

(** C27. A packet survives the trip between two nodes: if the attributes a channel
    declares have 1 to 8 or 16 bits and values that fit them, the frame
    [rime_output] builds with [chameleon_create] on one node and copied into the packet buffer of another
    one, which has a channel of that number with the same declarations, is parsed
    by [chameleon_parse] as a frame of that channel; the data is what the sender
    had in its header and payload, every declared attribute and address has the
    sender's value bit for bit, the channel number is noted and every other
    attribute is clear.  Neither side leaves its packet buffer. *)
Theorem chameleon_roundtrip sender receiver i c j d :
  let pb := r_packetbuf sender in
  pb_wf pb -> channels sender !! i = Some c -> channel_ok (attr_value pb) c ->
  Forall (in_u 8) (pb_header pb ++ pb_payload pb) ->
  hdr_len c + hdrlen pb + bufptr pb + buflen pb < PACKETBUF_SIZE ->
  pb_wf (r_packetbuf receiver) -> Forall (in_u 8) (packetbuf (r_packetbuf receiver)) ->
  find_channel (channelno c) receiver = Some j -> channels receiver !! j = Some d ->
  attrlist d = attrlist c -> hdrsize d = hdrsize c ->
  exists frame sender' receiver',
    rime_output i sender = Ok ((1, Some frame), sender') /\
    receive_frame frame receiver = Ok (Some j, receiver') /\
    pb_payload (r_packetbuf receiver') = pb_header pb ++ pb_payload pb /\
    (forall type, (type < PACKETBUF_NUM_ATTRS + PACKETBUF_NUM_ADDRS)%nat ->
       attr_value (r_packetbuf receiver') type = carried c (attr_value pb) type) /\
    channels receiver' = channels receiver /\ channel_list receiver' = channel_list receiver.
Proof.
  intros pb Hw Hi Hc Hby Hfit Hwr Hbr Hf Hj Hal Hsz.
  destruct (rime_output_ok sender i c Hw Hi Hc Hfit) as (hdr & sender' & Es & Hcar & _).
  fold pb in Es. set (rest := pb_header pb ++ pb_payload pb) in *.
  assert (Hno : channelno d = channelno c).
  { destruct (find_channel_Some _ _ _ Hf) as (_ & d' & Hj' & <-). rewrite Hj in Hj'. by injection Hj' as ->. }
  assert (Hdc : d = c) by (destruct c, d; cbn in *; congruence). subst d.
  set (prb := r_packetbuf receiver) in *. set (l := drop (length (hdr ++ rest)) (packetbuf prb)).
  assert (Hlen : Z.of_nat (length (hdr ++ rest)) < PACKETBUF_SIZE).
  { unfold rest. rewrite !length_app, !Nat2Z.inj_add, (ca_len _ _ _ Hcar).
    rewrite (pb_header_length pb Hw), (pb_payload_length pb Hw). destruct Hw. fold pb in Hfit. lia. }
  set (pb0 := mk_packetbuf (hdr ++ rest ++ l) (Z.of_nat (length (hdr ++ rest))) 0 0
    (replicate PACKETBUF_NUM_ATTRS 0) (replicate PACKETBUF_NUM_ADDRS 0)).
  assert (Hw0 : pb_wf pb0).
  { unfold pb0. split; cbn [packetbuf hdrlen bufptr buflen]; [|unfold PACKETBUF_SIZE in *; lia..].
    rewrite app_assoc, length_app. unfold l. rewrite length_drop, (wf_size _ Hwr).
    unfold PACKETBUF_SIZE in *. lia. }
  destruct (unpack_frame receiver j c (attr_value pb) hdr rest l Hw0) as (pb' & E & Hp & [Hwa _] & Hval); try done.
  { apply Forall_app. split; [done|]. by apply Forall_drop. }
  { destruct Hw. fold pb in Hfit. lia. }
  eexists (hdr ++ rest), sender', _. split; [exact Es|]. unfold receive_frame.
  erewrite bind_Ok by (apply on_pb_Ok, copyfrom_run; [done|lia]). fold prb l. rewrite <- app_assoc. fold pb0.
  set (st0 := receiver <| r_packetbuf := pb0 |>) in *.
  rewrite (parse_Some garbage j c st0 pb'); [|exact E|done]. split; [reflexivity|].
  split; [exact Hp|]. split; [|done]. intros type Ht. rsimpl. unfold carried.
  unfold attr_value at 1. rsimpl. case_decide as Hd.
  - subst type. change (PACKETBUF_IS_ADDR _) with false. cbv iota.
    rewrite list_lookup_total_insert_eq by (rewrite Hwa; unfold PACKETBUF_NUM_ATTRS, PACKETBUF_ATTR_CHANNEL; lia).
    apply uwrap_small, (co_no _ _ Hc).
  - rewrite <- (Hval type Ht). unfold attr_value. by rewrite list_lookup_total_insert_ne by done.
Qed.
End roundtrip.

(** *** Two nodes with the broadcast channel of the protocol open *)

Definition opened (pb : packetbuf_st) (no : Z) : rime_st :=
  let st := mk_rime pb [mk_channel 0 [] 0] [] in
  match broadcast_open 0 no st with Ok (_, s) => s | Err _ => st end.
Definition pb_attrs_example : packetbuf_st := pb_example
  <| packetbuf_attrs := <[PACKETBUF_ATTR_CSYNC_CONN_DOAES := 1]>
       (<[PACKETBUF_ATTR_CSYNC_CONN_AES_XORPLAINTEXT_A := 48879]>
       (<[PACKETBUF_ATTR_CSYNC_CONN_AES_XORPLAINTEXT_B := 4660]> (replicate 29 0))) |>
  <| packetbuf_addrs := [513; 0; 0; 0] |>.
Definition channel_example : channel := mk_channel 145 BROADCAST_ATTRIBUTES 56.

Lemma pb_example_wf : pb_wf pb_example.
Proof. split; simpl; unfold PACKETBUF_SIZE; lia. Qed.
Lemma pb_attrs_example_wf : pb_wf pb_attrs_example.
Proof. split; simpl; unfold PACKETBUF_SIZE; lia. Qed.
Lemma channel_example_ok : channel_ok (attr_value pb_attrs_example) channel_example.
Proof.
  split; [|done|unfold in_u; simpl; lia].
  change (attributes (attrlist channel_example)) with BROADCAST_ATTRIBUTES. unfold BROADCAST_ATTRIBUTES.
  rewrite !Forall_cons. split; [|split; [|split; [|split; [|done]]]]; split.
  all: try (intros Ha; vm_compute in Ha |- *; done).
  all: try (apply Nat.ltb_lt; reflexivity).
  all: try (split; [apply Z.leb_le|apply Z.ltb_lt]; reflexivity).
  all: unfold field_len, PACKETBUF_ADDRSIZE, LINKADDR_SIZE, PACKETBUF_ATTR_BYTE; cbn; lia.
Qed.
Lemma channel_example_wf : channel_wf channel_example.
Proof.
  split; [|done]. eapply Forall_impl; [apply (co_fields _ _ channel_example_ok)|by intros x []].
Qed.

Lemma chameleon_roundtrip_witness :
  exists frame sender' receiver',
    rime_output 0 (opened pb_attrs_example 145) = Ok ((1, Some frame), sender') /\
    receive_frame [7; 9] frame (opened pb_example 145) = Ok (Some 0%nat, receiver') /\
    pb_payload (r_packetbuf receiver') = pb_header pb_attrs_example ++ pb_payload pb_attrs_example /\
    (forall type, (type < PACKETBUF_NUM_ATTRS + PACKETBUF_NUM_ADDRS)%nat ->
       attr_value (r_packetbuf receiver') type = carried channel_example (attr_value pb_attrs_example) type) /\
    channels receiver' = channels (opened pb_example 145) /\
    channel_list receiver' = channel_list (opened pb_example 145).
Proof.
  assert (H7 : forall n : nat, Forall (in_u 8) (replicate n 7)).
  { intros n. apply Forall_replicate. unfold in_u. lia. }
  apply (chameleon_roundtrip [7; 9] eq_refl (opened pb_attrs_example 145) (opened pb_example 145)
    0 channel_example 0 channel_example); try reflexivity.
  - apply pb_attrs_example_wf.
  - apply channel_example_ok.
  - apply (H7 8%nat).
  - apply pb_example_wf.
  - apply (H7 128%nat).
Defined.

Lemma chameleon_parse_any_frame_witness :
  exists r st', chameleon_parse [7; 9] (opened pb_example 1799) = Ok (r, st') /\
    pb_wf (r_packetbuf st') /\
    channels st' = channels (opened pb_example 1799) /\
    channel_list st' = channel_list (opened pb_example 1799) /\
    r = None /\ pb_payload (r_packetbuf st') = drop 2 (pb_payload pb_example).
Proof.
  destruct (chameleon_parse_any_frame [7; 9] eq_refl (opened pb_example 1799))
    as (r & st' & E & Hw & Hc & Hl & H).
  - apply pb_example_wf.
  - intros i c Hi Hc. change (channel_list (opened pb_example 1799)) with [0%nat] in Hi.
    apply list_elem_of_singleton in Hi as ->. injection Hc as <-. split; [|done].
    split; [apply channel_example_wf|done].
  - exists r, st'. do 4 (split; [done|]). destruct H as (c & Hc' & H). injection Hc' as <-. exact H.
Defined.

(** A field of 12 bits does not survive: [set_bits] expects the four bits of the
    second byte at its top, where [le16_write] has zeros, so that only the low
    byte of the value arrives. *)
Definition via_bits (bitpos vallen v : Z) : res Z :=
  match set_bits 0 bitpos (le16_write v) vallen
          (mk_packetbuf (replicate 4 0) 0 0 0 [] []) with
  | Ok (_, pb) =>
      match get_bits [0; 0] 0 bitpos vallen pb with
      | Ok (to, _) => Ok (le16_read to)
      | Err e => Err e
      end
  | Err e => Err e
  end.

Lemma low_byte_only :
  forallb (fun v => match via_bits 0 12 v with Ok w => w =? v mod 256 | Err _ => false end)
    (seqZ 0 4096) = true.
Proof. vm_compute. reflexivity. Qed.
Lemma twelve_bits_lost v : 0 <= v < 4096 -> via_bits 0 12 v = Ok (v mod 256).
Proof.
  intros Hv. pose proof low_byte_only as H. rewrite forallb_forall in H.
  specialize (H v ltac:(apply list_elem_of_In, elem_of_seqZ; lia)).
  destruct (via_bits 0 12 v); [|done]. by apply Z.eqb_eq in H as ->.
Qed.
Lemma twelve_bits_lost_shifted : via_bits 4 12 0xabc = Ok 0xbc.
Proof. vm_compute. reflexivity. Qed.
