(* ===== verification/Announcement.v ===== *)
(** * Announcement: the announcement table of core/net/rime/announcement.c

    An announcement is a value a node publishes to its neighbours, with the
    callback that handles the same announcement heard from a neighbour.  The
    structures are static variables of the program: [an_vars] holds them, an
    announcement is named by its index, and the list of registered ones is a
    sequence of indices (Lists.v relates such sequences to linked lists).
    Callbacks and the observer are names; the program gives their meaning. *)
From stdpp Require Import numbers option list.
From S2P Require Import Prelude Lists CDouble.

Inductive annstate_t := PENDING | DROPPED | SENT.
#[export] Instance annstate_eq_dec : EqDecision annstate_t.
Proof. solve_decision. Defined.

Record announcement_value := mk_value {
  av_instr : Z;
  av_degree : Z;
  av_date_coarse : Z;
  av_date_fine : Z;
  av_ref_addr : Z;
  av_cons_rate : double;
}.
#[export] Instance eta_value : Eta announcement_value := fun x =>
  mk_value (av_instr x) (av_degree x) (av_date_coarse x) (av_date_fine x) (av_ref_addr x)
    (av_cons_rate x).

Record announcement (CB : Type) := mk_announcement {
  an_id : Z;
  an_has_value : Z;
  a_value : announcement_value;
  an_callback : option CB;
}.
Arguments mk_announcement {CB}.
Arguments an_id {CB}. Arguments an_has_value {CB}. Arguments a_value {CB}.
Arguments an_callback {CB}.
#[export] Instance eta_announcement CB : Eta (announcement CB) := fun x =>
  mk_announcement (an_id x) (an_has_value x) (a_value x) (an_callback x).

Record announcement_st (CB O : Type) := mk_announcement_st {
  announcements : list nat;
  observer_callback : option O;
  an_vars : list (announcement CB);
}.
Arguments mk_announcement_st {CB O}.
Arguments announcements {CB O}. Arguments observer_callback {CB O}. Arguments an_vars {CB O}.
#[export] Instance eta_announcement_st CB O : Eta (announcement_st CB O) := fun x =>
  mk_announcement_st (announcements x) (observer_callback x) (an_vars x).

Section announcement.
Context {DF : DoubleFormat} {CB O : Type}.
Local Abbreviation St := (announcement_st CB O).

(** [a->field] and assignments to it. *)
Definition get_an (a : nat) : M St (announcement CB) := fun st =>
  match an_vars st !! a with Some x => Ok (x, st) | None => Err FWild end.
Definition upd_an (a : nat) (f : announcement CB -> announcement CB) : M St unit := fun st =>
  match an_vars st !! a with
  | Some _ => Ok (tt, st <| an_vars ::= alter f a |>)
  | None => Err FWild
  end.

Definition announcement_init : M St unit := announcements <~ [].

Definition announcement_set_instr (a : nat) (instr : Z) : M St unit :=
  upd_an a (fun x => x <| a_value ::= fun v => v <| av_instr := u8 instr |> |>).
Definition announcement_get_instr (a : nat) : M St Z :=
  x ← get_an a; mret (av_instr (a_value x)).
Definition announcement_set_degree (a : nat) (degree : Z) : M St unit :=
  upd_an a (fun x => x <| a_value ::= fun v => v <| av_degree := u8 degree |> |>).
Definition announcement_set_date_coarse (a : nat) (date_coarse : Z) : M St unit :=
  upd_an a (fun x => x <| a_value ::= fun v => v <| av_date_coarse := u32 date_coarse |> |>).
Definition announcement_get_date_coarse (a : nat) : M St Z :=
  x ← get_an a; mret (av_date_coarse (a_value x)).
Definition announcement_set_date_fine (a : nat) (date_fine : Z) : M St unit :=
  upd_an a (fun x => x <| a_value ::= fun v => v <| av_date_fine := u32 date_fine |> |>).
Definition announcement_get_date_fine (a : nat) : M St Z :=
  x ← get_an a; mret (av_date_fine (a_value x)).
Definition announcement_set_ref_addr (a : nat) (ref_addr : Z) : M St unit :=
  upd_an a (fun x => x <| a_value ::= fun v => v <| av_ref_addr := u16 ref_addr |> |>).
Definition announcement_get_ref_addr (a : nat) : M St Z :=
  x ← get_an a; mret (av_ref_addr (a_value x)).
Definition announcement_set_cons_rate (a : nat) (cons_rate : double) : M St unit :=
  upd_an a (fun x => x <| a_value ::= fun v => v <| av_cons_rate := cons_rate |> |>).
Definition announcement_get_cons_rate (a : nat) : M St double :=
  x ← get_an a; mret (av_cons_rate (a_value x)).

Definition announcement_register (a : nat) (id : Z) (callback : option CB) : M St unit :=
  upd_an a (fun x => x <| an_id := u16 id |>) ;;
  upd_an a (fun x => x <| an_has_value := 0 |>) ;;
  announcement_set_degree a 0 ;;
  announcement_set_instr a 0 ;;
  announcement_set_date_coarse a 0 ;;
  announcement_set_date_fine a 0 ;;
  announcement_set_ref_addr a 0 ;;
  announcement_set_cons_rate a (d_of_Z 1) ;;
  upd_an a (fun x => x <| an_callback := callback |>) ;;
  modify (fun st => st <| announcements ::= seq_add a |>).

Definition announcement_remove (a : nat) : M St unit :=
  modify (fun st => st <| announcements ::= seq_remove a |>).

Definition announcement_add_value (a : nat) : M St unit :=
  upd_an a (fun x => x <| an_has_value := 1 |>).
Definition announcement_remove_value (a : nat) : M St unit :=
  upd_an a (fun x => x <| an_has_value := 0 |>).

Definition announcement_register_observer_callback (callback : option O) : M St unit :=
  observer_callback <~ callback.

Definition announcement_list : M St (list nat) := gets announcements.

(** The first registered announcement with the identifier. *)
Fixpoint find_announcement (id : Z) (l : list nat) : M St (option nat) :=
  match l with
  | [] => mret None
  | a :: l' =>
      x ← get_an a;
      if an_id x =? id then mret (Some a) else find_announcement id l'
  end.

(** [announcement_bump] and [announcement_heard] call back into the program: [run]
    runs a computation on the table in the state of the program, [call] runs a
    callback. *)
Definition announcement_bump {S} (run : forall A, M St A -> M S A) (call : O -> nat -> M S unit)
    (a : nat) : M S unit :=
  o ← run _ (gets observer_callback);
  match o with
  | Some o => call o a
  | None => skip
  end.

Definition announcement_heard {S} (run : forall A, M St A -> M S A)
    (call : CB -> nat -> M S unit) (id : Z) : M S unit :=
  l ← run _ announcement_list;
  a ← run _ (find_announcement id l);
  match a with
  | None => skip
  | Some a =>
      x ← run _ (get_an a);
      match an_callback x with
      | Some callback => call callback a
      | None => skip
      end
  end.
End announcement.
