(* ===== verification/Announcers.v ===== *)
(** * Announcers: how announcements travel

    The two back-ends of the announcement table and the layers they use:
    core/net/rime/broadcast-announcement.c (periodic beacons of the discovery),
    core/net/rime/polite-announcement.c on core/net/rime/ipolite.c (one message
    per phase, held back for a random time and dropped when enough neighbours
    sent the same), and the channels of channel.c, abc.c and broadcast.c that
    dispatch packets to them.

    The clock, the announcement table and the packet buffers are components of
    the state.  Callback timers are their pending expiry interval, random numbers
    and the outcome of [chameleon_create] are inputs, a packet handed to the
    layers below [rime_output] is an output.  Structures cross the packet buffer
    as bytes, in the layout of msp430-gcc (little endian, alignment 2). *)
From stdpp Require Import numbers option list.
From S2P Require Import Prelude Lists Memb CDouble Rtimer Packetbuf Announcement.

(** ** Messages *)

Section messages.
Context {DF : DoubleFormat}.

Definition value_bytes (v : announcement_value) : list Z :=
  le_bytes 1 (av_instr v) ++ le_bytes 1 (av_degree v) ++ le_bytes 4 (av_date_coarse v) ++
  le_bytes 4 (av_date_fine v) ++ le_bytes 2 (av_ref_addr v) ++ df_bytes (av_cons_rate v).
Definition value_of_bytes (l : list Z) : announcement_value :=
  mk_value (le_int (take 1 l)) (le_int (take 1 (drop 1 l))) (le_int (take 4 (drop 2 l)))
    (le_int (take 4 (drop 6 l))) (le_int (take 2 (drop 10 l)))
    (df_unbytes (take df_size (drop 12 l))).

(** [struct announcement_data]: the identifier and the value. *)
Definition data_bytes (id : Z) (v : announcement_value) : list Z := le_bytes 2 id ++ value_bytes v.
Definition data_of_bytes (l : list Z) : Z * announcement_value :=
  (le_int (take 2 l), value_of_bytes (drop 2 l)).
Definition sizeof_announcement_data : Z := 14 + Z.of_nat df_size.
Definition ANNOUNCEMENT_MSG_HEADERLEN : Z := 2.

Definition timesync_bytes (f : timesync_frame_t) : list Z :=
  le_bytes 4 (sf_coarse_now f) ++ le_bytes 4 (sf_fine_offset f) ++
  df_bytes (sf_clock_rate f) ++ df_bytes (sf_avg_rate f) ++
  le_bytes 2 (sf_ta f) ++ le_bytes 2 (sf_tb f) ++ le_bytes 2 (sf_ta_compare f) ++
  le_bytes 2 (sf_tb_compare f) ++ le_bytes 2 (sf_hw_mac_timestamp f).
Definition timesync_of_bytes (l : list Z) : timesync_frame_t :=
  let n := df_size in
  let l2 := drop (8 + 2 * n) l in
  mk_timesync (le_int (take 4 l)) (le_int (take 4 (drop 4 l)))
    (df_unbytes (take n (drop 8 l))) (df_unbytes (take n (drop (8 + n) l)))
    (le_int (take 2 l2)) (le_int (take 2 (drop 2 l2))) (le_int (take 2 (drop 4 l2)))
    (le_int (take 2 (drop 6 l2))) (le_int (take 2 (drop 8 l2))).
Definition sizeof_timesync_frame : Z := 18 + 2 * Z.of_nat df_size.
End messages.

(** [POLITE_INTERVAL] of project-conf.h. *)
Definition POLITE_INTERVAL : Z := 4.

(** ** State *)

(** The two connections, both on the channel of the protocol. *)
Inductive conn_t := CONN_BROADCAST | CONN_POLITE.
#[export] Instance conn_eq_dec : EqDecision conn_t.
Proof. solve_decision. Defined.

(** The observers the two back-ends register. *)
Inductive observer_t := observer_ba | observer_pa.

(** [struct broadcast_announcement_state]; a timer is the interval it was set
    to, while it runs. *)
Record broadcast_announcement_st := mk_broadcast {
  ba_interval_timer : option Z;
  ba_send_timer : option Z;
  current_interval : Z;
  min_interval : Z;
  max_interval : Z;
}.
#[export] Instance eta_broadcast : Eta broadcast_announcement_st := fun x =>
  mk_broadcast (ba_interval_timer x) (ba_send_timer x) (current_interval x) (min_interval x)
    (max_interval x).

(** [struct ipolite_conn]; [ip_syncframe] is an offset in the packet buffer. *)
Record ipolite_conn := mk_ipolite {
  ip_t : option Z;
  ip_q : option nat;
  ip_hdrsize : Z;
  ip_dups : Z;
  ip_maxdups : Z;
  ip_syncframe : Z;
}.
#[export] Instance eta_ipolite : Eta ipolite_conn := fun x =>
  mk_ipolite (ip_t x) (ip_q x) (ip_hdrsize x) (ip_dups x) (ip_maxdups x) (ip_syncframe x).

(** [struct polite_announcement_state], apart from its connection. *)
Record polite_announcement_st := mk_polite {
  pa_interval : Z;
  pa_last_event : annstate_t;
  pa_send_dups : Z;
  pa_max_send_dups : Z;
}.
#[export] Instance eta_polite : Eta polite_announcement_st := fun x =>
  mk_polite (pa_interval x) (pa_last_event x) (pa_send_dups x) (pa_max_send_dups x).

(** A packet handed to [chameleon_create] and the layers below. *)
Record sent_packet := mk_sent {
  sp_conn : conn_t;
  sp_payload : list Z;
  sp_attrs : list Z;
  sp_addrs : list Z;
}.

Record net_st (F CB : Type) := mk_net {
  clock : rtimer_st F;
  ann : announcement_st CB observer_t;
  queue : queue_st;
  ba : broadcast_announcement_st;
  pa : polite_announcement_st;
  ip : ipolite_conn;
  channel_list : list conn_t;
  channelno : conn_t -> Z;
  node_addr : Z;               (* linkaddr_node_addr *)
  rnd : nat -> Z;              (* random numbers to come *)
  chameleon : nat -> Z;        (* results of chameleon_create to come *)
  sent : list sent_packet;     (* packets sent, the last first *)
}.
Arguments mk_net {F CB}.
Arguments clock {F CB}. Arguments ann {F CB}. Arguments queue {F CB}. Arguments ba {F CB}.
Arguments pa {F CB}. Arguments ip {F CB}. Arguments channel_list {F CB}.
Arguments channelno {F CB}. Arguments node_addr {F CB}. Arguments rnd {F CB}.
Arguments chameleon {F CB}. Arguments sent {F CB}.
#[export] Instance eta_net F CB : Eta (net_st F CB) := fun x =>
  mk_net (clock x) (ann x) (queue x) (ba x) (pa x) (ip x) (channel_list x) (channelno x)
    (node_addr x) (rnd x) (chameleon x) (sent x).

Section announcers.
Context {DF : DoubleFormat} {F CB : Type}.
Local Abbreviation St := (net_st F CB).
Local Abbreviation N := (M St).

Definition on_packetbuf {A} (m : M packetbuf_st A) : N A := zoom queue (zoom qu_packetbuf m).

(** [random_rand] returns an unsigned short. *)
Definition random_rand : N Z := fun st =>
  Ok (u16 (rnd st 0%nat), st <| rnd ::= fun f n => f (S n) |>).

(** ** Channels, and the output to the layers below *)

Definition channel_open (c : conn_t) (no : Z) : N unit :=
  modify (fun st => st
    <| channelno ::= fun f d => if decide (d = c) then u16 no else f d |>
    <| channel_list ::= seq_add c |>).
Definition channel_close (c : conn_t) : N unit :=
  modify (fun st => st <| channel_list ::= seq_remove c |>).
(** The first open channel with the number. *)
Definition channel_lookup (no : Z) : N (option conn_t) :=
  gets (fun st => head (filter (fun c => channelno st c = no) (channel_list st))).

(** [chameleon_create] builds the header from the attributes; when it fails the
    packet is not sent. *)
Definition rime_output (c : conn_t) : N Z := fun st =>
  let ok := chameleon st 0%nat in
  let st := st <| chameleon ::= fun f n => f (S n) |> in
  if c_true ok then
    let pb := qu_packetbuf (queue st) in
    Ok (1, st <| sent ::= cons (mk_sent c (pb_payload pb) (packetbuf_attrs pb) (packetbuf_addrs pb)) |>)
  else Ok (0, st).

Definition abc_send (c : conn_t) : N Z := rime_output c.

Definition broadcast_open (c : conn_t) (no : Z) : N unit := channel_open c no.
Definition broadcast_close (c : conn_t) : N unit := channel_close c.
Definition broadcast_send (c : conn_t) : N Z :=
  a ← gets node_addr;
  on_packetbuf (packetbuf_set_addr PACKETBUF_ADDR_SENDER a) ;;
  abc_send c.

(** [rtimer_sync_send] writes the structure at the given place. *)
Definition sync_send (syncframe : Z) : N unit :=
  f ← zoom clock rtimer_sync_send;
  on_packetbuf (pb_store syncframe (timesync_bytes f)).

(** ** ipolite.c *)

Definition upd_ip (f : ipolite_conn -> ipolite_conn) : N unit :=
  modify (fun st => st <| ip ::= f |>).

(** [queuebuf_free(c->q); c->q = NULL;] *)
Definition ipolite_free_q (q : nat) : N unit :=
  zoom queue (queuebuf_free q) ;;
  upd_ip (fun c => c <| ip_q := None |>).

Definition ipolite_open (no : Z) (dups : Z) : N unit :=
  broadcast_open CONN_POLITE no ;;
  upd_ip (fun c => c <| ip_maxdups := u8 dups |>).

Definition ipolite_close : N unit :=
  broadcast_close CONN_POLITE ;;
  upd_ip (fun c => c <| ip_t := None |>) ;;
  q ← gets (fun st => ip_q (ip st));
  match q with Some q => ipolite_free_q q | None => skip end.

Definition ipolite_cancel : N unit :=
  upd_ip (fun c => c <| ip_t := None |>) ;;
  q ← gets (fun st => ip_q (ip st));
  match q with Some q => ipolite_free_q q | None => skip end.

Definition ipolite_set_max_dups (max_dups : Z) : N unit :=
  upd_ip (fun c => c <| ip_maxdups := u8 max_dups |>).

(** Stamp the packet buffer with the clock and broadcast it. *)
Definition stamp_and_send (c : conn_t) (syncframe : Z) : N Z :=
  sync_send syncframe ;;
  on_packetbuf (packetbuf_set_attr PACKETBUF_ATTR_PACKET_TYPE PACKETBUF_ATTR_PACKET_TYPE_TIMESTAMP) ;;
  broadcast_send c.

Definition ipolite_send (interval hdrsize syncframe : Z) : N Z :=
  q ← gets (fun st => ip_q (ip st));
  match q with
  | Some q => ipolite_free_q q ;; upd_ip (fun c => c <| ip_t := None |>)
  | None => skip
  end ;;
  upd_ip (fun c => c <| ip_dups := 0 |> <| ip_hdrsize := u8 hdrsize |>) ;;
  if interval =? 0 then
    r ← stamp_and_send CONN_POLITE syncframe;
    mret (if c_true r then 1 else 0)
  else
    q ← zoom queue queuebuf_new_from_packetbuf;
    upd_ip (fun c => c <| ip_q := q |>) ;;
    match q with
    | Some _ =>
        upd_ip (fun c => c <| ip_syncframe := syncframe |>) ;;
        r ← random_rand;
        upd_ip (fun c => c <| ip_t := Some (interval +32 (r mod interval)) |>) ;;
        mret 1
    | None => mret 0
    end.

(** [send]: the timer has expired. *)
Definition ipolite_timer : N unit :=
  upd_ip (fun c => c <| ip_t := None |>) ;;
  q ← gets (fun st => ip_q (ip st));
  match q with
  | Some q =>
      zoom queue (queuebuf_to_packetbuf q) ;;
      ipolite_free_q q ;;
      syncframe ← gets (fun st => ip_syncframe (ip st));
      stamp_and_send CONN_POLITE syncframe ;;
      skip
  | None => skip
  end.

(** ** polite-announcement.c *)

Definition upd_pa (f : polite_announcement_st -> polite_announcement_st) : N unit :=
  modify (fun st => st <| pa ::= f |>).

(** Write the announcements that have a value after the message header. *)
Fixpoint write_announcements (l : list nat) : N unit :=
  match l with
  | [] => skip
  | a :: l' =>
      x ← zoom ann (get_an a);
      when (c_true (an_has_value x))
        (adata ← on_packetbuf packetbuf_dataptr;
         num ← on_packetbuf (pb_load adata 2);
         on_packetbuf (pb_store (adata + ANNOUNCEMENT_MSG_HEADERLEN
                                 + sizeof_announcement_data * le_int num)
                         (data_bytes (an_id x) (a_value x))) ;;
         on_packetbuf (pb_store adata (le_bytes 2 (le_int num + 1)))) ;;
      write_announcements l'
  end.

(** The length of the message built in the packet buffer. *)
Definition announcement_datalength (num : Z) : Z :=
  ANNOUNCEMENT_MSG_HEADERLEN +16 sizeof_announcement_data * num.

Definition polite_send_adv (interval : Z) : N unit :=
  on_packetbuf packetbuf_clear ;;
  adata ← on_packetbuf packetbuf_dataptr;
  on_packetbuf (pb_store adata (le_bytes 2 0)) ;;
  l ← zoom ann announcement_list;
  write_announcements l ;;
  num ← on_packetbuf (pb_load adata 2);
  let len := announcement_datalength (le_int num) in
  dataptr ← on_packetbuf packetbuf_dataptr;
  let syncframe := dataptr + len in
  on_packetbuf (packetbuf_set_datalen (len + sizeof_timesync_frame)) ;;
  when (0 <? le_int num)
    (hdrsize ← on_packetbuf packetbuf_datalen;
     ipolite_send interval hdrsize syncframe ;;
     skip).

Definition polite_adv_packet_dropped : N unit := upd_pa (fun c => c <| pa_last_event := DROPPED |>).

(** A copy was sent: send the next one, or record the end. *)
Definition polite_adv_packet_sent : N unit :=
  upd_pa (fun c => c <| pa_send_dups ::= fun n => n +8 1 |>) ;;
  c ← gets pa;
  if pa_send_dups c <? pa_max_send_dups c
  then polite_send_adv (pa_interval c +32 POLITE_INTERVAL * pa_send_dups c)
  else upd_pa (fun c => c <| pa_last_event := SENT |>).

Definition observer_pa_run : N unit :=
  upd_pa (fun c => c <| pa_send_dups := 0 |>) ;;
  interval ← gets (fun st => pa_interval (pa st));
  polite_send_adv interval.

Definition polite_announcement_init (no interval max_send_dups max_recv_dups : Z) : N unit :=
  ipolite_open no max_recv_dups ;;
  upd_pa (fun c => c <| pa_last_event := PENDING |> <| pa_interval := interval |>
                     <| pa_send_dups := 0 |> <| pa_max_send_dups := u8 max_send_dups |>) ;;
  zoom ann (announcement_register_observer_callback (Some observer_pa)).

Definition polite_announcement_stop : N unit := ipolite_cancel ;; ipolite_close.

Definition polite_announcement_cancel : N unit :=
  upd_pa (fun c => c <| pa_last_event := PENDING |> <| pa_send_dups := 255 |>) ;;
  ipolite_cancel.

Definition polite_announcement_set_interval (interval : Z) : N unit :=
  upd_pa (fun c => c <| pa_interval := u32 interval |>).
Definition polite_announcement_set_max_send_dups (max_send_dups : Z) : N unit :=
  upd_pa (fun c => c <| pa_max_send_dups := u8 max_send_dups |>).
Definition polite_announcement_set_max_recv_dups (max_recv_dups : Z) : N unit :=
  ipolite_set_max_dups max_recv_dups.

(** ** broadcast-announcement.c *)

Definition upd_ba (f : broadcast_announcement_st -> broadcast_announcement_st) : N unit :=
  modify (fun st => st <| ba ::= f |>).

(** The loop stops at the first announcement without a value. *)
Fixpoint write_announcements_prefix (l : list nat) : N unit :=
  match l with
  | [] => skip
  | a :: l' =>
      x ← zoom ann (get_an a);
      when (c_true (an_has_value x)) (write_announcements [a] ;; write_announcements_prefix l')
  end.

(** [send_adv]: the send timer has expired. *)
Definition broadcast_send_adv : N unit :=
  upd_ba (fun c => c <| ba_send_timer := None |>) ;;
  on_packetbuf packetbuf_clear ;;
  adata ← on_packetbuf packetbuf_dataptr;
  on_packetbuf (pb_store adata (le_bytes 2 0)) ;;
  l ← zoom ann announcement_list;
  write_announcements_prefix l ;;
  num ← on_packetbuf (pb_load adata 2);
  let len := announcement_datalength (le_int num) in
  dataptr ← on_packetbuf packetbuf_dataptr;
  sync_send (dataptr + len) ;;
  on_packetbuf (packetbuf_set_datalen (len + sizeof_timesync_frame)) ;;
  when (0 <? le_int num)
    (on_packetbuf (packetbuf_set_attr PACKETBUF_ATTR_PACKET_TYPE PACKETBUF_ATTR_PACKET_TYPE_TIMESTAMP) ;;
     broadcast_send CONN_BROADCAST ;;
     skip).

Definition set_timers : N unit :=
  c ← gets (fun st => current_interval (ba st));
  upd_ba (fun b => b <| ba_interval_timer := Some c |>) ;;
  r ← random_rand;
  if c =? 0 then fail FDiv
  else upd_ba (fun b => b <| ba_send_timer := Some (r mod c) |>).

(** [send_timer]: the interval timer has expired. *)
Definition broadcast_send_timer : N unit :=
  upd_ba (fun b => b <| ba_interval_timer := None |>) ;;
  b ← gets ba;
  let interval := u32 (current_interval b * 2) in
  let interval := if max_interval b <? interval then max_interval b else interval in
  upd_ba (fun b => b <| current_interval := interval |>) ;;
  set_timers.

Definition broadcast_announcement_continue : N unit := set_timers.
Definition observer_ba_run : N unit := broadcast_announcement_continue.

Definition broadcast_announcement_init (no initial min max : Z) : N unit :=
  broadcast_open CONN_BROADCAST no ;;
  upd_ba (fun b => b <| current_interval := initial |> <| min_interval := min |>
                     <| max_interval := max |>) ;;
  zoom ann (announcement_register_observer_callback (Some observer_ba)) ;;
  set_timers.

Definition broadcast_announcement_pause : N unit :=
  upd_ba (fun b => b <| ba_interval_timer := None |> <| ba_send_timer := None |>).
Definition broadcast_announcement_stop : N unit :=
  upd_ba (fun b => b <| ba_interval_timer := None |> <| ba_send_timer := None |>) ;;
  broadcast_close CONN_BROADCAST.
Definition broadcast_announcement_beacon_interval : N Z :=
  gets (fun st => current_interval (ba st)).

(** [announcement_bump], with the observers of the two back-ends. *)
Definition observer (o : observer_t) (a : nat) : N unit :=
  match o with
  | observer_ba => observer_ba_run
  | observer_pa => observer_pa_run
  end.
Definition bump (a : nat) : N unit := announcement_bump (fun A => zoom ann) observer a.

(** The [sent] callback of a connection. *)
Definition packet_sent (c : conn_t) : N unit :=
  match c with
  | CONN_BROADCAST => skip
  | CONN_POLITE => polite_adv_packet_sent
  end.
End announcers.

(** ** Reception *)

Section reception.
Context {DF : DoubleFormat} {F CB : Type}.

(** The handlers of announcements belong to the program, whose state [S] has the
    network in its component [f]; [call] runs a handler on the announcement, the
    sender, the identifier, the value, the clock reading and the last event. *)
Context {S : Type} (f : S -> net_st F CB) `{!Update f}.
Context (call : CB -> nat -> Z -> Z -> announcement_value -> timesync_frame_t -> annstate_t -> M S unit).
Local Abbreviation P := (M S).

Definition on_net {A} (m : M (net_st F CB) A) : P A := zoom f m.

(** [announcement_heard] with the table inside the network. *)
Definition heard (from id : Z) (v : announcement_value) (sync : timesync_frame_t)
    (last_event : annstate_t) : P unit :=
  announcement_heard (fun A m => on_net (zoom ann m))
    (fun callback a => call callback a from id v sync last_event) id.

(** [for(i = 0; i < adata.num; ++i)]: read the next announcement from the packet
    buffer, as it is then, and hand it over. *)
Fixpoint receive_loop (n : nat) (ptr : Z) (from : Z) (sync : timesync_frame_t)
    (last_event : P annstate_t) : P unit :=
  match n with
  | O => skip
  | Datatypes.S n' =>
      bs ← on_net (on_packetbuf (pb_load ptr (Z.to_nat sizeof_announcement_data)));
      let '(id, v) := data_of_bytes bs in
      e ← last_event;
      heard from id v sync e ;;
      receive_loop n' (ptr + sizeof_announcement_data) from sync last_event
  end.

(** [adv_packet_received] of both back-ends; they differ in the event passed. *)
Definition adv_packet_received (last_event : P annstate_t) (from : Z) : P unit :=
  ptr ← on_net (on_packetbuf packetbuf_dataptr);
  num ← on_net (on_packetbuf (pb_load ptr 2));
  let num := le_int num in
  let len := announcement_datalength num in
  sync ← on_net (on_packetbuf (pb_load (ptr + len) (Z.to_nat sizeof_timesync_frame)));
  let sync := timesync_of_bytes sync in
  datalen ← on_net (on_packetbuf packetbuf_datalen);
  if datalen <? (len +16 sizeof_timesync_frame) then skip
  else receive_loop (Z.to_nat num) (ptr + ANNOUNCEMENT_MSG_HEADERLEN) from sync last_event.

Definition broadcast_adv_packet_received (from : Z) : P unit :=
  adv_packet_received (mret PENDING) from.
Definition polite_adv_packet_received (from : Z) : P unit :=
  adv_packet_received (gets (fun s => pa_last_event (pa (f s)))) from.

(** [recv] of ipolite.c: count a copy of the queued packet, and give up sending
    it after [maxdups] copies. *)
Definition ipolite_recv_dup (q : nat) : M (net_st F CB) unit :=
  datalen ← on_packetbuf packetbuf_datalen;
  qlen ← zoom queue (queuebuf_datalen q);
  if negb (datalen =? qlen) then skip
  else
    c ← gets ip;
    let n := Z.to_nat (Z.min (ip_hdrsize c) (u16 (datalen - sizeof_timesync_frame))) in
    dataptr ← on_packetbuf packetbuf_dataptr;
    mine ← on_packetbuf (pb_load dataptr n);
    qdata ← zoom queue (queuebuf_dataptr q);
    when (bool_decide (mine = take n qdata))
      (upd_ip (fun c => c <| ip_dups ::= fun d => d +8 1 |>) ;;
       c ← gets ip;
       when (ip_maxdups c <=? ip_dups c)
         (ipolite_free_q q ;;
          upd_ip (fun c => c <| ip_t := None |>) ;;
          polite_adv_packet_dropped)).

Definition ipolite_recv (from : Z) : P unit :=
  q ← gets (fun s => ip_q (ip (f s)));
  match q with
  | Some q => on_net (ipolite_recv_dup q)
  | None => skip
  end ;;
  polite_adv_packet_received from.

(** [abc_input] and [recv_from_abc]: a packet for the channel [no], already
    parsed into the packet buffer. *)
Definition abc_input (no : Z) : P unit :=
  c ← on_net (channel_lookup no);
  match c with
  | None => skip
  | Some c =>
      from ← on_net (on_packetbuf (packetbuf_addr PACKETBUF_ADDR_SENDER));
      match c with
      | CONN_BROADCAST => broadcast_adv_packet_received from
      | CONN_POLITE => ipolite_recv from
      end
  end.
End reception.
