(* ===== verification/Nullsec.v ===== *)
(** * Nullsec: the link-layer security of the protocol

    core/net/llsec/nullsec.c sits between rime.c and the MAC layer.  In the
    operation of a cluster it combines every frame, but for the time stamp at its
    end, with a block made from numbers the members share.  The cipher itself runs
    in the radio chip (AES_128 is cc2420_aes_128_driver): it is a parameter. *)
From stdpp Require Import numbers option list.
From S2P Require Import Prelude CDouble Packetbuf Announcers.

Definition AES_128_BLOCK_SIZE : nat := 16.
Definition key : list Z := [0x00; 0x01; 0x02; 0x03; 0x04; 0x05; 0x06; 0x07;
                            0x08; 0x09; 0x0A; 0x0B; 0x0C; 0x0D; 0x0E; 0x0F].

(** [aes_key] is the key the cipher has. *)
Record llsec_st := mk_llsec {
  ls_packetbuf : packetbuf_st;
  block : list Z;
  do_encrypt_decrypt : Z;
  aes_key : list Z;
}.
#[export] Instance eta_llsec : Eta llsec_st := fun x =>
  mk_llsec (ls_packetbuf x) (block x) (do_encrypt_decrypt x) (aes_key x).

Abbreviation LS := (M llsec_st).
Definition ls_pb {A} (m : PB A) : LS A := zoom ls_packetbuf m.

Section nullsec.
Context {DF : DoubleFormat}.
(** [AES_128.encrypt] with a key on a block. *)
Variable encrypt : list Z -> list Z -> list Z.

Definition nullsec_init : LS unit :=
  (block <~ replicate AES_128_BLOCK_SIZE 0) ;;
  doaes ← ls_pb (packetbuf_attr PACKETBUF_ATTR_CSYNC_CONN_DOAES);
  if c_true doaes then
    (aes_key <~ key) ;;
    a ← ls_pb (packetbuf_attr PACKETBUF_ATTR_CSYNC_CONN_AES_XORPLAINTEXT_A);
    b ← ls_pb (packetbuf_attr PACKETBUF_ATTR_CSYNC_CONN_AES_XORPLAINTEXT_B);
    let joined_xor := u32 (a * b) in
    forM [0; 4; 8; 12]%nat (fun i =>
      modify (fun st => st <| block ::= fun l =>
        take i l ++ le_bytes 4 joined_xor ++ drop (i + 4) l |>)) ;;
    modify (fun st => st <| block ::= encrypt (aes_key st) |>) ;;
    (do_encrypt_decrypt <~ 1)
  else (do_encrypt_decrypt <~ 0).

(** The loop of [send] and [input]: the counter is a [uint8_t], the bound is
    computed in every round, by an unsigned subtraction of 16 bits.  The block
    has 16 bytes, so that a round past the sixteenth leaves it. *)
Definition XOR_FUEL : nat := 17.
Fixpoint xor_loop (fuel : nat) (len : PB Z) (data i : Z) : LS unit :=
  match fuel with
  | O => fail FHang
  | S f =>
      n ← ls_pb len;
      if i <? n -16 sizeof_timesync_frame then
        b ← ls_pb (pb_read (data + i));
        k ← (fun st => match block st !! Z.to_nat i with
                       | Some k => Ok (k, st) | None => Err FWild end);
        ls_pb (pb_write (data + i) (Z.lxor b k)) ;;
        xor_loop f len data (i +8 1)
      else skip
  end.

(** Both then hand the packet to the next layer. *)
Definition nullsec_send : LS unit :=
  e ← gets do_encrypt_decrypt;
  when (c_true e)
    (data ← ls_pb packetbuf_hdrptr;
     xor_loop XOR_FUEL packetbuf_totlen data 0).

Definition nullsec_input : LS unit :=
  e ← gets do_encrypt_decrypt;
  when (c_true e)
    (data ← ls_pb packetbuf_dataptr;
     xor_loop XOR_FUEL packetbuf_datalen data 0).

(** ** Facts *)

(** The [n] bytes from [d] on combined with the block, from its byte [o] on. *)
Definition xor_bytes (blk : list Z) (d o n : nat) (l : list Z) : list Z :=
  imap (fun k b => if decide (d + o <= k < d + o + n)%nat then Z.lxor b (blk !!! (k - d)%nat) else b) l.

Lemma length_xor_bytes blk d o n l : length (xor_bytes blk d o n l) = length l.
Proof. apply length_imap. Qed.
Lemma xor_bytes_0 blk d o l : xor_bytes blk d o 0 l = l.
Proof.
  apply list_eq. intros k. unfold xor_bytes. rewrite list_lookup_imap.
  destruct (l !! k); [|done]. simpl. by rewrite decide_False by lia.
Qed.
Lemma xor_bytes_step blk d o n l b :
  l !! (d + o)%nat = Some b ->
  xor_bytes blk d (S o) n (<[(d + o)%nat := Z.lxor b (blk !!! o)]> l) = xor_bytes blk d o (S n) l.
Proof.
  intros Hb. apply list_eq. intros k. unfold xor_bytes. rewrite !list_lookup_imap.
  destruct (decide (k = d + o)%nat) as [->|Hk].
  - rewrite list_lookup_insert_eq by (by eapply lookup_lt_Some). rewrite Hb. simpl.
    rewrite decide_False, decide_True by lia. do 3 f_equal. lia.
  - rewrite list_lookup_insert_ne by done. destruct (l !! k); [|done]. simpl. f_equal.
    repeat case_decide; (done || lia).
Qed.
Lemma xor_bytes_twice blk d n l : xor_bytes blk d 0 n (xor_bytes blk d 0 n l) = l.
Proof.
  apply list_eq. intros k. unfold xor_bytes. rewrite !list_lookup_imap.
  destruct (l !! k) as [x|]; [|done]. simpl. case_decide; [|done].
  by rewrite Z.lxor_assoc, Z.lxor_nilpotent, Z.lxor_0_r.
Qed.

Lemma ls_pb_Ok {A} (m : PB A) st a pb :
  m (ls_packetbuf st) = Ok (a, pb) -> ls_pb m st = Ok (a, st <| ls_packetbuf := pb |>).
Proof. intros E. unfold ls_pb, zoom. by rewrite E. Qed.
Lemma llsec_same st : st <| ls_packetbuf := ls_packetbuf st |> = st.
Proof. by destruct st. Qed.

Definition with_bytes (st : llsec_st) (l : list Z) : llsec_st :=
  st <| ls_packetbuf ::= fun pb => pb <| packetbuf := l |> |>.

Lemma with_bytes_same st : with_bytes st (packetbuf (ls_packetbuf st)) = st.
Proof. by destruct st as [[] ?]. Qed.

(** The length does not depend on the bytes. *)
Definition length_is (len : PB Z) (t : Z) (pb : packetbuf_st) : Prop :=
  forall l, len (pb <| packetbuf := l |>) = Ok (t, pb <| packetbuf := l |>).

Lemma pb_same pb : pb <| packetbuf := packetbuf pb |> = pb.
Proof. by destruct pb. Qed.

Lemma xor_loop_ok len t n d : forall r o fuel st,
  length_is len t (ls_packetbuf st) -> (t -16 sizeof_timesync_frame) = Z.of_nat n ->
  (n = o + r)%nat -> (n <= 16)%nat -> length (block st) = 16%nat -> (r < fuel)%nat ->
  (d + n <= length (packetbuf (ls_packetbuf st)))%nat ->
  xor_loop fuel len (Z.of_nat d) (Z.of_nat o) st =
    Ok (tt, with_bytes st (xor_bytes (block st) d o r (packetbuf (ls_packetbuf st)))).
Proof.
  intros r. induction r as [|r IH]; intros o fuel st Ht Hn Hr H16 Hb Hf Hd;
    destruct fuel as [|fuel]; try lia; cbn [xor_loop];
    (erewrite bind_Ok by (apply ls_pb_Ok; specialize (Ht (packetbuf (ls_packetbuf st)));
       rewrite pb_same in Ht; exact Ht)); rewrite llsec_same, Hn.
  - rewrite (proj2 (Z.ltb_ge _ _)) by lia. rewrite xor_bytes_0. by rewrite with_bytes_same.
  - rewrite (proj2 (Z.ltb_lt _ _)) by lia. rewrite <- Nat2Z.inj_add.
    destruct (lookup_lt_is_Some_2 (packetbuf (ls_packetbuf st)) (d + o)%nat) as [b Eb]; [lia|].
    destruct (lookup_lt_is_Some_2 (block st) o) as [k Ek]; [lia|].
    erewrite bind_Ok by (apply ls_pb_Ok, pb_read_ok; exact Eb). rewrite llsec_same.
    erewrite bind_Ok by (rewrite Nat2Z.id, Ek; reflexivity).
    erewrite bind_Ok by (apply ls_pb_Ok, pb_write_ok; lia).
    assert (Eo : (Z.of_nat o +8 1) = Z.of_nat (S o)) by uwrap_lia. rewrite Eo.
    set (st1 := st <| ls_packetbuf := _ |>).
    rewrite (IH (S o) fuel st1); [|exact Ht|done|lia|done|done|lia|].
    2:{ unfold st1. rsimpl. rewrite length_insert. lia. }
    apply list_lookup_total_correct in Ek as <-. unfold with_bytes, st1. rsimpl.
    by rewrite xor_bytes_step.
Qed.

(** A longer frame leaves the block, or the buffer before. *)
Lemma xor_loop_wild len t d : forall r o fuel st,
  length_is len t (ls_packetbuf st) -> 16 < t -16 sizeof_timesync_frame ->
  (16 = o + r)%nat -> length (block st) = 16%nat -> (r < fuel)%nat ->
  xor_loop fuel len (Z.of_nat d) (Z.of_nat o) st = Err FWild.
Proof.
  intros r. induction r as [|r IH]; intros o fuel st Ht Hn Hr Hb Hf;
    destruct fuel as [|fuel]; try lia; cbn [xor_loop];
    (erewrite bind_Ok by (apply ls_pb_Ok; specialize (Ht (packetbuf (ls_packetbuf st)));
       rewrite pb_same in Ht; exact Ht)); rewrite llsec_same, (proj2 (Z.ltb_lt _ _)) by lia;
    rewrite <- Nat2Z.inj_add.
  all: destruct (packetbuf (ls_packetbuf st) !! (d + o)%nat) as [b|] eqn:Eb;
    [|unfold mbind, M_bind, ls_pb, zoom, pb_read; by rewrite (proj2 (Z.leb_le _ _)), Nat2Z.id, Eb by lia].
  all: erewrite bind_Ok by (apply ls_pb_Ok, pb_read_ok; exact Eb); rewrite llsec_same.
  - unfold mbind, M_bind. rewrite Nat2Z.id. by rewrite (lookup_ge_None_2 (block st)) by lia.
  - destruct (lookup_lt_is_Some_2 (block st) o) as [k Ek]; [lia|].
    erewrite bind_Ok by (rewrite Nat2Z.id, Ek; reflexivity).
    erewrite bind_Ok by (apply ls_pb_Ok, pb_write_ok; by eapply lookup_lt_Some).
    assert (Eo : (Z.of_nat o +8 1) = Z.of_nat (S o)) by uwrap_lia. rewrite Eo.
    apply IH; [exact Ht|done|lia|done|lia].
Qed.

(** The block before encryption: four times the product of the two numbers. *)
Definition plain_block (a b : Z) : list Z :=
  let x := le_bytes 4 (u32 (a * b)) in x ++ x ++ x ++ x.
Definition xor_a (st : llsec_st) : Z :=
  packetbuf_attrs (ls_packetbuf st) !!! PACKETBUF_ATTR_CSYNC_CONN_AES_XORPLAINTEXT_A.
Definition xor_b (st : llsec_st) : Z :=
  packetbuf_attrs (ls_packetbuf st) !!! PACKETBUF_ATTR_CSYNC_CONN_AES_XORPLAINTEXT_B.
Definition doaes (st : llsec_st) : Z :=
  packetbuf_attrs (ls_packetbuf st) !!! PACKETBUF_ATTR_CSYNC_CONN_DOAES.

Lemma nullsec_init_eq st :
  nullsec_init st = Ok (tt,
    if c_true (doaes st)
    then mk_llsec (ls_packetbuf st) (encrypt key (plain_block (xor_a st) (xor_b st))) 1 key
    else mk_llsec (ls_packetbuf st) (replicate 16 0) 0 (aes_key st)).
Proof.
  unfold nullsec_init. rewrite bind_modify.
  erewrite bind_Ok by (apply ls_pb_Ok; reflexivity).
  change (packetbuf_attrs (ls_packetbuf _) !!! PACKETBUF_ATTR_CSYNC_CONN_DOAES) with (doaes st).
  destruct (c_true (doaes st)); [|by destruct st].
  rewrite bind_modify. erewrite bind_Ok by (apply ls_pb_Ok; reflexivity).
  erewrite bind_Ok by (apply ls_pb_Ok; reflexivity). reflexivity.
Qed.

(** A frame leaves a node and arrives at another. *)
Definition secured_frame : LS (list Z) :=
  nullsec_send ;;
  '(f, _) ← ls_pb packetbuf_copyto;
  mret f.
Definition receive_secured (f : list Z) : LS unit :=
  ls_pb (packetbuf_copyfrom f (Z.of_nat (length f))) ;;
  nullsec_input.

Hypothesis encrypt_length : forall k b, length b = 16%nat -> length (encrypt k b) = 16%nat.
Hypothesis df_small : (df_size <= 8)%nat.

Lemma take_xor_bytes blk n m l : take m (xor_bytes blk 0 0 n l) = xor_bytes blk 0 0 n (take m l).
Proof.
  apply list_eq. intros k. unfold xor_bytes. destruct (decide (k < m)%nat).
  - rewrite lookup_take_lt by done. rewrite !list_lookup_imap. by rewrite lookup_take_lt by done.
  - rewrite lookup_take_ge by lia. rewrite list_lookup_imap. by rewrite lookup_take_ge by lia.
Qed.

Lemma totlen_length_is pb :
  pb_wf pb -> length_is packetbuf_totlen (bufptr pb + hdrlen pb + buflen pb) pb.
Proof.
  intros Hw l. pose proof (totlen_eq pb Hw) as E. injection E as E.
  unfold packetbuf_totlen, packetbuf_hdrlen, packetbuf_datalen. rewrite !bind_gets. rsimpl. by rewrite E.
Qed.

(** What [send] and [input] do to the bytes from [d] on, [t] being the length. *)
Lemma xor_loop_spec st len t d :
  length_is len t (ls_packetbuf st) -> 0 <= t <= PACKETBUF_SIZE -> length (block st) = 16%nat ->
  length (packetbuf (ls_packetbuf st)) = Z.to_nat PACKETBUF_SIZE -> (d + Z.to_nat t <= 128)%nat ->
  xor_loop XOR_FUEL len (Z.of_nat d) 0 st =
  if decide (0 <= t - sizeof_timesync_frame <= 16)
  then Ok (tt, with_bytes st (xor_bytes (block st) d 0 (Z.to_nat (t - sizeof_timesync_frame))
                                (packetbuf (ls_packetbuf st))))
  else Err FWild.
Proof.
  intros Hlen Ht Hb Hp Hd. unfold PACKETBUF_SIZE in *.
  assert (Hs : 0 <= sizeof_timesync_frame <= 34) by (unfold sizeof_timesync_frame; lia).
  change 0 with (Z.of_nat 0) at 1. case_decide as Hn.
  - apply (xor_loop_ok len t (Z.to_nat (t - sizeof_timesync_frame))); [done| |lia|lia|done| |lia].
    + rewrite Z2Nat.id by lia. uwrap_lia.
    + unfold XOR_FUEL. lia.
  - apply (xor_loop_wild len t d 16); [done| |done|done|unfold XOR_FUEL; lia]. uwrap_lia.
Qed.

Lemma view_with_bytes st n :
  let pb := ls_packetbuf st in
  pb_wf pb -> bufptr pb = 0 ->
  let pb' := ls_packetbuf (with_bytes st (xor_bytes (block st) 0 0 n (packetbuf pb))) in
  pb_wf pb' /\ pb_header pb' ++ pb_payload pb' = xor_bytes (block st) 0 0 n (pb_header pb ++ pb_payload pb).
Proof.
  intros pb Hw Hb0 pb'. assert (Hw' : pb_wf pb').
  { destruct Hw. unfold pb', with_bytes. split; rsimpl; try done. by rewrite length_xor_bytes. }
  split; [done|]. rewrite <- !frame_bytes by done. by rewrite <- take_xor_bytes.
Qed.

(** C29. The security layer of two nodes that were initialised with the same two
    numbers: a frame whose part before the time stamp has at most 16 bytes leaves
    the sender with exactly these bytes combined with the shared block and the
    stamp in the clear, and the receiver takes the very frame back out of it.  On
    any other frame [send] fails: shorter than the stamp, where the unsigned bound
    of the loop wraps around, or with more than 16 bytes before it, it reads past
    the end of the block. *)
Theorem nullsec_frames s0 s1 r0 r1 pb rpb :
  c_true (doaes s0) = true -> c_true (doaes r0) = true ->
  xor_a r0 = xor_a s0 -> xor_b r0 = xor_b s0 ->
  nullsec_init s0 = Ok (tt, s1) -> nullsec_init r0 = Ok (tt, r1) ->
  pb_wf pb -> bufptr pb = 0 -> pb_wf rpb ->
  let st := s1 <| ls_packetbuf := pb |> in
  let frame := pb_header pb ++ pb_payload pb in
  let n := Z.of_nat (length frame) - sizeof_timesync_frame in
  if decide (0 <= n <= 16)
  then exists secured st' rc',
    secured_frame st = Ok (secured, st') /\
    (forall k, secured !! k = (fun b => if decide (Z.of_nat k < n) then Z.lxor b (block s1 !!! k) else b)
                                <$> frame !! k) /\
    receive_secured secured (r1 <| ls_packetbuf := rpb |>) = Ok (tt, rc') /\
    pb_payload (ls_packetbuf rc') = frame
  else nullsec_send st = Err FWild.
Proof.
  intros Hs0 Hr0 HA HB Es Er Hw Hb0 Hwr st frame n.
  rewrite nullsec_init_eq, Hs0 in Es. injection Es as <-.
  rewrite nullsec_init_eq, Hr0, HA, HB in Er. injection Er as <-.
  set (blk := encrypt key (plain_block (xor_a s0) (xor_b s0))) in *.
  assert (Hblk : length blk = 16%nat) by (apply encrypt_length; done).
  assert (Hlen : Z.of_nat (length frame) = bufptr pb + hdrlen pb + buflen pb).
  { unfold frame. rewrite length_app, Nat2Z.inj_add, pb_header_length, pb_payload_length, Hb0 by done. done. }
  assert (Ht : 0 <= Z.of_nat (length frame) <= PACKETBUF_SIZE) by (destruct Hw; lia).
  pose proof (xor_loop_spec st packetbuf_totlen (Z.of_nat (length frame)) 0
    ltac:(rewrite Hlen; by apply totlen_length_is) Ht Hblk (wf_size _ Hw) ltac:(unfold PACKETBUF_SIZE in *; lia)) as Hx.
  assert (Hsend : nullsec_send st = xor_loop XOR_FUEL packetbuf_totlen 0 0 st) by done.
  rewrite Hsend. change (Z.of_nat 0) with 0 in Hx. fold n in Hx.
  destruct (decide (0 <= n <= 16)) as [Hn|Hn]; [|exact Hx].
  set (m := Z.to_nat n). destruct (view_with_bytes st m Hw Hb0) as [Hw' Hv]. fold frame in Hv.
  set (st' := with_bytes st _) in *. set (secured := xor_bytes blk 0 0 m frame).
  assert (Esec : secured_frame st = Ok (secured, st')).
  { unfold secured_frame. erewrite bind_Ok by (rewrite Hsend; exact Hx).
    erewrite bind_Ok by (apply ls_pb_Ok, copyto_eq, Hw'). rewrite Hv. by rewrite llsec_same. }
  exists secured, st'. eexists. split; [exact Esec|]. split.
  { intros k. unfold secured, xor_bytes. rewrite list_lookup_imap. destruct (frame !! k); [|done]. simpl. f_equal.
    repeat case_decide; unfold m in *; rewrite ?Nat.sub_0_r; (done || lia). }
  assert (Hsl : length secured = length frame) by apply length_xor_bytes.
  unfold receive_secured. erewrite bind_Ok by (apply ls_pb_Ok, copyfrom_run; [exact Hwr|rewrite Hsl; lia]).
  cbv beta. match goal with |- context [nullsec_input ?x] => set (rc := x) end.
  assert (Hi : nullsec_input rc = xor_loop XOR_FUEL packetbuf_datalen 0 0 rc) by done.
  pose proof (xor_loop_spec rc packetbuf_datalen (Z.of_nat (length frame)) 0) as Hy.
  change (Z.of_nat 0) with 0 in Hy. rewrite Hi, Hy.
  - fold n. rewrite decide_True by done. split; [reflexivity|].
    unfold pb_payload, rc, with_bytes. rsimpl. cbn [buflen bufptr hdrlen packetbuf].
    change (Z.to_nat (0 + 0)) with 0%nat. rewrite drop_0, Nat2Z.id, take_xor_bytes, take_app_length.
    apply xor_bytes_twice.
  - intros l. unfold packetbuf_datalen, gets, rc. rsimpl. by rewrite Hsl.
  - done.
  - done.
  - unfold rc. rsimpl. cbn [packetbuf]. rewrite length_app, length_drop, (wf_size _ Hwr), Hsl. unfold PACKETBUF_SIZE in *. lia.
  - unfold PACKETBUF_SIZE in *. lia.
Qed.

(** Every frame of announcements the protocol secures is too long: the header of
    the broadcast channel (9 bytes), the number of announcements and one of them
    are more than 16 bytes. *)
Lemma announcement_frame_overruns st (num : Z) :
  let pb := ls_packetbuf st in
  pb_wf pb -> bufptr pb = 0 -> length (block st) = 16%nat -> c_true (do_encrypt_decrypt st) = true ->
  1 <= num ->
  hdrlen pb + buflen pb =
    9 + ANNOUNCEMENT_MSG_HEADERLEN + sizeof_announcement_data * num + sizeof_timesync_frame ->
  nullsec_send st = Err FWild.
Proof.
  intros pb Hw Hb0 Hb He Hnum Hlen. unfold nullsec_send. rewrite bind_gets, He.
  unfold sizeof_announcement_data, ANNOUNCEMENT_MSG_HEADERLEN in Hlen.
  assert (Ht : 0 <= hdrlen pb + buflen pb <= PACKETBUF_SIZE) by (destruct Hw; lia).
  pose proof (xor_loop_spec st packetbuf_totlen (hdrlen pb + buflen pb) 0) as Hx.
  change (Z.of_nat 0) with 0 in Hx. cbn [when]. erewrite bind_Ok by (apply ls_pb_Ok; reflexivity).
  rewrite llsec_same. rewrite Hx; [|..].
  - rewrite decide_False; [done|]. rewrite Hlen. nia.
  - replace (hdrlen pb + buflen pb) with (bufptr pb + hdrlen pb + buflen pb) by lia.
    by apply totlen_length_is.
  - done.
  - done.
  - apply Hw.
  - unfold PACKETBUF_SIZE in *. lia.
Qed.
End nullsec.

(** A cipher for the examples. *)
Definition toy_encrypt (k b : list Z) : list Z := Z.lxor (k !!! 1%nat) <$> b.
Definition llsec_example : llsec_st :=
  mk_llsec (pb_example
    <| packetbuf_attrs := <[PACKETBUF_ATTR_CSYNC_CONN_DOAES := 1]>
         (<[PACKETBUF_ATTR_CSYNC_CONN_AES_XORPLAINTEXT_A := 300]>
         (<[PACKETBUF_ATTR_CSYNC_CONN_AES_XORPLAINTEXT_B := 4660]> (replicate 29 0))) |>)
    (replicate 16 0) 0 (replicate 16 0).
Definition keyed_example : llsec_st :=
  mk_llsec (ls_packetbuf llsec_example) (toy_encrypt key (plain_block 300 4660)) 1 key.
Definition pb_secured_example : packetbuf_st :=
  mk_packetbuf (replicate 128 7) 31 0 5 (replicate 29 0) (replicate 4 0).

Lemma nullsec_frames_witness :
  nullsec_init toy_encrypt llsec_example = Ok (tt, keyed_example) /\
  exists secured st' rc',
    secured_frame (DF := binary32) (keyed_example <| ls_packetbuf := pb_secured_example |>) = Ok (secured, st') /\
    receive_secured (DF := binary32) secured (keyed_example <| ls_packetbuf := pb_example |>) = Ok (tt, rc') /\
    pb_payload (ls_packetbuf rc') = replicate 36 7.
Proof.
  assert (Ei : nullsec_init toy_encrypt llsec_example = Ok (tt, keyed_example)) by (vm_compute; reflexivity).
  split; [exact Ei|].
  assert (Hl : forall k b, length b = 16%nat -> length (toy_encrypt k b) = 16%nat).
  { intros k b Hb. unfold toy_encrypt. by rewrite length_fmap. }
  assert (Hw : pb_wf pb_secured_example) by (split; simpl; unfold PACKETBUF_SIZE; lia).
  assert (Hr : pb_wf pb_example) by (split; simpl; unfold PACKETBUF_SIZE; lia).
  pose proof (nullsec_frames (DF := binary32) toy_encrypt Hl ltac:(simpl; lia) llsec_example keyed_example
    llsec_example keyed_example pb_secured_example pb_example eq_refl eq_refl eq_refl eq_refl Ei Ei Hw eq_refl Hr) as H.
  cbv zeta in H. rewrite decide_True in H by (vm_compute; split; discriminate).
  destruct H as (secured & st' & rc' & E1 & _ & E2 & E3). exists secured, st', rc'.
  split; [exact E1|]. split; [exact E2|]. rewrite E3. reflexivity.
Defined.
