(* ===== verification/Frame802154.v ===== *)
(** * Frame802154: IEEE 802.15.4 frames

    core/net/mac/frame802154.c builds and reads the header of a frame, and
    core/net/mac/framer-802154.c (NETSTACK_FRAMER) does it for the packet in the
    packet buffer.  LLSEC802154_ENABLED is 0 in this configuration, so that the
    auxiliary security header is compiled out, and an address has LINKADDR_SIZE 2
    bytes.  A pointer into the packet buffer is an offset; reading or writing
    outside the buffer is [FWild]. *)
From stdpp Require Import numbers option list.
From S2P Require Import Prelude Packetbuf.

Definition FRAME802154_BEACONFRAME : Z := 0.
Definition FRAME802154_DATAFRAME : Z := 1.
Definition FRAME802154_ACKFRAME : Z := 2.
Definition FRAME802154_NOADDR : Z := 0.
Definition FRAME802154_SHORTADDRMODE : Z := 2.
Definition FRAME802154_LONGADDRMODE : Z := 3.
Definition FRAME802154_BROADCASTPANDID : Z := 0xFFFF.
Definition FRAME802154_IEEE802154_2006 : Z := 1.
Definition FRAME802154_IEEE802154E_2012 : Z := 2.
Definition FRAME802154_VERSION : Z := FRAME802154_IEEE802154_2006.
Definition FRAME802154_SUPPR_SEQNO : Z := 0.
Definition IEEE802154_PANID : Z := 0xABCD.
Definition LINKADDR_SIZE : Z := 2.
Definition FRAMER_FAILED : Z := -1.

Definition PACKETBUF_ATTR_MAX_MAC_TRANSMISSIONS : nat := 9.
Definition PACKETBUF_ATTR_MAC_SEQNO : nat := 10.
Definition PACKETBUF_ATTR_MAC_ACK : nat := 11.
Definition PACKETBUF_ATTR_PACKET_ID : nat := 17.
Definition PACKETBUF_ATTR_PENDING : nat := 22.
Definition PACKETBUF_ATTR_FRAME_TYPE : nat := 23.

Record frame802154_fcf_t := mk_fcf {
  frame_type : Z;
  security_enabled : Z;
  frame_pending : Z;
  ack_required : Z;
  panid_compression : Z;
  sequence_number_suppression : Z;
  ie_list_present : Z;
  dest_addr_mode : Z;
  frame_version : Z;
  src_addr_mode : Z;
}.
#[export] Instance eta_fcf : Eta frame802154_fcf_t := fun x =>
  mk_fcf (frame_type x) (security_enabled x) (frame_pending x) (ack_required x)
    (panid_compression x) (sequence_number_suppression x) (ie_list_present x)
    (dest_addr_mode x) (frame_version x) (src_addr_mode x).

(** Addresses have 8 bytes here, whatever LINKADDR_SIZE is; [aux_hdr] is not used. *)
Record frame802154_t := mk_frame {
  dest_addr : list Z;
  src_addr : list Z;
  fcf : frame802154_fcf_t;
  frame_seq : Z;
  dest_pid : Z;
  src_pid : Z;
  payload : Z;
  payload_len : Z;
}.
#[export] Instance eta_frame802154 : Eta frame802154_t := fun x =>
  mk_frame (dest_addr x) (src_addr x) (fcf x) (frame_seq x) (dest_pid x) (src_pid x)
    (payload x) (payload_len x).

Record field_length_t := mk_field_length {
  seqno_len : Z;
  dest_pid_len : Z;
  dest_addr_len : Z;
  src_pid_len : Z;
  src_addr_len : Z;
  aux_sec_len : Z;
}.

(** ** frame802154.c *)

Definition addr_len (mode : Z) : Z :=
  if mode =? FRAME802154_SHORTADDRMODE then 2
  else if mode =? FRAME802154_LONGADDRMODE then 8
  else 0.

(** Whether the header has a source and a destination PAN ID. *)
Definition frame802154_has_panid (f : frame802154_fcf_t) : bool * bool :=
  let d := dest_addr_mode f in
  let s := src_addr_mode f in
  let c := panid_compression f in
  let NO := FRAME802154_NOADDR in
  let SHORT := FRAME802154_SHORTADDRMODE in
  let LONG := FRAME802154_LONGADDRMODE in
  if frame_version f =? FRAME802154_IEEE802154E_2012 then
    let dest_pan_id :=
      ((d =? NO) && (s =? NO) && (c =? 1)) ||
      (negb (d =? NO) && (s =? NO) && (c =? 0)) ||
      ((d =? LONG) && (s =? LONG) && (c =? 0)) ||
      (((d =? SHORT) && negb (s =? NO)) || (negb (d =? NO) && (s =? SHORT))) in
    let src_pan_id :=
      (c =? 0) &&
      (((d =? NO) && (s =? LONG)) || ((d =? NO) && (s =? SHORT)) ||
       ((d =? SHORT) && (s =? SHORT)) || ((d =? SHORT) && (s =? LONG)) ||
       ((d =? LONG) && (s =? SHORT))) in
    (src_pan_id, dest_pan_id)
  else if negb (frame_type f =? FRAME802154_ACKFRAME) then
    (negb (c_true c) && c_true (Z.land s 3), c_true (Z.land d 3))
  else (false, false).

Definition frame802154_check_dest_panid (pan_id : Z) (frame : option frame802154_t) : Z :=
  match frame with
  | None => 0
  | Some p =>
      let '(_, has_dest_panid) := frame802154_has_panid (fcf p) in
      if has_dest_panid && negb (dest_pid p =? pan_id)
         && negb (dest_pid p =? FRAME802154_BROADCASTPANDID) then 0 else 1
  end.

(** [while(i-- > 0) if(addr[i] != 0xff) return 0;] *)
Fixpoint all_ff (i : nat) (addr : list Z) : Z :=
  match i with
  | O => 1
  | S i => if addr !!! i =? 0xff then all_ff i addr else 0
  end.
Definition frame802154_is_broadcast_addr (mode : Z) (addr : list Z) : Z :=
  all_ff (if mode =? FRAME802154_SHORTADDRMODE then 2 else 8) addr.

(** A [linkaddr_t] is two bytes, kept as the number [u16] of the union. *)
Definition linkaddr_of (a : list Z) : Z := a !!! 0%nat + Z.shiftl (a !!! 1%nat) 8.
Definition linkaddr_to (x : Z) : list Z := [Z.land x 255; Z.land (Z.shiftr x 8) 255].
(** [linkaddr_copy] to an array of 8 bytes: the first two of them. *)
Definition copy_linkaddr (x : Z) (a : list Z) : list Z := linkaddr_to x ++ drop 2 a.

(** One of the two halves of [frame802154_extract_linkaddr]: the address to
    report, if it can be. *)
Definition extract_addr (mode : Z) (addr : list Z) : option Z :=
  let len := if c_true mode then (if mode =? FRAME802154_SHORTADDRMODE then 2 else 8) else 0 in
  if (len =? 0) || c_true (frame802154_is_broadcast_addr mode addr) then Some 0
  else if negb (len =? LINKADDR_SIZE) then None
  else Some (linkaddr_of addr).
(** The two addresses are written as far as the function gets. *)
Definition frame802154_extract_linkaddr (frame : option frame802154_t) : Z * option Z * option Z :=
  match frame with
  | None => (0, None, None)
  | Some p =>
      match extract_addr (src_addr_mode (fcf p)) (src_addr p) with
      | None => (0, None, None)
      | Some source =>
          match extract_addr (dest_addr_mode (fcf p)) (dest_addr p) with
          | None => (0, Some source, None)
          | Some dest => (1, Some source, Some dest)
          end
      end
  end.

(** Also sets the compression bit of the frame, before the 2012 version. *)
Definition field_len (p : frame802154_t) : field_length_t * frame802154_t :=
  let f := fcf p in
  let p' :=
    if frame_version f <? FRAME802154_IEEE802154E_2012 then
      if c_true (Z.land (dest_addr_mode f) 3) && c_true (Z.land (src_addr_mode f) 3)
         && (src_pid p =? dest_pid p)
      then p <| fcf := f <| panid_compression := 1 |> |>
      else p <| fcf := f <| panid_compression := 0 |> |>
    else p in
  let '(has_src_panid, has_dest_panid) := frame802154_has_panid (fcf p') in
  (mk_field_length
     (if Z.land (sequence_number_suppression f) 1 =? 0 then 1 else 0)
     (if has_dest_panid then 2 else 0)
     (addr_len (Z.land (dest_addr_mode f) 3))
     (if has_src_panid then 2 else 0)
     (addr_len (Z.land (src_addr_mode f) 3))
     0, p').

Definition frame802154_hdrlen (p : frame802154_t) : Z * frame802154_t :=
  let '(flen, p') := field_len p in
  (2 + seqno_len flen + dest_pid_len flen + dest_addr_len flen + src_pid_len flen
   + src_addr_len flen + aux_sec_len flen, p').

(** [buf[pos++] = b], with a [uint8_t] position. *)
Definition put (buf b pos : Z) : PB Z := pb_write (buf + pos) b ;; mret (pos +8 1).

Definition frame802154_create_fcf (f : frame802154_fcf_t) (buf : Z) : PB unit :=
  pb_write buf
    (Z.lor (Z.land (frame_type f) 7)
    (Z.lor (Z.shiftl (Z.land (security_enabled f) 1) 3)
    (Z.lor (Z.shiftl (Z.land (frame_pending f) 1) 4)
    (Z.lor (Z.shiftl (Z.land (ack_required f) 1) 5)
           (Z.shiftl (Z.land (panid_compression f) 1) 6))))) ;;
  pb_write (buf + 1)
    (Z.lor (Z.land (sequence_number_suppression f) 1)
    (Z.lor (Z.shiftl (Z.land (ie_list_present f) 1) 1)
    (Z.lor (Z.shiftl (Z.land (dest_addr_mode f) 3) 2)
    (Z.lor (Z.shiftl (Z.land (frame_version f) 3) 4)
           (Z.shiftl (Z.land (src_addr_mode f) 3) 6))))).

(** [for(c = len; c > 0; c--) buf[pos++] = addr[c - 1];] *)
Fixpoint put_addr (buf : Z) (addr : list Z) (c : nat) (pos : Z) : PB Z :=
  match c with
  | O => mret pos
  | S c => pos ← put buf (addr !!! c) pos; put_addr buf addr c pos
  end.
Definition put_pid (buf pid pos : Z) : PB Z :=
  pos ← put buf (Z.land pid 0xff) pos; put buf (Z.land (Z.shiftr pid 8) 0xff) pos.

(** The length of the header and the frame with its compression bit set. *)
Definition frame802154_create (p : frame802154_t) (buf : Z) : PB (Z * frame802154_t) :=
  let '(flen, p') := field_len p in
  frame802154_create_fcf (fcf p') buf ;;
  pos ← (if seqno_len flen =? 1 then put buf (frame_seq p') 2 else mret 2);
  pos ← (if dest_pid_len flen =? 2 then put_pid buf (dest_pid p') pos else mret pos);
  pos ← put_addr buf (dest_addr p') (Z.to_nat (dest_addr_len flen)) pos;
  pos ← (if src_pid_len flen =? 2 then put_pid buf (src_pid p') pos else mret pos);
  pos ← put_addr buf (src_addr p') (Z.to_nat (src_addr_len flen)) pos;
  mret (pos, p').

Definition frame802154_parse_fcf (data : Z) : PB frame802154_fcf_t :=
  b0 ← pb_read data;
  b1 ← pb_read (data + 1);
  mret (mk_fcf (Z.land b0 7) (Z.land (Z.shiftr b0 3) 1) (Z.land (Z.shiftr b0 4) 1)
          (Z.land (Z.shiftr b0 5) 1) (Z.land (Z.shiftr b0 6) 1)
          (Z.land b1 1) (Z.land (Z.shiftr b1 1) 1) (Z.land (Z.shiftr b1 2) 3)
          (Z.land (Z.shiftr b1 4) 3) (Z.land (Z.shiftr b1 6) 3)).

Definition get_pid (p : Z) : PB Z :=
  b0 ← pb_read p; b1 ← pb_read (p + 1); mret (b0 +16 Z.shiftl b1 8).

(** The address at [p] of a frame with the given mode, into the array [addr]: the
    same statements are written for the destination and for the source. *)
Definition get_addr (mode p : Z) (addr : list Z) : PB (list Z * Z) :=
  if mode =? FRAME802154_SHORTADDRMODE then
    let addr := copy_linkaddr 0 addr in
    b1 ← pb_read (p + 1);
    b0 ← pb_read p;
    mret (<[1%nat := b0]> (<[0%nat := b1]> addr), p + 2)
  else if mode =? FRAME802154_LONGADDRMODE then
    b0 ← pb_read (p + 7); b1 ← pb_read (p + 6); b2 ← pb_read (p + 5); b3 ← pb_read (p + 4);
    b4 ← pb_read (p + 3); b5 ← pb_read (p + 2); b6 ← pb_read (p + 1); b7 ← pb_read p;
    mret ([b0; b1; b2; b3; b4; b5; b6; b7], p + 8)
  else mret (addr, p).

Definition parse_dest (f : frame802154_fcf_t) (p : Z) (pf : frame802154_t) :
    PB (Z * frame802154_t) :=
  let '(_, has_dest_panid) := frame802154_has_panid f in
  if c_true (dest_addr_mode f) then
    '(pf, p) ← (if has_dest_panid
                then pid ← get_pid p; mret (pf <| dest_pid := pid |>, p + 2)
                else mret (pf <| dest_pid := 0 |>, p));
    '(a, p) ← get_addr (dest_addr_mode f) p (dest_addr pf);
    mret (p, pf <| dest_addr := a |>)
  else mret (p, pf <| dest_addr ::= copy_linkaddr 0 |> <| dest_pid := 0 |>).

Definition parse_src (f : frame802154_fcf_t) (p : Z) (pf : frame802154_t) :
    PB (Z * frame802154_t) :=
  let '(has_src_panid, has_dest_panid) := frame802154_has_panid f in
  if c_true (src_addr_mode f) then
    '(pf, p) ← (if has_src_panid
                then pid ← get_pid p;
                     let pf := pf <| src_pid := pid |> in
                     mret (if has_dest_panid then pf else pf <| dest_pid := pid |>, p + 2)
                else mret (pf <| src_pid := dest_pid pf |>, p));
    '(a, p) ← get_addr (src_addr_mode f) p (src_addr pf);
    mret (p, pf <| src_addr := a |>)
  else mret (p, pf <| src_addr ::= copy_linkaddr 0 |> <| src_pid := 0 |>).

Definition frame802154_parse (data len : Z) (pf : frame802154_t) : PB (Z * frame802154_t) :=
  if len <? 2 then mret (0, pf)
  else
    f ← frame802154_parse_fcf data;
    let pf := pf <| fcf := f |> in
    let p := data + 2 in
    '(p, pf) ← (if sequence_number_suppression f =? 0
                then b ← pb_read p; mret (p + 1, pf <| frame_seq := b |>)
                else mret (p, pf));
    '(p, pf) ← parse_dest f p pf;
    '(p, pf) ← parse_src f p pf;
    let c := p - data in
    mret (if len <? c then 0 else c, pf <| payload_len := len - c |> <| payload := p |>).

(** ** framer-802154.c *)

(** [mac_pan_id] is the static of frame802154.c, the random numbers are inputs. *)
Record framer_st := mk_framer {
  fr_pb : packetbuf_st;
  mac_pan_id : Z;
  mac_dsn : Z;
  initialized : Z;
  fr_rnd : nat -> Z;
}.
#[export] Instance eta_framer : Eta framer_st := fun x =>
  mk_framer (fr_pb x) (mac_pan_id x) (mac_dsn x) (initialized x) (fr_rnd x).

Abbreviation FR := (M framer_st).
Definition fr_buf {A} (m : PB A) : FR A := zoom fr_pb m.
Definition fr_random_rand : FR Z := fun st =>
  Ok (u16 (fr_rnd st O), st <| fr_rnd ::= fun r n => r (S n) |>).

Definition frame802154_get_pan_id : FR Z := gets mac_pan_id.
Definition frame802154_set_pan_id (pan_id : Z) : FR unit := mac_pan_id <~ u16 pan_id.

(** [memset(&params, 0, sizeof(params))] *)
Definition frame_zero : frame802154_t :=
  mk_frame (replicate 8 0) (replicate 8 0) (mk_fcf 0 0 0 0 0 0 0 0 0 0) 0 0 0 0 0.

(** The sequence number of a frame to be created. *)
Definition frame_seqno : FR Z :=
  a ← fr_buf (packetbuf_attr PACKETBUF_ATTR_MAC_SEQNO);
  if c_true a then mret (u8 a)
  else
    d ← gets mac_dsn;
    when (d =? 0) (mac_dsn <~ (d +8 1)) ;;
    s ← gets mac_dsn;
    (mac_dsn <~ (s +8 1)) ;;
    fr_buf (packetbuf_set_attr PACKETBUF_ATTR_MAC_SEQNO s) ;;
    mret s.

(** The frame for the packet in the buffer, with all its fields. *)
Definition frame_params (do_create : bool) : FR frame802154_t :=
  i ← gets initialized;
  when (negb (c_true i))
    ((initialized <~ 1) ;; r ← fr_random_rand; mac_dsn <~ Z.land r 0xff) ;;
  ft ← fr_buf (packetbuf_attr PACKETBUF_ATTR_FRAME_TYPE);
  pending ← fr_buf (packetbuf_attr PACKETBUF_ATTR_PENDING);
  bc ← fr_buf packetbuf_holds_broadcast;
  ack ← fr_buf (packetbuf_attr PACKETBUF_ATTR_MAC_ACK);
  seqno ← (if do_create then frame_seqno else mret 0);
  pid ← frame802154_get_pan_id;
  receiver ← fr_buf (packetbuf_addr PACKETBUF_ADDR_RECEIVER);
  sender ← fr_buf (packetbuf_addr PACKETBUF_ADDR_SENDER);
  p ← fr_buf packetbuf_dataptr;
  n ← fr_buf packetbuf_datalen;
  mret (mk_frame
    (if bc : bool then 0xFF :: 0xFF :: drop 2 (replicate 8 0)
     else copy_linkaddr receiver (replicate 8 0))
    (copy_linkaddr sender (replicate 8 0))
    (mk_fcf (u8 ft) 0 (u8 pending)
       (if bc then 0 else u8 ack)
       0
       (if bc then b2z (FRAME802154_IEEE802154E_2012 <=? FRAME802154_VERSION)
        else FRAME802154_SUPPR_SEQNO)
       0
       (if bc then FRAME802154_SHORTADDRMODE
        else if LINKADDR_SIZE =? 2 then FRAME802154_SHORTADDRMODE else FRAME802154_LONGADDRMODE)
       FRAME802154_VERSION
       (if LINKADDR_SIZE =? 2 then FRAME802154_SHORTADDRMODE else FRAME802154_LONGADDRMODE))
    seqno pid pid p n).

(** The frame type the callers pass is not used. *)
Definition create_frame (type : Z) (do_create : bool) : FR Z :=
  pid ← frame802154_get_pan_id;
  if pid =? 0xffff then mret (-1)
  else
    params ← frame_params do_create;
    let '(hdr_len, params) := frame802154_hdrlen params in
    if negb do_create then mret hdr_len
    else
      r ← fr_buf (packetbuf_hdralloc hdr_len);
      if c_true r then
        buf ← fr_buf packetbuf_hdrptr;
        fr_buf (frame802154_create params buf) ;;
        mret hdr_len
      else mret FRAMER_FAILED.

Definition framer_hdr_length : FR Z := create_frame FRAME802154_DATAFRAME false.
Definition framer_create : FR Z := create_frame FRAME802154_DATAFRAME true.

(** [frame] is the uninitialised local variable. *)
Definition framer_parse (frame : frame802154_t) : FR Z :=
  d ← fr_buf packetbuf_dataptr;
  n ← fr_buf packetbuf_datalen;
  '(hdr_len, frame) ← fr_buf (frame802154_parse d n frame);
  r ← (if c_true hdr_len then fr_buf (packetbuf_hdrreduce hdr_len) else mret 0);
  if c_true r then
    fr_buf (packetbuf_set_attr PACKETBUF_ATTR_FRAME_TYPE (frame_type (fcf frame))) ;;
    pid ← frame802154_get_pan_id;
    let has_dest := c_true (dest_addr_mode (fcf frame)) in
    if has_dest && negb (dest_pid frame =? pid)
       && negb (dest_pid frame =? FRAME802154_BROADCASTPANDID)
    then mret FRAMER_FAILED
    else
      when (has_dest &&
            negb (c_true (frame802154_is_broadcast_addr (dest_addr_mode (fcf frame)) (dest_addr frame))))
        (fr_buf (packetbuf_set_addr PACKETBUF_ADDR_RECEIVER (linkaddr_of (dest_addr frame)))) ;;
      fr_buf (packetbuf_set_addr PACKETBUF_ADDR_SENDER (linkaddr_of (src_addr frame))) ;;
      fr_buf (packetbuf_set_attr PACKETBUF_ATTR_PENDING (frame_pending (fcf frame))) ;;
      fr_buf (packetbuf_set_attr PACKETBUF_ATTR_MAC_SEQNO
                (if sequence_number_suppression (fcf frame) =? 0 then frame_seq frame else 0xffff)) ;;
      fr_buf (packetbuf_set_attr PACKETBUF_ATTR_PACKET_ID (frame_seq frame)) ;;
      mret hdr_len
  else mret FRAMER_FAILED.
