(* ===== verification/FrameFacts.v ===== *)
(** * FrameFacts: what a frame carries to its receiver

    Theorems about [Frame802154]: the PAN IDs of the frame control field against
    the table of the standard, the length of a header, the round trip of
    [frame802154_create] and [frame802154_parse], the safety of parsing, and the
    frames of the protocol from the packet buffer of one node to another's. *)
From stdpp Require Import numbers option list.
From S2P Require Import Prelude Packetbuf Frame802154.

(** ** Writing and reading runs of bytes *)

(** The array with the bytes [bs] from index [i] on. *)
Definition splice (i : nat) (bs l : list Z) : list Z := take i l ++ bs ++ drop (i + length bs) l.

Lemma length_splice i bs l : (i + length bs <= length l)%nat -> length (splice i bs l) = length l.
Proof. intros H. unfold splice. rewrite !length_app, length_take, length_drop. lia. Qed.
Lemma splice_nil i l : splice i [] l = l.
Proof. unfold splice. rewrite Nat.add_0_r. apply take_drop. Qed.
Lemma splice_app i a b l :
  (i + length a + length b <= length l)%nat ->
  splice (i + length a) b (splice i a l) = splice i (a ++ b) l.
Proof.
  intros H. unfold splice. rewrite length_app.
  rewrite (app_assoc (take i l) a (drop _ l)).
  assert (E : length (take i l ++ a) = (i + length a)%nat).
  { rewrite length_app, length_take. lia. }
  rewrite take_app_le, take_ge by lia. rewrite drop_app_ge, drop_drop by lia.
  rewrite E, <- !app_assoc. do 4 f_equal. lia.
Qed.
Lemma splice_one i b l : (i < length l)%nat -> <[i := b]> l = splice i [b] l.
Proof. intros H. unfold splice. cbn [length app]. rewrite insert_take_drop by done. do 3 f_equal. lia. Qed.

(** [writes m buf pos bs]: [m] writes [bs] at [buf + pos] and returns the position
    after them. *)
Definition writes (buf : nat) (pos : nat) (bs : list Z) (m : PB Z) : Prop :=
  forall st, (buf + pos + length bs <= length (packetbuf st))%nat -> (pos + length bs < 256)%nat ->
  m st = Ok (Z.of_nat (pos + length bs), st <| packetbuf ::= splice (buf + pos) bs |>).

Lemma packetbuf_same st : st <| packetbuf ::= splice 0 [] |> = st.
Proof. destruct st. unfold update. simpl. by rewrite splice_nil. Qed.

Lemma writes_nil buf pos : writes buf pos [] (mret (Z.of_nat pos)).
Proof.
  intros st _ _. cbn [length]. rewrite Nat.add_0_r. destruct st. unfold update. cbn.
  by rewrite splice_nil.
Qed.
Lemma writes_put buf pos b : writes buf pos [b] (put (Z.of_nat buf) b (Z.of_nat pos)).
Proof.
  intros st H1 H2. cbn [length] in *. unfold put. rewrite <- Nat2Z.inj_add.
  erewrite bind_Ok by (apply pb_write_ok; lia). unfold update. cbn.
  rewrite splice_one by lia. unfold mret, M_ret.
  replace (Z.of_nat pos +8 1) with (Z.of_nat (pos + 1)) by uwrap_lia. done.
Qed.
Lemma writes_bind buf pos bs1 bs2 m k :
  writes buf pos bs1 m -> writes buf (pos + length bs1) bs2 (k (Z.of_nat (pos + length bs1))) ->
  writes buf pos (bs1 ++ bs2) (m ≫= k).
Proof.
  intros Hm Hk st H1 H2. rewrite length_app in *.
  erewrite bind_Ok by (apply Hm; lia).
  rewrite Hk by (unfold update; simpl; rewrite ?length_splice by lia; lia).
  rewrite (Nat.add_assoc pos), (Nat.add_assoc buf pos).
  destruct st as [l ?????]. unfold update. simpl in *. by rewrite splice_app by lia.
Qed.
Lemma writes_if buf pos b bs m :
  writes buf pos bs m -> writes buf pos (if b : bool then bs else []) (if b then m else mret (Z.of_nat pos)).
Proof. intros H. destruct b; [done|]. apply writes_nil. Qed.

(** The bytes from [p] on. *)
Definition bytes_at (st : packetbuf_st) (p : Z) (bs : list Z) : Prop :=
  0 <= p /\ forall i b, bs !! i = Some b -> packetbuf st !! (Z.to_nat p + i)%nat = Some b.

Lemma bytes_at_app st p bs1 bs2 :
  bytes_at st p (bs1 ++ bs2) -> bytes_at st p bs1 /\ bytes_at st (p + Z.of_nat (length bs1)) bs2.
Proof.
  intros [Hp H]. split; split; try lia.
  - intros i b Hi. apply H. by apply lookup_app_l_Some.
  - intros i b Hi. replace (Z.to_nat _ + i)%nat with (Z.to_nat p + (length bs1 + i))%nat by lia.
    apply H. rewrite lookup_app_r by lia. rewrite <- Hi. f_equal. lia.
Qed.
Lemma pb_read_at st p bs i b :
  bytes_at st p bs -> bs !! i = Some b -> pb_read (p + Z.of_nat i) st = Ok (b, st).
Proof.
  intros [Hp H] Hi. replace (p + Z.of_nat i) with (Z.of_nat (Z.to_nat p + i)) by lia.
  by apply pb_read_ok, H.
Qed.
Lemma pb_read_at0 st p b bs : bytes_at st p (b :: bs) -> pb_read p st = Ok (b, st).
Proof. intros H. rewrite <- (Z.add_0_r p). by apply (pb_read_at st p (b :: bs) 0). Qed.

(** ** The bytes of a header *)

Definition fcf_byte0 (f : frame802154_fcf_t) : Z :=
  Z.lor (Z.land (frame_type f) 7)
  (Z.lor (Z.shiftl (Z.land (security_enabled f) 1) 3)
  (Z.lor (Z.shiftl (Z.land (frame_pending f) 1) 4)
  (Z.lor (Z.shiftl (Z.land (ack_required f) 1) 5)
         (Z.shiftl (Z.land (panid_compression f) 1) 6)))).
Definition fcf_byte1 (f : frame802154_fcf_t) : Z :=
  Z.lor (Z.land (sequence_number_suppression f) 1)
  (Z.lor (Z.shiftl (Z.land (ie_list_present f) 1) 1)
  (Z.lor (Z.shiftl (Z.land (dest_addr_mode f) 3) 2)
  (Z.lor (Z.shiftl (Z.land (frame_version f) 3) 4)
         (Z.shiftl (Z.land (src_addr_mode f) 3) 6)))).
Definition pid_bytes (pid : Z) : list Z := [Z.land pid 0xff; Z.land (Z.shiftr pid 8) 0xff].
Definition addr_bytes (mode : Z) (a : list Z) : list Z :=
  rev (take (Z.to_nat (addr_len (Z.land mode 3))) a).

(** The header of a frame whose compression bit is set already. *)
Definition header_bytes (p : frame802154_t) : list Z :=
  let f := fcf p in
  let '(has_src, has_dest) := frame802154_has_panid f in
  [fcf_byte0 f; fcf_byte1 f] ++
  ((if Z.land (sequence_number_suppression f) 1 =? 0 then [frame_seq p] else []) ++
  ((if has_dest : bool then pid_bytes (dest_pid p) else []) ++
  (addr_bytes (dest_addr_mode f) (dest_addr p) ++
  ((if has_src : bool then pid_bytes (src_pid p) else []) ++
   addr_bytes (src_addr_mode f) (src_addr p))))).

(** The frame with the compression bit as [field_len] sets it. *)
Definition compressed (p : frame802154_t) : frame802154_t :=
  let f := fcf p in
  if frame_version f <? FRAME802154_IEEE802154E_2012 then
    if c_true (Z.land (dest_addr_mode f) 3) && c_true (Z.land (src_addr_mode f) 3)
       && (src_pid p =? dest_pid p)
    then p <| fcf := f <| panid_compression := 1 |> |>
    else p <| fcf := f <| panid_compression := 0 |> |>
  else p.

Lemma addr_len_cases mode : addr_len mode = 0 \/ addr_len mode = 2 \/ addr_len mode = 8.
Proof. unfold addr_len. do 2 (case_match; [auto|]). auto. Qed.
Lemma addr_bytes_length mode a :
  length a = 8%nat -> Z.of_nat (length (addr_bytes mode a)) = addr_len (Z.land mode 3).
Proof.
  intros H. unfold addr_bytes. rewrite length_rev, length_take.
  destruct (addr_len_cases (Z.land mode 3)) as [-> | [-> | ->]]; lia.
Qed.

Lemma compressed_fields p :
  dest_addr (compressed p) = dest_addr p /\ src_addr (compressed p) = src_addr p /\
  frame_seq (compressed p) = frame_seq p /\ dest_pid (compressed p) = dest_pid p /\
  src_pid (compressed p) = src_pid p /\
  exists c, fcf (compressed p) = (fcf p) <| panid_compression := c |>.
Proof.
  unfold compressed.
  assert (E : fcf p = (fcf p) <| panid_compression := panid_compression (fcf p) |>)
    by (by destruct (fcf p)).
  case_match; [case_match|]; repeat split; eexists; [reflexivity..|exact E].
Qed.

Lemma field_len_eq p :
  let q := compressed p in
  let '(has_src, has_dest) := frame802154_has_panid (fcf q) in
  field_len p =
    (mk_field_length
       (if Z.land (sequence_number_suppression (fcf q)) 1 =? 0 then 1 else 0)
       (if has_dest then 2 else 0) (addr_len (Z.land (dest_addr_mode (fcf q)) 3))
       (if has_src then 2 else 0) (addr_len (Z.land (src_addr_mode (fcf q)) 3)) 0, q).
Proof.
  pose proof (compressed_fields p) as (_ & _ & _ & _ & _ & c & E).
  cbv zeta. unfold field_len. fold (compressed p).
  replace (sequence_number_suppression (fcf (compressed p))) with (sequence_number_suppression (fcf p)) by by rewrite E.
  replace (dest_addr_mode (fcf (compressed p))) with (dest_addr_mode (fcf p)) by by rewrite E.
  replace (src_addr_mode (fcf (compressed p))) with (src_addr_mode (fcf p)) by by rewrite E.
  by destruct (frame802154_has_panid _) as [hs hd].
Qed.

(** The arrays of a frame have 8 bytes. *)
Definition frame_arrays (p : frame802154_t) : Prop :=
  length (dest_addr p) = 8%nat /\ length (src_addr p) = 8%nat.

Lemma header_bytes_length p :
  frame_arrays p ->
  Z.of_nat (length (header_bytes (compressed p))) = fst (frame802154_hdrlen p) /\
  2 <= fst (frame802154_hdrlen p) <= 23.
Proof.
  intros [Hd Hs]. unfold frame802154_hdrlen. pose proof (field_len_eq p) as E. cbv zeta in E.
  unfold header_bytes.
  pose proof (compressed_fields p) as (Ed & Es & _).
  destruct (frame802154_has_panid (fcf (compressed p))) as [hs hd]. rewrite E.
  cbn [fst seqno_len dest_pid_len dest_addr_len src_pid_len src_addr_len aux_sec_len].
  rewrite !length_app, !Nat2Z.inj_add, !addr_bytes_length by congruence.
  pose proof (addr_len_cases (Z.land (dest_addr_mode (fcf (compressed p))) 3)).
  pose proof (addr_len_cases (Z.land (src_addr_mode (fcf (compressed p))) 3)).
  destruct hs, hd, (Z.land (sequence_number_suppression (fcf (compressed p))) 1 =? 0);
    cbn [length pid_bytes]; lia.
Qed.

(** ** [frame802154_create] writes the header *)

Lemma writes_addr buf pos a n :
  (n <= length a)%nat -> writes buf pos (rev (take n a)) (put_addr (Z.of_nat buf) a n (Z.of_nat pos)).
Proof.
  revert pos. induction n as [|n IH]; intros pos Hn; [apply writes_nil|]. cbn [put_addr].
  destruct (lookup_lt_is_Some_2 a n) as [x Hx]; [lia|].
  rewrite (take_S_r _ _ _ Hx), rev_app_distr. cbn [rev app].
  rewrite (list_lookup_total_correct _ _ _ Hx).
  apply (writes_bind _ _ [x]); [apply writes_put|]. apply IH. lia.
Qed.
Lemma writes_pid buf pos pid : writes buf pos (pid_bytes pid) (put_pid (Z.of_nat buf) pid (Z.of_nat pos)).
Proof. apply (writes_bind _ _ [_] [_]); apply writes_put. Qed.

Lemma create_fcf_run f buf st :
  (buf + 2 <= length (packetbuf st))%nat ->
  frame802154_create_fcf f (Z.of_nat buf) st =
    Ok (tt, st <| packetbuf ::= splice buf [fcf_byte0 f; fcf_byte1 f] |>).
Proof.
  intros H. unfold frame802154_create_fcf. fold (fcf_byte0 f) (fcf_byte1 f).
  erewrite bind_Ok by (apply pb_write_ok; lia).
  replace (Z.of_nat buf + 1) with (Z.of_nat (buf + 1)) by lia.
  rewrite pb_write_ok by (unfold update; simpl; rewrite length_insert; lia).
  destruct st as [l ?????]. unfold update. simpl in *. rewrite (splice_one buf) by lia.
  rewrite splice_one by (rewrite length_splice; simpl; lia).
  by rewrite (splice_app buf [_] [_]) by (simpl; lia).
Qed.

Lemma create_run p buf st :
  frame_arrays p ->
  (buf + length (header_bytes (compressed p)) <= length (packetbuf st))%nat ->
  frame802154_create p (Z.of_nat buf) st =
    Ok ((Z.of_nat (length (header_bytes (compressed p))), compressed p),
        st <| packetbuf ::= splice buf (header_bytes (compressed p)) |>).
Proof.
  intros Hp Hl. pose proof (header_bytes_length p Hp) as [Hhl Hr]. unfold frame802154_create.
  pose proof (field_len_eq p) as E. cbv zeta in E.
  pose proof (compressed_fields p) as (Ed & Es & _).
  unfold header_bytes in *. destruct Hp as [Hd Hs].
  destruct (frame802154_has_panid (fcf (compressed p))) as [hs hd]. rewrite E.
  set (q := compressed p) in *. cbn [seqno_len dest_pid_len dest_addr_len src_pid_len src_addr_len].
  rewrite length_app in *. cbn [length] in *.
  erewrite bind_Ok by (apply create_fcf_run; lia).
  match goal with |- context [splice buf (_ ++ ?r)] => set (rest := r) in * end.
  assert (W : writes buf 2 rest
    (pos ← (if (if Z.land (sequence_number_suppression (fcf q)) 1 =? 0 then 1 else 0) =? 1
            then put (Z.of_nat buf) (frame_seq q) 2 else mret 2);
     pos ← (if (if hd then 2 else 0) =? 2 then put_pid (Z.of_nat buf) (dest_pid q) pos else mret pos);
     pos ← put_addr (Z.of_nat buf) (dest_addr q)
             (Z.to_nat (addr_len (Z.land (dest_addr_mode (fcf q)) 3))) pos;
     pos ← (if (if hs then 2 else 0) =? 2 then put_pid (Z.of_nat buf) (src_pid q) pos else mret pos);
     put_addr (Z.of_nat buf) (src_addr q)
             (Z.to_nat (addr_len (Z.land (src_addr_mode (fcf q)) 3))) pos)).
  { assert (Hn : forall m (a : list Z), length a = 8%nat -> (Z.to_nat (addr_len m) <= length a)%nat).
    { intros m a Ha. destruct (addr_len_cases m) as [-> | [-> | ->]]; lia. }
    unfold rest. apply writes_bind.
    { change 2 with (Z.of_nat 2). destruct (Z.land _ _ =? 0); [apply writes_put|apply writes_nil]. }
    apply writes_bind.
    { destruct hd; [apply writes_pid|apply writes_nil]. }
    apply writes_bind; [apply writes_addr, Hn; congruence|]. apply writes_bind.
    { destruct hs; [apply writes_pid|apply writes_nil]. }
    apply writes_addr, Hn. congruence. }
  assert (Hs2 : (buf + 2 + length rest <= length (packetbuf (st <| packetbuf ::= splice buf [fcf_byte0 (fcf q); fcf_byte1 (fcf q)] |>)))%nat).
  { unfold update. simpl. rewrite length_splice by (simpl; lia). lia. }
  specialize (W _ Hs2 ltac:(lia)).
  do 4 (apply bind_inv in W as (? & ? & ?E & W)).
  do 4 (erewrite bind_Ok by eassumption). erewrite bind_Ok by exact W.
  destruct st as [l ?????]. unfold update, mret, M_ret. simpl in *.
  by rewrite (splice_app buf [_; _]) by (simpl; lia).
Qed.

(** ** [frame802154_parse] reads it back *)

(** The fields of the frame control field within their widths. *)
Record fcf_wf (f : frame802154_fcf_t) : Prop := {
  fwf_type : 0 <= frame_type f < 8;
  fwf_security : 0 <= security_enabled f < 2;
  fwf_pending : 0 <= frame_pending f < 2;
  fwf_ack : 0 <= ack_required f < 2;
  fwf_compression : 0 <= panid_compression f < 2;
  fwf_suppression : 0 <= sequence_number_suppression f < 2;
  fwf_ie : 0 <= ie_list_present f < 2;
  fwf_dest : 0 <= dest_addr_mode f < 4;
  fwf_version : 0 <= frame_version f < 4;
  fwf_src : 0 <= src_addr_mode f < 4;
}.
Record frame_wf (p : frame802154_t) : Prop := {
  frwf_fcf : fcf_wf (fcf p);
  frwf_arrays : frame_arrays p;
  frwf_dest_pid : in_u 16 (dest_pid p);
  frwf_src_pid : in_u 16 (src_pid p);
}.

Ltac split_range :=
  repeat match goal with
    | H : 0 <= ?x < 2 |- _ => assert (x = 0 \/ x = 1) as [-> | ->] by lia; clear H
    | H : 0 <= ?x < 4 |- _ => assert (x = 0 \/ x = 1 \/ x = 2 \/ x = 3) as [-> | [-> | [-> | ->]]] by lia; clear H
    | H : 0 <= ?x < 8 |- _ =>
        assert (x = 0 \/ x = 1 \/ x = 2 \/ x = 3 \/ x = 4 \/ x = 5 \/ x = 6 \/ x = 7)
          as [-> | [-> | [-> | [-> | [-> | [-> | [-> | ->]]]]]]] by lia; clear H
    end.

Lemma fcf_bits f :
  fcf_wf f ->
  mk_fcf (Z.land (fcf_byte0 f) 7) (Z.land (Z.shiftr (fcf_byte0 f) 3) 1)
    (Z.land (Z.shiftr (fcf_byte0 f) 4) 1) (Z.land (Z.shiftr (fcf_byte0 f) 5) 1)
    (Z.land (Z.shiftr (fcf_byte0 f) 6) 1)
    (Z.land (fcf_byte1 f) 1) (Z.land (Z.shiftr (fcf_byte1 f) 1) 1)
    (Z.land (Z.shiftr (fcf_byte1 f) 2) 3) (Z.land (Z.shiftr (fcf_byte1 f) 4) 3)
    (Z.land (Z.shiftr (fcf_byte1 f) 6) 3) = f.
Proof.
  intros []. destruct f as [a b c d e g h i j k]. unfold fcf_byte0, fcf_byte1. cbn in *.
  f_equal;
    first [ clear -fwf_type0 fwf_security0 fwf_pending0 fwf_ack0 fwf_compression0;
            solve [split_range; reflexivity]
          | clear -fwf_suppression0 fwf_ie0 fwf_dest0 fwf_version0 fwf_src0;
            split_range; reflexivity ].
Qed.

Lemma compressed_wf p : frame_wf p -> frame_wf (compressed p).
Proof.
  intros [Hf [Ha Hb] Hd Hs]. pose proof (compressed_fields p) as (E1 & E2 & _ & E4 & E5 & c & E).
  split; [|split|..]; try congruence. destruct Hf.
  unfold compressed in *. repeat case_match; split; rsimpl; try done; lia.
Qed.

Lemma parse_fcf_run st p f bs :
  fcf_wf f -> bytes_at st p (fcf_byte0 f :: fcf_byte1 f :: bs) ->
  frame802154_parse_fcf p st = Ok (f, st).
Proof.
  intros Hf H. unfold frame802154_parse_fcf.
  erewrite bind_Ok by (by eapply pb_read_at0).
  erewrite bind_Ok by (by apply (pb_read_at _ _ _ 1 _ H)).
  rewrite fcf_bits by done. done.
Qed.

Lemma get_pid_run st p pid :
  in_u 16 pid -> bytes_at st p (pid_bytes pid) -> get_pid p st = Ok (pid, st).
Proof.
  intros Hp H. unfold get_pid.
  erewrite bind_Ok by (by eapply pb_read_at0).
  erewrite bind_Ok by (by apply (pb_read_at _ _ _ 1 _ H)).
  change 0xff with (Z.ones 8). rewrite !Z.land_ones, Z.shiftr_div_pow2, Z.shiftl_mul_pow2 by done.
  unfold mret, M_ret. do 2 f_equal. uwrap_lia.
Qed.

Lemma get_addr_run st p mode a a0 :
  0 <= mode < 4 -> length a = 8%nat -> length a0 = 8%nat ->
  bytes_at st p (addr_bytes mode a) ->
  exists a', get_addr mode p a0 st = Ok ((a', p + addr_len mode), st) /\ length a' = 8%nat /\
    take (Z.to_nat (addr_len mode)) a' = take (Z.to_nat (addr_len mode)) a.
Proof.
  intros Hm La La0 H. unfold addr_bytes in H.
  assert (mode = 0 \/ mode = 1 \/ mode = 2 \/ mode = 3) as [-> | [-> | [-> | ->]]] by lia; cbn in *.
  - exists a0. by rewrite Z.add_0_r.
  - exists a0. by rewrite Z.add_0_r.
  - destruct a as [|x0 [|x1 a]]; [done|done|]. unfold get_addr. cbn in *.
    change (bytes_at st p [x1; x0]) in H.
    erewrite bind_Ok by (by apply (pb_read_at _ _ _ 1 _ H)).
    erewrite bind_Ok by (by eapply pb_read_at0). eexists. split; [reflexivity|].
    cbn [length]. rewrite length_drop, La0. done.
  - do 8 (destruct a as [|?x a]; [cbn in La; lia|]). destruct a; [|cbn in La; lia].
    change (bytes_at st p [x6; x5; x4; x3; x2; x1; x0; x]) in H. unfold get_addr. cbn.
    erewrite bind_Ok by (by apply (pb_read_at _ _ _ 7 _ H)).
    erewrite bind_Ok by (by apply (pb_read_at _ _ _ 6 _ H)).
    erewrite bind_Ok by (by apply (pb_read_at _ _ _ 5 _ H)).
    erewrite bind_Ok by (by apply (pb_read_at _ _ _ 4 _ H)).
    erewrite bind_Ok by (by apply (pb_read_at _ _ _ 3 _ H)).
    erewrite bind_Ok by (by apply (pb_read_at _ _ _ 2 _ H)).
    erewrite bind_Ok by (by apply (pb_read_at _ _ _ 1 _ H)).
    erewrite bind_Ok by (by eapply pb_read_at0). by eexists.
Qed.

(** The two halves of the addressing fields. *)
Lemma parse_dest_run st f p pf pid a rest :
  let has_dest := snd (frame802154_has_panid f) in
  fcf_wf f -> in_u 16 pid -> length a = 8%nat -> length (dest_addr pf) = 8%nat ->
  (dest_addr_mode f = 0 -> has_dest = false) ->
  let bs := (if has_dest : bool then pid_bytes pid else []) ++ addr_bytes (dest_addr_mode f) a in
  bytes_at st p (bs ++ rest) ->
  exists a', parse_dest f p pf st = Ok ((p + Z.of_nat (length bs),
      pf <| dest_addr := a' |> <| dest_pid := if has_dest then pid else 0 |>), st) /\
    length a' = 8%nat /\
    take (Z.to_nat (addr_len (dest_addr_mode f))) a' = take (Z.to_nat (addr_len (dest_addr_mode f))) a.
Proof.
  intros hd Hf Hpid La La0 H0 bs (Hbs & _)%bytes_at_app.
  assert (Hm : Z.land (dest_addr_mode f) 3 = dest_addr_mode f).
  { change 3 with (Z.ones 2). rewrite Z.land_ones by done. apply Z.mod_small, Hf. }
  assert (Lbs : Z.of_nat (length bs) = (if hd then 2 else 0) + addr_len (dest_addr_mode f)).
  { unfold bs. rewrite length_app, Nat2Z.inj_add, addr_bytes_length, Hm by done. by destruct hd. }
  apply bytes_at_app in Hbs as [H1 H2]. rewrite Lbs. unfold parse_dest.
  subst bs hd. destruct (frame802154_has_panid f) as [hs hd]. cbn [snd] in *.
  destruct (c_true (dest_addr_mode f)) eqn:Hc; unfold c_true in Hc.
  - destruct hd.
    + erewrite bind_Ok by (erewrite bind_Ok by (by apply get_pid_run); reflexivity). cbv beta iota.
      destruct (get_addr_run st (p + 2) (dest_addr_mode f) a (dest_addr pf)) as (a' & E & L & T);
        [apply Hf|done|done|exact H2|]. rsimpl.
      erewrite bind_Ok by exact E. exists a'. rewrite Z.add_assoc. done.
    + erewrite bind_Ok by reflexivity. cbv beta iota.
      destruct (get_addr_run st p (dest_addr_mode f) a (dest_addr pf)) as (a' & E & L & T);
        [apply Hf|done|done| |]. { by rewrite Z.add_0_r in H2. }
      rsimpl. erewrite bind_Ok by exact E. by exists a'.
  - apply negb_false_iff, Z.eqb_eq in Hc. rewrite H0, Hc, Z.add_0_r by done.
    eexists. split; [reflexivity|]. split; [|done]. unfold copy_linkaddr, linkaddr_to.
    cbn [length app]. rewrite length_drop, La0. done.
Qed.

Lemma parse_src_run st f p pf pid a rest :
  let '(has_src, has_dest) := frame802154_has_panid f in
  fcf_wf f -> in_u 16 pid -> length a = 8%nat -> length (src_addr pf) = 8%nat ->
  (src_addr_mode f = 0 -> has_src = false) ->
  let bs := (if has_src : bool then pid_bytes pid else []) ++ addr_bytes (src_addr_mode f) a in
  bytes_at st p (bs ++ rest) ->
  exists a', parse_src f p pf st = Ok ((p + Z.of_nat (length bs),
      pf <| src_addr := a' |>
         <| src_pid := if src_addr_mode f =? 0 then 0 else if has_src then pid else dest_pid pf |>
         <| dest_pid := if has_src && negb has_dest then pid else dest_pid pf |>), st) /\
    length a' = 8%nat /\
    take (Z.to_nat (addr_len (src_addr_mode f))) a' = take (Z.to_nat (addr_len (src_addr_mode f))) a.
Proof.
  destruct (frame802154_has_panid f) as [hs hd] eqn:Ep.
  intros Hf Hpid La La0 H0 bs (Hbs & _)%bytes_at_app.
  assert (Hm : Z.land (src_addr_mode f) 3 = src_addr_mode f).
  { change 3 with (Z.ones 2). rewrite Z.land_ones by done. apply Z.mod_small, Hf. }
  assert (Lbs : Z.of_nat (length bs) = (if hs then 2 else 0) + addr_len (src_addr_mode f)).
  { unfold bs. rewrite length_app, Nat2Z.inj_add, addr_bytes_length, Hm by done. by destruct hs. }
  apply bytes_at_app in Hbs as [H1 H2]. rewrite Lbs. unfold parse_src. rewrite Ep. unfold c_true.
  destruct (Z.eqb_spec (src_addr_mode f) 0) as [E0|E0]; cbn [negb].
  - rewrite H0, E0, Z.add_0_r by done. eexists. split; [by destruct pf|]. split; [|done].
    unfold copy_linkaddr, linkaddr_to. cbn [length app]. rewrite length_drop, La0. done.
  - destruct hs.
    + erewrite bind_Ok by (erewrite bind_Ok by (by apply get_pid_run); reflexivity). cbv beta iota.
      destruct (get_addr_run st (p + 2) (src_addr_mode f) a (src_addr pf)) as (a' & E & L & T);
        [apply Hf|done|done|exact H2|].
      replace (src_addr (if hd then pf <| src_pid := pid |>
        else (pf <| src_pid := pid |>) <| dest_pid := pid |>)) with (src_addr pf) by (by destruct hd).
      erewrite bind_Ok by exact E. exists a'. rewrite Z.add_assoc. split; [|done].
      destruct hd, pf; reflexivity.
    + erewrite bind_Ok by reflexivity. cbv beta iota.
      destruct (get_addr_run st p (src_addr_mode f) a (src_addr pf)) as (a' & E & L & T);
        [apply Hf|done|done| |]. { by rewrite Z.add_0_r in H2. }
      rsimpl. erewrite bind_Ok by exact E. exists a'. split; [by destruct pf|done].
Qed.

(** The one form of the frame control field with a PAN ID of an address it does
    not have: both addresses are absent and the 2012 compression bit is set. *)
Definition bare_dest_pid (f : frame802154_fcf_t) : bool :=
  (frame_version f =? FRAME802154_IEEE802154E_2012) && (dest_addr_mode f =? 0)
  && (src_addr_mode f =? 0) && (panid_compression f =? 1).

Lemma has_dest_bare f :
  fcf_wf f -> dest_addr_mode f = 0 -> snd (frame802154_has_panid f) = bare_dest_pid f.
Proof.
  intros [] E. unfold frame802154_has_panid, bare_dest_pid. rewrite E.
  clear fwf_security0 fwf_pending0 fwf_ack0 fwf_suppression0 fwf_ie0.
  destruct f. cbn in *. split_range; reflexivity.
Qed.
Lemma has_src_none f :
  fcf_wf f -> src_addr_mode f = 0 -> fst (frame802154_has_panid f) = false.
Proof.
  intros [] E. unfold frame802154_has_panid. rewrite E.
  clear fwf_security0 fwf_pending0 fwf_ack0 fwf_suppression0 fwf_ie0.
  destruct f. cbn in *. split_range; reflexivity.
Qed.

Lemma bytes_at_splice st i bs :
  (i + length bs <= length (packetbuf st))%nat ->
  bytes_at (st <| packetbuf ::= splice i bs |>) (Z.of_nat i) bs.
Proof.
  intros H. split; [lia|]. intros k b Hk. unfold update. simpl. unfold splice.
  rewrite lookup_app_r by (rewrite length_take; lia).
  rewrite lookup_app_l by (apply lookup_lt_Some in Hk; rewrite length_take; lia).
  rewrite <- Hk. f_equal. rewrite length_take. lia.
Qed.

(** What a parsed frame [g] has of the frame [p] that was created. *)
Record carries (p g : frame802154_t) : Prop := {
  ca_fcf : fcf g = fcf (compressed p);
  ca_seq : sequence_number_suppression (fcf p) = 0 -> frame_seq g = frame_seq p;
  ca_dest_addr : take (Z.to_nat (addr_len (dest_addr_mode (fcf p)))) (dest_addr g) =
                 take (Z.to_nat (addr_len (dest_addr_mode (fcf p)))) (dest_addr p);
  ca_src_addr : take (Z.to_nat (addr_len (src_addr_mode (fcf p)))) (src_addr g) =
                take (Z.to_nat (addr_len (src_addr_mode (fcf p)))) (src_addr p);
  ca_dest_pid : snd (frame802154_has_panid (fcf g)) = true -> dest_pid g = dest_pid p;
  ca_src_pid : fst (frame802154_has_panid (fcf g)) = true -> src_pid g = src_pid p;
  ca_same_pid : frame_version (fcf p) < FRAME802154_IEEE802154E_2012 ->
                frame_type (fcf p) <> FRAME802154_ACKFRAME ->
                src_addr_mode (fcf p) <> 0 -> src_pid g = src_pid p;
}.

(** Before 2012, a source PAN ID is left out only next to an equal destination PAN ID. *)
Lemma compression_same_pid p :
  fcf_wf (fcf p) ->
  frame_version (fcf p) < FRAME802154_IEEE802154E_2012 ->
  frame_type (fcf p) <> FRAME802154_ACKFRAME -> src_addr_mode (fcf p) <> 0 ->
  frame802154_has_panid (fcf (compressed p)) = (false, true) /\ src_pid p = dest_pid p \/
  fst (frame802154_has_panid (fcf (compressed p))) = true.
Proof.
  intros Hf Hv Ht Hs. unfold compressed. rewrite (proj2 (Z.ltb_lt _ _) Hv).
  unfold FRAME802154_IEEE802154E_2012, FRAME802154_ACKFRAME in *.
  destruct (c_true (Z.land (dest_addr_mode (fcf p)) 3) && c_true (Z.land (src_addr_mode (fcf p)) 3)
    && (src_pid p =? dest_pid p)) eqn:E; unfold frame802154_has_panid; rsimpl;
    rewrite (proj2 (Z.eqb_neq (frame_version (fcf p)) FRAME802154_IEEE802154E_2012)),
      (proj2 (Z.eqb_neq (frame_type (fcf p)) FRAME802154_ACKFRAME))
      by (unfold FRAME802154_IEEE802154E_2012, FRAME802154_ACKFRAME; lia); cbn.
  - apply andb_true_iff in E as [[E1 _]%andb_true_iff E2%Z.eqb_eq]. left. by rewrite E1, E2.
  - right. assert (Z.land (src_addr_mode (fcf p)) 3 = src_addr_mode (fcf p)) as ->.
    { change 3 with (Z.ones 2). rewrite Z.land_ones by done. apply Z.mod_small, Hf. }
    unfold c_true. by rewrite (proj2 (Z.eqb_neq _ _)).
Qed.

Lemma parse_header st p g buf n :
  frame_wf p -> bare_dest_pid (fcf (compressed p)) = false -> frame_arrays g -> 0 <= n ->
  bytes_at st buf (header_bytes (compressed p)) ->
  let h := Z.of_nat (length (header_bytes (compressed p))) in
  exists g', frame802154_parse buf (h + n) g st = Ok ((h, g'), st) /\
    frame_arrays g' /\ carries p g' /\ payload g' = buf + h /\ payload_len g' = n.
Proof.
  intros Hp Hbare [Ga Gs] Hn Hb h.
  pose proof (header_bytes_length p (frwf_arrays _ Hp)) as [Hh Hr]. fold h in Hh.
  pose proof (compressed_wf p Hp) as Hq.
  pose proof (compressed_fields p) as (Eda & Esa & Esq & Edp & Esp & c & Ef).
  unfold frame802154_parse. rewrite (proj2 (Z.ltb_ge _ _)) by lia.
  set (q := compressed p) in *. set (f := fcf q) in *. destruct Hq as [Hf [Hqd Hqs] Hdp Hsp].
  assert (El : h = Z.of_nat (length (header_bytes q))) by done. clearbody h.
  unfold header_bytes in Hb, El. fold f in Hb, El.
  assert (Esn : Z.land (sequence_number_suppression f) 1 = sequence_number_suppression f).
  { change 1 with (Z.ones 1). rewrite Z.land_ones by done. apply Z.mod_small, Hf. }
  pose proof (has_dest_bare f Hf) as Hd0. pose proof (has_src_none f Hf) as Hs0.
  pose proof (parse_dest_run st f) as Pd. pose proof (parse_src_run st f) as Ps.
  destruct (frame802154_has_panid f) as [hs hd] eqn:Ehp. cbn [fst snd] in *.
  rewrite Esn in Hb, El.
  set (sb := if sequence_number_suppression f =? 0 then [frame_seq q] else []) in *.
  change (bytes_at st buf (fcf_byte0 f :: fcf_byte1 f :: sb ++
    (if hd then pid_bytes (dest_pid q) else []) ++ addr_bytes (dest_addr_mode f) (dest_addr q) ++
    (if hs then pid_bytes (src_pid q) else []) ++ addr_bytes (src_addr_mode f) (src_addr q))) in Hb.
  erewrite bind_Ok by (by eapply parse_fcf_run). cbv zeta.
  apply (bytes_at_app _ _ [_; _]) in Hb as [_ Hb]. cbn [length] in Hb.
  apply bytes_at_app in Hb as [Hsb Hb]. rewrite app_assoc in Hb.
  assert (Hseq : exists g1, (if sequence_number_suppression f =? 0
      then b ← pb_read (buf + 2); mret (buf + 2 + 1, (g <| fcf := f |>) <| frame_seq := b |>)
      else mret (buf + 2, g <| fcf := f |>)) st = Ok ((buf + 2 + Z.of_nat (length sb), g1), st) /\
      fcf g1 = f /\ dest_addr g1 = dest_addr g /\ src_addr g1 = src_addr g /\
      (sequence_number_suppression f = 0 -> frame_seq g1 = frame_seq q)).
  { unfold sb in Hsb |- *. destruct (Z.eqb_spec (sequence_number_suppression f) 0).
    - erewrite bind_Ok by (by eapply pb_read_at0). by eexists.
    - eexists. by rewrite Z.add_0_r. }
  destruct Hseq as (g1 & E1 & Eg1 & Eg2 & Eg3 & Eg4). erewrite bind_Ok by exact E1. cbv beta iota.
  destruct (Pd (buf + 2 + Z.of_nat (length sb)) g1 (dest_pid q) (dest_addr q)
    ((if hs then pid_bytes (src_pid q) else []) ++ addr_bytes (src_addr_mode f) (src_addr q)))
    as (a & E2 & La & Ta); [done..|by rewrite Eg2|by intros E; rewrite Hd0 by done|exact Hb|].
  erewrite bind_Ok by exact E2. cbv beta iota.
  apply bytes_at_app in Hb as [_ Hb].
  match type of Hb with bytes_at _ ?x ?l => rewrite <- (app_nil_r l) in Hb;
    destruct (Ps x (g1 <| dest_addr := a |> <| dest_pid := if hd then dest_pid q else 0 |>)
      (src_pid q) (src_addr q) []) as (b & E3 & Lb & Tb); [done|done|done| |done|done|] end.
  { rsimpl. by rewrite Eg3. }
  erewrite bind_Ok by exact E3. cbv beta iota.
  assert (Hend : forall x y, buf + 2 + Z.of_nat (length sb) + Z.of_nat x + Z.of_nat y - buf =
                        Z.of_nat (2 + (length sb + (x + y)))) by lia.
  rewrite Hend. rewrite !length_app in El. rewrite !length_app.
  replace (Z.of_nat (2 + _)) with h by (rewrite El; cbn [length]; lia).
  rewrite (proj2 (Z.ltb_ge _ _)) by lia. eexists. split; [reflexivity|].
  rewrite Ef in Ta, Tb, Eg1, Eg4. rsimpl. rewrite Eda in Ta. rewrite Esa in Tb.
  split; [split; rsimpl; done|]. split; [|split; rsimpl; [rewrite El; cbn [length]; lia|lia]].
  split; rsimpl; rewrite ?Eg1, ?Ef; try done.
  - intros H0. by rewrite Eg4.
  - rewrite <- Ef, Ehp. cbn. intros ->. rewrite andb_false_r. by rewrite Edp.
  - rewrite <- Ef, Ehp. cbn. intros ->. destruct (Z.eqb_spec (src_addr_mode f) 0) as [e|]; [|by rewrite Esp].
    by specialize (Hs0 e).
  - intros Hv Ht Hs. rewrite (proj2 (Z.eqb_neq _ _)) by done.
    destruct (compression_same_pid p (frwf_fcf _ Hp) Hv Ht Hs) as [[E Es]|E];
      change (fcf (compressed p)) with f in E; rewrite Ehp in E; cbn in E.
    + injection E as -> ->. congruence.
    + by rewrite E, Esp.
Qed.

(** C32. Round trip of frame802154.c: [frame802154_create] writes at the place it is
    given as many bytes as [frame802154_hdrlen] says, between 2 and 23, and no
    other byte; whatever follows, [frame802154_parse] on the frame returns that
    length and recovers the frame control field (with the compression bit that
    was sent), the sequence number unless suppressed, both addresses in their
    modes, the PAN IDs the header has and the source PAN ID a compressed header
    leaves out; the rest is the payload.  The one exception is the bare PAN ID of
    the 2012 version, see [bare_dest_pid]. *)
Theorem frame802154_roundtrip p g buf n st :
  frame_wf p -> bare_dest_pid (fcf (compressed p)) = false -> frame_arrays g -> 0 <= n ->
  (buf + 23 <= length (packetbuf st))%nat ->
  let h := fst (frame802154_hdrlen p) in
  exists st1 g', frame802154_create p (Z.of_nat buf) st = Ok ((h, compressed p), st1) /\
    2 <= h <= 23 /\
    (forall i, ~ (buf <= i < buf + Z.to_nat h)%nat -> packetbuf st1 !! i = packetbuf st !! i) /\
    frame802154_parse (Z.of_nat buf) (h + n) g st1 = Ok ((h, g'), st1) /\
    carries p g' /\ payload g' = Z.of_nat buf + h /\ payload_len g' = n.
Proof.
  intros Hp Hbare Hg Hn Hl h. pose proof (header_bytes_length p (frwf_arrays _ Hp)) as [Hh Hr].
  fold h in Hh, Hr. rewrite <- Hh.
  set (bs := header_bytes (compressed p)) in *.
  destruct (parse_header (st <| packetbuf ::= splice buf bs |>) p g (Z.of_nat buf) n)
    as (g' & E & _ & Hc & Hpl); [done..| |].
  { apply bytes_at_splice. fold bs. lia. }
  exists (st <| packetbuf ::= splice buf bs |>), g'. split; [|split; [lia|split; [|done]]].
  - apply create_run; [apply Hp|]. fold bs. lia.
  - intros i Hi. unfold update. cbn. unfold splice. destruct (decide (i < buf)%nat).
    + by rewrite lookup_app_l, lookup_take_lt by (rewrite ?length_take; lia).
    + rewrite !lookup_app_r, lookup_drop by (rewrite ?length_take; lia). f_equal.
      rewrite length_take. lia.
Qed.

Definition frame_example : frame802154_t :=
  mk_frame [0x12; 0x34; 0; 0; 0; 0; 0; 0] [1; 2; 3; 4; 5; 6; 7; 8]
    (mk_fcf 1 0 0 1 0 0 0 2 1 3) 77 0xABCD 0xABCD 0 0.

Lemma frame802154_roundtrip_witness :
  let h := fst (frame802154_hdrlen frame_example) in
  exists st1 g', frame802154_create frame_example 0 pb_example = Ok ((h, compressed frame_example), st1) /\
    2 <= h <= 23 /\
    (forall i, ~ (0 <= i < 0 + Z.to_nat h)%nat -> packetbuf st1 !! i = packetbuf pb_example !! i) /\
    frame802154_parse 0 (h + 20) frame_zero st1 = Ok ((h, g'), st1) /\
    carries frame_example g' /\ payload g' = 0 + h /\ payload_len g' = 20.
Proof.
  apply (frame802154_roundtrip frame_example frame_zero 0 20 pb_example);
    [|reflexivity|split; reflexivity|lia|cbn; lia].
  split; [split|split| |]; cbn; unfold in_u; lia.
Defined.

(** What the exception does: the parser stops before the PAN ID. *)
Lemma bare_dest_pid_lost :
  let p := frame_example <| fcf := mk_fcf 1 0 0 0 1 0 0 0 2 0 |> in
  exists st1 g', frame802154_create p 0 pb_example = Ok ((5, p), st1) /\
    frame802154_parse 0 25 frame_zero st1 = Ok ((3, g'), st1) /\ payload g' = 3 /\ payload_len g' = 22.
Proof. eexists _, _. split; [vm_compute; reflexivity|]. by split; [vm_compute; reflexivity|]. Qed.

(** ** Any frame *)

Lemma pb_read_in st i :
  0 <= i < Z.of_nat (length (packetbuf st)) -> exists b, pb_read i st = Ok (b, st).
Proof.
  intros H. destruct (lookup_lt_is_Some_2 (packetbuf st) (Z.to_nat i)) as [b Hb]; [lia|].
  exists b. rewrite <- (Z2Nat.id i) by lia. by apply pb_read_ok.
Qed.

(** [m] reads below [hi] and returns. *)
Ltac reads :=
  repeat match goal with
    | |- context [(pb_read ?i ≫= _) ?st] =>
        let b := fresh "b" in let E := fresh "E" in
        destruct (pb_read_in st i) as [b E]; [lia|]; rewrite (bind_Ok _ _ _ _ _ E); clear E
    end.

Lemma get_pid_any st p :
  0 <= p -> p + 2 <= Z.of_nat (length (packetbuf st)) -> exists pid, get_pid p st = Ok (pid, st).
Proof. intros. unfold get_pid. reads. by eexists. Qed.
Lemma get_addr_any st mode p a :
  0 <= p -> p + 8 <= Z.of_nat (length (packetbuf st)) ->
  exists a' p', get_addr mode p a st = Ok ((a', p'), st) /\ p <= p' <= p + 8.
Proof.
  intros. unfold get_addr. case_match; [|case_match]; reads; eexists _, _; (split; [reflexivity|lia]).
Qed.
Lemma parse_dest_any st f p pf :
  0 <= p -> p + 10 <= Z.of_nat (length (packetbuf st)) ->
  exists p' pf', parse_dest f p pf st = Ok ((p', pf'), st) /\ p <= p' <= p + 10 /\
    fcf pf' = fcf pf.
Proof.
  intros H1 H2. unfold parse_dest. destruct (frame802154_has_panid f) as [hs hd].
  destruct (c_true _); [|eexists _, _; split; [reflexivity|by split; [lia|]]].
  destruct hd.
  - destruct (get_pid_any st p) as [pid E]; [lia..|].
    erewrite bind_Ok by (erewrite bind_Ok by exact E; reflexivity). cbv beta iota. rsimpl.
    destruct (get_addr_any st (dest_addr_mode f) (p + 2) (dest_addr pf)) as (a & p' & E' & Hp); [lia..|].
    erewrite bind_Ok by exact E'. eexists _, _. split; [reflexivity|]. by split; [lia|].
  - erewrite bind_Ok by reflexivity. cbv beta iota. rsimpl.
    destruct (get_addr_any st (dest_addr_mode f) p (dest_addr pf)) as (a & p' & E' & Hp); [lia..|].
    erewrite bind_Ok by exact E'. eexists _, _. split; [reflexivity|]. by split; [lia|].
Qed.
Lemma parse_src_any st f p pf :
  0 <= p -> p + 10 <= Z.of_nat (length (packetbuf st)) ->
  exists p' pf', parse_src f p pf st = Ok ((p', pf'), st) /\ p <= p' <= p + 10 /\
    fcf pf' = fcf pf.
Proof.
  intros H1 H2. unfold parse_src. destruct (frame802154_has_panid f) as [hs hd].
  destruct (c_true _); [|eexists _, _; split; [reflexivity|by split; [lia|]]].
  destruct hs.
  - destruct (get_pid_any st p) as [pid E]; [lia..|].
    erewrite bind_Ok by (erewrite bind_Ok by exact E; reflexivity). cbv beta iota.
    match goal with |- context [get_addr ?m ?q ?a] =>
      destruct (get_addr_any st m q a) as (a' & p' & E' & Hp); [lia..|] end.
    erewrite bind_Ok by exact E'. eexists _, _. split; [reflexivity|]. split; [lia|by destruct hd].
  - erewrite bind_Ok by reflexivity. cbv beta iota. rsimpl.
    destruct (get_addr_any st (src_addr_mode f) p (src_addr pf)) as (a & p' & E' & Hp); [lia..|].
    erewrite bind_Ok by exact E'. eexists _, _. split; [reflexivity|]. by split; [lia|].
Qed.

Lemma parse_any st data len pf :
  0 <= data -> data + 23 <= Z.of_nat (length (packetbuf st)) ->
  exists r pf', frame802154_parse data len pf st = Ok ((r, pf'), st) /\
    (r = 0 \/ 2 <= r <= 23 /\ r <= len).
Proof.
  intros H1 H2. unfold frame802154_parse. destruct (Z.ltb_spec len 2).
  { eexists _, _. split; [reflexivity|by left]. }
  unfold frame802154_parse_fcf.
  destruct (pb_read_in st data) as [b0 E0]; [lia|]. destruct (pb_read_in st (data + 1)) as [b1 E1]; [lia|].
  erewrite bind_Ok by (erewrite bind_Ok by exact E0; erewrite bind_Ok by exact E1; reflexivity).
  cbv zeta. set (f := mk_fcf _ _ _ _ _ _ _ _ _ _).
  assert (Hs : exists p1 g1, (if sequence_number_suppression f =? 0
      then b ← pb_read (data + 2); mret (data + 2 + 1, (pf <| fcf := f |>) <| frame_seq := b |>)
      else mret (data + 2, pf <| fcf := f |>)) st = Ok ((p1, g1), st) /\ data + 2 <= p1 <= data + 3).
  { destruct (_ =? 0); [reads|]; eexists _, _; (split; [reflexivity|lia]). }
  destruct Hs as (p1 & g1 & E & Hp1). erewrite bind_Ok by exact E. cbv beta iota.
  destruct (parse_dest_any st f p1 g1) as (p2 & g2 & E2 & Hp2 & _); [lia..|].
  erewrite bind_Ok by exact E2. cbv beta iota.
  destruct (parse_src_any st f p2 g2) as (p3 & g3 & E3 & Hp3 & _); [lia..|].
  erewrite bind_Ok by exact E3. cbv beta iota.
  eexists _, _. split; [reflexivity|]. destruct (Z.ltb_spec len (p3 - data)); [by left|right; lia].
Qed.

(** ** The framer *)

Lemma fr_buf_Ok {A} (m : PB A) st a pb :
  m (fr_pb st) = Ok (a, pb) -> fr_buf m st = Ok (a, st <| fr_pb := pb |>).
Proof. intros E. unfold fr_buf, zoom. by rewrite E. Qed.
Lemma fr_same st : st <| fr_pb := fr_pb st |> = st.
Proof. by destruct st. Qed.
(** Reads of the packet buffer, in one step each. *)
Lemma fr_buf_get {A} (f : packetbuf_st -> A) st : fr_buf (gets f) st = Ok (f (fr_pb st), st).
Proof. destruct st. reflexivity. Qed.

(** Attribute writes leave the packet alone. *)
Definition attrs_only (st st' : framer_st) : Prop :=
  mac_pan_id st' = mac_pan_id st /\ mac_dsn st' = mac_dsn st /\ initialized st' = initialized st /\
  fr_rnd st' = fr_rnd st /\ pb_view (fr_pb st') = pb_view (fr_pb st) /\
  packetbuf (fr_pb st') = packetbuf (fr_pb st) /\
  (pb_wf (fr_pb st) -> pb_wf (fr_pb st')).
#[export] Instance attrs_only_preorder : PreOrder attrs_only.
Proof.
  unfold attrs_only. split; [by intros x|].
  intros x y z (?&?&?&?&?&?&?) (?&?&?&?&?&?&?). split_and!; [congruence..|auto].
Qed.
Lemma attrs_only_set_attr k v : post attrs_only (fr_buf (packetbuf_set_attr k v)).
Proof.
  intros st [] st' [= <-]. unfold attrs_only, update. cbn. split_and!; try done.
  by intros [].
Qed.
Lemma attrs_only_set_addr k v : post attrs_only (fr_buf (packetbuf_set_addr k v)).
Proof.
  intros st [] st' [= <-]. unfold attrs_only, update. cbn. split_and!; try done.
  by intros [].
Qed.
#[local] Hint Resolve attrs_only_set_attr attrs_only_set_addr : post.

Lemma set_attr_runs k v st : exists st', fr_buf (packetbuf_set_attr k v) st = Ok (tt, st').
Proof. by eexists. Qed.
Lemma set_addr_runs k v st : exists st', fr_buf (packetbuf_set_addr k v) st = Ok (tt, st').
Proof. by eexists. Qed.

(** The part of [framer_parse] after the header was taken off. *)
Definition accept (frame : frame802154_t) (hdr_len : Z) : FR Z :=
  fr_buf (packetbuf_set_attr PACKETBUF_ATTR_FRAME_TYPE (frame_type (fcf frame))) ;;
  pid ← frame802154_get_pan_id;
  let has_dest := c_true (dest_addr_mode (fcf frame)) in
  if has_dest && negb (dest_pid frame =? pid)
     && negb (dest_pid frame =? FRAME802154_BROADCASTPANDID)
  then mret FRAMER_FAILED
  else
    when (has_dest &&
          negb (c_true (frame802154_is_broadcast_addr (dest_addr_mode (fcf frame)) (dest_addr frame))))
      (fr_buf (packetbuf_set_addr PACKETBUF_ADDR_RECEIVER (linkaddr_of (dest_addr frame)))) ;;
    fr_buf (packetbuf_set_addr PACKETBUF_ADDR_SENDER (linkaddr_of (src_addr frame))) ;;
    fr_buf (packetbuf_set_attr PACKETBUF_ATTR_PENDING (frame_pending (fcf frame))) ;;
    fr_buf (packetbuf_set_attr PACKETBUF_ATTR_MAC_SEQNO
              (if sequence_number_suppression (fcf frame) =? 0 then frame_seq frame else 0xffff)) ;;
    fr_buf (packetbuf_set_attr PACKETBUF_ATTR_PACKET_ID (frame_seq frame)) ;;
    mret hdr_len.

Lemma accept_attrs frame n : post attrs_only (accept frame n).
Proof. unfold accept, frame802154_get_pan_id. cbv zeta. post_auto. Qed.
Lemma accept_runs frame n st :
  exists r st', accept frame n st = Ok (r, st') /\ (r = FRAMER_FAILED \/ r = n).
Proof.
  unfold accept. destruct (set_attr_runs PACKETBUF_ATTR_FRAME_TYPE (frame_type (fcf frame)) st) as [s1 E1].
  erewrite bind_Ok by exact E1. unfold frame802154_get_pan_id. rewrite bind_gets. cbv zeta beta.
  case_match; [eexists _, _; by split; [|left]|]. unfold when.
  match goal with |- context [if ?b then fr_buf _ else skip] => destruct b end;
    eexists _, _; (split; [reflexivity|by right]).
Qed.

(** The attributes of the packet buffer stay an array of the same length. *)
Definition attrs_len (st st' : framer_st) : Prop :=
  length (packetbuf_attrs (fr_pb st')) = length (packetbuf_attrs (fr_pb st)).
#[export] Instance attrs_len_preorder : PreOrder attrs_len.
Proof. unfold attrs_len. split; [by intros x|]. intros x y z. congruence. Qed.
Lemma attrs_len_set_attr k v : post attrs_len (fr_buf (packetbuf_set_attr k v)).
Proof. intros st [] st' [= <-]. unfold attrs_len, update. cbn. apply length_insert. Qed.
Lemma attrs_len_set_addr k v : post attrs_len (fr_buf (packetbuf_set_addr k v)).
Proof. by intros st [] st' [= <-]. Qed.
#[local] Hint Resolve attrs_len_set_attr attrs_len_set_addr : post.
Lemma accept_attrs_len frame n : post attrs_len (accept frame n).
Proof. unfold accept, frame802154_get_pan_id. cbv zeta. post_auto. Qed.

Lemma framer_parse_runs g st :
  pb_wf (fr_pb st) -> bufptr (fr_pb st) + hdrlen (fr_pb st) + 23 <= PACKETBUF_SIZE ->
  exists r st', framer_parse g st = Ok (r, st') /\ pb_wf (fr_pb st') /\
    mac_pan_id st' = mac_pan_id st /\ mac_dsn st' = mac_dsn st /\ attrs_len st st' /\
    (exists h, (h = 0 \/ 2 <= h <= 23) /\ h <= buflen (fr_pb st) /\
       pb_view (fr_pb st') =
         (pb_header (fr_pb st), bufptr (fr_pb st) + h, drop (Z.to_nat h) (pb_payload (fr_pb st))) /\
       (r = FRAMER_FAILED \/ r = h /\ 2 <= r)).
Proof.
  intros Hw Hroom. unfold framer_parse, packetbuf_dataptr, packetbuf_hdrlen, packetbuf_datalen.
  erewrite bind_Ok by apply fr_buf_get. erewrite bind_Ok by apply fr_buf_get.
  rewrite hdrlen_u8 by done. assert (Hw' := Hw). destruct Hw'. unfold PACKETBUF_SIZE in *.
  destruct (parse_any (fr_pb st) (bufptr (fr_pb st) + hdrlen (fr_pb st)) (buflen (fr_pb st)) g)
    as (h & g' & E & Hh); [lia..|].
  erewrite bind_Ok by (apply fr_buf_Ok, E). cbv beta iota. rewrite fr_same.
  destruct (decide (h = 0)) as [->|E0].
  { erewrite bind_Ok by reflexivity. eexists _, st. split; [reflexivity|]. do 4 (split; [done|]).
    exists 0. split_and!; [by left|lia| |by left]. unfold pb_view. by rewrite Z.add_0_r, drop_0. }
  destruct (hdrreduce_eq h (fr_pb st) Hw) as (pb & Er & Hwp & Hv); [lia|].
  assert (c_true h = true) as -> by (unfold c_true; by rewrite (proj2 (Z.eqb_neq _ _))).
  erewrite bind_Ok by (apply fr_buf_Ok, Er). cbn [c_true negb Z.eqb].
  destruct (accept_runs g' h (st <| fr_pb := pb |>)) as (r & st' & Ea & Hr).
  destruct (accept_attrs g' h _ _ _ Ea) as (P1 & P2 & _ & _ & P5 & _ & P7).
  exists r, st'. split; [exact Ea|]. split; [by apply P7|]. split; [done|]. split; [done|].
  split.
  { etransitivity; [|exact (accept_attrs_len g' h _ _ _ Ea)]. unfold attrs_len. rsimpl.
    rewrite hdrreduce_run in Er by (done || lia). by injection Er as <-. }
  exists h. split_and!; [lia|lia|by rewrite P5|]. destruct Hr as [-> | ->]; [by left|right; lia].
Qed.

(** C31. Receiving is safe: on any frame of any bytes and length, [framer_parse]
    returns without leaving the packet buffer.  It rejects the frame, or takes a
    header of 2 to 23 bytes off the packet and leaves the rest as it was; the
    static variables of the framer are not touched. *)
Theorem framer_parse_any_frame g st :
  pb_wf (fr_pb st) -> bufptr (fr_pb st) + hdrlen (fr_pb st) + 23 <= PACKETBUF_SIZE ->
  exists r st', framer_parse g st = Ok (r, st') /\ pb_wf (fr_pb st') /\
    mac_pan_id st' = mac_pan_id st /\ mac_dsn st' = mac_dsn st /\
    (exists h, (h = 0 \/ 2 <= h <= 23) /\ h <= buflen (fr_pb st) /\
       pb_view (fr_pb st') =
         (pb_header (fr_pb st), bufptr (fr_pb st) + h, drop (Z.to_nat h) (pb_payload (fr_pb st))) /\
       (r = FRAMER_FAILED \/ r = h /\ 2 <= r)).
Proof.
  intros Hw Hroom. destruct (framer_parse_runs g st Hw Hroom) as (r & st' & E & H1 & H2 & H3 & _ & H4).
  by exists r, st'.
Qed.

Definition framer_example : framer_st :=
  mk_framer (pb_example <| hdrlen := 0 |> <| bufptr := 0 |>) IEEE802154_PANID 9 1 (fun _ => 5).

Lemma framer_parse_any_frame_witness :
  exists r st', framer_parse frame_zero framer_example = Ok (r, st') /\ pb_wf (fr_pb st') /\
    mac_pan_id st' = mac_pan_id framer_example /\ mac_dsn st' = mac_dsn framer_example /\
    (exists h, (h = 0 \/ 2 <= h <= 23) /\ h <= buflen (fr_pb framer_example) /\
       pb_view (fr_pb st') =
         (pb_header (fr_pb framer_example), bufptr (fr_pb framer_example) + h,
          drop (Z.to_nat h) (pb_payload (fr_pb framer_example))) /\
       (r = FRAMER_FAILED \/ r = h /\ 2 <= r)).
Proof.
  apply (framer_parse_any_frame frame_zero framer_example); [|vm_compute; discriminate].
  split; vm_compute; try reflexivity; discriminate.
Defined.

(** ** Creating a frame for the packet in the buffer *)

(** The frame [create_frame] builds for the packet [pb] with sequence number [s]. *)
Definition params_for (pb : packetbuf_st) (pid s : Z) : frame802154_t :=
  let attr k := packetbuf_attrs pb !!! k in
  let sender := packetbuf_addrs pb !!! 0%nat in
  let receiver := packetbuf_addrs pb !!! 1%nat in
  let bc := receiver =? 0 in
  mk_frame
    (if bc then 0xFF :: 0xFF :: drop 2 (replicate 8 0) else copy_linkaddr receiver (replicate 8 0))
    (copy_linkaddr sender (replicate 8 0))
    (mk_fcf (u8 (attr PACKETBUF_ATTR_FRAME_TYPE)) 0 (u8 (attr PACKETBUF_ATTR_PENDING))
       (if bc then 0 else u8 (attr PACKETBUF_ATTR_MAC_ACK)) 0 0 0 2 1 2)
    s pid pid (bufptr pb +8 hdrlen pb) (buflen pb).

(** The sequence number on the air for a packet with attribute [a]. *)
Definition seqno_ok (a s : Z) : Prop :=
  if a =? 0 then 1 <= s < 256 else s = u8 a.

Lemma frame_seqno_run st :
  exists s st', frame_seqno st = Ok (s, st') /\ mac_pan_id st' = mac_pan_id st /\
    (exists l, fr_pb st' = (fr_pb st) <| packetbuf_attrs := l |> /\
       (forall k, k <> PACKETBUF_ATTR_MAC_SEQNO -> l !!! k = packetbuf_attrs (fr_pb st) !!! k)) /\
    (packetbuf_attrs (fr_pb st) !!! PACKETBUF_ATTR_MAC_SEQNO <> 0 -> st' = st) /\
    (in_u 8 (mac_dsn st) -> seqno_ok (packetbuf_attrs (fr_pb st) !!! PACKETBUF_ATTR_MAC_SEQNO) s).
Proof.
  unfold frame_seqno. erewrite bind_Ok by apply fr_buf_get. unfold c_true, seqno_ok.
  destruct (Z.eqb_spec (packetbuf_attrs (fr_pb st) !!! PACKETBUF_ATTR_MAC_SEQNO) 0); cbn [negb].
  - rewrite bind_gets. unfold when.
    assert (Hset : forall (v : Z) k, k <> PACKETBUF_ATTR_MAC_SEQNO ->
      <[PACKETBUF_ATTR_MAC_SEQNO := v]> (packetbuf_attrs (fr_pb st)) !!! k = packetbuf_attrs (fr_pb st) !!! k).
    { intros v k Hk. by rewrite list_lookup_total_insert_ne. }
    destruct (Z.eqb_spec (mac_dsn st) 0) as [E|E].
    + eexists _, _. split; [reflexivity|]. split; [done|]. split.
      * eexists. split; [reflexivity|]. by apply Hset.
      * split; [done|]. intros _. unfold update. cbn. rewrite E. vm_compute. split; congruence.
    + eexists _, _. split; [reflexivity|]. split; [done|]. split.
      * eexists. split; [reflexivity|]. by apply Hset.
      * split; [done|]. intros Hd. unfold in_u in Hd. unfold update. cbn. lia.
  - eexists _, st. split; [reflexivity|]. split; [done|]. split; [|done].
    exists (packetbuf_attrs (fr_pb st)). split; [by destruct st as [[]]|done].
Qed.

Lemma frame_params_run b st :
  exists s st', frame_params b st = Ok (params_for (fr_pb st) (mac_pan_id st) s, st') /\
    mac_pan_id st' = mac_pan_id st /\
    (exists l, fr_pb st' = (fr_pb st) <| packetbuf_attrs := l |>) /\
    (b = false \/ packetbuf_attrs (fr_pb st) !!! PACKETBUF_ATTR_MAC_SEQNO <> 0 ->
       fr_pb st' = fr_pb st) /\
    (b = true -> in_u 8 (mac_dsn st) ->
       seqno_ok (packetbuf_attrs (fr_pb st) !!! PACKETBUF_ATTR_MAC_SEQNO) s).
Proof.
  unfold frame_params. rewrite bind_gets.
  set (st0 := if negb (c_true (initialized st))
              then (st <| initialized := 1 |> <| fr_rnd ::= fun r n => r (S n) |>)
                     <| mac_dsn := Z.land (u16 (fr_rnd st 0)) 0xff |> else st).
  assert (E0 : when (negb (c_true (initialized st)))
    ((initialized <~ 1) ;; r ← fr_random_rand; mac_dsn <~ Z.land r 0xff) st = Ok (tt, st0)).
  { unfold when, st0. by destruct (negb _). }
  erewrite bind_Ok by exact E0.
  assert (Hpb : fr_pb st0 = fr_pb st) by (unfold st0; by destruct (negb _)).
  assert (Hpan : mac_pan_id st0 = mac_pan_id st) by (unfold st0; by destruct (negb _)).
  assert (Hdsn : in_u 8 (mac_dsn st) -> in_u 8 (mac_dsn st0)).
  { unfold st0. destruct (negb _); [|done]. intros _. unfold update. cbn.
    change 0xff with (Z.ones 8). rewrite Z.land_ones by done. unfold in_u. apply Z.mod_pos_bound. done. }
  do 4 (erewrite bind_Ok by apply fr_buf_get). clearbody st0.
  assert (Hs : exists s st', (if b then frame_seqno else mret 0) st0 = Ok (s, st') /\
    mac_pan_id st' = mac_pan_id st0 /\
    (exists l, fr_pb st' = (fr_pb st0) <| packetbuf_attrs := l |>) /\
    (b = false \/ packetbuf_attrs (fr_pb st0) !!! PACKETBUF_ATTR_MAC_SEQNO <> 0 ->
       fr_pb st' = fr_pb st0) /\
    (b = true -> in_u 8 (mac_dsn st0) ->
       seqno_ok (packetbuf_attrs (fr_pb st0) !!! PACKETBUF_ATTR_MAC_SEQNO) s)).
  { destruct b.
    - destruct (frame_seqno_run st0) as (s & st' & ? & ? & (l & ? & _) & Hsame & ?).
      exists s, st'. split_and!; [done..|by eexists| |by auto].
      intros [?|Hn]; [done|]. by rewrite (Hsame Hn).
    - eexists 0, st0. split; [done|]. split; [done|]. split; [|done].
      exists (packetbuf_attrs (fr_pb st0)). by destruct st0 as [[]]. }
  destruct Hs as (s & st' & E & Hp & (l & Hl) & Hf & Hsq).
  erewrite bind_Ok by exact E. unfold frame802154_get_pan_id. rewrite bind_gets.
  do 4 (erewrite bind_Ok by apply fr_buf_get).
  exists s, st'. rewrite Hl, Hp, Hpb, Hpan in *. split; [|by eauto 10].
  unfold mret, M_ret, params_for. rsimpl.
  change (PACKETBUF_ADDR_RECEIVER - PACKETBUF_ADDR_FIRST)%nat with 1%nat.
  change (PACKETBUF_ADDR_SENDER - PACKETBUF_ADDR_FIRST)%nat with 0%nat.
  by destruct (packetbuf_addrs (fr_pb st) !!! 1%nat =? 0).
Qed.

(** The attributes that go into the frame control field, within its widths. *)
Definition attrs_fit (pb : packetbuf_st) : Prop :=
  0 <= packetbuf_attrs pb !!! PACKETBUF_ATTR_FRAME_TYPE < 8 /\
  0 <= packetbuf_attrs pb !!! PACKETBUF_ATTR_PENDING < 2 /\
  0 <= packetbuf_attrs pb !!! PACKETBUF_ATTR_MAC_ACK < 2.

Lemma params_arrays pb pid s : frame_arrays (params_for pb pid s).
Proof. split; unfold params_for, copy_linkaddr, linkaddr_to; cbn; [by case_match|done]. Qed.
Lemma params_hdrlen pb pid s :
  fst (frame802154_hdrlen (params_for pb pid s)) =
    if u8 (packetbuf_attrs pb !!! PACKETBUF_ATTR_FRAME_TYPE) =? FRAME802154_ACKFRAME then 7 else 9.
Proof.
  unfold frame802154_hdrlen, field_len, params_for, frame802154_has_panid. cbn -[Z.eqb uwrap].
  rewrite Z.eqb_refl. cbn -[Z.eqb uwrap]. rsimpl. cbn -[Z.eqb uwrap].
  by destruct (_ =? FRAME802154_ACKFRAME).
Qed.
Lemma params_wf pb pid s : attrs_fit pb -> in_u 16 pid -> frame_wf (params_for pb pid s).
Proof.
  intros (H1 & H2 & H3) Hp. split; [|apply params_arrays|done..].
  unfold params_for. cbn. rewrite !uwrap_small by (unfold in_u; lia).
  split; cbn; try lia. case_match; lia.
Qed.

(** Writing the header into the room that was made for it. *)
Lemma splice_view pb bs room rest b pl :
  pb_wf pb -> pb_view pb = (room ++ rest, b, pl) -> length bs = length room ->
  let pb' := pb <| packetbuf ::= splice 0 bs |> in
  pb_wf pb' /\ pb_view pb' = (bs ++ rest, b, pl).
Proof.
  intros Hw Hv Hl pb'. pose proof (pb_header_length pb Hw) as Hh. destruct Hw.
  unfold pb_view in *. injection Hv as Eh Eb Ep. rewrite Eh, length_app in Hh.
  unfold PACKETBUF_SIZE in *. split.
  - split; unfold pb', update; cbn; unfold PACKETBUF_SIZE; try lia. rewrite length_splice by lia. done.
  - unfold pb', update. cbn. f_equal; [f_equal; [|done]|].
    + unfold pb_header in *. cbn. unfold splice. cbn [take app]. rewrite take_0. cbn [app].
      rewrite take_app, take_ge by lia. f_equal.
      rewrite <- (drop_app_length' room rest (length bs)), <- Eh by done.
      rewrite skipn_firstn_comm. done.
    + unfold pb_payload in *. cbn. unfold splice. rewrite take_0. cbn [app].
      rewrite drop_app_ge, drop_drop by lia. rewrite <- Ep. f_equal. f_equal. lia.
Qed.

Lemma compressed_arrays p : frame_arrays p -> frame_arrays (compressed p).
Proof.
  intros [H1 H2]. pose proof (compressed_fields p) as (E1 & E2 & _). split; congruence.
Qed.
Lemma compressed_idem p : compressed (compressed p) = compressed p.
Proof.
  destruct p as [da sa [a b c d e g h i v k] s dp sp pl n]. unfold compressed, update. cbn -[Z.ltb].
  destruct (v <? _) eqn:E1; cbn -[Z.ltb]; rewrite ?E1; [|done].
  destruct (c_true (Z.land i 3) && c_true (Z.land k 3) && (sp =? dp)) eqn:E2; cbn -[Z.ltb];
    by rewrite E1, E2.
Qed.

Lemma create_frame_run st h :
  pb_wf (fr_pb st) -> mac_pan_id st <> 0xffff ->
  h = (if u8 (packetbuf_attrs (fr_pb st) !!! PACKETBUF_ATTR_FRAME_TYPE) =? FRAME802154_ACKFRAME
       then 7 else 9) ->
  (exists st', framer_hdr_length st = Ok (h, st') /\ fr_pb st' = fr_pb st) /\
  exists s r st', framer_create st = Ok (r, st') /\ mac_pan_id st' = mac_pan_id st /\
    (in_u 8 (mac_dsn st) ->
     seqno_ok (packetbuf_attrs (fr_pb st) !!! PACKETBUF_ATTR_MAC_SEQNO) s) /\
    pb_wf (fr_pb st') /\ packetbuf_addrs (fr_pb st') = packetbuf_addrs (fr_pb st) /\
    (packetbuf_attrs (fr_pb st) !!! PACKETBUF_ATTR_MAC_SEQNO <> 0 ->
     packetbuf_attrs (fr_pb st') = packetbuf_attrs (fr_pb st)) /\
    let bs := header_bytes (compressed (params_for (fr_pb st) (mac_pan_id st) s)) in
    Z.of_nat (length bs) = h /\
    if decide (h + hdrlen (fr_pb st) + bufptr (fr_pb st) + buflen (fr_pb st) <= PACKETBUF_SIZE)
    then r = h /\
         pb_view (fr_pb st') = (bs ++ pb_header (fr_pb st), bufptr (fr_pb st), pb_payload (fr_pb st))
    else r = FRAMER_FAILED /\ pb_view (fr_pb st') = pb_view (fr_pb st).
Proof.
  intros Hw Hpan Hh. split.
  - unfold framer_hdr_length, create_frame, frame802154_get_pan_id. rewrite bind_gets.
    rewrite (proj2 (Z.eqb_neq _ _)) by done.
    destruct (frame_params_run false st) as (s & st' & E & _ & _ & Hf & _).
    erewrite bind_Ok by exact E.
    pose proof (params_hdrlen (fr_pb st) (mac_pan_id st) s) as Hl.
    destruct (frame802154_hdrlen _) as [h' p']. cbn in Hl. cbn. exists st'.
    rewrite Hl, <- Hh. split; [done|by apply Hf; left].
  - unfold framer_create, create_frame, frame802154_get_pan_id. rewrite bind_gets.
    rewrite (proj2 (Z.eqb_neq _ _)) by done.
    destruct (frame_params_run true st) as (s & st1 & E & Hp & (l & Hpb) & Hsame & Hs).
    erewrite bind_Ok by exact E. exists s.
    set (P := params_for (fr_pb st) (mac_pan_id st) s) in *.
    pose proof (params_hdrlen (fr_pb st) (mac_pan_id st) s) as Hl. fold P in Hl.
    pose proof (header_bytes_length P (params_arrays _ _ _)) as [Hb _].
    destruct (frame802154_hdrlen P) as [h' P'] eqn:EP. cbn [fst negb] in *.
    rewrite <- Hh in Hl. subst h'.
    assert (EP' : P' = compressed P).
    { unfold frame802154_hdrlen in EP. pose proof (field_len_eq P) as Ef. cbv zeta in Ef.
      destruct (frame802154_has_panid (fcf (compressed P))). rewrite Ef in EP. by injection EP. }
    subst P'. set (bs := header_bytes (compressed P)) in *.
    assert (Hw1 : pb_wf (fr_pb st1)) by (rewrite Hpb; destruct Hw; by split).
    assert (Hv1 : pb_view (fr_pb st1) = pb_view (fr_pb st)) by by rewrite Hpb.
    assert (Hn : hdrlen (fr_pb st1) = hdrlen (fr_pb st) /\ bufptr (fr_pb st1) = bufptr (fr_pb st) /\
      buflen (fr_pb st1) = buflen (fr_pb st)) by by rewrite Hpb.
    assert (Hh9 : 7 <= h <= 9) by (rewrite Hh; case_match; lia).
    case_decide as Hfit.
    + destruct (hdralloc_eq h (fr_pb st1) Hw1) as (pb2 & room & Ea & Hw2 & Hr & Hv2); [lia|lia|].
      erewrite bind_Ok by (apply fr_buf_Ok, Ea). cbn [c_true negb Z.eqb].
      erewrite bind_Ok by reflexivity.
      assert (Hlen : (0 + length bs <= length (packetbuf pb2))%nat).
      { rewrite (wf_size _ Hw2). unfold PACKETBUF_SIZE. lia. }
      pose proof (create_run (compressed P) 0 pb2) as Ec. rewrite compressed_idem in Ec. fold bs in Ec.
      specialize (Ec (compressed_arrays P (params_arrays _ _ _)) Hlen).
      erewrite bind_Ok by (apply fr_buf_Ok; rsimpl; exact Ec).
      eexists _, _. split; [reflexivity|]. unfold pb_view in Hv1. injection Hv1 as E1 E2 E3.
      rewrite E1, E2, E3 in Hv2.
      destruct (splice_view pb2 bs room (pb_header (fr_pb st)) (bufptr (fr_pb st)) (pb_payload (fr_pb st)))
        as [Hw3 Hv3]; [done|done|lia|].
      injection (hdralloc_attrs _ _ _ _ Ea) as A1 A2.
      split_and!; [done|by apply Hs|done| | |done|done|done]; unfold update; cbn; rewrite ?A1, ?A2.
      * by rewrite Hpb.
      * intros Hne. rewrite Hsame; [done|by right].
    + assert (Ea : packetbuf_hdralloc h (fr_pb st1) = Ok (0, fr_pb st1)).
      { unfold packetbuf_hdralloc. rewrite (bind_Ok _ _ _ _ _ (totlen_eq _ Hw1)).
        by rewrite (proj2 (Z.ltb_lt _ _)) by lia. }
      erewrite bind_Ok by (apply fr_buf_Ok, Ea). cbn [c_true negb Z.eqb].
      eexists _, _. split; [reflexivity|]. rewrite fr_same.
      split_and!; [done|by apply Hs|done|by rewrite Hpb| |done..].
      intros Hne. rewrite Hsame; [done|by right].
Qed.

(** The two uses of the framer agree: [framer_hdr_length] changes nothing in the
    packet and returns 9 (7 for an acknowledgement); [framer_create] in the same
    state prepends a header of exactly that length and returns it when it fits
    in front of the packet, and otherwise returns [FRAMER_FAILED] with the packet
    unchanged; without a PAN both return -1. *)
Theorem framer_hdr_length_agrees st :
  pb_wf (fr_pb st) ->
  exists h st1, framer_hdr_length st = Ok (h, st1) /\ fr_pb st1 = fr_pb st /\
    (h = -1 <-> mac_pan_id st = 0xffff) /\ (h = -1 \/ h = 7 \/ h = 9) /\
    exists r st2, framer_create st = Ok (r, st2) /\ pb_wf (fr_pb st2) /\
      (if decide (0 <= h /\ h + hdrlen (fr_pb st) + bufptr (fr_pb st) + buflen (fr_pb st) <= PACKETBUF_SIZE)
       then r = h /\ exists bs, Z.of_nat (length bs) = h /\
              pb_view (fr_pb st2) = (bs ++ pb_header (fr_pb st), bufptr (fr_pb st), pb_payload (fr_pb st))
       else r = FRAMER_FAILED /\ pb_view (fr_pb st2) = pb_view (fr_pb st)).
Proof.
  intros Hw. destruct (decide (mac_pan_id st = 0xffff)) as [Hp|Hp].
  - exists (-1), st. unfold framer_hdr_length, framer_create, create_frame, frame802154_get_pan_id.
    rewrite !bind_gets, Hp. do 2 (split; [done|]). split; [done|]. split; [by left|].
    exists (-1), st. by rewrite decide_False by lia.
  - destruct (create_frame_run st _ Hw Hp eq_refl) as [(st1 & E1 & P1) (s & r & st2 & E2 & _ & _ & Hw2 & _ & _ & Hl & Hr)].
    set (h := if _ =? FRAME802154_ACKFRAME then 7 else 9) in *.
    assert (Hh : h = 7 \/ h = 9) by (subst h; destruct (_ =? FRAME802154_ACKFRAME); lia).
    exists h, st1. do 2 (split; [done|]). split; [lia|]. split; [lia|].
    exists r, st2. do 2 (split; [done|]).
    destruct (decide (h + hdrlen (fr_pb st) + bufptr (fr_pb st) + buflen (fr_pb st) <= PACKETBUF_SIZE)) as [Hd|Hd].
    + rewrite decide_True by lia. destruct Hr as [-> Hv]. split; [done|]. by eexists.
    + by rewrite decide_False by lia.
Qed.

Lemma framer_hdr_length_agrees_witness :
  exists h st1, framer_hdr_length framer_example = Ok (h, st1) /\ fr_pb st1 = fr_pb framer_example /\
    (h = -1 <-> mac_pan_id framer_example = 0xffff) /\ (h = -1 \/ h = 7 \/ h = 9) /\
    exists r st2, framer_create framer_example = Ok (r, st2) /\ pb_wf (fr_pb st2) /\
      (if decide (0 <= h /\ h + hdrlen (fr_pb framer_example) + bufptr (fr_pb framer_example)
                     + buflen (fr_pb framer_example) <= PACKETBUF_SIZE)
       then r = h /\ exists bs, Z.of_nat (length bs) = h /\
              pb_view (fr_pb st2) = (bs ++ pb_header (fr_pb framer_example),
                bufptr (fr_pb framer_example), pb_payload (fr_pb framer_example))
       else r = FRAMER_FAILED /\ pb_view (fr_pb st2) = pb_view (fr_pb framer_example)).
Proof.
  apply (framer_hdr_length_agrees framer_example).
  split; vm_compute; try reflexivity; discriminate.
Defined.

(** ** From one node to another *)

(** What the radio driver is given: [packetbuf_totlen()] bytes at [packetbuf_hdrptr()]. *)
Definition framed_packet : FR (list Z) :=
  framer_create ;;
  p ← fr_buf packetbuf_hdrptr;
  n ← fr_buf packetbuf_totlen;
  fr_buf (pb_load p (Z.to_nat n)).
(** And how a received frame gets into the packet buffer. *)
Definition receive_frame (g : frame802154_t) (f : list Z) : FR Z :=
  fr_buf (packetbuf_copyfrom f (Z.of_nat (length f))) ;;
  framer_parse g.

(** The values of the attributes and addresses after a frame was accepted. *)
Record received_from (st : framer_st) (s : Z) (rt : framer_st) : Prop := {
  rf_view : pb_view (fr_pb rt) = ([], 9, pb_header (fr_pb st) ++ pb_payload (fr_pb st));
  rf_sender : packetbuf_addrs (fr_pb rt) !!! 0%nat = packetbuf_addrs (fr_pb st) !!! 0%nat;
  rf_receiver : packetbuf_addrs (fr_pb rt) !!! 1%nat = packetbuf_addrs (fr_pb st) !!! 1%nat;
  rf_type : packetbuf_attrs (fr_pb rt) !!! PACKETBUF_ATTR_FRAME_TYPE =
            packetbuf_attrs (fr_pb st) !!! PACKETBUF_ATTR_FRAME_TYPE;
  rf_pending : packetbuf_attrs (fr_pb rt) !!! PACKETBUF_ATTR_PENDING =
               packetbuf_attrs (fr_pb st) !!! PACKETBUF_ATTR_PENDING;
  rf_seqno : packetbuf_attrs (fr_pb rt) !!! PACKETBUF_ATTR_MAC_SEQNO = s;
  rf_packet_id : packetbuf_attrs (fr_pb rt) !!! PACKETBUF_ATTR_PACKET_ID = s;
}.

Lemma linkaddr_roundtrip x a :
  in_u 16 x -> take 2 a = linkaddr_to x -> linkaddr_of a = x.
Proof.
  intros Hx Ha. destruct a as [|a0 [|a1 a]]; try done. injection Ha as -> ->. unfold linkaddr_of. cbn.
  change 255 with (Z.ones 8). rewrite !Z.land_ones, Z.shiftr_div_pow2, Z.shiftl_mul_pow2 by done.
  uwrap_lia.
Qed.
Lemma is_broadcast_short a x :
  in_u 16 x -> take 2 a = linkaddr_to x ->
  c_true (frame802154_is_broadcast_addr FRAME802154_SHORTADDRMODE a) = (x =? 0xffff).
Proof.
  intros Hx Ha. rewrite <- (linkaddr_roundtrip x a Hx Ha).
  assert (Hb : 0 <= Z.land x 255 < 256 /\ 0 <= Z.land (Z.shiftr x 8) 255 < 256).
  { change 255 with (Z.ones 8). rewrite !Z.land_ones by done. split; by apply Z.mod_pos_bound. }
  destruct a as [|a0 [|a1 a]]; try done. injection Ha as E0 E1. rewrite <- E0, <- E1 in Hb.
  assert (frame802154_is_broadcast_addr FRAME802154_SHORTADDRMODE (a0 :: a1 :: a) =
    if a1 =? 0xff then if a0 =? 0xff then 1 else 0 else 0) as -> by reflexivity.
  assert (linkaddr_of (a0 :: a1 :: a) = a0 + a1 * 256) as ->.
  { unfold linkaddr_of. cbn. by rewrite Z.shiftl_mul_pow2. }
  destruct (Z.eqb_spec a1 0xff), (Z.eqb_spec a0 0xff), (Z.eqb_spec (a0 + a1 * 256) 0xffff);
    try lia; done.
Qed.

(** What the receiver does with the frame [P] of a packet: [g] is the parsed frame. *)
Lemma accept_carried pb pid s g st :
  let P := params_for pb pid s in
  attrs_fit pb -> frame_arrays g -> carries P g ->
  packetbuf_attrs pb !!! PACKETBUF_ATTR_FRAME_TYPE <> FRAME802154_ACKFRAME ->
  in_u 16 pid -> pid <> 0xffff ->
  in_u 16 (packetbuf_addrs pb !!! 0%nat) -> 0 <= packetbuf_addrs pb !!! 1%nat < 0xffff ->
  in_u 16 s -> length (packetbuf_attrs (fr_pb st)) = PACKETBUF_NUM_ATTRS ->
  packetbuf_addrs (fr_pb st) = replicate PACKETBUF_NUM_ADDRS 0 ->
  if mac_pan_id st =? pid then
    exists st', accept g 9 st = Ok (9, st') /\
      packetbuf_addrs (fr_pb st') !!! 0%nat = packetbuf_addrs pb !!! 0%nat /\
      packetbuf_addrs (fr_pb st') !!! 1%nat = packetbuf_addrs pb !!! 1%nat /\
      packetbuf_attrs (fr_pb st') !!! PACKETBUF_ATTR_FRAME_TYPE =
        packetbuf_attrs pb !!! PACKETBUF_ATTR_FRAME_TYPE /\
      packetbuf_attrs (fr_pb st') !!! PACKETBUF_ATTR_PENDING =
        packetbuf_attrs pb !!! PACKETBUF_ATTR_PENDING /\
      packetbuf_attrs (fr_pb st') !!! PACKETBUF_ATTR_MAC_SEQNO = s /\
      packetbuf_attrs (fr_pb st') !!! PACKETBUF_ATTR_PACKET_ID = s
  else exists st', accept g 9 st = Ok (FRAMER_FAILED, st').
Proof.
  intros P (F1 & F2 & F3) [La Ls] Hc Ht Hpid Hpid' Hs Hr Hsq Lat Ead.
  destruct Hc as [Cf Cs Cda Csa Cdp _ _].
  pose proof (compressed_fields P) as (_ & _ & _ & _ & _ & c & Ef). rewrite Ef in Cf.
  unfold P, params_for in Cs, Cda, Csa, Cf. cbn -[Z.eqb uwrap] in *. unfold update in Cf. cbn -[Z.eqb uwrap] in Cf.
  unfold accept, frame802154_get_pan_id. rewrite Cf. cbn -[Z.eqb uwrap].
  clear Ef. specialize (Cs eq_refl). rewrite !(uwrap_small 8) in Cf |- * by (unfold in_u; lia).
  assert (Hd : dest_pid g = pid).
  { apply Cdp. rewrite Cf. unfold frame802154_has_panid. cbn -[Z.eqb].
    by rewrite (proj2 (Z.eqb_neq _ _) Ht). }
  erewrite bind_Ok by reflexivity. rewrite bind_gets, Hd.
  change (mac_pan_id (update fr_pb _ st)) with (mac_pan_id st).
  rewrite (proj2 (Z.eqb_neq pid FRAME802154_BROADCASTPANDID)) by done.
  rewrite (Z.eqb_sym pid). destruct (Z.eqb_spec (mac_pan_id st) pid) as [Ep|Ep]; cbn -[Z.eqb fr_buf].
  2: { by eexists. }
  assert (Hsrc : linkaddr_of (src_addr g) = packetbuf_addrs pb !!! 0%nat) by by apply linkaddr_roundtrip.
  rewrite Hsrc, Cs.
  assert (Hdst : when (c_true 2 && negb (c_true (frame802154_is_broadcast_addr 2 (dest_addr g))))
    (fr_buf (packetbuf_set_addr PACKETBUF_ADDR_RECEIVER (linkaddr_of (dest_addr g)))) =
    if packetbuf_addrs pb !!! 1%nat =? 0 then skip
    else fr_buf (packetbuf_set_addr PACKETBUF_ADDR_RECEIVER (packetbuf_addrs pb !!! 1%nat))).
  { change 2 with FRAME802154_SHORTADDRMODE. destruct (Z.eqb_spec (packetbuf_addrs pb !!! 1%nat) 0).
    - by rewrite (is_broadcast_short _ 0xffff) by done.
    - rewrite (is_broadcast_short _ (packetbuf_addrs pb !!! 1%nat)) by (unfold in_u; done || lia).
      rewrite (proj2 (Z.eqb_neq _ 0xffff)) by lia. by rewrite (linkaddr_roundtrip (packetbuf_addrs pb !!! 1%nat)) by (unfold in_u; done || lia). }
  change (c_true 2) with true in *. cbn [andb] in *. rewrite Hdst.
  destruct (packetbuf_addrs pb !!! 1%nat =? 0) eqn:E0;
    [apply Z.eqb_eq in E0|]; (eexists; split; [reflexivity|]);
    unfold update; cbn -[list_insert list_lookup_total uwrap]; rewrite Ead;
    repeat split; rewrite ?list_lookup_total_insert_ne by done;
    rewrite ?list_lookup_total_insert_eq by (rewrite ?length_insert, ?Lat; apply Nat.ltb_lt; reflexivity);
    rewrite ?uwrap_small by (unfold in_u in *; lia); first [done|by rewrite E0].
Qed.

(** C30. A packet survives the framer.  The frame made for a packet, received by
    another node of the same PAN whatever its packet buffer and its stack hold, is
    accepted: the payload is the packet with the headers of the upper layers, the
    sender, the receiver (null for a broadcast), the frame type and the pending bit
    are those of the packet, and the sequence number is 8 bits of the MAC's, never
    0 when the framer chose it.  A node of another PAN rejects it. *)
Theorem framer_roundtrip g st rt :
  pb_wf (fr_pb st) -> bufptr (fr_pb st) = 0 ->
  9 + hdrlen (fr_pb st) + buflen (fr_pb st) <= PACKETBUF_SIZE ->
  attrs_fit (fr_pb st) ->
  packetbuf_attrs (fr_pb st) !!! PACKETBUF_ATTR_FRAME_TYPE <> FRAME802154_ACKFRAME ->
  in_u 16 (packetbuf_addrs (fr_pb st) !!! 0%nat) ->
  0 <= packetbuf_addrs (fr_pb st) !!! 1%nat < 0xffff ->
  in_u 16 (mac_pan_id st) -> mac_pan_id st <> 0xffff -> in_u 8 (mac_dsn st) ->
  pb_wf (fr_pb rt) -> frame_arrays g ->
  exists f st1 s, framed_packet st = Ok (f, st1) /\
    seqno_ok (packetbuf_attrs (fr_pb st) !!! PACKETBUF_ATTR_MAC_SEQNO) s /\
    exists r rt1, receive_frame g f rt = Ok (r, rt1) /\
      if mac_pan_id rt =? mac_pan_id st then r = 9 /\ received_from st s rt1
      else r = FRAMER_FAILED.
Proof.
  intros Hw Hb Hfit Ha Ht Hs Hr Hp Hp' Hdsn Hrw Hg.
  destruct (create_frame_run st _ Hw Hp' eq_refl) as [_ (s & r & st1 & E & _ & Hseq & Hw1 & _ & _ & Hl & Hres)].
  specialize (Hseq Hdsn).
  rewrite (uwrap_small 8) in Hl, Hres by (unfold in_u; destruct Ha; lia).
  rewrite (proj2 (Z.eqb_neq _ FRAME802154_ACKFRAME)) in Hl, Hres by done.
  rewrite decide_True in Hres by lia. destruct Hres as [-> Hv]. rewrite Hb in Hv.
  set (P := params_for (fr_pb st) (mac_pan_id st) s) in *. set (bs := header_bytes (compressed P)) in *.
  set (rest := pb_header (fr_pb st) ++ pb_payload (fr_pb st)).
  assert (Hsq : in_u 16 s).
  { unfold seqno_ok in Hseq. unfold in_u. destruct (_ =? 0); [lia|].
    pose proof (u8_range (packetbuf_attrs (fr_pb st) !!! PACKETBUF_ATTR_MAC_SEQNO)). lia. }
  assert (Hrest : Z.of_nat (length rest) = hdrlen (fr_pb st) + buflen (fr_pb st)).
  { unfold rest. rewrite length_app, Nat2Z.inj_add, pb_header_length, pb_payload_length by done. done. }
  exists (bs ++ rest), st1, s. split; [|split; [done|]].
  - unfold framed_packet. erewrite bind_Ok by exact E. erewrite bind_Ok by reflexivity.
    rewrite fr_same. pose proof (totlen_eq _ Hw1) as Et.
    pose proof (pb_header_length _ Hw1) as L1. pose proof (pb_payload_length _ Hw1) as L2.
    unfold pb_view in Hv. injection Hv as V1 V2 V3. rewrite V1 in L1. rewrite V3 in L2. rewrite V2, Z.add_0_l in Et.
    erewrite bind_Ok by (apply fr_buf_Ok, Et). rewrite fr_same.
    rewrite length_app, Nat2Z.inj_add, pb_header_length in L1 by done. rewrite pb_payload_length in L2 by done.
    erewrite fr_buf_Ok; [by rewrite fr_same|]. rewrite pb_load_ok.
    + change (Z.to_nat 0) with 0%nat. rewrite drop_0, frame_bytes by done. unfold rest. by rewrite V1, V3, app_assoc.
    + lia.
    + rewrite (wf_size _ Hw1). unfold PACKETBUF_SIZE in *. lia.
  - set (f := bs ++ rest). assert (Hf : Z.of_nat (length f) = 9 + Z.of_nat (length rest)).
    { unfold f. rewrite length_app. lia. }
    unfold receive_frame. erewrite bind_Ok by (apply fr_buf_Ok, copyfrom_run; [done|lia]).
    set (pb0 := mk_packetbuf _ _ _ _ _ _). unfold framer_parse, packetbuf_dataptr, packetbuf_hdrlen, packetbuf_datalen.
    erewrite bind_Ok by apply fr_buf_get. erewrite bind_Ok by apply fr_buf_get. rsimpl.
    change (bufptr pb0 +8 hdrlen pb0) with 0. change (buflen pb0) with (Z.of_nat (length f)).
    destruct (parse_header pb0 P g 0 (Z.of_nat (length rest))) as (g' & Eg & Ga & Gc & _);
      [by apply params_wf| |done|lia| |].
    { pose proof (compressed_fields P) as (_ & _ & _ & _ & _ & c & Ef). by rewrite Ef. }
    { fold bs. split; [done|]. intros i b Hi. unfold pb0, f. cbn. rewrite <- app_assoc.
      by apply lookup_app_l_Some. }
    fold bs in Eg. rewrite Hl, <- Hf in Eg.
    erewrite bind_Ok by (apply fr_buf_Ok; rsimpl; exact Eg). cbv beta iota.
    assert (Hw0 : pb_wf pb0).
    { destruct Hrw. unfold pb0. split; cbn; unfold PACKETBUF_SIZE in *; try lia.
      rewrite length_app, length_drop. lia. }
    change (c_true 9) with true. cbv iota.
    erewrite bind_Ok by (apply fr_buf_Ok; rsimpl; apply hdrreduce_run; [done|cbn; lia]).
    change (c_true 1) with true. cbv iota. fold (accept g' 9).
    set (rt0 := update fr_pb _ _).
    assert (Hpan : mac_pan_id rt0 = mac_pan_id rt) by done.
    pose proof (accept_carried (fr_pb st) (mac_pan_id st) s g' rt0 Ha Ga Gc Ht Hp Hp' Hs Hr Hsq eq_refl eq_refl)
      as Hacc. rewrite Hpan in Hacc. destruct (mac_pan_id rt =? mac_pan_id st).
    + destruct Hacc as (rt1 & Eacc & R1 & R2 & R3 & R4 & R5 & R6). eexists _, rt1.
      split; [exact Eacc|]. split; [done|]. split; [|done..].
      destruct (accept_attrs _ _ _ _ _ Eacc) as (_ & _ & _ & _ & -> & _).
      unfold pb_view, pb_header, pb_payload, rt0, pb0, update. cbn -[Z.add Z.sub Z.to_nat take drop].
      f_equal. rewrite Hf. replace (9 + Z.of_nat (length rest) - 9) with (Z.of_nat (length rest)) by lia.
      rewrite Nat2Z.id. replace (Z.to_nat (0 + 9 + 0)) with (length bs) by lia.
      unfold f. rewrite <- app_assoc, drop_app_length. by rewrite take_app_length.
    + destruct Hacc as (rt1 & Eacc). by eexists _, rt1.
Qed.

Definition framer_receiver : framer_st :=
  mk_framer pb_example IEEE802154_PANID 200 1 (fun _ => 0).

Lemma framer_roundtrip_witness :
  exists f st1 s, framed_packet framer_example = Ok (f, st1) /\
    seqno_ok (packetbuf_attrs (fr_pb framer_example) !!! PACKETBUF_ATTR_MAC_SEQNO) s /\
    exists r rt1, receive_frame frame_zero f framer_receiver = Ok (r, rt1) /\
      if mac_pan_id framer_receiver =? mac_pan_id framer_example
      then r = 9 /\ received_from framer_example s rt1 else r = FRAMER_FAILED.
Proof.
  assert (Hw : forall st, st = framer_example \/ st = framer_receiver -> pb_wf (fr_pb st)).
  { intros st [-> | ->]; split; vm_compute; try reflexivity; discriminate. }
  apply (framer_roundtrip frame_zero framer_example framer_receiver); [auto..|]; try (vm_compute; done).
Defined.
