(* ===== verification/Csma.v ===== *)
(** * Csma: the MAC layer and the radio duty cycling layer

    core/net/mac/csma.c queues the packets for every neighbour and sends them
    again when the radio reports a collision or a missing acknowledgement;
    core/net/mac/csyncrdc-framer.c (NETSTACK_RDC) puts a frame around each packet
    and hands it to the radio.  The two call each other through function pointers:
    [send_list] gets [packet_sent] as an argument.  The random numbers and the
    results of NETSTACK_RADIO.send are inputs; what the callbacks of the upper
    layer are given is recorded, they do not call back into this layer. *)
From stdpp Require Import numbers option list.
From S2P Require Import Prelude Lists Memb Packetbuf Frame802154.

Definition CSMA_MIN_BE : Z := 0.
Definition CSMA_MAX_BE : Z := 4.
Definition CSMA_MAX_BACKOFF : Z := 5.
Definition CSMA_MAX_MAX_FRAME_RETRIES : Z := 2.
Definition CSMA_MAX_NEIGHBOR_QUEUES : nat := 2.
Definition MAX_QUEUED_PACKETS : nat := QUEUEBUF_NUM.
Definition CSMA_MAX_PACKET_PER_NEIGHBOR : Z := Z.of_nat MAX_QUEUED_PACKETS.
Definition CSMA_BACKOFF_PERIOD : Z := 1.
Definition PACKETBUF_ATTR_PACKET_TYPE_ACK : Z := 1.

Definition MAC_TX_OK : Z := 0.
Definition MAC_TX_COLLISION : Z := 1.
Definition MAC_TX_NOACK : Z := 2.
Definition MAC_TX_DEFERRED : Z := 3.
Definition MAC_TX_ERR : Z := 4.
Definition MAC_TX_ERR_FATAL : Z := 5.

Definition RADIO_TX_OK : Z := 0.
Definition RADIO_TX_ERR : Z := 1.
Definition RADIO_TX_COLLISION : Z := 2.
Definition RADIO_TX_NOACK : Z := 3.

(** A callback of the upper layer is named by a number, [None] being NULL. *)
Record qbuf_metadata := mk_metadata {
  md_sent : option Z;
  md_cptr : Z;
  md_max_transmissions : Z;
}.

(** [ptr] is a block of [metadata_memb], [buf] a queue buffer. *)
Record rdc_buf_list := mk_rdc_buf {
  rb_buf : nat;
  rb_ptr : option nat;
}.
#[export] Instance eta_rdc_buf : Eta rdc_buf_list := fun x => mk_rdc_buf (rb_buf x) (rb_ptr x).

(** [transmit_timer] is its pending delay in ticks, if it is set. *)
Record neighbor_queue := mk_neighbor_queue {
  nq_addr : Z;
  nq_transmit_timer : option Z;
  nq_transmissions : Z;
  nq_collisions : Z;
  nq_queued_packet_list : list nat;
}.
#[export] Instance eta_neighbor_queue : Eta neighbor_queue := fun x =>
  mk_neighbor_queue (nq_addr x) (nq_transmit_timer x) (nq_transmissions x) (nq_collisions x)
    (nq_queued_packet_list x).

(** A call of an upper layer's callback: who, with which pointer, status and
    number of transmissions. *)
Record sent_call := mk_sent_call {
  sc_sent : Z; sc_ptr : Z; sc_status : Z; sc_num_tx : Z;
}.

(** [neighbor_list] and the packet queues are sequences of blocks; [csma_initialized]
    and [csma_seqno] are the statics of [send_packet]; [radio_results] are the
    return values of the radio to come, [radio_frames] the frames it was given. *)
Record csma_st := mk_csma {
  cs_framer : framer_st;
  cs_bufmem : pool nat;
  cs_buframmem : pool queuebuf_data;
  neighbor_memb : pool neighbor_queue;
  packet_memb : pool rdc_buf_list;
  metadata_memb : pool qbuf_metadata;
  neighbor_list : list nat;
  csma_initialized : Z;
  csma_seqno : Z;
  cs_node_addr : Z;
  radio_results : nat -> Z;
  radio_frames : list (list Z);
  sent_calls : list sent_call;
}.
#[export] Instance eta_csma : Eta csma_st := fun x =>
  mk_csma (cs_framer x) (cs_bufmem x) (cs_buframmem x) (neighbor_memb x) (packet_memb x)
    (metadata_memb x) (neighbor_list x) (csma_initialized x) (csma_seqno x) (cs_node_addr x)
    (radio_results x) (radio_frames x) (sent_calls x).

Abbreviation CS := (M csma_st).

Definition cs_pb {A} (m : PB A) : CS A := zoom cs_framer (fr_buf m).

(** The queue buffers share the packet buffer with the framer. *)
Definition cs_queue (st : csma_st) : queue_st :=
  mk_queue (fr_pb (cs_framer st)) (cs_bufmem st) (cs_buframmem st).
Definition cs_qb {A} (m : QB A) : CS A := fun st =>
  match m (cs_queue st) with
  | Ok (a, q) =>
      Ok (a, st <| cs_framer ::= fun f => f <| fr_pb := qu_packetbuf q |> |>
                <| cs_bufmem := bufmem q |> <| cs_buframmem := buframmem q |>)
  | Err e => Err e
  end.

(** ** Blocks *)

Definition alloc_in {B} (f : csma_st -> pool B) {U : Update f} : CS (option nat) := fun st =>
  let '(i, p) := pool_alloc (f st) in Ok (i, st <| f := p |>).
Definition free_in {B} (f : csma_st -> pool B) {U : Update f} (i : nat) : CS unit :=
  modify (update f (pool_free i)).
(** Read and write through a pointer to a block. *)
Definition load {B} (f : csma_st -> pool B) (i : nat) : CS B := fun st =>
  match pl_blocks (f st) !! i with Some b => Ok (b, st) | None => Err FWild end.
Definition store {B} (f : csma_st -> pool B) {U : Update f} (i : nat) (h : B -> B) : CS unit :=
  modify (update f (fun p => p <| pl_blocks ::= alter h i |>)).

Definition on_n := store neighbor_memb.

(** [list_item_next]: the item after [x]. *)
Fixpoint seq_next (x : nat) (l : list nat) : option nat :=
  match l with
  | [] => None
  | y :: l' => if decide (x = y) then head l' else seq_next x l'
  end.

(** ** csma.c *)

(** [mac_call_sent_callback] of core/net/mac/mac.c. *)
Definition mac_call_sent_callback (sent : option (Z -> Z -> CS unit)) (status num_tx : Z) : CS unit :=
  match sent with Some f => f status num_tx | None => skip end.

(** A callback of the upper layer, applied to its pointer. *)
Definition user_callback (sent : option Z) (ptr : Z) : option (Z -> Z -> CS unit) :=
  match sent with
  | Some s => Some (fun status num_tx =>
      modify (update sent_calls (fun l => l ++ [mk_sent_call s ptr status num_tx])))
  | None => None
  end.

(** The loop over the neighbours, from [l] on. *)
Fixpoint neighbor_loop (addr : Z) (l : list nat) : CS (option nat) :=
  match l with
  | [] => mret None
  | n :: l' =>
      nq ← load neighbor_memb n;
      if nq_addr nq =? addr then mret (Some n) else neighbor_loop addr l'
  end.
Definition neighbor_queue_from_addr (addr : Z) : CS (option nat) :=
  l ← gets neighbor_list; neighbor_loop addr l.

Definition cs_random_rand : CS Z := zoom cs_framer fr_random_rand.

Definition schedule_transmission (n : nat) : CS unit :=
  nq ← load neighbor_memb n;
  let backoff_exponent := Z.min (nq_collisions nq) CSMA_MAX_BE in
  let delay := (Z.shiftl 1 backoff_exponent - 1) * CSMA_BACKOFF_PERIOD in
  delay ← (if 0 <? delay then r ← cs_random_rand; mret (r mod delay) else mret delay);
  on_n n (fun nq => nq <| nq_transmit_timer := Some delay |>).

Definition free_packet (n p : nat) : CS unit :=
  on_n n (fun nq => nq <| nq_queued_packet_list ::= seq_remove p |>) ;;
  rb ← load packet_memb p;
  cs_qb (queuebuf_free (rb_buf rb)) ;;
  m ← deref (rb_ptr rb);
  free_in metadata_memb m ;;
  free_in packet_memb p ;;
  nq ← load neighbor_memb n;
  match head (nq_queued_packet_list nq) with
  | Some _ =>
      on_n n (fun nq => nq <| nq_transmissions := 0 |> <| nq_collisions := CSMA_MIN_BE |>) ;;
      schedule_transmission n
  | None =>
      on_n n (fun nq => nq <| nq_transmit_timer := None |>) ;;
      modify (update neighbor_list (seq_remove n)) ;;
      free_in neighbor_memb n
  end.

Definition tx_done (status : Z) (q n : nat) : CS unit :=
  rb ← load packet_memb q;
  m ← deref (rb_ptr rb);
  metadata ← load metadata_memb m;
  nq ← load neighbor_memb n;
  let ntx := nq_transmissions nq in
  free_packet n q ;;
  mac_call_sent_callback (user_callback (md_sent metadata) (md_cptr metadata)) status ntx.

Definition rexmit (q n : nat) : CS unit :=
  schedule_transmission n ;;
  rb ← load packet_memb q;
  cs_qb (queuebuf_update_attr_from_packetbuf (rb_buf rb)).

(** [if(n->transmissions >= metadata->max_transmissions) tx_done(...) else rexmit(...)] *)
Definition retry_or_drop (status : Z) (q n : nat) (metadata : qbuf_metadata) : CS unit :=
  nq ← load neighbor_memb n;
  if md_max_transmissions metadata <=? nq_transmissions nq then tx_done status q n
  else rexmit q n.

Definition collision (q n : nat) (num_transmissions : Z) : CS unit :=
  rb ← load packet_memb q;
  m ← deref (rb_ptr rb);
  metadata ← load metadata_memb m;
  on_n n (fun nq => nq <| nq_collisions ::= fun c => c +8 num_transmissions |>) ;;
  nq ← load neighbor_memb n;
  when (CSMA_MAX_BACKOFF <? nq_collisions nq)
    (on_n n (fun nq => nq <| nq_collisions := CSMA_MIN_BE |>
                          <| nq_transmissions ::= fun t => t +8 1 |>)) ;;
  retry_or_drop MAC_TX_COLLISION q n metadata.

Definition noack (q n : nat) (num_transmissions : Z) : CS unit :=
  rb ← load packet_memb q;
  m ← deref (rb_ptr rb);
  metadata ← load metadata_memb m;
  on_n n (fun nq => nq <| nq_collisions := CSMA_MIN_BE |>
                       <| nq_transmissions ::= fun t => t +8 num_transmissions |>) ;;
  retry_or_drop MAC_TX_NOACK q n metadata.

Definition tx_ok (q n : nat) (num_transmissions : Z) : CS unit :=
  on_n n (fun nq => nq <| nq_collisions := CSMA_MIN_BE |>
                       <| nq_transmissions ::= fun t => t +8 num_transmissions |>) ;;
  tx_done MAC_TX_OK q n.

(** The loop of [packet_sent]: the first packet with the sequence number of the
    packet buffer. *)
Fixpoint find_sent (l : list nat) : CS (option nat) :=
  match l with
  | [] => mret None
  | q :: l' =>
      rb ← load packet_memb q;
      a ← cs_qb (queuebuf_attr (rb_buf rb) PACKETBUF_ATTR_MAC_SEQNO);
      b ← cs_pb (packetbuf_attr PACKETBUF_ATTR_MAC_SEQNO);
      if a =? b then mret (Some q) else find_sent l'
  end.

Definition packet_sent (ptr : option nat) (status num_transmissions : Z) : CS unit :=
  match ptr with
  | None => skip
  | Some n =>
      nq ← load neighbor_memb n;
      q ← find_sent (nq_queued_packet_list nq);
      match q with
      | None => skip
      | Some q =>
          rb ← load packet_memb q;
          match rb_ptr rb with
          | None => skip
          | Some _ =>
              if status =? MAC_TX_OK then tx_ok q n num_transmissions
              else if status =? MAC_TX_NOACK then noack q n num_transmissions
              else if status =? MAC_TX_COLLISION then collision q n num_transmissions
              else if status =? MAC_TX_DEFERRED then skip
              else tx_done status q n
          end
      end
  end.

(** The number [seqno++] yields, after the initialisation and never 0. *)
Definition next_seqno : CS Z :=
  i ← gets csma_initialized;
  when (negb (c_true i))
    ((csma_initialized <~ 1) ;; r ← cs_random_rand; csma_seqno <~ r) ;;
  s ← gets csma_seqno;
  when (s =? 0) (csma_seqno <~ (s +16 1)) ;;
  s ← gets csma_seqno;
  (csma_seqno <~ (s +16 1)) ;;
  mret s.

(** A new entry for the address, if there is room. *)
Definition new_neighbor (addr : Z) : CS (option nat) :=
  n ← alloc_in neighbor_memb;
  match n with
  | None => mret None
  | Some n =>
      on_n n (fun nq => nq <| nq_addr := addr |> <| nq_transmissions := 0 |>
                           <| nq_collisions := CSMA_MIN_BE |>
                           <| nq_queued_packet_list := [] |>) ;;
      modify (update neighbor_list (seq_add n)) ;;
      mret (Some n)
  end.

(** The metadata of a packet; [max_transmissions] is a [uint8_t]. *)
Definition fill_metadata (m : nat) (sent : option Z) (ptr : Z) : CS unit :=
  a ← cs_pb (packetbuf_attr PACKETBUF_ATTR_MAX_MAC_TRANSMISSIONS);
  let max := if a =? 0 then u8 (CSMA_MAX_MAX_FRAME_RETRIES + 1) else u8 a in
  store metadata_memb m (fun _ => mk_metadata sent ptr max).

Definition set_buf (q b : nat) : CS unit := store packet_memb q (fun rb => rb <| rb_buf := b |>).
Definition set_ptr (q : nat) (m : option nat) : CS unit :=
  store packet_memb q (fun rb => rb <| rb_ptr := m |>).

(** The last step of queueing the packet [q] at [n]: acknowledgements go first. *)
Definition enqueue (n q : nat) : CS unit :=
  t ← cs_pb (packetbuf_attr PACKETBUF_ATTR_PACKET_TYPE);
  on_n n (fun nq => nq <| nq_queued_packet_list ::=
    if t =? PACKETBUF_ATTR_PACKET_TYPE_ACK then seq_push q else seq_add q |>) ;;
  nq ← load neighbor_memb n;
  when (bool_decide (head (nq_queued_packet_list nq) = Some q)) (schedule_transmission n).

(** Allocate everything the packet needs at the neighbour [n]; [false] when
    something ran out and was given back. *)
Definition queue_packet (n : nat) (sent : option Z) (ptr : Z) : CS bool :=
  q ← alloc_in packet_memb;
  match q with
  | None => mret false
  | Some q =>
      m ← alloc_in metadata_memb;
      set_ptr q m ;;
      match m with
      | None => free_in packet_memb q ;; mret false
      | Some m =>
          b ← cs_qb queuebuf_new_from_packetbuf;
          match b with
          | None => free_in metadata_memb m ;; free_in packet_memb q ;; mret false
          | Some b =>
              set_buf q b ;;
              fill_metadata m sent ptr ;;
              enqueue n q ;;
              mret true
          end
      end
  end.

(** The packet goes to the neighbour [n] if its queue is not too long; an entry
    that stays without packets is given back. *)
Definition queue_at (n : nat) (sent : option Z) (ptr : Z) : CS bool :=
  nq ← load neighbor_memb n;
  if Z.of_nat (length (nq_queued_packet_list nq)) <? CSMA_MAX_PACKET_PER_NEIGHBOR then
    ok ← queue_packet n sent ptr;
    if ok : bool then mret true
    else
      nq ← load neighbor_memb n;
      when (Z.of_nat (length (nq_queued_packet_list nq)) =? 0)
        (modify (update neighbor_list (seq_remove n)) ;; free_in neighbor_memb n) ;;
      mret false
  else mret false.

Definition csma_send_packet (sent : option Z) (ptr : Z) : CS unit :=
  addr ← cs_pb (packetbuf_addr PACKETBUF_ADDR_RECEIVER);
  s ← next_seqno;
  cs_pb (packetbuf_set_attr PACKETBUF_ATTR_MAC_SEQNO s) ;;
  n ← neighbor_queue_from_addr addr;
  n ← (match n with Some n => mret (Some n) | None => new_neighbor addr end);
  done ← (match n with Some n => queue_at n sent ptr | None => mret false end);
  if done : bool then skip
  else mac_call_sent_callback (user_callback sent ptr) MAC_TX_ERR 1.

Definition csma_init : CS unit := modify (fun st => st
  <| packet_memb ::= pool_init (mk_rdc_buf 0 None) |>
  <| metadata_memb ::= pool_init (mk_metadata None 0 0) |>
  <| neighbor_memb ::= pool_init (mk_neighbor_queue 0 None 0 0 []) |>).

(** ** csyncrdc-framer.c *)

(** [NETSTACK_RADIO.send]: the frame is recorded, the result comes from outside. *)
Definition radio_send (frame : list Z) : CS Z := fun st =>
  Ok (radio_results st O, st <| radio_results ::= fun r n => r (S n) |>
                             <| radio_frames ::= fun l => l ++ [frame] |>).

Definition send_one_packet (sent : option (Z -> Z -> CS unit)) : CS Z :=
  a ← gets cs_node_addr;
  cs_pb (packetbuf_set_addr PACKETBUF_ADDR_SENDER a) ;;
  r ← zoom cs_framer framer_create;
  ret ← (if r <? 0 then mret MAC_TX_ERR_FATAL
         else
           p ← cs_pb packetbuf_hdrptr;
           n ← cs_pb packetbuf_totlen;
           frame ← cs_pb (pb_load p (Z.to_nat n));
           r ← radio_send frame;
           mret (if r =? RADIO_TX_OK then MAC_TX_OK
                 else if r =? RADIO_TX_COLLISION then MAC_TX_COLLISION
                 else if r =? RADIO_TX_NOACK then MAC_TX_NOACK
                 else MAC_TX_ERR));
  mac_call_sent_callback sent ret 1 ;;
  mret (if ret =? MAC_TX_OK then 1 else 0).

Definition rdc_send_packet (sent : option (Z -> Z -> CS unit)) : CS unit :=
  send_one_packet sent ;; skip.

(** [buf_list->next]: the packet after [q] in the queue that holds it. *)
Fixpoint packet_next (q : nat) (ns : list nat) : CS (option nat) :=
  match ns with
  | [] => mret None
  | n :: ns' =>
      nq ← load neighbor_memb n;
      if bool_decide (q ∈ nq_queued_packet_list nq)
      then mret (seq_next q (nq_queued_packet_list nq))
      else packet_next q ns'
  end.

Fixpoint send_list (fuel : nat) (sent : option (Z -> Z -> CS unit)) (buf_list : option nat) : CS unit :=
  match fuel, buf_list with
  | _, None => skip
  | O, Some _ => fail FHang
  | S fuel', Some q =>
      ns ← gets neighbor_list;
      next ← packet_next q ns;
      rb ← load packet_memb q;
      cs_qb (queuebuf_to_packetbuf (rb_buf rb)) ;;
      last_sent_ok ← send_one_packet sent;
      if c_true last_sent_ok then send_list fuel' sent next else skip
  end.
Definition SEND_FUEL : nat := MAX_QUEUED_PACKETS.

(** [transmit_packet_list] of csma.c. *)
Definition transmit_packet_list (ptr : option nat) : CS unit :=
  match ptr with
  | None => skip
  | Some n =>
      nq ← load neighbor_memb n;
      match head (nq_queued_packet_list nq) with
      | Some q => send_list SEND_FUEL (Some (packet_sent (Some n))) (Some q)
      | None => skip
      end
  end.

(** The callback timer of the neighbour [n] expires; its delay is returned. *)
Definition transmit_timer_expires (n : nat) : CS Z :=
  nq ← load neighbor_memb n;
  d ← deref (nq_transmit_timer nq);
  on_n n (fun nq => nq <| nq_transmit_timer := None |>) ;;
  transmit_packet_list (Some n) ;;
  mret d.

(** Whether the packet in the buffer is handed to NETSTACK_MAC.input(), which
    hands it to NETSTACK_LLSEC.input(); [frame] is the local variable of the framer. *)
Definition rdc_packet_input (frame : frame802154_t) : CS bool :=
  r ← zoom cs_framer (framer_parse frame);
  mret (negb (r <? 0)).

(** What [on] and [off] of both layers call in the radio. *)
Inductive radio_command := RadioOn | RadioOff.
Definition rdc_on : radio_command := RadioOn.
Definition rdc_off (keep_radio_on : Z) : radio_command :=
  if c_true keep_radio_on then RadioOn else RadioOff.
Definition csma_on : radio_command := rdc_on.
Definition csma_off (keep_radio_on : Z) : radio_command := rdc_off keep_radio_on.

(** In ticks; DEFAULT_PERIOD is the channel check period, 1/32 of a second. *)
Definition RTIMER_ARCH_SECOND : Z := 524288.
Definition NETSTACK_RDC_CHANNEL_CHECK_RATE : Z := 32.
Definition DEFAULT_ON_TIME : Z := RTIMER_ARCH_SECOND / 160.
Definition DEFAULT_OFF_TIME : Z := RTIMER_ARCH_SECOND / NETSTACK_RDC_CHANNEL_CHECK_RATE - DEFAULT_ON_TIME.
Definition DEFAULT_PERIOD : Z := DEFAULT_OFF_TIME + DEFAULT_ON_TIME.
Definition MAC_CLOCK_SECOND : Z := 128.
Definition channel_check_interval : Z := u16 (u32 (MAC_CLOCK_SECOND * DEFAULT_PERIOD) / RTIMER_ARCH_SECOND).
