(* ===== verification/CsmaFacts.v ===== *)
(** * CsmaFacts: the MAC layer neither loses packets nor keeps them

    Theorems about [Csma]: the queues, the blocks and the queue buffers stay
    consistent through every packet sent and every timer that expires, no call
    ever faults; every packet handed to the layer is reported to its owner exactly
    once; how often a packet is sent and how long it waits. *)
From stdpp Require Import numbers option sets list.
From S2P Require Import Prelude Lists Memb Packetbuf Frame802154 FrameFacts Csma.

(** ** The queues *)

Definition nq_of (st : csma_st) (n : nat) : option neighbor_queue :=
  pl_blocks (neighbor_memb st) !! n.
Definition queue (st : csma_st) (n : nat) : list nat :=
  from_option nq_queued_packet_list [] (nq_of st n).
Definition all_packets (st : csma_st) : list nat := neighbor_list st ≫= queue st.

(** A queue buffer of the layer holds a packet with a sequence number. *)
Definition buf_ok (st : csma_st) (b : nat) : Prop :=
  exists d, queued (cs_queue st) b d /\ 0 <= qd_len d <= Z.of_nat (length (qd_data d)) /\
    length (qd_attrs d) = PACKETBUF_NUM_ATTRS /\
    qd_attrs d !!! PACKETBUF_ATTR_MAC_SEQNO <> 0.

(** [L] lists the queued packets with their metadata and queue buffers. *)
Record packets_in (st : csma_st) (L : list (nat * (nat * nat))) : Prop := {
  pi_all : all_packets st ≡ₚ L.*1;
  pi_packets : pool_owned (packet_memb st) L.*1;
  pi_metadata : pool_owned (metadata_memb st) L.*2.*1;
  pi_bufs : NoDup L.*2.*2;
  pi_each : forall p m b, (p, (m, b)) ∈ L ->
    pl_blocks (packet_memb st) !! p = Some (mk_rdc_buf b (Some m)) /\ buf_ok st b;
}.

(** The queue buffers are consistent and tell used from free by one bit. *)
Record bufs_wf (st : csma_st) : Prop := {
  bw_queue : queue_wf (cs_queue st);
  bw_bits : pool_bits (cs_bufmem st) /\ pool_bits (cs_buframmem st);
  bw_attrs : length (packetbuf_attrs (fr_pb (cs_framer st))) = PACKETBUF_NUM_ATTRS;
}.

(** What holds between any two steps of the code. *)
Record csma_wf0 (st : csma_st) : Prop := {
  w0_bufs : bufs_wf st;
  w0_seqno : in_u 16 (csma_seqno st);
  w0_neighbors : pool_owned (neighbor_memb st) (neighbor_list st);
  w0_packets : exists L, packets_in st L;
  w0_size : length (pl_blocks (packet_memb st)) = MAX_QUEUED_PACKETS;
}.

(** A neighbour of the list waits for its timer with a packet to send. *)
Definition neighbor_ok (st : csma_st) (n : nat) : Prop :=
  exists nq d, nq_of st n = Some nq /\ nq_queued_packet_list nq <> [] /\
    nq_transmit_timer nq = Some d /\ 0 <= d /\
    0 <= nq_collisions nq <= CSMA_MAX_BACKOFF /\ in_u 8 (nq_transmissions nq).

(** And what holds between two events. *)
Record csma_wf (st : csma_st) : Prop := {
  cw_wf0 : csma_wf0 st;
  cw_each : forall n, n ∈ neighbor_list st -> neighbor_ok st n;
}.

Lemma bind_ext_in (l : list nat) (f g : nat -> list nat) :
  (forall x, x ∈ l -> f x = g x) -> l ≫= f = l ≫= g.
Proof.
  intros H. induction l as [|x l IH]; [done|]. rewrite !bind_cons, H, IH; set_solver.
Qed.

Lemma bind_split (l : list nat) (f g : nat -> list nat) n :
  NoDup l -> n ∈ l -> (forall x, x ∈ l -> x <> n -> f x = g x) ->
  l ≫= f ≡ₚ f n ++ (seq_remove n l ≫= g).
Proof.
  intros Hn Hin Hfg. apply list_elem_of_split in Hin as (l1 & l2 & ->).
  rewrite seq_remove_split by done. rewrite !bind_app, bind_cons.
  apply NoDup_app in Hn as (Hn1 & Hn2 & [Hn3 Hn4]%NoDup_cons).
  rewrite (bind_ext_in l1 f g), (bind_ext_in l2 f g).
  - rewrite app_assoc, (Permutation_app_comm (l1 ≫= g)). by rewrite <- app_assoc.
  - intros x Hx. apply Hfg; [set_solver|]. by intros ->.
  - intros x Hx. apply Hfg; [set_solver|]. intros ->. apply (Hn2 n Hx). set_solver.
Qed.

(** ** Queue buffers *)

Definition queue_bits (q : queue_st) : Prop := pool_bits (bufmem q) /\ pool_bits (buframmem q).

Lemma queued_used q b d : queued q b d -> pool_used (bufmem q) b.
Proof. by intros [H _]. Qed.

Lemma queuebuf_free_run q b d :
  queue_wf q -> queue_bits q -> queued q b d ->
  exists q', queuebuf_free b q = Ok (tt, q') /\ queue_wf q' /\ queue_bits q' /\
    qu_packetbuf q' = qu_packetbuf q /\
    (forall b' d', b' <> b -> queued q b' d' -> queued q' b' d').
Proof.
  intros [] [Hb1 Hb2] (Hu & r & Hr & Hd). unfold queuebuf_free, queuebuf_load_to_ram.
  erewrite bind_Ok by (rewrite Hr; reflexivity). eexists. split; [reflexivity|].
  destruct (pool_free_spec (bufmem q) b Hb1) as (B1 & U1 & J1).
  destruct (pool_free_spec (buframmem q) r Hb2) as (B2 & U2 & J2).
  assert (Hb : forall b', pool_used (pool_free b (bufmem q)) b' -> b' <> b) by (by intros b' ? ->).
  split; [split|]; rsimpl.
  - done.
  - unfold pool_wf, pool_free in *. rsimpl. by rewrite length_alter.
  - unfold pool_wf, pool_free in *. rsimpl. by rewrite length_alter.
  - intros b' r' Hu' Hr'. pose proof (Hb _ Hu') as Hne. rewrite J1 in Hu' by done.
    rewrite J2; [by eapply qwf_ram|]. intros ->. by apply Hne, (qwf_inj b' b r).
  - intros b1 b2 r' Hu1 Hu2. rewrite J1 in Hu1 by (by apply Hb). rewrite J1 in Hu2 by (by apply Hb).
    by apply qwf_inj.
  - split; [by split|]. split; [done|]. intros b' d' Hne (Hu' & r' & Hr' & Hd').
    split; [by apply J1|]. by exists r'.
Qed.

Lemma queuebuf_update_attr_run q b d :
  queue_wf q -> queue_bits q -> queued q b d ->
  exists q', queuebuf_update_attr_from_packetbuf b q = Ok (tt, q') /\ queue_wf q' /\ queue_bits q' /\
    qu_packetbuf q' = qu_packetbuf q /\
    queued q' b (mk_queuebuf_data (qd_data d) (qd_len d) (packetbuf_attrs (qu_packetbuf q))
                   (packetbuf_addrs (qu_packetbuf q))) /\
    (forall b' d', b' <> b -> queued q b' d' -> queued q' b' d').
Proof.
  intros [] [Hb1 Hb2] (Hu & r & Hr & Hd). unfold queuebuf_update_attr_from_packetbuf, queuebuf_load_to_ram.
  erewrite bind_Ok by (rewrite Hr; reflexivity).
  erewrite bind_Ok by reflexivity. cbv beta iota. eexists. split; [reflexivity|].
  assert (E : forall st, (st <| qu_packetbuf := qu_packetbuf st |> : queue_st) = st) by by intros [].
  rewrite E. split; [split|]; rsimpl; try done.
  - unfold pool_wf in *. rsimpl. by rewrite length_alter.
  - split; [by split|]. split; [done|]. split.
    + split; [done|]. exists r. split; [done|]. rsimpl. by rewrite list_lookup_alter_eq, Hd.
    + intros b' d' Hne (Hu' & r' & Hr' & Hd'). split; [done|]. exists r'. split; [done|]. rsimpl.
      rewrite list_lookup_alter_ne; [done|]. intros ->. by apply Hne, (qwf_inj b' b r').
Qed.

Lemma queuebuf_to_packetbuf_run q b d :
  queue_wf q -> queued q b d -> 0 <= qd_len d <= Z.of_nat (length (qd_data d)) ->
  exists pb, queuebuf_to_packetbuf b q = Ok (tt, q <| qu_packetbuf := pb |>) /\ pb_wf pb /\
    packetbuf_attrs pb = qd_attrs d /\ packetbuf_addrs pb = qd_addrs d.
Proof.
  intros [] (Hu & r & Hr & Hd) Hl. unfold queuebuf_to_packetbuf, queuebuf_load_to_ram, ram_block.
  erewrite bind_Ok by (rewrite Hr; reflexivity). erewrite bind_Ok by (rewrite Hd; reflexivity).
  destruct (copyfrom_eq (qd_data d) (qd_len d) (qu_packetbuf q) qwf_packetbuf Hl) as (pb & E & Hw & _).
  erewrite bind_Ok by (unfold zoom; rewrite E; reflexivity).
  exists (pb <| packetbuf_attrs := qd_attrs d |> <| packetbuf_addrs := qd_addrs d |>).
  split; [by destruct q|]. split; [|done]. by destruct Hw.
Qed.

Lemma queuebuf_attr_run q b d k :
  queued q b d -> queuebuf_attr b k q = Ok (qd_attrs d !!! k, q).
Proof.
  intros (Hu & r & Hr & Hd). unfold queuebuf_attr, queuebuf_load_to_ram, ram_block.
  erewrite bind_Ok by (rewrite Hr; reflexivity). by erewrite bind_Ok by (rewrite Hd; reflexivity).
Qed.

(** No block is free. *)
Definition pool_full {A} (p : pool A) : Prop := (pool_alloc p).1 = None.
#[export] Instance pool_full_dec {A} (p : pool A) : Decision (pool_full p).
Proof. unfold pool_full. apply _. Defined.

(** A new queue buffer is fresh and holds the packet, or nothing changes for the
    buffers in use. *)
Lemma queuebuf_new_run q :
  queue_wf q -> queue_bits q ->
  exists ob q', queuebuf_new_from_packetbuf q = Ok (ob, q') /\ queue_wf q' /\ queue_bits q' /\
    qu_packetbuf q' = qu_packetbuf q /\
    (forall b' d', queued q b' d' -> queued q' b' d') /\
    match ob with
    | Some b => ~ pool_full (bufmem q) /\ ~ pool_full (buframmem q) /\ ~ pool_used (bufmem q) b /\
        exists d, queued q' b d /\ 0 <= qd_len d <= Z.of_nat (length (qd_data d)) /\
          qd_attrs d = packetbuf_attrs (qu_packetbuf q) /\ qd_addrs d = packetbuf_addrs (qu_packetbuf q)
    | None => pool_full (bufmem q) \/ pool_full (buframmem q)
    end.
Proof.
  intros H [Hb1 Hb2]. unfold pool_full. destruct (pool_alloc (bufmem q)) as [[b|] p1] eqn:E1.
  2: { apply pool_alloc_None in E1 as E1'. destruct E1' as [-> _].
    exists None, q. split; [|split; [done|split; [done|split; [done|split; [done|by left]]]]]. unfold queuebuf_new_from_packetbuf.
    erewrite bind_Ok by (unfold bufmem_alloc; rewrite E1; reflexivity). by destruct q. }
  destruct (pool_alloc_Some _ _ _ E1) as (N1 & U1 & L1 & B1 & J1).
  pose proof (pool_alloc_bits _ _ _ E1 Hb1) as Hp1.
  assert (Len1 : length (pl_count p1) = length (pl_blocks (bufmem q))).
  { unfold pool_alloc in E1. destruct find_free; [|done]. injection E1 as _ <-. rsimpl.
    rewrite length_alter. apply (qwf_bufmem _ H). }
  destruct (pool_alloc (buframmem q)) as [[r|] p2] eqn:E2.
  - destruct (pool_alloc_Some _ _ _ E2) as (N2 & U2 & L2 & B2 & J2).
    assert (Len2 : length (pl_count p2) = length (pl_blocks (buframmem q))).
    { unfold pool_alloc in E2. destruct find_free; [|done]. injection E2 as _ <-. rsimpl.
      rewrite length_alter. apply (qwf_buframmem _ H). }
    destruct (lookup_lt_is_Some_2 (pl_blocks p2) r) as [d Hd].
    { rewrite B2, <- (qwf_buframmem _ H). done. }
    rewrite (queuebuf_new_eq q b r p1 p2 d (qwf_packetbuf _ H) E1 E2 Hd).
    set (data := pb_header _ ++ pb_payload _). eexists _, _. split; [reflexivity|].
    assert (Hblt : (b < length (pl_blocks p1))%nat) by (rewrite B1, <- (qwf_bufmem _ H); done).
    assert (Hrlt : (r < length (pl_blocks p2))%nat) by (by eapply lookup_lt_Some).
    assert (Hused : forall b' r', pool_used p1 b' -> b' <> b -> pl_blocks (bufmem q) !! b' = Some r' ->
      pool_used (bufmem q) b' /\ r' <> r).
    { intros b' r' Hu Hne Hl. rewrite J1 in Hu by done. split; [done|]. intros ->.
      by apply N2, (qwf_ram _ H b'). }
    split; [split|split; [|split; [done|split]]]; rsimpl.
    + apply H.
    + unfold pool_wf. rsimpl. rewrite length_insert. congruence.
    + unfold pool_wf. rsimpl. rewrite length_insert. congruence.
    + intros b' r' Hu Hl. destruct (decide (b' = b)) as [->|Hne].
      * rewrite list_lookup_insert_eq in Hl by done. by injection Hl as <-.
      * rewrite list_lookup_insert_ne, B1 in Hl by done.
        destruct (Hused b' r') as [Hu' Hr']; [done..|]. apply J2; [done|]. by apply (qwf_ram _ H b').
    + intros b1 b2 r' Hu1 Hu2 Hl1 Hl2.
      destruct (decide (b1 = b)) as [->|Hne1], (decide (b2 = b)) as [->|Hne2]; try done.
      * rewrite list_lookup_insert_eq in Hl1 by done. rewrite list_lookup_insert_ne, B1 in Hl2 by done.
        injection Hl1 as <-. by destruct (Hused b2 r).
      * rewrite list_lookup_insert_eq in Hl2 by done. rewrite list_lookup_insert_ne, B1 in Hl1 by done.
        injection Hl2 as <-. by destruct (Hused b1 r).
      * rewrite list_lookup_insert_ne, B1 in Hl1, Hl2 by done.
        destruct (Hused b1 r'), (Hused b2 r'); try done. by apply (qwf_inj _ H b1 b2 r').
    + split; [exact Hp1|exact (pool_alloc_bits _ _ _ E2 Hb2)].
    + intros b' d' (Hu & r' & Hl & Hd'). assert (b' <> b) by (by intros ->).
      split; [by apply J1|]. exists r'. rsimpl. rewrite list_lookup_insert_ne, B1 by done. split; [done|].
      rewrite list_lookup_insert_ne, B2; [done|]. intros ->. by apply N2, (qwf_ram _ H b').
    + do 3 (split; [done|]). eexists. split; [split; [done|]|].
      * exists r. rsimpl. rewrite !list_lookup_insert_eq by done. done.
      * cbn. split; [|done]. rewrite length_app. lia.
  - apply pool_alloc_None in E2 as E2'. destruct E2' as [-> _].
    assert (Hbl : (b < length (pl_blocks p1))%nat) by (rewrite B1, <- (qwf_bufmem _ H); done).
    set (p1' := p1 <| pl_blocks ::= <[b := 0%nat]> |>).
    assert (Hp1' : pool_bits p1') by done.
    destruct (pool_free_spec p1' b Hp1') as (Bf & Uf & Jf).
    assert (Hu : forall b', pool_used (pool_free b p1') b' <-> pool_used (bufmem q) b').
    { intros b'. destruct (decide (b' = b)) as [->|Hne]; [by split|]. rewrite Jf by done. by apply J1. }
    assert (Hl : forall b', pool_used (bufmem q) b' ->
      pl_blocks (pool_free b p1') !! b' = pl_blocks (bufmem q) !! b').
    { intros b' Hb'. unfold pool_free, p1'. rsimpl. rewrite B1, list_lookup_insert_ne; [done|]. by intros ->. }
    exists None, (q <| bufmem := pool_free b p1' |>). split.
    { unfold queuebuf_new_from_packetbuf.
      erewrite bind_Ok by (unfold bufmem_alloc; rewrite E1; reflexivity). cbv beta iota.
      erewrite bind_Ok by (unfold buframmem_alloc; rsimpl; rewrite E2; reflexivity).
      by destruct q. }
    split; [split|split; [|split; [done|split; [|by right]]]]; rsimpl; try apply H.
    + unfold pool_wf, pool_free, p1'. rsimpl. rewrite length_alter, length_insert. congruence.
    + intros b' r' Hu'%Hu Hr'. rewrite Hl in Hr' by done. by apply (qwf_ram _ H b').
    + intros b1 b2 r' Hu1%Hu Hu2%Hu Hr1 Hr2. rewrite Hl in Hr1, Hr2 by done. by apply (qwf_inj _ H b1 b2 r').
    + by split.
    + intros b' d' (Hu' & r' & Hr' & Hd'). split; [by apply Hu|]. exists r'. rsimpl. by rewrite Hl.
Qed.

(** ** Steps of the layer *)

Definition upd_n (n : nat) (h : neighbor_queue -> neighbor_queue) (st : csma_st) : csma_st :=
  st <| neighbor_memb ::= fun p => p <| pl_blocks ::= alter h n |> |>.

Lemma on_n_run n h st : on_n n h st = Ok (tt, upd_n n h st).
Proof. done. Qed.
Lemma load_run {B} (f : csma_st -> pool B) i st b :
  pl_blocks (f st) !! i = Some b -> load f i st = Ok (b, st).
Proof. intros E. unfold load. by rewrite E. Qed.

Lemma upd_n_twice n f g st : upd_n n g (upd_n n f st) = upd_n n (fun nq => g (f nq)) st.
Proof.
  unfold upd_n, update. cbn. f_equal. f_equal. exact (list_alter_alter_eq g f _ n).
Qed.
Lemma nq_upd n h st n' :
  nq_of (upd_n n h st) n' = if decide (n' = n) then h <$> nq_of st n else nq_of st n'.
Proof.
  unfold nq_of, upd_n. rsimpl. case_decide as E; [subst; apply list_lookup_alter_eq|].
  by apply list_lookup_alter_ne.
Qed.
Lemma nq_upd_eq n h st nq : nq_of st n = Some nq -> nq_of (upd_n n h st) n = Some (h nq).
Proof. intros E. by rewrite nq_upd, decide_True, E. Qed.
Lemma nq_upd_ne n h st n' : n' <> n -> nq_of (upd_n n h st) n' = nq_of st n'.
Proof. intros E. by rewrite nq_upd, decide_False. Qed.
Lemma queue_eq st n nq : nq_of st n = Some nq -> queue st n = nq_queued_packet_list nq.
Proof. intros E. unfold queue. by rewrite E. Qed.
Lemma queue_upd_same n h st n' :
  (forall nq, nq_queued_packet_list (h nq) = nq_queued_packet_list nq) ->
  queue (upd_n n h st) n' = queue st n'.
Proof.
  intros H. unfold queue. rewrite nq_upd. case_decide as E; [|done]. subst.
  destruct (nq_of st n); simpl; [apply H|done].
Qed.

(** [csma_wf0] is about the blocks, the queues and the queue buffers. *)
Lemma wf0_ext st st' :
  csma_wf0 st -> bufs_wf st' -> in_u 16 (csma_seqno st') ->
  (forall b d, queued (cs_queue st) b d -> queued (cs_queue st') b d) ->
  packet_memb st' = packet_memb st -> metadata_memb st' = metadata_memb st ->
  neighbor_list st' = neighbor_list st -> pool_owned (neighbor_memb st') (neighbor_list st) ->
  (forall n, n ∈ neighbor_list st -> queue st' n = queue st n) ->
  csma_wf0 st'.
Proof.
  intros [Wb Ws Wn (L & [P1 P2 P3 P4 P5]) Wz] Hb Hs Hqd Hp Hm Hl Ho Hq.
  split; [done|done|by rewrite Hl| |by rewrite Hp].
  exists L. split; [|by rewrite Hp|by rewrite Hm|done|].
  - unfold all_packets in *. rewrite Hl. by rewrite (bind_ext_in _ _ _ Hq).
  - intros p m b Hin. rewrite Hp. destruct (P5 p m b Hin) as [? (d & Hd & Hr)].
    split; [done|]. exists d. auto.
Qed.

Lemma wf0_upd n h st :
  (forall nq, nq_queued_packet_list (h nq) = nq_queued_packet_list nq) ->
  csma_wf0 st -> csma_wf0 (upd_n n h st).
Proof.
  intros Hh W. apply (wf0_ext st); try done.
  - destruct (w0_bufs _ W). by split.
  - apply W.
  - apply owned_write, W.
  - intros n' _. by apply queue_upd_same.
Qed.

(** The framer may change but for the packet buffer. *)
Lemma wf0_framer st f :
  csma_wf0 st -> fr_pb f = fr_pb (cs_framer st) -> csma_wf0 (st <| cs_framer := f |>).
Proof.
  intros W E. assert (Eq : cs_queue (st <| cs_framer := f |>) = cs_queue st).
  { unfold cs_queue. rsimpl. by rewrite E. }
  apply (wf0_ext st); try done; rewrite ?Eq; try apply W; try done.
  destruct (w0_bufs _ W) as [? ? ?]. split; rewrite ?Eq; try done. rsimpl. by rewrite E.
Qed.

(** The longest delay [schedule_transmission] picks after [c] collisions. *)
Definition max_delay (c : Z) : Z := if c <=? 1 then 0 else 2 ^ (Z.min c CSMA_MAX_BE) - 2.

Lemma schedule_run n nq st :
  nq_of st n = Some nq -> 0 <= nq_collisions nq <= CSMA_MAX_BACKOFF ->
  exists d f, schedule_transmission n st =
      Ok (tt, upd_n n (fun nq => nq <| nq_transmit_timer := Some d |>) (st <| cs_framer := f |>)) /\
    0 <= d <= max_delay (nq_collisions nq) /\
    fr_pb f = fr_pb (cs_framer st) /\ mac_pan_id f = mac_pan_id (cs_framer st) /\
    mac_dsn f = mac_dsn (cs_framer st).
Proof.
  intros Hn Hc. unfold schedule_transmission. erewrite bind_Ok by (apply load_run, Hn). cbv zeta.
  unfold CSMA_MAX_BACKOFF, CSMA_BACKOFF_PERIOD, max_delay, CSMA_MAX_BE in *. rewrite Z.mul_1_r.
  assert (H : exists b, Z.shiftl 1 (Z.min (nq_collisions nq) 4) - 1 = b /\ 0 <= b /\
    (b <= 1 /\ nq_collisions nq <= 1 \/ 1 < nq_collisions nq /\ b = 2 ^ (Z.min (nq_collisions nq) 4) - 1 /\ 2 <= b)).
  { rewrite Z.shiftl_mul_pow2, Z.mul_1_l by lia. eexists. split; [reflexivity|].
    assert (nq_collisions nq = 0 \/ nq_collisions nq = 1 \/ nq_collisions nq = 2 \/ nq_collisions nq = 3 \/
      nq_collisions nq = 4 \/ nq_collisions nq = 5) as [-> | [-> | [-> | [-> | [-> | ->]]]]] by lia; compute -[Z.le Z.lt]; lia. }
  destruct H as (b & -> & Hb0 & Hb). destruct (Z.ltb_spec 0 b) as [Hlt|Hge].
  - erewrite bind_Ok by (erewrite bind_Ok by reflexivity; reflexivity).
    eexists _, _. split; [reflexivity|]. split; [|done].
    pose proof (Z.mod_pos_bound (u16 (fr_rnd (cs_framer st) 0)) b Hlt).
    destruct Hb as [[H1 H2]|(H1 & -> & H2)].
    + rewrite (proj2 (Z.leb_le _ _)) by done. lia.
    + rewrite (proj2 (Z.leb_gt _ _)) by done. lia.
  - erewrite bind_Ok by reflexivity. exists b, (cs_framer st). split.
    { rewrite on_n_run. by destruct st. }
    split; [|done]. destruct (Z.leb_spec (nq_collisions nq) 1); lia.
Qed.

(** ** What is still queued *)

(** The metadata of a packet, and those of all the packets of the layer. *)
Definition entry (st : csma_st) (p : nat) : option qbuf_metadata :=
  rb ← pl_blocks (packet_memb st) !! p;
  m ← rb_ptr rb;
  pl_blocks (metadata_memb st) !! m.
Definition pending (st : csma_st) : list qbuf_metadata := omap (entry st) (all_packets st).

Lemma seq_remove_perm `{EqDecision A} (x : A) l : NoDup l -> x ∈ l -> l ≡ₚ x :: seq_remove x l.
Proof.
  intros Hn (l1 & l2 & ->)%list_elem_of_split. rewrite seq_remove_split by done.
  symmetry. apply Permutation_middle.
Qed.

Lemma packets_in_perm st L L' : L ≡ₚ L' -> packets_in st L -> packets_in st L'.
Proof.
  intros E [P1 P2 P3 P4 P5]. split; [by rewrite <- E..|].
  intros p m b Hin. apply P5. by rewrite E.
Qed.

Lemma wf0_nodup st : csma_wf0 st -> NoDup (all_packets st).
Proof. intros [_ _ _ (L & [P1 P2 _ _ _])]. rewrite P1. apply P2. Qed.

Lemma elem_of_all st n p : n ∈ neighbor_list st -> p ∈ queue st n -> p ∈ all_packets st.
Proof. intros Hn Hp. apply list_elem_of_bind. by exists n. Qed.

Lemma all_split st n :
  csma_wf0 st -> n ∈ neighbor_list st ->
  all_packets st ≡ₚ queue st n ++ (seq_remove n (neighbor_list st) ≫= queue st).
Proof. intros W Hn. apply bind_split; [apply W|done|done]. Qed.

Lemma queue_nodup st n : csma_wf0 st -> n ∈ neighbor_list st -> NoDup (queue st n).
Proof.
  intros W Hn. pose proof (wf0_nodup _ W) as H. rewrite (all_split st n W Hn) in H.
  by apply NoDup_app in H as [H _].
Qed.

(** The blocks of one packet. *)
Lemma packet_blocks st p :
  csma_wf0 st -> p ∈ all_packets st ->
  exists m b md L, packets_in st ((p, (m, b)) :: L) /\
    pl_blocks (packet_memb st) !! p = Some (mk_rdc_buf b (Some m)) /\
    pl_blocks (metadata_memb st) !! m = Some md /\ entry st p = Some md /\ buf_ok st b.
Proof.
  intros [_ _ _ (L & P)] Hp. pose proof P as [P1 P2 P3 P4 P5]. rewrite P1 in Hp.
  apply list_elem_of_fmap in Hp as ([p' [m b]] & -> & Hin). cbn.
  destruct (P5 _ _ _ Hin) as [Hb Hbuf].
  apply elem_of_Permutation in Hin as [L' HL].
  destruct (owned_block (metadata_memb st) L.*2.*1 m P3) as [md Hmd].
  { rewrite HL. cbn. by left. }
  exists m, b, md, L'. split; [by apply (packets_in_perm _ L)|]. split; [done|]. split; [done|].
  split; [|done]. unfold entry. rewrite Hb. cbn. done.
Qed.

(** ** [free_packet] *)

(** What a neighbour looks like once the packet [p] of its queue is gone. *)
Definition after_packet (nq : neighbor_queue) (p : nat) : neighbor_queue :=
  let q := seq_remove p (nq_queued_packet_list nq) in
  nq <| nq_queued_packet_list := q |> <| nq_transmissions := 0 |>
     <| nq_collisions := CSMA_MIN_BE |> <| nq_transmit_timer := Some 0 |>.

(** The layer without the packet [p] of the neighbour [n], after the given calls of
    its owner. *)
Record freed (st st' : csma_st) (n p : nat) (nq : neighbor_queue) (md : qbuf_metadata)
    (calls : list sent_call) : Prop := {
  fd_wf : csma_wf0 st';
  fd_calls : sent_calls st' = sent_calls st ++ calls;
  fd_radio : radio_results st' = radio_results st /\ radio_frames st' = radio_frames st;
  fd_entry : forall x, entry st' x = entry st x;
  fd_others : forall n', n' <> n -> nq_of st' n' = nq_of st n';
  fd_list : neighbor_list st' =
    if decide (seq_remove p (nq_queued_packet_list nq) = [])
    then seq_remove n (neighbor_list st) else neighbor_list st;
  fd_this : seq_remove p (nq_queued_packet_list nq) <> [] -> nq_of st' n = Some (after_packet nq p);
}.

Lemma omap_entry st st' (l : list nat) :
  (forall x, entry st x = entry st' x) -> omap (entry st) l = omap (entry st') l.
Proof. intros H. apply list_omap_ext, Forall_Forall2_diag, Forall_true. exact H. Qed.
Lemma omap_perm {A B} (f : A -> option B) l l' : l ≡ₚ l' -> omap f l ≡ₚ omap f l'.
Proof. intros E. by rewrite E. Qed.

(** Taking the packet off its queue and giving its blocks back. *)
Lemma unqueue st n p nq m b L q' :
  csma_wf0 st -> n ∈ neighbor_list st -> nq_of st n = Some nq -> p ∈ nq_queued_packet_list nq ->
  packets_in st ((p, (m, b)) :: L) -> queue_wf q' -> queue_bits q' ->
  qu_packetbuf q' = fr_pb (cs_framer st) ->
  (forall b' d', b' <> b -> queued (cs_queue st) b' d' -> queued q' b' d') ->
  let st' := (upd_n n (fun nq => nq <| nq_queued_packet_list ::= seq_remove p |>) st)
    <| cs_bufmem := bufmem q' |> <| cs_buframmem := buframmem q' |>
    <| metadata_memb ::= pool_free m |> <| packet_memb ::= pool_free p |> in
  csma_wf0 st' /\ all_packets st ≡ₚ p :: all_packets st'.
Proof.
  intros W Hn Hnq Hp P Hq Hqb Epb Hqd st'.
  assert (Hqs : queue st' n = seq_remove p (queue st n)).
  { unfold queue. change (nq_of st' n) with (nq_of (upd_n n (fun nq => nq <| nq_queued_packet_list ::= seq_remove p |>) st) n).
    by rewrite (nq_upd_eq _ _ _ _ Hnq), Hnq. }
  assert (Hqo : forall n', n' <> n -> queue st' n' = queue st n').
  { intros n' Hne. unfold queue.
    change (nq_of st' n') with (nq_of (upd_n n (fun nq => nq <| nq_queued_packet_list ::= seq_remove p |>) st) n').
    by rewrite nq_upd_ne. }
  assert (Hall : all_packets st ≡ₚ p :: all_packets st').
  { rewrite (all_split st n W Hn).
    assert (E : all_packets st' ≡ₚ queue st' n ++ (seq_remove n (neighbor_list st) ≫= queue st)).
    { apply bind_split; [apply W|done|]. intros x _. apply Hqo. }
    rewrite E, Hqs. rewrite (seq_remove_perm p (queue st n)) at 1; [done|by apply queue_nodup|].
    by rewrite (queue_eq _ _ _ Hnq). }
  split; [|done]. destruct P as [P1 P2 P3 P4 P5]. cbn in *.
  assert (Ecq : cs_queue st' = q').
  { unfold cs_queue, st', upd_n. rsimpl. rewrite <- Epb. by destruct q'. }
  destruct (owned_free _ _ _ P2) as [O2 B2]. destruct (owned_free _ _ _ P3) as [O3 B3].
  split.
  - split; rewrite ?Ecq; [done|done|]. apply (w0_bufs _ W).
  - apply W.
  - apply owned_write, W.
  - exists L. split.
    + apply (Permutation_cons_inv (a := p)). transitivity (all_packets st); [by symmetry|done].
    + exact O2.
    + exact O3.
    + by apply NoDup_cons in P4 as [_ ?].
    + intros p' m' b' Hin. destruct (P5 p' m' b') as [Hb' (d & Hd & Hd')]; [by right|].
      split; [exact Hb'|]. exists d. split; [|done]. rewrite Ecq. apply Hqd; [|done].
      intros ->. apply NoDup_cons in P4 as [H4 _]. apply H4. apply list_elem_of_fmap.
      exists (m', b). split; [done|]. apply list_elem_of_fmap. by exists (p', (m', b)).
  - apply W.
Qed.

Lemma seq_remove_perm_rest (n : nat) l : NoDup l -> n ∈ l -> NoDup (seq_remove n l) /\ n ∉ seq_remove n l.
Proof.
  intros Hn Hin. pose proof (seq_remove_perm n l Hn Hin) as E. rewrite E in Hn.
  by apply NoDup_cons in Hn as [? ?].
Qed.

(** Giving back a neighbour without packets. *)
Lemma release_neighbor st n :
  csma_wf0 st -> n ∈ neighbor_list st -> queue st n = [] ->
  let st' := st <| neighbor_list ::= seq_remove n |> <| neighbor_memb ::= pool_free n |> in
  csma_wf0 st' /\ all_packets st ≡ₚ all_packets st'.
Proof.
  intros W Hn Hq st'. assert (W' := W). destruct W' as [Wb Ws Wn (L & P) Wz].
  assert (Hqs : forall x, queue st' x = queue st x) by done.
  assert (Hall : all_packets st ≡ₚ all_packets st').
  { rewrite (all_split st n W Hn), Hq. done. }
  split; [|done]. destruct Wb as [B1 B2 B3]. split; [by split|done| | |done].
  - rewrite (seq_remove_perm n (neighbor_list st)) in Wn; [|apply Wn|done].
    apply (owned_free _ _ _ Wn).
  - exists L. destruct P as [P1 P2 P3 P4 P5]. split; try done. by rewrite <- Hall.
Qed.

Lemma free_packet_run st n p nq :
  csma_wf0 st -> n ∈ neighbor_list st -> nq_of st n = Some nq -> p ∈ nq_queued_packet_list nq ->
  exists st' md, free_packet n p st = Ok (tt, st') /\ entry st p = Some md /\
    freed st st' n p nq md [].
Proof.
  intros W Hn Hnq Hp.
  assert (Hpa : p ∈ all_packets st) by (apply (elem_of_all st n); [done|by rewrite (queue_eq _ _ _ Hnq)]).
  destruct (packet_blocks st p W Hpa) as (m & b & md & L & P & Hb & Hm & He & (d & Hd & _)).
  destruct (w0_bufs _ W) as [Wq Wb _].
  destruct (queuebuf_free_run (cs_queue st) b d Wq Wb Hd) as (q' & Eq & Hq1 & Hq2 & Hq3 & Hq4).
  destruct (unqueue st n p nq m b L q' W Hn Hnq Hp P Hq1 Hq2 Hq3 Hq4) as [W1 Hall].
  set (st1 := _ <| packet_memb ::= _ |>) in W1, Hall.
  assert (Hnq1 : nq_of st1 n = Some (nq <| nq_queued_packet_list ::= seq_remove p |>)).
  { change (nq_of st1 n) with (nq_of (upd_n n (fun nq => nq <| nq_queued_packet_list ::= seq_remove p |>) st) n).
    by rewrite (nq_upd_eq _ _ _ _ Hnq). }
  assert (Hother : forall n', n' <> n -> nq_of st1 n' = nq_of st n').
  { intros n' Hne. change (nq_of st1 n') with (nq_of (upd_n n (fun nq => nq <| nq_queued_packet_list ::= seq_remove p |>) st) n').
    by rewrite nq_upd_ne. }
  assert (Hrun : free_packet n p st = (nq ← load neighbor_memb n;
     match head (nq_queued_packet_list nq) with
     | Some _ =>
         on_n n (fun nq => nq <| nq_transmissions := 0 |> <| nq_collisions := CSMA_MIN_BE |>) ;;
         schedule_transmission n
     | None =>
         on_n n (fun nq => nq <| nq_transmit_timer := None |>) ;;
         modify (update neighbor_list (seq_remove n)) ;;
         free_in neighbor_memb n
     end) st1).
  { unfold free_packet. erewrite bind_Ok by apply on_n_run.
    erewrite bind_Ok by (by apply load_run).
    cbn [rb_buf rb_ptr].
    erewrite bind_Ok by (unfold cs_qb; change (cs_queue (upd_n _ _ st)) with (cs_queue st); rewrite Eq; reflexivity).
    do 3 (erewrite bind_Ok by reflexivity).
    f_equal. unfold st1, upd_n. destruct st as [[] ????????????]. unfold update. cbn in *. by rewrite Hq3. }
  rewrite Hrun. erewrite bind_Ok by (apply load_run, Hnq1). rsimpl.
  destruct (seq_remove p (nq_queued_packet_list nq)) as [|p2 q2] eqn:Eq2; cbn [head].
  - erewrite bind_Ok by apply on_n_run. rewrite bind_modify.
    set (st2 := upd_n n _ st1). exists (st2 <| neighbor_list ::= seq_remove n |> <| neighbor_memb ::= pool_free n |>), md.
    split; [done|]. split; [done|].
    assert (W2 : csma_wf0 st2) by (by apply wf0_upd).
    assert (Hq2' : queue st2 n = []).
    { unfold st2. rewrite queue_upd_same by done. unfold queue. by rewrite Hnq1. }
    destruct (release_neighbor st2 n W2) as [W3 Hall3]; [done|done|].
    split; try done.
    + by rewrite app_nil_r.
    + intros n' Hne. rewrite <- (Hother n' Hne), <- (nq_upd_ne n (fun nq => nq <| nq_transmit_timer := None |>) st1 n' Hne). done.
    + by rewrite decide_True.
  - erewrite bind_Ok by apply on_n_run.
    set (h := fun nq => nq <| nq_transmissions := 0 |> <| nq_collisions := CSMA_MIN_BE |>) in *.
    assert (W2 : csma_wf0 (upd_n n h st1)) by (by apply wf0_upd).
    destruct (schedule_run n (h (nq <| nq_queued_packet_list ::= seq_remove p |>)) (upd_n n h st1))
      as (dl & f & Es & Hdl & Hf & Hf2 & _); [by apply nq_upd_eq|done|].
    assert (dl = 0) as -> by (unfold max_delay in Hdl; cbn in Hdl; lia). rewrite Es.
    set (h' := fun nq => nq <| nq_transmit_timer := Some 0 |>).
    eexists _, md. split; [reflexivity|]. split; [done|].
    split; rewrite ?decide_False by (by rewrite Eq2); try done.
    + by apply wf0_upd, wf0_framer.
    + by rewrite app_nil_r.
    + intros n' Hne. rewrite nq_upd_ne by done. change (nq_of (update cs_framer ?g ?s)) with (nq_of s).
      rewrite nq_upd_ne by done. by apply Hother.
    + intros _. erewrite nq_upd_eq; [|change (nq_of (update cs_framer ?g ?s)) with (nq_of s); by apply nq_upd_eq].
      done.
Qed.

(** ** The owner of a packet hears of it *)

Definition call_for (md : qbuf_metadata) (status ntx : Z) : list sent_call :=
  match md_sent md with Some s => [mk_sent_call s (md_cptr md) status ntx] | None => [] end.

Lemma user_callback_run md status ntx st :
  mac_call_sent_callback (user_callback (md_sent md) (md_cptr md)) status ntx st =
    Ok (tt, st <| sent_calls ::= fun l => l ++ call_for md status ntx |>).
Proof.
  unfold call_for, user_callback, mac_call_sent_callback. destruct (md_sent md); [done|].
  destruct st. unfold update, skip. cbn. by rewrite app_nil_r.
Qed.

Lemma freed_call st st' n p nq md calls calls' :
  freed st st' n p nq md calls ->
  freed st (st' <| sent_calls ::= fun l => l ++ calls' |>) n p nq md (calls ++ calls').
Proof.
  intros [F1 F2 F3 Fe F7 F8 F9]. split; try done.
  - destruct F1 as [[? ? ?] ? ? (L & [? ? ? ? ?]) ?]. split; [by split|done..| |done]. exists L. by split.
  - rsimpl. by rewrite F2, app_assoc.
Qed.

Lemma tx_done_run st status n p nq :
  csma_wf0 st -> n ∈ neighbor_list st -> nq_of st n = Some nq -> p ∈ nq_queued_packet_list nq ->
  exists st' md, tx_done status p n st = Ok (tt, st') /\ entry st p = Some md /\
    freed st st' n p nq md (call_for md status (nq_transmissions nq)).
Proof.
  intros W Hn Hnq Hp.
  assert (Hpa : p ∈ all_packets st) by (apply (elem_of_all st n); [done|by rewrite (queue_eq _ _ _ Hnq)]).
  destruct (packet_blocks st p W Hpa) as (m & b & md & L & _ & Hb & Hm & He & _).
  destruct (free_packet_run st n p nq W Hn Hnq Hp) as (st1 & md' & Ef & He' & F).
  assert (md' = md) as -> by congruence.
  eexists _, md. split; [|split; [done|apply (freed_call _ _ _ _ _ _ [] _ F)]].
  unfold tx_done. erewrite bind_Ok by (by apply load_run). erewrite bind_Ok by reflexivity.
  erewrite bind_Ok by (by apply load_run). erewrite bind_Ok by (by apply load_run).
  cbv zeta. erewrite bind_Ok by exact Ef. apply user_callback_run.
Qed.

(** ** [rexmit] *)

(** The packet at the head of [n] will be sent again, with [t] transmissions and
    [c] collisions counted. *)
Record retried (st st' : csma_st) (n : nat) (nq : neighbor_queue) (t c : Z) : Prop := {
  rt_wf : csma_wf0 st';
  rt_calls : sent_calls st' = sent_calls st;
  rt_radio : radio_results st' = radio_results st /\ radio_frames st' = radio_frames st;
  rt_blocks : packet_memb st' = packet_memb st /\ metadata_memb st' = metadata_memb st;
  rt_others : forall n', n' <> n -> nq_of st' n' = nq_of st n';
  rt_list : neighbor_list st' = neighbor_list st;
  rt_this : exists d, 0 <= d <= max_delay c /\
    nq_of st' n = Some (nq <| nq_transmissions := t |> <| nq_collisions := c |>
                           <| nq_transmit_timer := Some d |>);
}.

Lemma rexmit_run st n p nq :
  csma_wf0 st -> n ∈ neighbor_list st -> nq_of st n = Some nq -> p ∈ nq_queued_packet_list nq ->
  0 <= nq_collisions nq <= CSMA_MAX_BACKOFF ->
  packetbuf_attrs (fr_pb (cs_framer st)) !!! PACKETBUF_ATTR_MAC_SEQNO <> 0 ->
  exists st', rexmit p n st = Ok (tt, st') /\
    retried st st' n nq (nq_transmissions nq) (nq_collisions nq).
Proof.
  intros W Hn Hnq Hp Hc Hseq.
  assert (Hpa : p ∈ all_packets st) by (apply (elem_of_all st n); [done|by rewrite (queue_eq _ _ _ Hnq)]).
  destruct (schedule_run n nq st Hnq Hc) as (dl & f & Es & Hdl & Hf & Hf2 & _).
  set (h := fun nq => nq <| nq_transmit_timer := Some dl |>) in *.
  set (st1 := upd_n n h (st <| cs_framer := f |>)) in *.
  assert (W1 : csma_wf0 st1) by (by apply wf0_upd, wf0_framer).
  destruct (packet_blocks st p W Hpa) as (m & b & md & L & P & Hb & Hm & He & (d & Hd & Hdl' & Hda & Hds)).
  destruct (w0_bufs _ W1) as [Wq Wb Wa].
  assert (Ecq : cs_queue st1 = cs_queue st).
  { unfold cs_queue, st1, upd_n. rsimpl. by rewrite Hf. }
  destruct (queuebuf_update_attr_run (cs_queue st1) b d Wq Wb) as (q' & Eq & Hq1 & Hq2 & Hq3 & Hq4 & Hq5).
  { by rewrite Ecq. }
  set (st2 := st1 <| cs_bufmem := bufmem q' |> <| cs_buframmem := buframmem q' |>).
  assert (Ecq2 : cs_queue st2 = q').
  { unfold cs_queue, st2, st1, upd_n. rsimpl. destruct q'. cbn in *. by rewrite Hq3. }
  exists st2. split.
  - unfold rexmit. erewrite bind_Ok by exact Es. erewrite bind_Ok by (apply load_run, Hb).
    cbn [rb_buf]. unfold cs_qb. rewrite Eq. unfold st2. destruct st1 as [[] ????????????]. unfold update. cbn in *. by rewrite Hq3.
  - assert (Hnq2 : nq_of st2 n = Some (h nq)) by by apply nq_upd_eq.
    assert (Hother : forall n', n' <> n -> nq_of st2 n' = nq_of st n').
    { intros n' Hne. exact (nq_upd_ne n h (st <| cs_framer := f |>) n' Hne). }
    assert (Hqs : forall x, queue st2 x = queue st x).
    { intros x. exact (queue_upd_same n h (st <| cs_framer := f |>) x (fun _ => eq_refl)). }
    split; try done.
    + destruct W as [Wb' Ws Wn (L0 & P0) Wz]. apply packet_blocks in Hpa as (m' & b' & md' & L' & P' & Hb' & _); [|by split; [..|exists L0|]].
      assert ((m', b') = (m, b)) as [= -> ->] by congruence.
      split; [split; rewrite ?Ecq2; try done|done|by apply owned_write| |done].
      exists ((p, (m, b)) :: L'). destruct P' as [P1 P2 P3 P4 P5]. split; try done.
      { unfold all_packets. change (neighbor_list st2) with (neighbor_list st).
        rewrite (bind_ext_in _ (queue st2) (queue st)) by done. done. }
      intros p1 m1 b1 Hin. destruct (P5 _ _ _ Hin) as [Hb1 (d1 & Hd1 & Hr1)]. split; [done|].
      destruct (decide (b1 = b)) as [->|Hne].
      * eexists. rewrite Ecq2. split; [exact Hq4|]. cbn [qd_len qd_data qd_attrs].
        change (qu_packetbuf (cs_queue st1)) with (fr_pb f). rewrite Hf.
        split; [done|]. split; [apply Wb'|done].
      * exists d1. rewrite Ecq2. split; [|done]. apply Hq5; [done|]. by rewrite Ecq.
    + exists dl. split; [done|]. rewrite Hnq2. by destruct nq.
Qed.

(** ** The retransmission policy *)

(** What becomes of a packet sent with the given status, when it may be sent [max]
    times and [t] transmissions and [c] collisions have been counted: it is
    reported with a status and a number of transmissions, or sent again with new
    counts. *)
Definition verdict (status max t c : Z) : (Z * Z) + (Z * Z) :=
  if status =? MAC_TX_OK then inl (MAC_TX_OK, t +8 1)
  else if status =? MAC_TX_NOACK then
    if max <=? (t +8 1) then inl (MAC_TX_NOACK, t +8 1) else inr (t +8 1, 0)
  else if status =? MAC_TX_COLLISION then
    let '(t', c') := if CSMA_MAX_BACKOFF <? (c +8 1) then (t +8 1, 0) else (t, c +8 1) in
    if max <=? t' then inl (MAC_TX_COLLISION, t') else inr (t', c')
  else inl (status, t).

(** The layer after the packet [p] at the head of [n] was sent. *)
Definition sent_result (st st' : csma_st) (n p : nat) (nq : neighbor_queue) (md : qbuf_metadata)
    (status : Z) : Prop :=
  match verdict status (md_max_transmissions md) (nq_transmissions nq) (nq_collisions nq) with
  | inl (s, ntx) => freed st st' n p nq md (call_for md s ntx)
  | inr (t, c) => retried st st' n nq t c
  end.

(** A change of the counters that keeps the queue. *)
Definition counters (h : neighbor_queue -> neighbor_queue) : Prop := forall nq,
  nq_queued_packet_list (h nq) = nq_queued_packet_list nq /\ nq_addr (h nq) = nq_addr nq.

Lemma after_packet_counters h nq p : counters h -> after_packet (h nq) p = after_packet nq p.
Proof.
  intros Hh. destruct (Hh nq) as [E1 E2]. unfold after_packet, update. cbn. by rewrite E1, E2.
Qed.
Lemma freed_counters st st' n h p nq md calls :
  counters h -> freed (upd_n n h st) st' n p (h nq) md calls -> freed st st' n p nq md calls.
Proof.
  intros Hh [F1 F2 F3 Fe F7 F8 F9]. rewrite after_packet_counters in F9 by done.
  destruct (Hh nq) as [E _]. rewrite E in *.
  split; try done. intros n' Hne. rewrite F7 by done. by apply nq_upd_ne.
Qed.
Lemma retried_counters st st' n h nq t c :
  counters h -> retried (upd_n n h st) st' n (h nq) t c -> retried st st' n nq t c.
Proof.
  intros Hh [F1 F2 F3 F6 F7 F8 (d & Hd & F9)]. split; try done.
  - intros n' Hne. rewrite F7 by done. by apply nq_upd_ne.
  - exists d. split; [done|]. rewrite F9. destruct (Hh nq) as [E1 E2].
    unfold update. cbn. by rewrite E1, E2.
Qed.

(** The end of [collision] and [noack], after the counters were changed by [h]. *)
Lemma retry_or_drop_run st status n p nq h md :
  csma_wf0 st -> n ∈ neighbor_list st -> nq_of st n = Some nq -> p ∈ nq_queued_packet_list nq ->
  entry st p = Some md -> counters h -> 0 <= nq_collisions (h nq) <= CSMA_MAX_BACKOFF ->
  packetbuf_attrs (fr_pb (cs_framer st)) !!! PACKETBUF_ATTR_MAC_SEQNO <> 0 ->
  exists st', retry_or_drop status p n md (upd_n n h st) = Ok (tt, st') /\
    if md_max_transmissions md <=? nq_transmissions (h nq)
    then freed st st' n p nq md (call_for md status (nq_transmissions (h nq)))
    else retried st st' n nq (nq_transmissions (h nq)) (nq_collisions (h nq)).
Proof.
  intros W Hn Hnq Hp He Hh Hc Hseq. pose proof (nq_upd_eq n h st nq Hnq) as Hnq1.
  assert (W1 : csma_wf0 (upd_n n h st)) by (apply wf0_upd; [apply Hh|done]).
  assert (Hp1 : p ∈ nq_queued_packet_list (h nq)) by by rewrite (proj1 (Hh nq)).
  unfold retry_or_drop. erewrite bind_Ok by (by apply load_run).
  destruct (md_max_transmissions md <=? nq_transmissions (h nq)).
  - destruct (tx_done_run (upd_n n h st) status n p (h nq)) as (st' & md' & E & He' & F); [done..|].
    exists st'. split; [done|]. assert (md' = md) as -> by (change (entry st p = Some md') in He'; congruence).
    by eapply freed_counters.
  - destruct (rexmit_run (upd_n n h st) n p (h nq)) as (st' & E & F); [done..|].
    exists st'. split; [done|]. by eapply retried_counters.
Qed.

Lemma find_sent_head st p ps d b m :
  pl_blocks (packet_memb st) !! p = Some (mk_rdc_buf b m) -> queued (cs_queue st) b d ->
  qd_attrs d !!! PACKETBUF_ATTR_MAC_SEQNO =
    packetbuf_attrs (fr_pb (cs_framer st)) !!! PACKETBUF_ATTR_MAC_SEQNO ->
  find_sent (p :: ps) st = Ok (Some p, st).
Proof.
  intros Hb Hd Heq. cbn [find_sent]. erewrite bind_Ok by (by apply load_run). cbn [rb_buf].
  assert (Hs : forall q, q = cs_queue st -> st <| cs_framer ::= fun f => f <| fr_pb := qu_packetbuf q |> |>
                <| cs_bufmem := bufmem q |> <| cs_buframmem := buframmem q |> = st).
  { intros q ->. by destruct st as [[] ????????????]. }
  erewrite bind_Ok by (unfold cs_qb; erewrite queuebuf_attr_run by exact Hd; rewrite Hs by done; reflexivity).
  assert (Ea : cs_pb (packetbuf_attr PACKETBUF_ATTR_MAC_SEQNO) st =
    Ok (packetbuf_attrs (fr_pb (cs_framer st)) !!! PACKETBUF_ATTR_MAC_SEQNO, st)).
  { by destruct st as [[] ????????????]. }
  erewrite bind_Ok by exact Ea. by rewrite Heq, Z.eqb_refl.
Qed.

(** [packet_sent] carries out the verdict on the packet at the head of the queue. *)
Lemma packet_sent_run st n p ps nq md b m d status :
  csma_wf0 st -> n ∈ neighbor_list st -> nq_of st n = Some nq ->
  nq_queued_packet_list nq = p :: ps -> entry st p = Some md ->
  0 <= nq_collisions nq <= CSMA_MAX_BACKOFF -> status <> MAC_TX_DEFERRED ->
  pl_blocks (packet_memb st) !! p = Some (mk_rdc_buf b (Some m)) -> queued (cs_queue st) b d ->
  qd_attrs d !!! PACKETBUF_ATTR_MAC_SEQNO =
    packetbuf_attrs (fr_pb (cs_framer st)) !!! PACKETBUF_ATTR_MAC_SEQNO ->
  qd_attrs d !!! PACKETBUF_ATTR_MAC_SEQNO <> 0 ->
  exists st', packet_sent (Some n) status 1 st = Ok (tt, st') /\ sent_result st st' n p nq md status.
Proof.
  intros W Hn Hnq Hq He Hc Hs Hb Hd Ha Ha0. rewrite Ha in Ha0.
  assert (Hp : p ∈ nq_queued_packet_list nq) by (rewrite Hq; by left).
  unfold packet_sent. erewrite bind_Ok by (by apply load_run). rewrite Hq.
  erewrite bind_Ok by (by eapply find_sent_head). cbv iota.
  erewrite bind_Ok by (by apply load_run). cbn [rb_ptr].
  assert (Hm : exists m', pl_blocks (metadata_memb st) !! m' = Some md /\ m' = m).
  { unfold entry in He. rewrite Hb in He. cbn in He. by exists m. }
  destruct Hm as (_ & Hm & ->). unfold sent_result, verdict.
  destruct (Z.eqb_spec status MAC_TX_OK) as [->|E0].
  { set (h := fun nq => nq <| nq_collisions := CSMA_MIN_BE |> <| nq_transmissions ::= fun t => t +8 1 |>).
    assert (W1 : csma_wf0 (upd_n n h st)) by (by apply wf0_upd).
    destruct (tx_done_run (upd_n n h st) MAC_TX_OK n p (h nq)) as (st' & md' & E & He' & F);
      [done|done|by apply nq_upd_eq|done|].
    assert (md' = md) as -> by (change (entry st p = Some md') in He'; congruence).
    exists st'. split; [done|]. by eapply freed_counters in F. }
  destruct (Z.eqb_spec status MAC_TX_NOACK) as [->|E1].
  { set (h := fun nq => nq <| nq_collisions := CSMA_MIN_BE |> <| nq_transmissions ::= fun t => t +8 1 |>).
    destruct (retry_or_drop_run st MAC_TX_NOACK n p nq h md) as (st' & E & F); [done..|by vm_compute|done|].
    exists st'. split.
    - unfold noack. erewrite bind_Ok by (by apply load_run). erewrite bind_Ok by reflexivity.
      erewrite bind_Ok by (by apply load_run). exact E.
    - change (nq_transmissions (h nq)) with (nq_transmissions nq +8 1) in F. by case_match. }
  destruct (Z.eqb_spec status MAC_TX_COLLISION) as [->|E2].
  { set (h1 := fun nq => nq <| nq_collisions ::= fun c => c +8 1 |>).
    set (h2 := fun nq => nq <| nq_collisions := CSMA_MIN_BE |> <| nq_transmissions ::= fun t => t +8 1 |>).
    assert (Hrun : exists st1, collision p n 1 st = retry_or_drop MAC_TX_COLLISION p n md st1 /\
      st1 = upd_n n (if CSMA_MAX_BACKOFF <? (nq_collisions nq +8 1) then fun nq => h2 (h1 nq) else h1) st).
    { eexists. split; [|reflexivity]. unfold collision. erewrite bind_Ok by (by apply load_run).
      erewrite bind_Ok by reflexivity. erewrite bind_Ok by (by apply load_run).
      erewrite bind_Ok by apply on_n_run. erewrite bind_Ok by (by apply load_run, nq_upd_eq).
      rsimpl. unfold when. destruct (CSMA_MAX_BACKOFF <? _); [|by erewrite bind_Ok by reflexivity].
      erewrite bind_Ok by apply on_n_run. by rewrite upd_n_twice. }
    destruct Hrun as (st1 & -> & ->).
    unfold CSMA_MAX_BACKOFF in *.
    destruct (Z.ltb_spec 5 (nq_collisions nq +8 1)) as [Hlt|Hge].
    - destruct (retry_or_drop_run st MAC_TX_COLLISION n p nq (fun nq => h2 (h1 nq)) md) as (st' & E & F);
        [done..|by vm_compute|done|].
      exists st'. split; [done|]. change (nq_transmissions (h2 (h1 nq))) with (nq_transmissions nq +8 1) in F.
      by case_match.
    - destruct (retry_or_drop_run st MAC_TX_COLLISION n p nq h1 md) as (st' & E & F); [done..| |done|].
      { change (nq_collisions (h1 nq)) with (nq_collisions nq +8 1). unfold CSMA_MAX_BACKOFF.
        pose proof (u8_range (nq_collisions nq + 1)). lia. }
      exists st'. split; [done|]. change (nq_transmissions (h1 nq)) with (nq_transmissions nq) in F.
      by case_match. }
  rewrite (proj2 (Z.eqb_neq _ _)) by done.
  destruct (tx_done_run st status n p nq W Hn Hnq Hp) as (st' & md' & E & He' & F).
  assert (md' = md) as -> by congruence. by exists st'.
Qed.

(** ** [send_one_packet] *)

(** The packet buffer may hold anything. *)
Lemma wf0_pb st f :
  csma_wf0 st -> pb_wf (fr_pb f) -> length (packetbuf_attrs (fr_pb f)) = PACKETBUF_NUM_ATTRS ->
  csma_wf0 (st <| cs_framer := f |>).
Proof.
  intros W Hf Ha. apply (wf0_ext st); try done; try apply W.
  destruct (w0_bufs _ W) as [[] ? ?]. by split; [split|..].
Qed.

(** The radio is not looked at either. *)
Lemma wf0_radio st rr rf :
  csma_wf0 st -> csma_wf0 (st <| radio_results := rr |> <| radio_frames := rf |>).
Proof.
  intros W. apply (wf0_ext st); try done; try apply W. destruct (w0_bufs _ W) as [? ? ?]. by split.
Qed.

(** The framer never fails but by its return value. *)
Lemma framer_create_total st :
  pb_wf (fr_pb st) -> packetbuf_attrs (fr_pb st) !!! PACKETBUF_ATTR_MAC_SEQNO <> 0 ->
  exists r st', framer_create st = Ok (r, st') /\ mac_pan_id st' = mac_pan_id st /\
    pb_wf (fr_pb st') /\ packetbuf_attrs (fr_pb st') = packetbuf_attrs (fr_pb st).
Proof.
  intros Hw Hs. destruct (decide (mac_pan_id st = 0xffff)) as [E|E].
  - exists (-1), st. split; [|done]. unfold framer_create, create_frame, frame802154_get_pan_id.
    rewrite bind_gets. by rewrite E.
  - destruct (create_frame_run st _ Hw E eq_refl) as [_ (s & r & st' & Er & Hp & _ & Hw' & _ & Ha & _)].
    exists r, st'. auto.
Qed.

(** What [send_one_packet] makes of the result of the radio. *)
Definition status_of_radio (r : Z) : Z :=
  if r =? RADIO_TX_OK then MAC_TX_OK else if r =? RADIO_TX_COLLISION then MAC_TX_COLLISION
  else if r =? RADIO_TX_NOACK then MAC_TX_NOACK else MAC_TX_ERR.

(** One transmission: the frame did not fit, or the radio was given it. *)
Record transmitted (st st1 : csma_st) (s : Z) (fs : list (list Z)) : Prop := {
  tm_state : exists f rr, st1 = st <| cs_framer := f |> <| radio_results := rr |>
                                   <| radio_frames := radio_frames st ++ fs |>;
  tm_wf : csma_wf0 st1;
  tm_attrs : packetbuf_attrs (fr_pb (cs_framer st1)) = packetbuf_attrs (fr_pb (cs_framer st));
  tm_results : forall i, radio_results st1 i = radio_results st (length fs + i)%nat;
  tm_status : s = MAC_TX_ERR_FATAL /\ fs = [] \/
              s = status_of_radio (radio_results st O) /\ exists f, fs = [f];
}.

Lemma send_one_run st sent :
  csma_wf0 st -> packetbuf_attrs (fr_pb (cs_framer st)) !!! PACKETBUF_ATTR_MAC_SEQNO <> 0 ->
  exists s fs st1, transmitted st st1 s fs /\
    send_one_packet sent st =
      (mac_call_sent_callback sent s 1 ;; mret (if s =? MAC_TX_OK then 1 else 0)) st1.
Proof.
  intros W Hs. destruct (w0_bufs _ W) as [[Hpb _ _ _ _] _ Ha].
  set (f0 := (cs_framer st) <| fr_pb ::= fun pb => pb <| packetbuf_addrs ::=
    <[(PACKETBUF_ADDR_SENDER - PACKETBUF_ADDR_FIRST)%nat := cs_node_addr st]> |> |>).
  destruct (framer_create_total f0) as (r & f & Er & Hp & Hwf & Haf); [by destruct Hpb; split|done|].
  assert (Hst : st <| radio_results := radio_results st |> <| radio_frames := radio_frames st ++ [] |> = st).
  { destruct st. unfold update. cbn. by rewrite app_nil_r. }
  assert (Wf : csma_wf0 (st <| cs_framer := f |>)) by (apply wf0_pb; [done..|by rewrite Haf]).
  unfold send_one_packet. rewrite bind_gets.
  assert (E0 : cs_pb (packetbuf_set_addr PACKETBUF_ADDR_SENDER (cs_node_addr st)) st =
    Ok (tt, st <| cs_framer := f0 |>)) by done.
  erewrite bind_Ok by exact E0.
  assert (E1 : zoom cs_framer framer_create (st <| cs_framer := f0 |>) = Ok (r, st <| cs_framer := f |>)).
  { unfold zoom. change (cs_framer (st <| cs_framer := f0 |>)) with f0. rewrite Er. by destruct st. }
  erewrite bind_Ok by exact E1. clear E0 E1.
  destruct (r <? 0).
  - exists MAC_TX_ERR_FATAL, [], (st <| cs_framer := f |>). split; [|by destruct st].
    split; [|done|exact Haf|done|by left].
    exists f, (radio_results st). destruct st. unfold update. cbn. by rewrite app_nil_r.
  - set (frame := take (Z.to_nat (bufptr (fr_pb f) + Packetbuf.hdrlen (fr_pb f) + buflen (fr_pb f))) (packetbuf (fr_pb f))).
    exists (status_of_radio (radio_results st 0)), [frame],
      (st <| cs_framer := f |> <| radio_results ::= fun r n => r (S n) |>
          <| radio_frames ::= fun l => l ++ [frame] |>).
    split.
    + split; [by eexists f, _| |exact Haf|done|right; eauto].
      exact (wf0_radio _ (fun n => radio_results st (S n)) (radio_frames st ++ [frame]) Wf).
    + assert (Ep : forall A (m : PB A) a, m (fr_pb f) = Ok (a, fr_pb f) ->
        cs_pb m (st <| cs_framer := f |>) = Ok (a, st <| cs_framer := f |>)).
      { intros A m a E. unfold cs_pb, fr_buf, zoom. change (cs_framer (st <| cs_framer := f |>)) with f.
        rewrite E. by destruct st, f. }
      erewrite bind_Ok; [|erewrite bind_Ok by (by apply Ep);
        erewrite bind_Ok by (apply Ep, totlen_eq, Hwf);
        erewrite bind_Ok by (apply Ep, pb_load_ok; [lia|]; rewrite (wf_size _ Hwf);
          pose proof (wf_total _ Hwf); pose proof (wf_hdrlen _ Hwf); pose proof (wf_bufptr _ Hwf);
          pose proof (wf_buflen _ Hwf); lia);
        reflexivity].
      done.
Qed.

(** ** The abstract queue of a neighbour *)

(** What becomes of the packets of a neighbour when its timer expires, [ss] being
    how the transmissions end: the calls of the owners, the packets that remain, and
    the transmissions and collisions counted for the first of them. *)
Fixpoint serve (q : list qbuf_metadata) (t c : Z) (ss : list Z) :
    list sent_call * (list qbuf_metadata * Z * Z) :=
  match q, ss with
  | md :: q', s :: ss' =>
      match verdict s (md_max_transmissions md) t c with
      | inl (s', ntx) =>
          if s =? MAC_TX_OK
          then let '(calls, r) := serve q' 0 0 ss' in (call_for md s' ntx ++ calls, r)
          else (call_for md s' ntx, (q', 0, 0))
      | inr (t', c') => ([], (q, t', c'))
      end
  | _, _ => ([], (q, t, c))
  end.

(** The layer after the timer of [n] expired: [ss] are the ends of the transmissions,
    [fs] the frames the radio was given. *)
Record served (st st' : csma_st) (n : nat) (nq : neighbor_queue) (ss : list Z) (fs : list (list Z)) : Prop := {
  sv_wf : csma_wf0 st';
  sv_others : forall n', n' <> n -> nq_of st' n' = nq_of st n';
  sv_entry : forall x, entry st' x = entry st x;
  sv_frames : radio_frames st' = radio_frames st ++ fs;
  sv_results : forall i, radio_results st' i = radio_results st (length fs + i)%nat;
  sv_statuses : filter (.≠ MAC_TX_ERR_FATAL) ss =
    (fun i => status_of_radio (radio_results st i)) <$> seq 0 (length fs);
  sv_stop : exists k s, ss = replicate k MAC_TX_OK ++ [s] /\
    (S k <= length (nq_queued_packet_list nq))%nat /\
    (s = MAC_TX_OK -> S k = length (nq_queued_packet_list nq));
  sv_queue : exists ps calls t c, ps `suffix_of` nq_queued_packet_list nq /\
    serve (omap (entry st) (nq_queued_packet_list nq)) (nq_transmissions nq) (nq_collisions nq) ss =
      (calls, (omap (entry st) ps, t, c)) /\
    sent_calls st' = sent_calls st ++ calls /\
    if decide (ps = []) then neighbor_list st' = seq_remove n (neighbor_list st)
    else neighbor_list st' = neighbor_list st /\ in_u 8 t /\ 0 <= c <= CSMA_MAX_BACKOFF /\
      exists d, 0 <= d <= max_delay c /\ nq_of st' n = Some (mk_neighbor_queue (nq_addr nq) (Some d) t c ps);
}.

Lemma verdict_range s max t c t' c' :
  in_u 8 t -> 0 <= c <= CSMA_MAX_BACKOFF -> verdict s max t c = inr (t', c') ->
  in_u 8 t' /\ 0 <= c' <= CSMA_MAX_BACKOFF.
Proof.
  intros Ht Hc. unfold verdict, CSMA_MAX_BACKOFF in *.
  pose proof (u8_range (t + 1)). pose proof (u8_range (c + 1)).
  destruct (s =? MAC_TX_OK); [done|]. destruct (s =? MAC_TX_NOACK).
  - destruct (max <=? _); [done|]. intros [= <- <-]. unfold in_u in *. lia.
  - destruct (s =? MAC_TX_COLLISION); [|done].
    destruct (Z.ltb_spec 5 (c +8 1)) as [H1|H1]; destruct (max <=? _); try done; intros [= <- <-]; unfold in_u in *; lia.
Qed.

Lemma verdict_ok max t c : verdict MAC_TX_OK max t c = inl (MAC_TX_OK, t +8 1).
Proof. done. Qed.

(** A packet is in the queue of one neighbour only. *)
Lemma queue_disjoint st n n' p :
  csma_wf0 st -> n ∈ neighbor_list st -> n' ∈ neighbor_list st ->
  p ∈ queue st n -> p ∈ queue st n' -> n' = n.
Proof.
  intros W Hn Hn' Hp Hp'. destruct (decide (n' = n)) as [|Hne]; [done|exfalso].
  pose proof (wf0_nodup _ W) as H. rewrite (all_split st n W Hn) in H.
  apply NoDup_app in H as (_ & H & _). apply (H p Hp). apply list_elem_of_bind. exists n'.
  split; [done|]. apply elem_of_seq_remove. done.
Qed.

Lemma nq_exists st n : csma_wf0 st -> n ∈ neighbor_list st -> is_Some (nq_of st n).
Proof. intros W Hn. exact (owned_block _ _ _ (w0_neighbors _ W) Hn). Qed.

Lemma packet_next_run st n p ps :
  csma_wf0 st -> n ∈ neighbor_list st -> queue st n = p :: ps ->
  packet_next p (neighbor_list st) st = Ok (head ps, st).
Proof.
  intros W Hn Hq.
  enough (H : forall l, (forall x, x ∈ l -> x ∈ neighbor_list st) -> n ∈ l ->
    packet_next p l st = Ok (head ps, st)) by by apply H.
  induction l as [|x l IH]; intros Hl Hin; [by apply elem_of_nil in Hin|].
  destruct (nq_exists st x W) as [nqx Hx]; [by apply Hl; left|].
  cbn [packet_next]. erewrite bind_Ok by (by apply load_run).
  rewrite <- (queue_eq _ _ _ Hx).
  destruct (decide (x = n)) as [->|Hne].
  - rewrite Hq, bool_decide_true by by left. cbn. by rewrite decide_True.
  - rewrite bool_decide_false.
    + apply IH; [intros; apply Hl; by right|]. set_solver.
    + intros Hp. apply Hne, (queue_disjoint st n x p W); [done|by apply Hl; left|rewrite Hq; by left|done].
Qed.

Lemma suffix_seq_remove (p : nat) q : NoDup (p :: q) -> seq_remove p (p :: q) = q.
Proof. intros H. exact (seq_remove_split p [] q H). Qed.

Lemma status_not_deferred r : status_of_radio r <> MAC_TX_DEFERRED /\ status_of_radio r <> MAC_TX_ERR_FATAL.
Proof. unfold status_of_radio. by repeat case_match. Qed.

(** One packet of [send_list]: it is sent, and the verdict is carried out. *)
Lemma send_head_run st n nq p ps md fuel :
  csma_wf0 st -> n ∈ neighbor_list st -> nq_of st n = Some nq ->
  nq_queued_packet_list nq = p :: ps -> entry st p = Some md ->
  0 <= nq_collisions nq <= CSMA_MAX_BACKOFF ->
  exists f s fs st1 st', transmitted (st <| cs_framer := f |>) st1 s fs /\
    sent_result st1 st' n p nq md s /\
    send_list (S fuel) (Some (packet_sent (Some n))) (Some p) st =
      (if s =? MAC_TX_OK then send_list fuel (Some (packet_sent (Some n))) (head ps) st'
       else Ok (tt, st')).
Proof.
  intros W Hn Hnq Hq He Hc. pose proof (queue_eq _ _ _ Hnq) as Hqn. rewrite Hq in Hqn.
  assert (Hpa : p ∈ all_packets st) by (apply (elem_of_all st n); [done|rewrite Hqn; by left]).
  destruct (packet_blocks st p W Hpa) as (m & b & md' & L & P & Hb & Hm & He' & (d & Hd & Hl & Hda & Hds)).
  destruct (w0_bufs _ W) as [Wq _ _].
  destruct (queuebuf_to_packetbuf_run (cs_queue st) b d Wq Hd Hl) as (pb & Eb & Hpb & Hat & _).
  set (f := (cs_framer st) <| fr_pb := pb |>). set (st0 := st <| cs_framer := f |>).
  assert (W0 : csma_wf0 st0) by (apply wf0_pb; cbn; [done..|by rewrite Hat]).
  destruct (send_one_run st0 (Some (packet_sent (Some n))) W0) as (s & fs & st1 & T & Es).
  { cbn. by rewrite Hat. }
  exists f, s, fs, st1. destruct T as [(f1 & rr & E1) W1 Hat1 Hrr Hs].
  assert (Hdef : s <> MAC_TX_DEFERRED) by (destruct Hs as [[-> _]|[-> _]]; [done|apply status_not_deferred]).
  destruct (packet_sent_run st1 n p ps nq md b m d s W1) as (st' & Ep & R); try done.
  1-5: by rewrite E1.
  { rewrite Hat1. cbn. by rewrite Hat. }
  exists st'. split; [by split; [exists f1, rr|..]|]. split; [done|].
  cbn [send_list]. rewrite bind_gets. erewrite bind_Ok by (by apply (packet_next_run st n p ps)).
  erewrite bind_Ok by (by apply load_run). cbn [rb_buf].
  assert (Eq : cs_qb (queuebuf_to_packetbuf b) st = Ok (tt, st0)).
  { unfold cs_qb. rewrite Eb. unfold st0, f. destruct st as [[] ????????????]. done. }
  erewrite bind_Ok by exact Eq.
  erewrite bind_Ok by (rewrite Es; erewrite bind_Ok by (exact Ep); reflexivity).
  cbv beta. by destruct (s =? MAC_TX_OK).
Qed.

Lemma transmitted_statuses st f st1 s fs :
  transmitted (st <| cs_framer := f |>) st1 s fs ->
  filter (.≠ MAC_TX_ERR_FATAL) [s] = (fun i => status_of_radio (radio_results st i)) <$> seq 0 (length fs).
Proof.
  intros [_ _ _ _ [[-> ->]|[-> [f' ->]]]]; [done|]. cbn [length seq fmap list_fmap].
  rewrite filter_cons_True; [done|]. apply status_not_deferred.
Qed.

(** The queue after its head was reported. *)
Lemma served_freed st f st1 st' n nq p ps md s fs s' ntx :
  csma_wf0 st -> n ∈ neighbor_list st -> nq_of st n = Some nq ->
  nq_queued_packet_list nq = p :: ps -> entry st p = Some md ->
  transmitted (st <| cs_framer := f |>) st1 s fs ->
  verdict s (md_max_transmissions md) (nq_transmissions nq) (nq_collisions nq) = inl (s', ntx) ->
  freed st1 st' n p nq md (call_for md s' ntx) -> (s = MAC_TX_OK -> ps = []) ->
  served st st' n nq [s] fs.
Proof.
  intros W Hn Hnq Hq He T Hv F Hok. pose proof (transmitted_statuses _ _ _ _ _ T) as Hst.
  destruct T as [(f1 & rr & E1) W1 Hat1 Hrr Hs]. destruct F as [F1 F2 [F3 F4] Fe F7 F8 F9].
  pose proof (queue_nodup st n W Hn) as Hnd. rewrite (queue_eq _ _ _ Hnq), Hq in Hnd.
  rewrite Hq, suffix_seq_remove in F8, F9 by done.
  split; [done| | | | |done| |].
  - intros n' Hne. rewrite F7, E1; done.
  - intros x. by rewrite Fe, E1.
  - by rewrite F4, E1.
  - intros i. rewrite F3. apply Hrr.
  - exists O, s. split; [done|]. rewrite Hq. split; [cbn; lia|]. intros E. by rewrite Hok.
  - exists ps, (call_for md s' ntx), 0, 0. rewrite Hq. split; [by exists [p]|].
    split; [|split; [by rewrite F2, E1|]].
    + cbn [omap list_omap]. rewrite He. cbn [serve]. rewrite Hv. destruct (Z.eqb_spec s MAC_TX_OK) as [E|E]; [|done].
      rewrite Hok by done. cbn. by rewrite app_nil_r.
    + case_decide as Ed; [by rewrite F8, E1|]. split; [by rewrite F8, E1|]. split; [done|]. split; [done|].
      exists 0. split; [done|]. rewrite F9 by done. unfold after_packet. rewrite Hq, suffix_seq_remove by done.
      by destruct nq.
Qed.

(** The queue when its head has to be sent again. *)
Lemma served_retried st f st1 st' n nq p ps md s fs t c :
  nq_of st n = Some nq ->
  nq_queued_packet_list nq = p :: ps -> entry st p = Some md ->
  in_u 8 (nq_transmissions nq) -> 0 <= nq_collisions nq <= CSMA_MAX_BACKOFF ->
  transmitted (st <| cs_framer := f |>) st1 s fs ->
  verdict s (md_max_transmissions md) (nq_transmissions nq) (nq_collisions nq) = inr (t, c) ->
  retried st1 st' n nq t c ->
  served st st' n nq [s] fs.
Proof.
  intros Hnq Hq He Ht Hc T Hv R. pose proof (transmitted_statuses _ _ _ _ _ T) as Hst.
  destruct (verdict_range _ _ _ _ _ _ Ht Hc Hv) as [Ht' Hc'].
  destruct T as [(f1 & rr & E1) W1 Hat1 Hrr Hs]. destruct R as [R1 R2 [R3 R4] [R5 R6] R7 R8 (d & Hd & R9)].
  split; [done| | | | |done| |].
  - intros n' Hne. rewrite R7, E1; done.
  - intros x. unfold entry. by rewrite R5, R6, E1.
  - by rewrite R4, E1.
  - intros i. rewrite R3. apply Hrr.
  - exists O, s. split; [done|]. rewrite Hq. split; [cbn; lia|]. by intros ->.
  - exists (p :: ps), [], t, c. rewrite Hq. split; [done|].
    split; [|split; [by rewrite R2, E1, app_nil_r|]].
    + cbn [omap list_omap]. rewrite He. cbn [serve]. by rewrite Hv.
    + split; [by rewrite R8, E1|]. split; [done|]. split; [done|]. exists d. split; [done|]. rewrite R9.
      destruct nq. cbn in Hq. by subst.
Qed.

(** The head was sent, the rest of the queue is served. *)
Lemma served_cons st f st1 st' st'' n nq p ps md fs ss fs' ntx :
  csma_wf0 st -> n ∈ neighbor_list st -> nq_of st n = Some nq ->
  nq_queued_packet_list nq = p :: ps -> ps <> [] -> entry st p = Some md ->
  transmitted (st <| cs_framer := f |>) st1 MAC_TX_OK fs ->
  freed st1 st' n p nq md (call_for md MAC_TX_OK ntx) -> ntx = nq_transmissions nq +8 1 ->
  served st' st'' n (after_packet nq p) ss fs' ->
  served st st'' n nq (MAC_TX_OK :: ss) (fs ++ fs').
Proof.
  intros W Hn Hnq Hq Hps He T F Hntx [S1 S2 S3 S4 S5 S6 S7 S8].
  pose proof (transmitted_statuses _ _ _ _ _ T) as Hst.
  destruct T as [(f1 & rr & E1) W1 Hat1 Hrr Hs]. destruct F as [F1 F2 [F3 F4] Fe F7 F8 F9].
  pose proof (queue_nodup st n W Hn) as Hnd. rewrite (queue_eq _ _ _ Hnq), Hq in Hnd.
  rewrite Hq, suffix_seq_remove, decide_False in F8 by done.
  assert (Hq1 : nq_queued_packet_list (after_packet nq p) = ps).
  { unfold after_packet. rsimpl. by rewrite Hq, suffix_seq_remove. }
  rewrite Hq1 in S7, S8.
  assert (Hlen : length fs = 1%nat) by (by destruct Hs as [[? _]|[_ [? ->]]]).
  split; [done| | | | | | |].
  - intros n' Hne. rewrite S2, F7, E1; done.
  - intros x. by rewrite S3, Fe, E1.
  - rewrite S4, F4, E1. cbn. by rewrite app_assoc.
  - intros i. rewrite S5, F3, Hrr, length_app. f_equal. lia.
  - rewrite length_app, Hlen, seq_app, fmap_app. rewrite Hlen in Hst. rewrite <- Hst.
    rewrite filter_cons_True, filter_cons_True, filter_nil by done. rewrite S6. cbn. f_equal.
    rewrite <- fmap_S_seq, <- list_fmap_compose. apply list_fmap_ext. intros i x Hx.
    cbn. by rewrite F3, Hrr, Hlen.
  - destruct S7 as (k & s & -> & Hk & Hs'). exists (S k), s. rewrite Hq. cbn. split; [done|]. split; [lia|].
    intros E. by rewrite <- Hs'.
  - destruct S8 as (ps' & calls & t & c & Hsuf & Hserve & Hcalls & Hfin).
    exists ps', (call_for md MAC_TX_OK ntx ++ calls), t, c. rewrite Hq. split; [by apply suffix_cons_r|].
    rewrite !(omap_entry st' st) in Hserve by (intros x; by rewrite Fe, E1). change (nq_transmissions (after_packet nq p)) with 0 in Hserve.
    change (nq_collisions (after_packet nq p)) with 0 in Hserve.
    split; [|split; [by rewrite Hcalls, F2, E1, <- app_assoc|]].
    + cbn [omap list_omap]. rewrite He. cbn [serve]. rewrite verdict_ok, <- Hntx. cbn [Z.eqb MAC_TX_OK]. by rewrite Hserve.
    + rewrite F8, E1 in Hfin. exact Hfin.
Qed.

(** [send_list] serves the queue, and its fuel is never used up. *)
Lemma send_list_run n : forall fuel st nq,
  csma_wf0 st -> n ∈ neighbor_list st -> nq_of st n = Some nq ->
  nq_queued_packet_list nq <> [] -> (length (nq_queued_packet_list nq) <= fuel)%nat ->
  0 <= nq_collisions nq <= CSMA_MAX_BACKOFF -> in_u 8 (nq_transmissions nq) ->
  exists st' ss fs,
    send_list fuel (Some (packet_sent (Some n))) (head (nq_queued_packet_list nq)) st = Ok (tt, st') /\
    served st st' n nq ss fs.
Proof.
  induction fuel as [|fuel IH]; intros st nq W Hn Hnq Hne Hf Hc Ht.
  { by destruct (nq_queued_packet_list nq); [|cbn in Hf; lia]. }
  destruct (nq_queued_packet_list nq) as [|p ps] eqn:Hq; [done|]. clear Hne. cbn in Hf.
  assert (Hpa : p ∈ all_packets st).
  { apply (elem_of_all st n); [done|]. rewrite (queue_eq _ _ _ Hnq), Hq. by left. }
  destruct (packet_blocks st p W Hpa) as (_ & _ & md & _ & _ & _ & _ & He & _).
  destruct (send_head_run st n nq p ps md fuel) as (f & s & fs & st1 & st' & T & R & E); [done..|].
  cbn [head]. rewrite E. unfold sent_result in R.
  destruct (verdict s _ _ _) as [[s' ntx]|[t c]] eqn:Hv.
  - destruct (Z.eqb_spec s MAC_TX_OK) as [->|Hs].
    + destruct ps as [|p2 ps].
      * exists st', [MAC_TX_OK], fs. split; [by destruct fuel|]. by eapply served_freed.
      * assert (Hnq' : nq_of st' n = Some (after_packet nq p)).
        { apply (fd_this _ _ _ _ _ _ _ R). rewrite Hq, suffix_seq_remove; [done|].
          rewrite <- Hq, <- (queue_eq _ _ _ Hnq). by apply queue_nodup. }
        assert (Hq' : nq_queued_packet_list (after_packet nq p) = p2 :: ps).
        { unfold after_packet. rsimpl. rewrite Hq, suffix_seq_remove; [done|].
          rewrite <- Hq, <- (queue_eq _ _ _ Hnq). by apply queue_nodup. }
        rewrite verdict_ok in Hv. injection Hv as <- <-.
        destruct (IH st' (after_packet nq p)) as (st'' & ss & fs' & E' & S).
        { apply R. }
        { rewrite (fd_list _ _ _ _ _ _ _ R), decide_False.
          - by destruct T as [(f1 & rr & ->) _ _ _ _].
          - unfold after_packet in Hq'. rsimpl. by rewrite Hq'. }
        { done. }
        { by rewrite Hq'. }
        { rewrite Hq'. cbn in *. lia. }
        { done. }
        { done. }
        rewrite Hq' in E'. exists st'', (MAC_TX_OK :: ss), (fs ++ fs'). split; [done|].
        by eapply served_cons.
    + exists st', [s], fs. split; [done|]. by eapply served_freed.
  - destruct (Z.eqb_spec s MAC_TX_OK) as [->|Hs]; [done|].
    exists st', [s], fs. split; [done|]. by eapply served_retried.
Qed.

(** ** The timer of a neighbour *)

(** The timer of [n] expires: its queue is served. *)
Lemma expires_run st n :
  csma_wf st -> n ∈ neighbor_list st ->
  exists d nq st' ss fs, nq_of st n = Some nq /\ nq_transmit_timer nq = Some d /\
    transmit_timer_expires n st = Ok (d, st') /\ csma_wf st' /\ served st st' n nq ss fs.
Proof.
  intros [W H] Hn. destruct (H n Hn) as (nq & d & Hnq & Hne & Hd & Hd0 & Hc & Ht).
  set (h := fun nq => nq <| nq_transmit_timer := None |>).
  destruct (send_list_run n SEND_FUEL (upd_n n h st) (h nq)) as (st' & ss & fs & E & S).
  { by apply wf0_upd. }
  { done. }
  { by apply nq_upd_eq. }
  { done. }
  { change (nq_queued_packet_list (h nq)) with (nq_queued_packet_list nq).
    destruct (w0_packets _ W) as (L & [P1 P2 _ _ _]). unfold SEND_FUEL.
    rewrite <- (w0_size _ W). etransitivity; [|exact (owned_length _ _ P2)].
    rewrite <- P1, (all_split st n W Hn), length_app, (queue_eq _ _ _ Hnq). lia. }
  { done. }
  { done. }
  assert (S' : served st st' n nq ss fs).
  { destruct S as [S1 S2 S3 S4 S5 S6 S7 S8]. split; try done.
    intros n' Hne'. rewrite S2 by done. by apply nq_upd_ne. }
  exists d, nq, st', ss, fs. split; [done|]. split; [done|]. split; [|split; [|done]].
  - unfold transmit_timer_expires. erewrite bind_Ok by (by apply load_run). rewrite Hd.
    erewrite bind_Ok by reflexivity. erewrite bind_Ok by apply on_n_run.
    erewrite bind_Ok; [reflexivity|]. unfold transmit_packet_list.
    erewrite bind_Ok by (by apply load_run, nq_upd_eq).
    destruct (head _) eqn:Eh; [exact E|]. change (head (nq_queued_packet_list nq) = None) in Eh.
    by destruct (nq_queued_packet_list nq).
  - destruct S' as [S1 S2 _ _ _ _ _ (ps & calls & t & c & _ & _ & _ & S8)]. split; [done|].
    intros n' Hn'. destruct (decide (n' = n)) as [->|Hne'].
    + case_decide as Eps.
      * rewrite S8 in Hn'. by apply elem_of_seq_remove in Hn' as [? _].
      * destruct S8 as (_ & Ht' & Hc' & d' & Hd' & Hnq'). eexists _, d'. split; [done|]. cbn. 
        repeat split; try done; try lia; apply Ht'.
    + unfold neighbor_ok. rewrite S2 by done. apply H. case_decide as Eps.
      * rewrite S8 in Hn'. by apply elem_of_seq_remove in Hn' as [_ ?].
      * by rewrite <- (proj1 S8).
Qed.

(** ** A packet is handed to the layer *)

(** Nothing of the queues changed, nothing was sent and nobody was called. *)
Record unchanged (st st' : csma_st) : Prop := {
  un_wf : csma_wf0 st';
  un_list : neighbor_list st' = neighbor_list st;
  un_nq : forall n, n ∈ neighbor_list st -> nq_of st' n = nq_of st n;
  un_entry : forall p, p ∈ all_packets st -> entry st' p = entry st p;
  un_calls : sent_calls st' = sent_calls st;
  un_radio : radio_results st' = radio_results st /\ radio_frames st' = radio_frames st;
}.

Lemma unchanged_packets st st' : unchanged st st' -> all_packets st' = all_packets st.
Proof.
  intros []. unfold all_packets. rewrite un_list0. apply bind_ext_in. intros n Hn. unfold queue.
  by rewrite un_nq0.
Qed.

Lemma unchanged_trans st1 st2 st3 : unchanged st1 st2 -> unchanged st2 st3 -> unchanged st1 st3.
Proof.
  intros U V. pose proof (unchanged_packets _ _ U) as Ep. destruct U as [? U1 U2 U3 U4 [U5 U6]], V as [? V1 V2 V3 V4 [V5 V6]].
  split; [done|congruence| | |congruence|split; congruence].
  - intros n Hn. rewrite V2, U2; congruence.
  - intros p Hp. rewrite V3, U3; congruence.
Qed.

(** The random numbers, the sequence number and the attributes are not part of the
    queues. *)
Lemma unchanged_head st f i s :
  csma_wf0 st -> pb_wf (fr_pb f) -> length (packetbuf_attrs (fr_pb f)) = PACKETBUF_NUM_ATTRS -> in_u 16 s ->
  unchanged st (st <| cs_framer := f |> <| csma_initialized := i |> <| csma_seqno := s |>).
Proof.
  intros W Hf Ha Hs. split; try done.
  apply (wf0_ext (st <| cs_framer := f |>)); try done; [by apply wf0_pb| |by apply W].
  destruct (w0_bufs _ (wf0_pb st f W Hf Ha)). by split.
Qed.

Lemma next_seqno_run st :
  csma_wf0 st ->
  exists s f i s', next_seqno st =
      Ok (s, st <| cs_framer := f |> <| csma_initialized := i |> <| csma_seqno := s' |>) /\
    1 <= s < 2 ^ 16 /\ in_u 16 s' /\ fr_pb f = fr_pb (cs_framer st) /\ mac_pan_id f = mac_pan_id (cs_framer st).
Proof.
  intros W. unfold next_seqno.
  assert (H : exists s0 f i, when (negb (c_true (csma_initialized st))) ((csma_initialized <~ 1) ;; r ← cs_random_rand; csma_seqno <~ r) st =
      Ok (tt, st <| cs_framer := f |> <| csma_initialized := i |> <| csma_seqno := s0 |>) /\
    in_u 16 s0 /\ fr_pb f = fr_pb (cs_framer st) /\ mac_pan_id f = mac_pan_id (cs_framer st)).
  { destruct (c_true (csma_initialized st)) eqn:Ei; cbn [negb when].
    - exists (csma_seqno st), (cs_framer st), (csma_initialized st). split; [by destruct st|].
      split; [apply W|done].
    - eexists (u16 (fr_rnd (cs_framer st) 0)), _, 1. split; [reflexivity|].
      split; [unfold in_u; apply u16_range|done]. }
  destruct H as (s0 & f & i & E & Hs0 & Hf & Hp). rewrite bind_gets.
  erewrite bind_Ok by exact E. rewrite bind_gets.
  change (csma_seqno (_ <| csma_seqno := s0 |>)) with s0.
  destruct (Z.eqb_spec s0 0) as [->|Hne]; unfold when.
  - exists 1, f, i, 2. split; [by destruct st|]. unfold in_u. split; [lia|]. split; [lia|done].
  - exists s0, f, i, (s0 +16 1). split; [by destruct st|]. unfold in_u in *.
    pose proof (u16_range (s0 + 1)). split; [lia|]. by split.
Qed.

Lemma neighbor_loop_run st addr : forall l,
  (forall n, n ∈ l -> is_Some (nq_of st n)) ->
  exists o, neighbor_loop addr l st = Ok (o, st) /\
    match o with
    | Some n => n ∈ l /\ exists nq, nq_of st n = Some nq /\ nq_addr nq = addr
    | None => forall n nq, n ∈ l -> nq_of st n = Some nq -> nq_addr nq <> addr
    end.
Proof.
  induction l as [|x l IH]; intros H.
  { exists None. split; [done|]. by intros n nq ?%elem_of_nil. }
  destruct (H x) as [nq Hx]; [by left|]. cbn [neighbor_loop]. erewrite bind_Ok by (by apply load_run).
  destruct (Z.eqb_spec (nq_addr nq) addr) as [E|E].
  - exists (Some x). split; [done|]. split; [by left|]. by exists nq.
  - destruct IH as (o & Eo & Ho); [intros; apply H; by right|]. exists o. split; [done|].
    destruct o as [n|]; [split; [right|]; apply Ho|].
    intros n nq' Hin Hnq'. apply elem_of_cons in Hin as [->|Hin]; [congruence|by eapply Ho].
Qed.

(** A new neighbour has an empty queue. *)
Lemma new_neighbor_run st addr :
  csma_wf0 st ->
  exists o st', new_neighbor addr st = Ok (o, st') /\
    match o with
    | None => st' = st /\ pool_full (neighbor_memb st)
    | Some n => ~ pool_full (neighbor_memb st) /\ csma_wf0 st' /\ n ∉ neighbor_list st /\ neighbor_list st' = neighbor_list st ++ [n] /\
        (forall n', n' ∈ neighbor_list st -> nq_of st' n' = nq_of st n') /\
        (exists tm, nq_of st' n = Some (mk_neighbor_queue addr tm 0 CSMA_MIN_BE [])) /\
        cs_framer st' = cs_framer st /\ cs_queue st' = cs_queue st /\
        packet_memb st' = packet_memb st /\ metadata_memb st' = metadata_memb st /\
        sent_calls st' = sent_calls st /\
        radio_results st' = radio_results st /\ radio_frames st' = radio_frames st
    end.
Proof.
  intros W. unfold new_neighbor, pool_full. destruct (pool_alloc (neighbor_memb st)) as [[n|] p'] eqn:Ea.
  - set (h := fun nq => nq <| nq_addr := addr |> <| nq_transmissions := 0 |>
        <| nq_collisions := CSMA_MIN_BE |> <| nq_queued_packet_list := [] |>).
    destruct (owned_alloc _ _ _ _ (w0_neighbors _ W) Ea) as (Hn & Ho & Hb & [nq0 H0]).
    exists (Some n), ((upd_n n h (st <| neighbor_memb := p' |>)) <| neighbor_list ::= seq_add n |>).
    split.
    { erewrite bind_Ok by (unfold alloc_in; rewrite Ea; reflexivity). by destruct st. }
    set (st' := _ <| neighbor_list ::= _ |>).
    assert (El : neighbor_list st' = neighbor_list st ++ [n]).
    { change (neighbor_list st') with (seq_add n (neighbor_list st)). unfold seq_add.
      by rewrite seq_remove_notin. }
    assert (Hnq : forall n', n' ∈ neighbor_list st -> nq_of st' n' = nq_of st n').
    { intros n' Hn'. change (nq_of st' n') with (nq_of (upd_n n h (st <| neighbor_memb := p' |>)) n').
      rewrite nq_upd_ne by by intros ->. unfold nq_of. change (neighbor_memb (_ <| neighbor_memb := p' |>)) with p'.
      by rewrite Hb. }
    split; [done|].
    assert (Hnew : nq_of st' n = Some (h nq0)).
    { change (nq_of st' n) with (nq_of (upd_n n h (st <| neighbor_memb := p' |>)) n). by apply nq_upd_eq. }
    split.
    + destruct W as [Wb Ws Wn (L & [P1 P2 P3 P4 P5]) Wz]. split; [destruct Wb; by split|done| | |done].
      * rewrite El. apply owned_write. change (neighbor_memb (_ <| neighbor_memb := p' |>)) with p'.
        rewrite (Permutation_app_comm (neighbor_list st)). done.
      * exists L. split; try done. unfold all_packets. rewrite El, bind_app, bind_cons.
        unfold queue at 2. rewrite Hnew. cbn. rewrite app_nil_r. rewrite <- P1. unfold all_packets.
        rewrite (bind_ext_in _ (queue st') (queue st)); [done|]. intros x Hx. unfold queue. by rewrite Hnq.
    + split; [done|]. split; [done|]. split; [done|]. split; [|done]. rewrite Hnew. by eexists.
  - apply pool_alloc_None in Ea as Ea'. destruct Ea' as [-> _]. exists None, st. split; [|done].
    erewrite bind_Ok by (unfold alloc_in; rewrite Ea; reflexivity). by destruct st.
Qed.

(** Blocks that are not in use may be written, queue buffers that are may not change. *)
Lemma unchanged_pools st st' L :
  csma_wf0 st -> packets_in st L -> bufs_wf st' ->
  (forall b d, queued (cs_queue st) b d -> queued (cs_queue st') b d) ->
  pool_owned (packet_memb st') L.*1 -> pool_owned (metadata_memb st') L.*2.*1 ->
  (forall p, p ∈ L.*1 -> pl_blocks (packet_memb st') !! p = pl_blocks (packet_memb st) !! p) ->
  (forall m, m ∈ L.*2.*1 -> pl_blocks (metadata_memb st') !! m = pl_blocks (metadata_memb st) !! m) ->
  length (pl_blocks (packet_memb st')) = length (pl_blocks (packet_memb st)) ->
  neighbor_list st' = neighbor_list st -> neighbor_memb st' = neighbor_memb st ->
  csma_seqno st' = csma_seqno st -> sent_calls st' = sent_calls st ->
  radio_results st' = radio_results st -> radio_frames st' = radio_frames st ->
  unchanged st st'.
Proof.
  intros W [P1 P2 P3 P4 P5] Hb Hqd Ho1 Ho2 Hp Hm Hlen Hl Hn Hs Hc Hr1 Hr2.
  assert (Hin : forall p m b, (p, (m, b)) ∈ L -> p ∈ L.*1 /\ m ∈ L.*2.*1).
  { intros p m b Hin. split; apply list_elem_of_fmap; [by exists (p, (m, b))|].
    exists (m, b). split; [done|]. apply list_elem_of_fmap. by exists (p, (m, b)). }
  assert (Hnq : forall n, nq_of st' n = nq_of st n) by (intros n; unfold nq_of; by rewrite Hn).
  split; try done.
  - split; [done|rewrite Hs; apply W|rewrite Hn, Hl; apply W| |rewrite Hlen; apply W].
    exists L. split; try done.
    + rewrite <- P1. unfold all_packets. rewrite Hl. rewrite (bind_ext_in _ (queue st') (queue st)); [done|].
      intros x _. unfold queue. by rewrite Hnq.
    + intros p m b Hpm. destruct (Hin _ _ _ Hpm) as [Hp1 _]. rewrite Hp by done.
      destruct (P5 _ _ _ Hpm) as [? (d & Hd & Hd')]. split; [done|]. exists d. split; [by apply Hqd|done].
  - intros p Hpa. rewrite P1 in Hpa. pose proof Hpa as Hpa'.
    apply list_elem_of_fmap in Hpa' as ([p' [m b]] & -> & Hpm). cbn in *.
    unfold entry. rewrite Hp by done. destruct (P5 _ _ _ Hpm) as [-> _]. cbn.
    apply Hm, (Hin _ _ _ Hpm).
Qed.

(** How often a packet may be sent. *)
Definition max_of (pb : packetbuf_st) : Z :=
  let a := packetbuf_attrs pb !!! PACKETBUF_ATTR_MAX_MAC_TRANSMISSIONS in
  if a =? 0 then u8 (CSMA_MAX_MAX_FRAME_RETRIES + 1) else u8 a.
Definition is_ack (pb : packetbuf_st) : bool :=
  packetbuf_attrs pb !!! PACKETBUF_ATTR_PACKET_TYPE =? PACKETBUF_ATTR_PACKET_TYPE_ACK.

(** The packet with the metadata [md] was put into the queue of [n]. *)
Record enqueued (st st' : csma_st) (n : nat) (nq : neighbor_queue) (md : qbuf_metadata) (ack : bool) : Prop := {
  en_wf : csma_wf0 st';
  en_list : neighbor_list st' = neighbor_list st;
  en_others : forall n', n' <> n -> nq_of st' n' = nq_of st n';
  en_entry : forall p, p ∈ all_packets st -> entry st' p = entry st p;
  en_calls : sent_calls st' = sent_calls st;
  en_radio : radio_results st' = radio_results st /\ radio_frames st' = radio_frames st;
  en_this : exists q tm, entry st' q = Some md /\
    nq_of st' n = Some (mk_neighbor_queue (nq_addr nq) tm (nq_transmissions nq) (nq_collisions nq)
      (if ack then q :: nq_queued_packet_list nq else nq_queued_packet_list nq ++ [q])) /\
    if decide (ack = true \/ nq_queued_packet_list nq = [])
    then exists d, tm = Some d /\ 0 <= d <= max_delay (nq_collisions nq)
    else tm = nq_transmit_timer nq;
}.

Lemma enqueue_run st n nq q :
  nq_of st n = Some nq -> q ∉ nq_queued_packet_list nq -> 0 <= nq_collisions nq <= CSMA_MAX_BACKOFF ->
  let ack := is_ack (fr_pb (cs_framer st)) in
  let l := if ack then q :: nq_queued_packet_list nq else nq_queued_packet_list nq ++ [q] in
  exists f tm, enqueue n q st = Ok (tt, upd_n n (fun nq => nq <| nq_queued_packet_list := l |>
      <| nq_transmit_timer := tm |>) (st <| cs_framer := f |>)) /\
    fr_pb f = fr_pb (cs_framer st) /\
    if decide (ack = true \/ nq_queued_packet_list nq = [])
    then exists d, tm = Some d /\ 0 <= d <= max_delay (nq_collisions nq)
    else tm = nq_transmit_timer nq.
Proof.
  intros Hnq Hq Hc ack l. unfold enqueue.
  assert (E : cs_pb (packetbuf_attr PACKETBUF_ATTR_PACKET_TYPE) st =
    Ok (packetbuf_attrs (fr_pb (cs_framer st)) !!! PACKETBUF_ATTR_PACKET_TYPE, st)) by by destruct st as [[] ????????????].
  erewrite bind_Ok by exact E. clear E. cbv beta. erewrite bind_Ok by apply on_n_run.
  fold (is_ack (fr_pb (cs_framer st))). fold ack.
  set (h := fun nq => nq <| nq_queued_packet_list ::= if ack then seq_push q else seq_add q |>).
  assert (Hl : h nq = nq <| nq_queued_packet_list := l |>).
  { unfold h, l, seq_push, seq_add. destruct nq; unfold update; cbn in *.
    by destruct ack; rewrite seq_remove_notin by done. }
  erewrite bind_Ok by (by apply load_run, nq_upd_eq). rewrite Hl. rsimpl.
  assert (Ehead : bool_decide (head l = Some q) =
    if decide (ack = true \/ nq_queued_packet_list nq = []) then true else false).
  { unfold l. destruct ack; [rewrite decide_True by (by left); by rewrite bool_decide_true|].
    destruct (nq_queued_packet_list nq) as [|x l'] eqn:El; cbn.
    - rewrite decide_True by (by right). by rewrite bool_decide_true.
    - rewrite decide_False by naive_solver. rewrite bool_decide_false; [done|]. intros [= ->].
      apply Hq. by left. }
  rewrite Ehead. case_decide as Ed; unfold when.
  - destruct (schedule_run n (h nq) (upd_n n h st)) as (d & f & Es & Hd & Hf & _); [by apply nq_upd_eq|by rewrite Hl|].
    rewrite Hl in Hd. exists f, (Some d). split; [|split; [done|by exists d]]. rewrite Es. do 2 f_equal.
    unfold upd_n, update. cbn. f_equal. f_equal. rewrite list_alter_alter_eq.
    apply list_alter_ext; [|done]. intros x Hx. change (nq_of st n = Some x) in Hx.
    assert (x = nq) as -> by congruence. change ((h nq) <| nq_transmit_timer := Some d |> = nq <| nq_queued_packet_list := l |> <| nq_transmit_timer := Some d |>). by rewrite Hl.
  - exists (cs_framer st), (nq_transmit_timer nq). split; [|done]. unfold skip.
    unfold upd_n, update. destruct st; cbn in *. do 3 f_equal. f_equal.
    apply list_alter_ext; [|done]. intros x Hx. unfold nq_of in Hnq. cbn in Hnq.
    assert (x = nq) as -> by congruence. fold (h nq). rewrite Hl. by destruct nq.
Qed.

(** The blocks of a new packet are filled in and the packet is put into the queue. *)
Lemma enqueued_state st st3 n nq q m b md L f tm (ack : bool) :
  csma_wf0 st -> packets_in st L -> n ∈ neighbor_list st -> nq_of st n = Some nq ->
  bufs_wf st3 -> (forall b d, queued (cs_queue st) b d -> queued (cs_queue st3) b d) ->
  pool_owned (packet_memb st3) (q :: L.*1) -> pool_owned (metadata_memb st3) (m :: L.*2.*1) ->
  b ∉ L.*2.*2 -> buf_ok st3 b ->
  pl_blocks (packet_memb st3) !! q = Some (mk_rdc_buf b (Some m)) ->
  pl_blocks (metadata_memb st3) !! m = Some md ->
  (forall p, p <> q -> pl_blocks (packet_memb st3) !! p = pl_blocks (packet_memb st) !! p) ->
  (forall m', m' <> m -> pl_blocks (metadata_memb st3) !! m' = pl_blocks (metadata_memb st) !! m') ->
  length (pl_blocks (packet_memb st3)) = length (pl_blocks (packet_memb st)) ->
  neighbor_list st3 = neighbor_list st -> neighbor_memb st3 = neighbor_memb st ->
  csma_seqno st3 = csma_seqno st -> sent_calls st3 = sent_calls st ->
  radio_results st3 = radio_results st /\ radio_frames st3 = radio_frames st ->
  fr_pb f = fr_pb (cs_framer st3) ->
  (if decide (ack = true \/ nq_queued_packet_list nq = [])
   then exists d, tm = Some d /\ 0 <= d <= max_delay (nq_collisions nq)
   else tm = nq_transmit_timer nq) ->
  let l := if ack then q :: nq_queued_packet_list nq else nq_queued_packet_list nq ++ [q] in
  enqueued st (upd_n n (fun nq => nq <| nq_queued_packet_list := l |> <| nq_transmit_timer := tm |>)
    (st3 <| cs_framer := f |>)) n nq md ack.
Proof.
  intros W P Hn Hnq Hb Hqd Ho1 Ho2 Hbn Hbok Hq Hm Hpo Hmo Hlen Hl Hnm Hs Hc Hr Hf Htm l.
  set (h := fun nq => nq <| nq_queued_packet_list := l |> <| nq_transmit_timer := tm |>).
  set (st' := upd_n n h (st3 <| cs_framer := f |>)).
  assert (Hnq3 : forall x, nq_of (st3 <| cs_framer := f |>) x = nq_of st x).
  { intros x. unfold nq_of. change (neighbor_memb (_ <| cs_framer := f |>)) with (neighbor_memb st3). by rewrite Hnm. }
  assert (Hnq' : nq_of st' n = Some (h nq)) by (apply nq_upd_eq; by rewrite Hnq3).
  assert (Hother : forall n', n' <> n -> nq_of st' n' = nq_of st n').
  { intros n' Hne. unfold st'. rewrite nq_upd_ne by done. apply Hnq3. }
  assert (Ecq : cs_queue st' = cs_queue st3).
  { unfold cs_queue, st', upd_n. rsimpl. by rewrite Hf. }
  destruct P as [P1 P2 P3 P4 P5].
  assert (Hne : forall p m' b', (p, (m', b')) ∈ L -> p <> q /\ m' <> m).
  { intros p m' b' Hin. destruct Ho1 as [_ _ [N1 _]%NoDup_cons _], Ho2 as [_ _ [N2 _]%NoDup_cons _]. split.
    - intros ->. apply N1, list_elem_of_fmap. by exists (q, (m', b')).
    - intros ->. apply N2, list_elem_of_fmap. exists (m, b'). split; [done|].
      apply list_elem_of_fmap. by exists (p, (m, b')). }
  split; try done.
  - split.
    + destruct Hb as [B1 B2 B3]. split; rewrite ?Ecq; [done|done|]. change (cs_framer st') with f. by rewrite Hf.
    + change (csma_seqno st') with (csma_seqno st3). rewrite Hs. apply W.
    + apply owned_write. change (neighbor_memb (_ <| cs_framer := f |>)) with (neighbor_memb st3).
      change (neighbor_list st') with (neighbor_list st3). rewrite Hnm, Hl. apply W.
    + exists ((q, (m, b)) :: L). split; [|done|done|by apply NoDup_cons|].
      * cbn [fmap list_fmap fst]. rewrite <- P1.
        assert (E : all_packets st' ≡ₚ queue st' n ++ (seq_remove n (neighbor_list st) ≫= queue st)).
        { unfold all_packets. change (neighbor_list st') with (neighbor_list st3). rewrite Hl.
          apply bind_split; [apply W|done|]. intros x _ Hx. unfold queue. by rewrite Hother. }
        rewrite E, (all_split st n W Hn). unfold queue at 1. rewrite Hnq'. cbn. rewrite (queue_eq _ _ _ Hnq).
        unfold l. destruct ack; [done|]. rewrite <- app_assoc. cbn. symmetry. apply Permutation_middle.
      * intros p m' b' Hin. apply elem_of_cons in Hin as [[= -> -> ->]|Hin].
        -- split; [done|]. destruct Hbok as (d & Hd & Hd'). exists d. by rewrite Ecq.
        -- destruct (Hne _ _ _ Hin) as [N1 N2]. destruct (P5 _ _ _ Hin) as [E (d & Hd & Hd')].
           split; [change (packet_memb st') with (packet_memb st3); by rewrite Hpo|].
           exists d. rewrite Ecq. split; [by apply Hqd|done].
    + change (packet_memb st') with (packet_memb st3). rewrite Hlen. apply W.
  - intros p Hp. rewrite P1 in Hp. apply list_elem_of_fmap in Hp as ([p' [m' b']] & -> & Hin). cbn.
    destruct (Hne _ _ _ Hin) as [N1 N2]. destruct (P5 _ _ _ Hin) as [E _].
    unfold entry. change (packet_memb st') with (packet_memb st3).
    change (metadata_memb st') with (metadata_memb st3). rewrite Hpo by done. rewrite E. cbn. by apply Hmo.
  - exists q, tm. split; [|split; [by rewrite Hnq'; destruct nq|done]].
    unfold entry. change (packet_memb st') with (packet_memb st3).
    change (metadata_memb st') with (metadata_memb st3). rewrite Hq. done.
Qed.

(** Write a free block and give it back: the blocks in use are as before. *)
Lemma owned_cycle {A} (p p' : pool A) l i h :
  pool_owned p l -> pool_alloc p = (Some i, p') ->
  let p2 := pool_free i (p' <| pl_blocks ::= alter h i |>) in
  pool_owned p2 l /\ (forall j, j ∈ l -> pl_blocks p2 !! j = pl_blocks p !! j) /\
  length (pl_blocks p2) = length (pl_blocks p).
Proof.
  intros Ho Ea. destruct (owned_alloc _ _ _ _ Ho Ea) as (Hi & Ho' & Hb & _).
  pose proof (owned_write _ _ h i Ho') as Hw. destruct (owned_free _ _ _ Hw) as [Hf Hbf].
  split; [done|]. rewrite Hbf. rsimpl. rewrite Hb. split; [|apply length_alter].
  intros j Hj. apply list_lookup_alter_ne. by intros ->.
Qed.
Lemma owned_cycle0 {A} (p p' : pool A) l i :
  pool_owned p l -> pool_alloc p = (Some i, p') ->
  pool_owned (pool_free i p') l /\ pl_blocks (pool_free i p') = pl_blocks p.
Proof.
  intros Ho Ea. destruct (owned_alloc _ _ _ _ Ho Ea) as (Hi & Ho' & Hb & _).
  destruct (owned_free _ _ _ Ho') as [Hf Hbf]. by rewrite Hbf.
Qed.

(** The layer has no room for one more packet. *)
Definition packets_full (st : csma_st) : Prop :=
  pool_full (packet_memb st) \/ pool_full (metadata_memb st) \/
  pool_full (cs_bufmem st) \/ pool_full (cs_buframmem st).

Lemma queue_packet_run st n nq sent ptr :
  csma_wf0 st -> n ∈ neighbor_list st -> nq_of st n = Some nq ->
  0 <= nq_collisions nq <= CSMA_MAX_BACKOFF ->
  packetbuf_attrs (fr_pb (cs_framer st)) !!! PACKETBUF_ATTR_MAC_SEQNO <> 0 ->
  let pb := fr_pb (cs_framer st) in
  exists ok st', queue_packet n sent ptr st = Ok (ok, st') /\
    if ok : bool then enqueued st st' n nq (mk_metadata sent ptr (max_of pb)) (is_ack pb) /\ ~ packets_full st
    else unchanged st st' /\ packets_full st.
Proof.
  intros W Hn Hnq Hc Hseq pb. destruct (w0_packets _ W) as (L & P). pose proof P as [P1 P2 P3 P4 P5].
  pose proof (w0_bufs _ W) as [Bq Bb Ba]. unfold queue_packet.
  destruct (pool_alloc (packet_memb st)) as [[q|] p1] eqn:E1.
  2: { apply pool_alloc_None in E1 as E1'. destruct E1' as [-> _]. exists false, st. split.
       - erewrite bind_Ok by (unfold alloc_in; rewrite E1; reflexivity). by destruct st.
       - unfold packets_full, pool_full. rewrite E1. split; [by split|by left]. }
  destruct (owned_alloc _ _ _ _ P2 E1) as (Hq & O1 & B1 & [rb0 Hrb0]).
  erewrite bind_Ok by (unfold alloc_in; rewrite E1; reflexivity). cbv iota.
  destruct (pool_alloc (metadata_memb st)) as [[m|] p2] eqn:E2.
  2: { apply pool_alloc_None in E2 as E2'. destruct E2' as [-> _]. eexists false, _. split.
       - erewrite bind_Ok by (unfold alloc_in; rsimpl; rewrite E2; reflexivity). reflexivity.
       - unfold packets_full, pool_full. rewrite E2. split; [|by right; left].
         destruct (owned_cycle _ _ _ q (fun rb => rb <| rb_ptr := None |>) P2 E1) as (C1 & C2 & C3).
         eapply (unchanged_pools _ _ L); try done; by split. }
  destruct (owned_alloc _ _ _ _ P3 E2) as (Hm & O2 & B2 & [md0 Hmd0]).
  erewrite bind_Ok by (unfold alloc_in; rsimpl; rewrite E2; reflexivity). cbv iota.
  set (hq := fun rb => rb <| rb_ptr := Some m |>).
  set (st1 := st <| packet_memb := p1 <| pl_blocks ::= alter hq q |> |> <| metadata_memb := p2 |>).
  erewrite (bind_Ok (set_ptr _ _) _ _ tt st1) by by destruct st.
  destruct (queuebuf_new_run (cs_queue st) Bq Bb) as (ob & q' & Eq & Q1 & Q2 & Q3 & Q4 & Q5).
  set (st2 := st1 <| cs_bufmem := bufmem q' |> <| cs_buframmem := buframmem q' |>).
  assert (Ecq : cs_queue st2 = q').
  { unfold cs_queue, st2, st1. rsimpl. destruct q'. cbn in *. by rewrite Q3. }
  assert (Erun : cs_qb queuebuf_new_from_packetbuf st1 = Ok (ob, st2)).
  { unfold cs_qb. change (cs_queue st1) with (cs_queue st). rewrite Eq. unfold st2, update. cbn.
    rewrite Q3. cbn. by destruct (cs_framer st). }
  erewrite bind_Ok by exact Erun. destruct ob as [b|].
  - set (hb := fun rb => rb <| rb_buf := b |>).
    set (md := mk_metadata sent ptr (max_of pb)).
    set (st3 := st2 <| packet_memb ::= fun p => p <| pl_blocks ::= alter hb q |> |>
                    <| metadata_memb ::= fun p => p <| pl_blocks ::= alter (fun _ => md) m |> |>).
    erewrite bind_Ok by reflexivity.
    assert (Efill : fill_metadata m sent ptr (st2 <| packet_memb ::= fun p => p <| pl_blocks ::= alter hb q |> |>) =
      Ok (tt, st3)).
    { unfold fill_metadata. change (max_of pb) with (max_of pb). unfold st3, md, max_of, pb.
      destruct st as [[] ????????????]. reflexivity. }
    erewrite bind_Ok by exact Efill.
    assert (Hqn : q ∉ nq_queued_packet_list nq).
    { intros Hin. apply Hq. rewrite <- P1. apply (elem_of_all st n); [done|]. by rewrite (queue_eq _ _ _ Hnq). }
    destruct (enqueue_run st3 n nq q Hnq Hqn Hc) as (f & tm & Een & Hf & Htm).
    eexists true, _. split; [erewrite bind_Ok by exact Een; reflexivity|].
    destruct Q5 as (Hf1 & Hf2 & Hb & d & Hd & Hdl & Hda & _).
    split; [|by unfold packets_full, pool_full in *; rewrite E1, E2; intros [?|[?|[?|?]]]].
    apply (enqueued_state st st3 n nq q m b md L f tm); try done.
    + split; change (cs_queue st3) with (cs_queue st2); rewrite ?Ecq; done.
    + do 2 apply owned_write. done.
    + apply owned_write. done.
    + intros Hin. apply list_elem_of_fmap in Hin as ([m' b'] & -> & Hin).
      apply list_elem_of_fmap in Hin as ([p' ?] & [= <-] & Hin).
      destruct (P5 _ _ _ Hin) as [_ (d' & [Hu _] & _)]. done.
    + exists d. change (cs_queue st3) with (cs_queue st2). rewrite Ecq, Hda. done.
    + unfold st3, st2, st1. rsimpl. rewrite !list_lookup_alter_eq, Hrb0. cbn. done.
    + unfold st3, st2, st1. rsimpl. by rewrite list_lookup_alter_eq, Hmd0.
    + intros p Hp. unfold st3, st2, st1. rsimpl. rewrite !list_lookup_alter_ne by done. by rewrite B1.
    + intros m' Hm'. unfold st3, st2, st1. rsimpl. rewrite list_lookup_alter_ne by done. by rewrite B2.
    + unfold st3, st2, st1. rsimpl. by rewrite !length_alter, B1.
  - eexists false, _. split; [reflexivity|].
    split; [|by unfold packets_full; destruct Q5; auto].
    destruct (owned_cycle _ _ _ q hq P2 E1) as (C1 & C2 & C3).
    destruct (owned_cycle0 _ _ _ m P3 E2) as (D1 & D2).
    set (st3 := update packet_memb _ _).
    assert (Ecq3 : cs_queue st3 = q') by exact Ecq.
    eapply (unchanged_pools _ _ L); try done; rewrite ?Ecq3; try done.
    + split; rewrite ?Ecq3; done.
    + intros m' _. change (metadata_memb st3) with (pool_free m p2). by rewrite D2.
Qed.

(** ** What the layer keeps for a neighbour *)

(** The queue of a neighbour, seen from outside: whose packets wait, in which order,
    how often the first was sent and collided, and when it is sent next. *)
Record nview := mk_nview {
  v_addr : Z;
  v_queue : list qbuf_metadata;
  v_transmissions : Z;
  v_collisions : Z;
  v_timer : option Z;
}.
Definition nq_view (st : csma_st) (nq : neighbor_queue) : nview :=
  mk_nview (nq_addr nq) (omap (entry st) (nq_queued_packet_list nq)) (nq_transmissions nq)
    (nq_collisions nq) (nq_transmit_timer nq).
Definition view (st : csma_st) (n : nat) : option nview :=
  if decide (n ∈ neighbor_list st) then nq_view st <$> nq_of st n else None.

Lemma view_in st n nq : n ∈ neighbor_list st -> nq_of st n = Some nq -> view st n = Some (nq_view st nq).
Proof. intros Hn E. unfold view. by rewrite decide_True, E. Qed.
Lemma view_out st n : n ∉ neighbor_list st -> view st n = None.
Proof. intros Hn. unfold view. by rewrite decide_False. Qed.

Lemma omap_entry_in st st' (l : list nat) :
  (forall p, p ∈ l -> entry st' p = entry st p) -> omap (entry st') l = omap (entry st) l.
Proof.
  induction l as [|p l IH]; intros H; [done|]. cbn [omap list_omap].
  rewrite (H p) by by left. rewrite IH; [done|]. intros x Hx. apply H. by right.
Qed.

(** A neighbour whose block and packets are the same looks the same. *)
Lemma view_same st st' n :
  (n ∈ neighbor_list st' <-> n ∈ neighbor_list st) ->
  (n ∈ neighbor_list st -> nq_of st' n = nq_of st n) ->
  (n ∈ neighbor_list st -> forall p, p ∈ all_packets st -> entry st' p = entry st p) ->
  view st' n = view st n.
Proof.
  intros Hl Hnq He. unfold view. destruct (decide (n ∈ neighbor_list st)) as [Hn|Hn].
  - rewrite decide_True by by apply Hl. rewrite Hnq by done. destruct (nq_of st n) as [nq|] eqn:E; [|done].
    cbn. unfold nq_view. rewrite (omap_entry_in st st'); [done|]. intros p Hp. apply He; [done|].
    apply (elem_of_all st n); [done|]. by rewrite (queue_eq _ _ _ E).
  - by rewrite decide_False by by rewrite Hl.
Qed.

Lemma unchanged_view st st' n : unchanged st st' -> view st' n = view st n.
Proof. intros [? U1 U2 U3 _ _]. apply view_same; [by rewrite U1|apply U2|auto]. Qed.

Lemma unchanged_pending st st' : unchanged st st' -> pending st' = pending st.
Proof.
  intros U. unfold pending. rewrite (unchanged_packets _ _ U). apply omap_entry_in, U.
Qed.

Lemma unchanged_csma_wf st st' : csma_wf st -> unchanged st st' -> csma_wf st'.
Proof.
  intros [W H] [? U1 U2 _ _ _]. split; [done|]. intros n Hn. rewrite U1 in Hn. unfold neighbor_ok.
  rewrite U2 by done. by apply H.
Qed.

(** What the queue of [n] looks like with one more packet. *)
Definition with_packet (v : nview) (ack : bool) (md : qbuf_metadata) (tm : option Z) : nview :=
  mk_nview (v_addr v) (if ack then md :: v_queue v else v_queue v ++ [md])
    (v_transmissions v) (v_collisions v) tm.

Lemma enqueued_view st st' n nq md ack :
  csma_wf0 st -> n ∈ neighbor_list st -> nq_of st n = Some nq -> enqueued st st' n nq md ack ->
  (forall n', n' <> n -> view st' n' = view st n') /\
  pending st' ≡ₚ md :: pending st /\
  exists tm, view st' n = Some (with_packet (nq_view st nq) ack md tm) /\
    if decide (ack = true \/ nq_queued_packet_list nq = [])
    then exists d, tm = Some d /\ 0 <= d <= max_delay (nq_collisions nq)
    else tm = nq_transmit_timer nq.
Proof.
  intros W Hn Hnq [E1 E2 E3 E4 E5 E6 (q & tm & Eq & Enq & Htm)].
  assert (Hqs : omap (entry st') (nq_queued_packet_list nq) = omap (entry st) (nq_queued_packet_list nq)).
  { apply omap_entry_in. intros p Hp. apply E4, (elem_of_all st n); [done|]. by rewrite (queue_eq _ _ _ Hnq). }
  split; [|split].
  - intros n' Hne. apply view_same; [by rewrite E2|intros _; by apply E3|auto].
  - unfold pending. rewrite (omap_perm (entry st') (all_packets st') (q :: all_packets st)).
    + cbn [omap list_omap]. rewrite Eq. constructor. by rewrite (omap_entry_in st st').
    + rewrite (all_split st n W Hn). unfold all_packets. rewrite E2.
      rewrite (bind_split (neighbor_list st) (queue st') (queue st) n); [|apply W|done|].
      * unfold queue at 1. rewrite Enq. cbn. rewrite (queue_eq _ _ _ Hnq). destruct ack; [done|].
        rewrite <- app_assoc. cbn. symmetry. apply Permutation_middle.
      * intros x _ Hne. unfold queue. by rewrite E3.
  - exists tm. split; [|done]. rewrite (view_in st' n _) by (rewrite ?E2; done).
    unfold nq_view, with_packet. cbn. f_equal. f_equal.
    destruct ack; cbn [omap list_omap].
    + by rewrite Eq, Hqs.
    + rewrite omap_app, Hqs. cbn [omap list_omap]. by rewrite Eq.
Qed.

(** ** [send_packet] *)

(** When every block is in use, there is none left. *)
Lemma owned_all_full {A} (p : pool A) l :
  pool_owned p l -> (length (pl_blocks p) <= length l)%nat -> pool_full p.
Proof.
  intros Ho Hl. unfold pool_full. destruct (pool_alloc p) as [[i|] p'] eqn:E; [exfalso|done].
  destruct (owned_alloc _ _ _ _ Ho E) as (_ & Ho' & Hb & _).
  pose proof (owned_length _ _ Ho') as H. rewrite Hb in H. cbn in H. lia.
Qed.

(** The packet is queued at [n], or there is no room; an entry without packets
    does not stay. *)
Lemma queue_at_run st n nq sent ptr :
  csma_wf0 st -> n ∈ neighbor_list st -> nq_of st n = Some nq ->
  0 <= nq_collisions nq <= CSMA_MAX_BACKOFF ->
  packetbuf_attrs (fr_pb (cs_framer st)) !!! PACKETBUF_ATTR_MAC_SEQNO <> 0 ->
  let pb := fr_pb (cs_framer st) in
  exists ok st', queue_at n sent ptr st = Ok (ok, st') /\
    if ok : bool then enqueued st st' n nq (mk_metadata sent ptr (max_of pb)) (is_ack pb) /\ ~ packets_full st
    else packets_full st /\ exists st1, unchanged st st1 /\
      st' = if decide (nq_queued_packet_list nq = [])
            then st1 <| neighbor_list ::= seq_remove n |> <| neighbor_memb ::= pool_free n |> else st1.
Proof.
  intros W Hn Hnq Hc Hseq pb. unfold queue_at. erewrite bind_Ok by (by apply load_run).
  destruct (Z.ltb_spec (Z.of_nat (length (nq_queued_packet_list nq))) CSMA_MAX_PACKET_PER_NEIGHBOR) as [Hlt|Hge].
  - destruct (queue_packet_run st n nq sent ptr W Hn Hnq Hc Hseq) as (ok & st1 & E & R).
    erewrite bind_Ok by exact E. destruct ok.
    + exists true, st1. split; [done|exact R].
    + destruct R as [U F]. assert (Hnq1 : nq_of st1 n = Some nq) by (by rewrite (un_nq _ _ U)).
      erewrite bind_Ok by (by apply load_run). eexists false, _.
      split; [|split; [exact F|exists st1; split; [exact U|reflexivity]]].
      destruct (decide (nq_queued_packet_list nq = [])) as [Eq|Eq]; [by rewrite Eq|].
      by destruct (nq_queued_packet_list nq).
  - exists false, st. split; [done|]. split.
    2: { exists st. split; [by split|]. rewrite decide_False; [done|]. intros E. rewrite E in Hge. by vm_compute in Hge. }
    left. destruct (w0_packets _ W) as (L & [P1 P2 _ _ _]).
    apply (owned_all_full _ _ P2). rewrite (w0_size _ W), <- P1, (all_split st n W Hn), length_app, (queue_eq _ _ _ Hnq).
    unfold CSMA_MAX_PACKET_PER_NEIGHBOR in Hge. lia.
Qed.

Definition receiver (st : csma_st) : Z :=
  packetbuf_addrs (fr_pb (cs_framer st)) !!! (PACKETBUF_ADDR_RECEIVER - PACKETBUF_ADDR_FIRST)%nat.

(** Nobody in the list has the address. *)
Definition unknown (st : csma_st) (addr : Z) : Prop :=
  forall n v, view st n = Some v -> v_addr v <> addr.

Definition send_full (st : csma_st) : Prop :=
  packets_full st \/ (pool_full (neighbor_memb st) /\ unknown st (receiver st)).

(** The packet was refused and its owner told so. *)
Record refused (st st' : csma_st) (sent : option Z) (ptr : Z) : Prop := {
  rf_full : send_full st;
  rf_calls : sent_calls st' = sent_calls st ++ call_for (mk_metadata sent ptr 0) MAC_TX_ERR 1;
  rf_views : forall n, view st' n = view st n;
  rf_pending : pending st' ≡ₚ pending st;
}.

(** The packet waits in the queue of its receiver. *)
Record accepted (st st' : csma_st) (md : qbuf_metadata) (ack : bool) (n : nat) : Prop := {
  ac_room : ~ send_full st;
  ac_calls : sent_calls st' = sent_calls st;
  ac_others : forall n', n' <> n -> view st' n' = view st n';
  ac_pending : pending st' ≡ₚ md :: pending st;
  ac_this : match view st n with
    | Some v => v_addr v = receiver st /\ exists tm, view st' n = Some (with_packet v ack md tm) /\
        if ack then exists d, tm = Some d /\ 0 <= d <= max_delay (v_collisions v) else tm = v_timer v
    | None => unknown st (receiver st) /\ view st' n = Some (mk_nview (receiver st) [md] 0 0 (Some 0))
    end;
}.

(** The state after the sequence number was put into the packet buffer. *)
Definition numbered (st st1 : csma_st) : Prop :=
  unchanged st st1 /\ packetbuf_attrs (fr_pb (cs_framer st1)) !!! PACKETBUF_ATTR_MAC_SEQNO <> 0 /\
  max_of (fr_pb (cs_framer st1)) = max_of (fr_pb (cs_framer st)) /\
  is_ack (fr_pb (cs_framer st1)) = is_ack (fr_pb (cs_framer st)) /\
  receiver st1 = receiver st /\
  packet_memb st1 = packet_memb st /\ metadata_memb st1 = metadata_memb st /\
  neighbor_memb st1 = neighbor_memb st /\
  cs_bufmem st1 = cs_bufmem st /\ cs_buframmem st1 = cs_buframmem st.

Lemma numbered_run st :
  csma_wf0 st ->
  exists st1, (s ← next_seqno; cs_pb (packetbuf_set_attr PACKETBUF_ATTR_MAC_SEQNO s)) st = Ok (tt, st1) /\
    numbered st st1.
Proof.
  intros W. destruct (next_seqno_run st W) as (s & f & i & s' & E & Hs & Hs' & Hf & _).
  pose proof (w0_bufs _ W) as [[Hpb _ _ _ _] _ Ha]. change (qu_packetbuf (cs_queue st)) with (fr_pb (cs_framer st)) in Hpb.
  set (pb := (fr_pb f) <| packetbuf_attrs ::= <[PACKETBUF_ATTR_MAC_SEQNO := u16 s]> |>).
  exists (st <| cs_framer := f <| fr_pb := pb |> |> <| csma_initialized := i |> <| csma_seqno := s' |>).
  split; [erewrite bind_Ok by exact E; by destruct st, f|].
  assert (Hlk : forall k, k <> PACKETBUF_ATTR_MAC_SEQNO ->
    packetbuf_attrs pb !!! k = packetbuf_attrs (fr_pb (cs_framer st)) !!! k).
  { intros k Hk. unfold pb. rsimpl. rewrite list_lookup_total_insert_ne by done. by rewrite Hf. }
  split; [|split; [|split; [|split; [|split; [|done]]]]].
  - apply unchanged_head; [done| | |done]; change (fr_pb (_ <| fr_pb := pb |>)) with pb; unfold pb; rewrite Hf.
    + by destruct Hpb; split.
    + rsimpl. by rewrite length_insert.
  - change (packetbuf_attrs (fr_pb (cs_framer _))) with (packetbuf_attrs pb). unfold pb. rsimpl.
    rewrite Hf, list_lookup_total_insert_eq by (rewrite Ha; vm_compute; lia).
    rewrite (uwrap_small 16) by (unfold in_u; lia). lia.
  - unfold max_of. change (packetbuf_attrs (fr_pb (cs_framer _))) with (packetbuf_attrs pb) at 1 2.
    by rewrite !Hlk by done.
  - unfold is_ack. change (packetbuf_attrs (fr_pb (cs_framer _))) with (packetbuf_attrs pb) at 1.
    by rewrite !Hlk by done.
  - unfold receiver. change (packetbuf_addrs (fr_pb f) !!! 1%nat = packetbuf_addrs (fr_pb (cs_framer st)) !!! 1%nat). by rewrite Hf.
Qed.

Lemma err_call_run sent ptr st :
  mac_call_sent_callback (user_callback sent ptr) MAC_TX_ERR 1 st =
    Ok (tt, st <| sent_calls ::= fun l => l ++ call_for (mk_metadata sent ptr 0) MAC_TX_ERR 1 |>).
Proof. exact (user_callback_run (mk_metadata sent ptr 0) MAC_TX_ERR 1 st). Qed.

Lemma csma_wf_calls st l : csma_wf st -> csma_wf (st <| sent_calls := l |>).
Proof.
  intros [W H]. split; [|exact H]. apply (wf0_ext st); try done; try apply W.
  destruct (w0_bufs _ W) as [? ? ?]. by split.
Qed.

(** Refusing after all, from a state that looks the same. *)
Lemma refuse st st2 sent ptr :
  csma_wf st2 -> send_full st -> sent_calls st2 = sent_calls st ->
  (forall n, view st2 n = view st n) -> pending st2 ≡ₚ pending st ->
  exists st', mac_call_sent_callback (user_callback sent ptr) MAC_TX_ERR 1 st2 = Ok (tt, st') /\
    csma_wf st' /\ radio_results st' = radio_results st2 /\ radio_frames st' = radio_frames st2 /\
    refused st st' sent ptr.
Proof.
  intros W F Hc Hv Hp. rewrite err_call_run. eexists. split; [reflexivity|].
  split; [by apply csma_wf_calls|]. split; [done|]. split; [done|].
  split; [done| |exact Hv|exact Hp]. rsimpl. by rewrite Hc.
Qed.

Lemma enqueued_wf st st' n nq md ack :
  csma_wf0 st -> n ∈ neighbor_list st -> nq_of st n = Some nq ->
  (forall n', n' ∈ neighbor_list st -> n' <> n -> neighbor_ok st n') ->
  (nq_queued_packet_list nq = [] \/ neighbor_ok st n) ->
  0 <= nq_collisions nq <= CSMA_MAX_BACKOFF -> in_u 8 (nq_transmissions nq) ->
  enqueued st st' n nq md ack -> csma_wf st'.
Proof.
  intros W Hn Hnq Ho Hme Hc Ht [E1 E2 E3 E4 E5 E6 (q & tm & Eq & Enq & Htm)]. split; [done|].
  intros n' Hn'. rewrite E2 in Hn'. destruct (decide (n' = n)) as [->|Hne].
  - assert (H : exists d, tm = Some d /\ 0 <= d).
    { case_decide as Ed.
      - destruct Htm as (d & -> & Hd). exists d. split; [done|lia].
      - destruct Hme as [He|(nq' & d & Hnq' & _ & Hd & Hd0 & _)]; [exfalso; auto|].
        assert (nq' = nq) as -> by congruence. exists d. by rewrite Htm. }
    destruct H as (d & -> & Hd). eexists _, d. split; [done|]. cbn. split; [by destruct ack, (nq_queued_packet_list nq)|].
    split; [done|]. split; [done|]. by split.
  - unfold neighbor_ok. rewrite E3 by done. by apply Ho.
Qed.

Lemma release_view st n :
  csma_wf0 st -> n ∈ neighbor_list st -> queue st n = [] ->
  let st' := st <| neighbor_list ::= seq_remove n |> <| neighbor_memb ::= pool_free n |> in
  (forall n', n' <> n -> view st' n' = view st n') /\ view st' n = None /\ pending st' ≡ₚ pending st.
Proof.
  intros W Hn Hq st'. destruct (release_neighbor st n W Hn Hq) as [_ Hall]. split; [|split].
  - intros n' Hne. apply view_same; [|done|done].
    change (neighbor_list st') with (seq_remove n (neighbor_list st)). rewrite elem_of_seq_remove. naive_solver.
  - apply view_out. change (neighbor_list st') with (seq_remove n (neighbor_list st)).
    rewrite elem_of_seq_remove. by intros [? _].
  - exact (omap_perm (entry st) _ _ (symmetry Hall)).
Qed.

Lemma view_Some st n v :
  view st n = Some v -> n ∈ neighbor_list st /\ exists nq, nq_of st n = Some nq /\ v = nq_view st nq.
Proof.
  unfold view. case_decide; [|done]. destruct (nq_of st n) as [nq|]; [|done]. intros [= <-].
  split; [done|]. by exists nq.
Qed.

Lemma numbered_full st st1 : numbered st st1 -> packets_full st1 = packets_full st.
Proof. intros (_ & _ & _ & _ & _ & E1 & E2 & _ & E4 & E5). unfold packets_full. by rewrite E1, E2, E4, E5. Qed.

(** The receiver has a queue already. *)
Lemma send_known st st1 n nq sent ptr :
  csma_wf st -> numbered st st1 -> n ∈ neighbor_list st1 -> nq_of st1 n = Some nq -> nq_addr nq = receiver st ->
  let md := mk_metadata sent ptr (max_of (fr_pb (cs_framer st))) in
  exists st', (done ← queue_at n sent ptr;
      if done : bool then skip else mac_call_sent_callback (user_callback sent ptr) MAC_TX_ERR 1) st1 = Ok (tt, st') /\
    csma_wf st' /\ radio_results st' = radio_results st /\ radio_frames st' = radio_frames st /\
    (refused st st' sent ptr \/ accepted st st' md (is_ack (fr_pb (cs_framer st))) n).
Proof.
  intros W N Hn Hnq Ha md. pose proof (numbered_full _ _ N) as Hfull.
  destruct N as (U & Hseq & Emax & Eack & Erec & _).
  pose proof (unchanged_csma_wf _ _ W U) as W1. destruct (cw_each _ W1 n Hn) as (nq' & d & Hnq' & Hne & Hd & Hd0 & Hc & Ht).
  assert (nq' = nq) as -> by congruence.
  destruct (queue_at_run st1 n nq sent ptr) as (ok & st2 & E & R); [apply W1|done..|].
  erewrite bind_Ok by exact E. rewrite Emax, Eack in R.
  pose proof (un_radio _ _ U) as [Ur1 Ur2]. pose proof (unchanged_pending _ _ U) as Up.
  destruct ok.
  - destruct R as [En F]. exists st2. split; [done|]. split; [|split; [|split; [|right]]].
    + eapply enqueued_wf; [apply W1|done|done| | |done|done|exact En].
      * intros n' Hn' _. by apply W1.
      * right. by apply W1.
    + by rewrite (proj1 (en_radio _ _ _ _ _ _ En)).
    + by rewrite (proj2 (en_radio _ _ _ _ _ _ En)).
    + destruct (enqueued_view _ _ _ _ _ _ (cw_wf0 _ W1) Hn Hnq En) as (V1 & V2 & tm & V3 & V4).
      assert (Hv : view st n = Some (nq_view st1 nq)) by (rewrite <- (unchanged_view _ _ _ U); by apply view_in).
      split.
      * intros [?|[_ Hu]]; [by rewrite Hfull in F|]. by apply (Hu n _ Hv).
      * rewrite (en_calls _ _ _ _ _ _ En). apply U.
      * intros n' Hne'. rewrite V1 by done. by apply unchanged_view.
      * by rewrite V2, Up.
      * rewrite Hv. split; [done|]. exists tm. split; [done|].
        destruct (is_ack (fr_pb (cs_framer st))); [rewrite decide_True in V4 by (by left); exact V4|].
        rewrite decide_False in V4; [done|]. intros [?|?]; done.
  - destruct R as [F (st3 & U3 & ->)]. rewrite decide_False by done.
    pose proof (unchanged_trans _ _ _ U U3) as U4.
    destruct (refuse st st3 sent ptr) as (st' & E' & W' & R1 & R2 & R3).
    + by eapply unchanged_csma_wf.
    + left. by rewrite <- Hfull.
    + apply U4.
    + intros n'. by apply unchanged_view.
    + by rewrite (unchanged_pending _ _ U4).
    + pose proof (un_radio _ _ U4) as [? ?]. exists st'. split; [exact E'|]. split; [done|].
      split; [congruence|]. split; [congruence|]. by left.
Qed.

(** The receiver gets a new queue. *)
Lemma send_unknown st st1 sent ptr :
  csma_wf st -> numbered st st1 ->
  (forall n nq, n ∈ neighbor_list st1 -> nq_of st1 n = Some nq -> nq_addr nq <> receiver st) ->
  let md := mk_metadata sent ptr (max_of (fr_pb (cs_framer st))) in
  exists st' n, (o ← new_neighbor (receiver st);
      done ← (match o with Some n => queue_at n sent ptr | None => mret false end);
      if done : bool then skip else mac_call_sent_callback (user_callback sent ptr) MAC_TX_ERR 1) st1 = Ok (tt, st') /\
    csma_wf st' /\ radio_results st' = radio_results st /\ radio_frames st' = radio_frames st /\
    (refused st st' sent ptr \/ accepted st st' md (is_ack (fr_pb (cs_framer st))) n).
Proof.
  intros W N Hall md. pose proof (numbered_full _ _ N) as Hfull.
  destruct N as (U & Hseq & Emax & Eack & Erec & _ & _ & Enm & _).
  pose proof (unchanged_csma_wf _ _ W U) as W1. pose proof (un_radio _ _ U) as [Ur1 Ur2].
  pose proof (unchanged_pending _ _ U) as Up.
  assert (Hun : unknown st (receiver st)).
  { intros n v Hv. rewrite <- (unchanged_view _ _ n U) in Hv. apply view_Some in Hv as (Hn & nq & Hnq & ->).
    by apply (Hall n nq). }
  destruct (new_neighbor_run st1 (receiver st) (cw_wf0 _ W1)) as ([n|] & st2 & E & R); erewrite bind_Ok by exact E.
  2: { destruct R as [-> F]. erewrite bind_Ok by reflexivity.
       destruct (refuse st st1 sent ptr W1) as (st' & E' & W' & R1 & R2 & R3).
       - right. by rewrite <- Enm.
       - apply U.
       - intros n. by apply unchanged_view.
       - by rewrite Up.
       - exists st', O. split; [exact E'|]. split; [done|]. split; [congruence|]. split; [congruence|]. by left. }
  destruct R as (F & W2 & Hn & El & Hsame & (tm & Hnew) & Ef & Eq & Ep & Em & Ec & Er1 & Er2).
  set (nq := mk_neighbor_queue (receiver st) tm 0 CSMA_MIN_BE []) in *.
  assert (Hn2 : n ∈ neighbor_list st2) by (rewrite El; set_solver).
  assert (Hent : forall x, entry st2 x = entry st1 x) by (intros x; unfold entry; by rewrite Ep, Em).
  assert (Hview : forall n', n' <> n -> view st2 n' = view st n').
  { intros n' Hne. rewrite <- (unchanged_view st st1 n' U).
    apply view_same; [rewrite El; set_solver|apply Hsame|auto]. }
  assert (Hnone : view st n = None) by (rewrite <- (unchanged_view st st1 n U); by apply view_out).
  assert (Hpend : pending st2 ≡ₚ pending st1).
  { unfold pending, all_packets. rewrite El, bind_app, bind_cons. unfold queue at 2. rewrite Hnew. cbn.
    rewrite app_nil_r. rewrite (bind_ext_in _ (queue st2) (queue st1)).
    - rewrite (omap_entry_in st1 st2); [done|]. intros x _. apply Hent.
    - intros x Hx. unfold queue. by rewrite Hsame. }
  assert (Hok : forall n', n' ∈ neighbor_list st2 -> n' <> n -> neighbor_ok st2 n').
  { intros n' Hn' Hne. assert (n' ∈ neighbor_list st1) by (rewrite El in Hn'; set_solver).
    unfold neighbor_ok. rewrite Hsame by done. by apply W1. }
  assert (Hfull2 : packets_full st2 = packets_full st).
  { rewrite <- Hfull. unfold packets_full. rewrite Ep, Em.
    change (cs_bufmem st2) with (bufmem (cs_queue st2)). change (cs_buframmem st2) with (buframmem (cs_queue st2)).
    by rewrite Eq. }
  rewrite <- Ef in Hseq, Emax, Eack.
  destruct (queue_at_run st2 n nq sent ptr) as (ok & st3 & E3 & R3); [done..|].
  erewrite bind_Ok by exact E3. rewrite Emax, Eack in R3. destruct ok.
  - destruct R3 as [En F3]. exists st3, n. split; [done|]. split; [|split; [|split; [|right]]].
    + eapply enqueued_wf; [exact W2|exact Hn2|exact Hnew|exact Hok|by left|done|done|exact En].
    + by rewrite (proj1 (en_radio _ _ _ _ _ _ En)), Er1.
    + by rewrite (proj2 (en_radio _ _ _ _ _ _ En)), Er2.
    + destruct (enqueued_view _ _ _ _ _ _ W2 Hn2 Hnew En) as (V1 & V2 & tm' & V3 & V4).
      rewrite decide_True in V4 by (by right). destruct V4 as (d & -> & Hd).
      assert (d = 0) as -> by (change (max_delay (nq_collisions nq)) with 0 in Hd; lia).
      split.
      * intros [?|[? _]]; [by rewrite Hfull2 in F3|]. by rewrite Enm in F.
      * rewrite (en_calls _ _ _ _ _ _ En), Ec. apply U.
      * intros n' Hne'. rewrite V1 by done. by apply Hview.
      * by rewrite V2, Hpend, Up.
      * rewrite Hnone. split; [done|]. rewrite V3. by destruct (is_ack (fr_pb (cs_framer st))).
  - destruct R3 as [F3 (st4 & U4 & ->)]. rewrite decide_True by done.
    assert (Hq4 : queue st4 n = []) by (unfold queue; by rewrite (un_nq _ _ U4 n Hn2), Hnew).
    assert (Hn4 : n ∈ neighbor_list st4) by by rewrite (un_list _ _ U4).
    pose proof (un_wf _ _ U4) as W4. pose proof (un_radio _ _ U4) as [? ?].
    destruct (release_neighbor st4 n W4 Hn4 Hq4) as [W5 _].
    destruct (release_view st4 n W4 Hn4 Hq4) as (V1 & V2 & V3).
    set (st5 := st4 <| neighbor_list ::= seq_remove n |> <| neighbor_memb ::= pool_free n |>) in *.
    destruct (refuse st st5 sent ptr) as (st' & E' & W' & R1 & R2 & R3).
    + split; [done|]. intros n' Hn'. change (neighbor_list st5) with (seq_remove n (neighbor_list st4)) in Hn'.
      apply elem_of_seq_remove in Hn' as [Hne Hn']. rewrite (un_list _ _ U4) in Hn'.
      change (neighbor_ok st5 n') with (neighbor_ok st4 n'). unfold neighbor_ok. rewrite (un_nq _ _ U4) by done.
      by apply Hok.
    + left. by rewrite <- Hfull2.
    + change (sent_calls st5) with (sent_calls st4). rewrite (un_calls _ _ U4), Ec. apply U.
    + intros n'. destruct (decide (n' = n)) as [->|Hne]; [by rewrite V2|].
      rewrite V1 by done. rewrite (unchanged_view _ _ n' U4). by apply Hview.
    + by rewrite V3, (unchanged_pending _ _ U4), Hpend, Up.
    + change (radio_results st5) with (radio_results st4) in R1. change (radio_frames st5) with (radio_frames st4) in R2.
      exists st', n. split; [exact E'|]. split; [done|]. split; [congruence|]. split; [congruence|]. by left.
Qed.
