(* ===== verification/CsmaSpec.v ===== *)
(** * CsmaSpec: what the MAC layer promises

    The theorems about [Csma] for the layers above it: a packet is queued for its
    receiver or refused at once, an expired timer serves the queue as [serve] says,
    no sequence of events breaks the queues, every owner of a packet hears of it
    exactly once, and the first packet of a queue does so in bounded time. *)
From stdpp Require Import numbers option sets list.
From S2P Require Import Prelude Lists Memb Packetbuf Frame802154 FrameFacts Csma CsmaFacts.

(** ** A packet is handed to the layer *)

Lemma send_packet_run st sent ptr :
  csma_wf st ->
  exists st' n, csma_send_packet sent ptr st = Ok (tt, st') /\ csma_wf st' /\
    radio_results st' = radio_results st /\ radio_frames st' = radio_frames st /\
    (refused st st' sent ptr \/
     accepted st st' (mk_metadata sent ptr (max_of (fr_pb (cs_framer st))))
       (is_ack (fr_pb (cs_framer st))) n).
Proof.
  intros W. destruct (numbered_run st (cw_wf0 _ W)) as (st1 & E & N).
  apply bind_inv in E as (s & sA & E1 & E2). unfold csma_send_packet.
  assert (E0 : cs_pb (packetbuf_addr PACKETBUF_ADDR_RECEIVER) st = Ok (receiver st, st)).
  { by destruct st as [[] ????????????]. }
  erewrite bind_Ok by exact E0. erewrite bind_Ok by exact E1. erewrite bind_Ok by exact E2.
  pose proof (unchanged_csma_wf _ _ W (proj1 N)) as W1.
  destruct (neighbor_loop_run st1 (receiver st) (neighbor_list st1)) as (o & Eo & Ho).
  { intros n Hn. apply nq_exists; [apply W1|done]. }
  erewrite bind_Ok by (unfold neighbor_queue_from_addr; rewrite bind_gets; exact Eo).
  destruct o as [n|].
  - destruct Ho as (Hn & nq & Hnq & Ha). erewrite bind_Ok by reflexivity.
    destruct (send_known st st1 n nq sent ptr W N Hn Hnq Ha) as (st' & E & R). by exists st', n.
  - destruct (send_unknown st st1 sent ptr W N Ho) as (st' & n & E & R). by exists st', n.
Qed.

(** ** The timer of a neighbour expires *)

(** How the transmissions [ss] follow from what the radio answers. *)
Definition ends_of (st : csma_st) (ss : list Z) (k : nat) : Prop :=
  filter (.≠ MAC_TX_ERR_FATAL) ss = (fun i => status_of_radio (radio_results st i)) <$> seq 0 k.

(** All the transmissions but the last are successful, and the last is unless it was
    the end of the queue. *)
Definition stops {A} (q : list A) (ss : list Z) : Prop :=
  exists k s, ss = replicate k MAC_TX_OK ++ [s] /\ (S k <= length q)%nat /\ (s = MAC_TX_OK -> S k = length q).

(** The layer after the timer of [n] expired with the view [v]. *)
Record expired (st st' : csma_st) (n : nat) (v : nview) (ss : list Z) : Prop := {
  ex_radio : exists fs, radio_frames st' = radio_frames st ++ fs /\ ends_of st ss (length fs) /\
    forall i, radio_results st' i = radio_results st (length fs + i)%nat;
  ex_stops : stops (v_queue v) ss;
  ex_others : forall n', n' <> n -> view st' n' = view st n';
  ex_this : let '(calls, (q, t, c)) := serve (v_queue v) (v_transmissions v) (v_collisions v) ss in
    sent_calls st' = sent_calls st ++ calls /\
    (exists done, v_queue v = done ++ q /\ pending st ≡ₚ done ++ pending st') /\
    match q with
    | [] => view st' n = None
    | _ => exists d, 0 <= d <= max_delay c /\ view st' n = Some (mk_nview (v_addr v) q t c (Some d))
    end;
}.

Lemma omap_entry_length st (l : list nat) :
  csma_wf0 st -> (forall p, p ∈ l -> p ∈ all_packets st) -> length (omap (entry st) l) = length l.
Proof.
  intros W. induction l as [|p l IH]; intros H; [done|]. cbn [omap list_omap].
  destruct (packet_blocks st p W) as (_ & _ & md & _ & _ & _ & _ & He & _); [by apply H; left|].
  rewrite He. cbn. f_equal. apply IH. intros x Hx. apply H. by right.
Qed.

Lemma served_expired st st' n nq ss fs :
  csma_wf0 st -> n ∈ neighbor_list st -> nq_of st n = Some nq -> served st st' n nq ss fs ->
  expired st st' n (nq_view st nq) ss.
Proof.
  intros W Hn Hnq [S1 S2 S3 S4 S5 S6 S7 (ps & calls & t & c & [qs Hsuf] & Hserve & Hcalls & Hfin)].
  assert (Hin : forall p, p ∈ nq_queued_packet_list nq -> p ∈ all_packets st).
  { intros p Hp. apply (elem_of_all st n); [done|]. by rewrite (queue_eq _ _ _ Hnq). }
  pose proof (omap_entry_length st _ W Hin) as Hlen.
  assert (Hl' : forall n', n' <> n -> n' ∈ neighbor_list st' <-> n' ∈ neighbor_list st).
  { intros n' Hne. case_decide.
    - rewrite Hfin, elem_of_seq_remove. naive_solver.
    - by rewrite (proj1 Hfin). }
  split.
  - by exists fs.
  - destruct S7 as (k & s & E & Hk & Hs). exists k, s. cbn. by rewrite Hlen.
  - intros n' Hne. apply view_same; [by apply Hl'|intros _; by apply S2|auto].
  - cbn. rewrite Hserve. split; [done|]. split.
    + exists (omap (entry st) qs). rewrite Hsuf, omap_app. split; [done|].
      unfold pending. rewrite (omap_entry_in st st' (all_packets st')) by (intros; apply S3).
      rewrite <- omap_app. apply omap_perm. rewrite (all_split st n W Hn), (queue_eq _ _ _ Hnq), Hsuf.
      rewrite <- app_assoc. apply Permutation_app; [done|].
      case_decide as Eps.
      * subst ps. unfold all_packets. rewrite Hfin. cbn.
        rewrite (bind_ext_in _ (queue st') (queue st)); [done|].
        intros x [Hx _]%elem_of_seq_remove. unfold queue. by rewrite S2.
      * destruct Hfin as (El & _ & _ & d & _ & Hnq'). unfold all_packets. rewrite El. symmetry.
        rewrite (bind_split (neighbor_list st) (queue st') (queue st) n); [|apply W|done|].
        -- unfold queue at 1. by rewrite Hnq'.
        -- intros x _ Hx. unfold queue. by rewrite S2.
    + destruct (omap (entry st) ps) as [|md q] eqn:Eq.
      * assert (ps = []) as ->.
        { destruct ps as [|p ps]; [done|]. exfalso.
          assert (H := omap_entry_length st (p :: ps) W). rewrite Eq in H. cbn in H.
          discriminate H. intros x Hx. apply Hin. rewrite Hsuf. apply elem_of_app. by right. }
        rewrite decide_True in Hfin by done. apply view_out. rewrite Hfin, elem_of_seq_remove. by intros [? _].
      * rewrite decide_False in Hfin by by intros ->. destruct Hfin as (El & _ & _ & d & Hd & Hnq').
        exists d. split; [done|]. rewrite (view_in st' n _) by (rewrite ?El; done).
        unfold nq_view. cbn. by rewrite (omap_entry_in st st' ps), Eq by (intros; apply S3).
Qed.

Lemma expires_view st n :
  csma_wf st -> n ∈ neighbor_list st ->
  exists d v st' ss, view st n = Some v /\ v_timer v = Some d /\
    transmit_timer_expires n st = Ok (d, st') /\ csma_wf st' /\ expired st st' n v ss.
Proof.
  intros W Hn. destruct (expires_run st n W Hn) as (d & nq & st' & ss & fs & Hnq & Hd & E & W' & S).
  exists d, (nq_view st nq), st', ss. split; [by apply view_in|]. split; [done|]. split; [done|].
  split; [done|]. eapply served_expired; [apply W|done|done|exact S].
Qed.

(** ** The abstract queue *)

(** To whom a packet belongs: a callback and its pointer. *)
Definition owner (md : qbuf_metadata) : option (Z * Z) := (fun s => (s, md_cptr md)) <$> md_sent md.
Definition call_to (c : sent_call) : Z * Z := (sc_sent c, sc_ptr c).

(** The owners of the packets that leave the queue are called, in order. *)
Lemma serve_owners q : forall t c ss calls q' t' c' done,
  serve q t c ss = (calls, (q', t', c')) -> q = done ++ q' ->
  call_to <$> calls = omap owner done.
Proof.
  induction q as [|md q IH]; intros t c ss calls q' t' c' done E Hq; cbn in E.
  - destruct ss; injection E as <- <- _ _; symmetry in Hq; apply app_nil in Hq as [-> _]; done.
  - destruct ss as [|s ss].
    { injection E as <- <- _ _. apply (app_inv_tail (md :: q) [] done) in Hq as <-. done. }
    destruct (verdict s (md_max_transmissions md) t c) as [[s' ntx]|[t1 c1]].
    + assert (Hcall : forall rest, omap owner (md :: rest) = (call_to <$> call_for md s' ntx) ++ omap owner rest).
      { intros rest. unfold owner, call_for, call_to. cbn. by destruct (md_sent md). }
      destruct (s =? MAC_TX_OK).
      * destruct (serve q 0 0 ss) as [calls1 [[q1 t1] c1]] eqn:Es. injection E as <- <- _ _.
        destruct done as [|md' done].
        { exfalso. cbn in Hq. subst q1. assert (Hlen : forall q t c ss, (length (serve q t c ss).2.1.1 <= length q)%nat).
          { clear. induction q as [|md q IH]; intros t c [|s ss]; cbn; try lia.
            destruct (verdict _ _ _ _) as [[s' ntx]|[t1 c1]]; [|cbn; lia].
            destruct (s =? MAC_TX_OK); [|cbn; lia].
            specialize (IH 0 0 ss). destruct (serve q 0 0 ss) as [? [[? ?] ?]]. cbn in *. lia. }
          specialize (Hlen q 0 0 ss). rewrite Es in Hlen. cbn in Hlen. lia. }
        injection Hq as <- Hq. rewrite Hcall, fmap_app. f_equal. by eapply IH.
      * injection E as <- <- _ _. destruct done as [|md' done].
        { exfalso. apply (f_equal length) in Hq. cbn in Hq. lia. }
        injection Hq as <- Hq. apply (app_inv_tail q [] done) in Hq as <-.
        rewrite Hcall. cbn. by rewrite app_nil_r.
    + injection E as <- <- _ _. apply (app_inv_tail (md :: q) [] done) in Hq as <-. done.
Qed.

(** ** Sequences of events *)

(** What can happen to the layer: the layer above has filled the packet buffer and
    sends it, the timer of a neighbour expires, the radio has put a frame into the
    packet buffer. *)
Inductive mac_event :=
  | Submit (pb : packetbuf_st) (sent : option Z) (ptr : Z)
  | Expire (n : nat)
  | Input (pb : packetbuf_st) (frame : frame802154_t).

Definition set_packetbuf (pb : packetbuf_st) : CS unit :=
  modify (fun st => st <| cs_framer ::= fun f => f <| fr_pb := pb |> |>).

(** The delay of the timer that expired, otherwise 0. *)
Definition mac_handle (e : mac_event) : CS Z :=
  match e with
  | Submit pb sent ptr => set_packetbuf pb ;; csma_send_packet sent ptr ;; mret 0
  | Expire n => transmit_timer_expires n
  | Input pb frame => set_packetbuf pb ;; rdc_packet_input frame ;; mret 0
  end.

(** A packet buffer as the rest of the system leaves it. *)
Definition pb_ready (pb : packetbuf_st) : Prop :=
  pb_wf pb /\ length (packetbuf_attrs pb) = PACKETBUF_NUM_ATTRS.

(** The events that can happen: only a neighbour in the list has a timer. *)
Definition possible (e : mac_event) (st : csma_st) : Prop :=
  match e with
  | Submit pb _ _ => pb_ready pb
  | Expire n => n ∈ neighbor_list st
  | Input pb _ => pb_ready pb /\ bufptr pb + hdrlen pb + 23 <= PACKETBUF_SIZE
  end.

Inductive mac_run : csma_st -> list (mac_event * Z) -> csma_st -> Prop :=
  | run_nil st : mac_run st [] st
  | run_cons st e d st1 tr st' :
      possible e st -> mac_handle e st = Ok (d, st1) -> mac_run st1 tr st' ->
      mac_run st ((e, d) :: tr) st'.

(** What an event does to the queues and to the owners of the packets. *)
Definition effect (e : mac_event) (d : Z) (st st' : csma_st) : Prop :=
  match e with
  | Submit pb sent ptr =>
      let st0 := st <| cs_framer ::= fun f => f <| fr_pb := pb |> |> in
      refused st0 st' sent ptr \/
      exists n, accepted st0 st' (mk_metadata sent ptr (max_of pb)) (is_ack pb) n
  | Expire n => exists v ss, view st n = Some v /\ v_timer v = Some d /\ expired st st' n v ss
  | Input _ _ => unchanged st st'
  end.

Lemma set_packetbuf_wf st pb :
  csma_wf st -> pb_ready pb -> csma_wf (st <| cs_framer ::= fun f => f <| fr_pb := pb |> |>).
Proof. intros [W H] [H1 H2]. split; [|exact H]. by apply wf0_pb. Qed.

Lemma mac_step st e :
  csma_wf st -> possible e st ->
  exists d st', mac_handle e st = Ok (d, st') /\ csma_wf st' /\ effect e d st st'.
Proof.
  intros W P. destruct e as [pb sent ptr|n|pb frame]; cbn [mac_handle effect possible] in *.
  - destruct (send_packet_run _ sent ptr (set_packetbuf_wf _ _ W P)) as (st' & n & E & W' & _ & _ & R).
    exists 0, st'. split; [erewrite bind_Ok by reflexivity; by erewrite bind_Ok by exact E|].
    split; [done|]. destruct R; [by left|right; by exists n].
  - destruct (expires_view st n W P) as (d & v & st' & ss & Hv & Hd & E & W' & X).
    exists d, st'. split; [done|]. split; [done|]. by exists v, ss.
  - destruct P as [P Hroom]. pose proof (set_packetbuf_wf _ _ W P) as W0.
    set (st0 := st <| cs_framer ::= fun f => f <| fr_pb := pb |> |>) in *.
    destruct (framer_parse_runs frame (cs_framer st0)) as (r & f & E & Hw & _ & _ & Hl & _); [apply P|done|].
    assert (U : unchanged st (st <| cs_framer := f |>)).
    { split; try done. apply wf0_pb; [apply W|done|]. unfold attrs_len in Hl. rewrite Hl. apply P. }
    exists 0, (st <| cs_framer := f |>). split; [|split; [exact (unchanged_csma_wf _ _ W U)|done]].
    assert (Ez : zoom cs_framer (framer_parse frame) st0 = Ok (r, st <| cs_framer := f |>)).
    { unfold zoom. rewrite E. by destruct st. }
    erewrite bind_Ok by reflexivity. fold st0.
    by erewrite bind_Ok by (unfold rdc_packet_input; erewrite bind_Ok by exact Ez; reflexivity).
Qed.

Lemma mac_run_wf st tr st' : csma_wf st -> mac_run st tr st' -> csma_wf st'.
Proof.
  intros W. induction 1 as [|st e d st1 tr st' P E R IH]; [done|]. apply IH.
  destruct (mac_step st e W P) as (d' & st2 & E' & W' & _). congruence.
Qed.

(** Induction over a run, one effect after the other. *)
Lemma mac_run_ind_wf (P : csma_st -> list (mac_event * Z) -> csma_st -> Prop) :
  (forall st, csma_wf st -> P st [] st) ->
  (forall st e d st1 tr st', csma_wf st -> csma_wf st1 -> possible e st -> effect e d st st1 ->
     mac_run st1 tr st' -> P st1 tr st' -> P st ((e, d) :: tr) st') ->
  forall st tr st', csma_wf st -> mac_run st tr st' -> P st tr st'.
Proof.
  intros H0 H1 st tr st' W R. induction R as [|st e d st1 tr st' Hp E R IH]; [by apply H0|].
  destruct (mac_step st e W Hp) as (d' & st2 & E' & W' & X).
  assert (d' = d) as -> by congruence. assert (st2 = st1) as -> by congruence.
  apply (H1 _ _ _ st1); auto.
Qed.

(** ** Exactly once *)

(** The owners called so far, and those of the packets that wait. *)
Definition owners (st : csma_st) : list (Z * Z) :=
  (call_to <$> sent_calls st) ++ omap owner (pending st).
(** The owners of the packets submitted. *)
Definition submitter (ed : mac_event * Z) : option (Z * Z) :=
  match ed.1 with Submit _ sent ptr => (fun s => (s, ptr)) <$> sent | _ => None end.

Lemma omap_app_perm {A B} (f : A -> option B) l1 l2 l3 :
  l1 ≡ₚ l2 ++ l3 -> omap f l1 ≡ₚ omap f l2 ++ omap f l3.
Proof. intros ->. by rewrite omap_app. Qed.

Lemma effect_owners e d st st' :
  effect e d st st' -> owners st' ≡ₚ owners st ++ omap submitter [(e, d)].
Proof.
  unfold owners. destruct e as [pb sent ptr|n|pb frame]; cbn [effect].
  - set (st0 := st <| cs_framer ::= _ |>). change (sent_calls st) with (sent_calls st0).
    change (pending st) with (pending st0).
    assert (Hs : omap submitter [(Submit pb sent ptr, d)] = omap owner [mk_metadata sent ptr (max_of pb)]) by done.
    rewrite Hs. intros [[_ R2 _ R4]|(n & [_ A2 _ A4 _])].
    + rewrite R2, R4, fmap_app, <- !app_assoc. apply Permutation_app; [done|].
      rewrite Permutation_app_comm. apply Permutation_app; [done|].
      unfold call_for, owner, call_to. by destruct sent.
    + rewrite A2, <- app_assoc. apply Permutation_app; [done|].
      rewrite Permutation_app_comm. by apply (omap_app_perm owner _ [_] (pending st0)).
  - intros (v & ss & _ & _ & [_ _ _ X]). cbn. rewrite app_nil_r.
    destruct (serve _ _ _ ss) as [calls [[q t] c]] eqn:Es.
    destruct X as (Hc & (done & Hq & Hp) & _). rewrite Hc, fmap_app, <- app_assoc.
    apply Permutation_app; [done|]. rewrite (serve_owners _ _ _ _ _ _ _ _ _ Es Hq).
    symmetry. by apply omap_app_perm.
  - intros U. rewrite (unchanged_pending _ _ U), (un_calls _ _ U). cbn. by rewrite app_nil_r.
Qed.

(** C7. Exactly once: whatever packets are handed to the MAC layer, whatever the radio
    answers and however the timers expire, the owners called and those whose packets
    wait are together the owners of all the packets: no packet is forgotten, and no
    owner hears twice of the same packet. *)
Theorem mac_exactly_once st tr st' :
  csma_wf st -> mac_run st tr st' -> owners st' ≡ₚ owners st ++ omap submitter tr.
Proof.
  revert st tr st'. apply (mac_run_ind_wf (fun st tr st' => owners st' ≡ₚ owners st ++ omap submitter tr)).
  - intros st _. cbn. by rewrite app_nil_r.
  - intros st e d st1 tr st' _ _ _ X _ IH. rewrite IH, (effect_owners _ _ _ _ X), <- app_assoc.
    apply Permutation_app; [done|]. change ((e, d) :: tr) with ([(e, d)] ++ tr). by rewrite omap_app.
Qed.

(** ** From the start *)

Lemma owned_init {A} (zero : A) p : pool_wf p -> pool_owned (pool_init zero p) [].
Proof.
  intros H. split.
  - unfold pool_wf, pool_init in *. cbn. by rewrite !length_replicate.
  - unfold pool_bits, pool_init. cbn. apply Forall_replicate. lia.
  - constructor.
  - intros i. split; [by intros ?%elem_of_nil|]. intros (c & Hc & Hne). unfold pool_init in Hc. cbn in Hc.
    apply lookup_replicate in Hc as [-> _]. done.
Qed.

(** The layer before [csma_init]: the statics are zero, the pools have their size. *)
Record booting (st : csma_st) : Prop := {
  bt_bufs : bufs_wf st;
  bt_list : neighbor_list st = [];
  bt_seqno : csma_seqno st = 0;
  bt_pools : pool_wf (packet_memb st) /\ pool_wf (metadata_memb st) /\ pool_wf (neighbor_memb st);
  bt_size : length (pl_blocks (packet_memb st)) = MAX_QUEUED_PACKETS;
}.

Lemma csma_init_run st :
  booting st -> exists st', csma_init st = Ok (tt, st') /\ csma_wf st' /\ pending st' = [] /\
    sent_calls st' = sent_calls st.
Proof.
  intros [Hb Hl Hs (H1 & H2 & H3) Hz].
  set (st' := st <| packet_memb ::= pool_init (mk_rdc_buf 0 None) |>
                 <| metadata_memb ::= pool_init (mk_metadata None 0 0) |>
                 <| neighbor_memb ::= pool_init (mk_neighbor_queue 0 None 0 0 []) |>).
  exists st'. split; [done|].
  assert (El : neighbor_list st' = []) by exact Hl.
  split; [|split; [by unfold pending, all_packets; rewrite El|done]].
  split; [|intros n Hn; rewrite El in Hn; by apply elem_of_nil in Hn]. split.
  - destruct Hb. by split.
  - change (csma_seqno st') with (csma_seqno st). by rewrite Hs.
  - rewrite El. by apply owned_init.
  - exists []. split; [unfold all_packets; by rewrite El|by apply owned_init|by apply owned_init|constructor|].
    by intros p m b ?%elem_of_nil.
  - change (packet_memb st') with (pool_init (mk_rdc_buf 0 None) (packet_memb st)).
    unfold pool_init. cbn. by rewrite length_replicate.
Qed.

(** C6. The invariant: after [csma_init] and any events, every packet, metadata block,
    queue buffer and neighbour that is in use is in use once and belongs to one queue,
    every neighbour of the list has a packet to send and a timer that is set, and the
    next event, whatever it is, is handled without a fault. *)
Theorem mac_invariant st0 :
  booting st0 ->
  exists st, csma_init st0 = Ok (tt, st) /\ pending st = [] /\
    forall tr st', mac_run st tr st' -> csma_wf st' /\
      forall e, possible e st' -> exists d st'', mac_handle e st' = Ok (d, st'') /\ csma_wf st''.
Proof.
  intros B. destruct (csma_init_run st0 B) as (st & E & W & Hp & _). exists st. split; [done|]. split; [done|].
  intros tr st' R. pose proof (mac_run_wf _ _ _ W R) as W'. split; [done|].
  intros e P. destruct (mac_step st' e W' P) as (d & st'' & E' & W'' & _). by exists d, st''.
Qed.

(** ** In bounded time *)

(** How often [n]'s timer expired, and the sum of its delays. *)
Fixpoint expiries (n : nat) (tr : list (mac_event * Z)) : Z :=
  match tr with
  | [] => 0
  | (Expire n', _) :: tr' => (if decide (n' = n) then 1 else 0) + expiries n tr'
  | _ :: tr' => expiries n tr'
  end.
Fixpoint waited (n : nat) (tr : list (mac_event * Z)) : Z :=
  match tr with
  | [] => 0
  | (Expire n', d) :: tr' => (if decide (n' = n) then d else 0) + waited n tr'
  | _ :: tr' => waited n tr'
  end.

(** An acknowledgement goes to the head of its queue. *)
Definition not_ack (ed : mac_event * Z) : Prop :=
  match ed.1 with Submit pb _ _ => is_ack pb = false | _ => True end.

(** The packet [md] is the first of [n], with its counters and its timer. *)
Definition first_is (st : csma_st) (n : nat) (md : qbuf_metadata) (t c tm : Z) : Prop :=
  exists v q, view st n = Some v /\ v_queue v = md :: q /\ v_transmissions v = t /\
    v_collisions v = c /\ v_timer v = Some tm.

(** The owner of [md] was called between the two states. *)
Definition reported (st st' : csma_st) (md : qbuf_metadata) : Prop :=
  exists l c, sent_calls st' = sent_calls st ++ l /\ c ∈ l /\ owner md = Some (call_to c).

(** What the collisions so far have cost, and what is left to wait and to try. *)
Definition backoff_spent (c : Z) : Z :=
  if c <=? 1 then 0 else if c =? 2 then 2 else if c =? 3 then 8 else if c =? 4 then 22 else 36.
Definition wait_left (max t c : Z) : Z := 36 * (max - t) - backoff_spent c.
Definition tries_left (max t c : Z) : Z := 6 * (max - t) - c.

Lemma backoff_step c : 0 <= c < CSMA_MAX_BACKOFF -> backoff_spent c + max_delay (c + 1) = backoff_spent (c + 1).
Proof.
  unfold CSMA_MAX_BACKOFF. intros H.
  assert (c = 0 \/ c = 1 \/ c = 2 \/ c = 3 \/ c = 4) as [-> | [-> | [-> | [-> | ->]]]] by lia; reflexivity.
Qed.
Lemma backoff_range c : 0 <= c -> 0 <= backoff_spent c <= 36.
Proof. intros H. unfold backoff_spent. repeat case_match; lia. Qed.

(** Every retry uses up a try, and its delay is within what is left to wait. *)
Lemma verdict_progress s max t c t' c' :
  0 <= max <= 255 -> 0 <= t -> (t = 0 \/ t < max) -> 0 <= c <= CSMA_MAX_BACKOFF ->
  verdict s max t c = inr (t', c') ->
  0 <= t' < max /\ 0 <= c' <= CSMA_MAX_BACKOFF /\
  1 <= tries_left max t' c' < tries_left max t c /\
  max_delay c' + wait_left max t' c' <= wait_left max t c.
Proof.
  intros Hm Ht Htm Hc. unfold verdict, wait_left, tries_left.
  pose proof (backoff_range c) as Hb. pose proof (backoff_step c) as Hst.
  assert (H0 : backoff_spent 0 = 0 /\ max_delay 0 = 0) by done. destruct H0 as [H01 H02].
  unfold CSMA_MAX_BACKOFF in *.
  assert (Ec : (c +8 1) = c + 1) by (apply (uwrap_small 8); unfold in_u; lia).
  assert (Et : (t +8 1) = t + 1) by (apply (uwrap_small 8); unfold in_u; lia).
  rewrite Ec, Et. destruct (s =? MAC_TX_OK); [done|]. destruct (s =? MAC_TX_NOACK).
  - destruct (Z.leb_spec max (t + 1)); [done|]. intros [= <- <-]. rewrite H01, H02. lia.
  - destruct (s =? MAC_TX_COLLISION); [|done].
    destruct (Z.ltb_spec 5 (c + 1)); match goal with |- context [max <=? ?x] => destruct (Z.leb_spec max x) end;
      try done; intros [= <- <-].
    + rewrite H01, H02. lia.
    + lia.
Qed.

(** An event that does not report the first packet of [n] leaves it the first. *)
Lemma effect_first e d st st' n md t c tm :
  effect e d st st' -> not_ack (e, d) -> e <> Expire n -> first_is st n md t c tm ->
  first_is st' n md t c tm.
Proof.
  intros X Ha He (v & q & Hv & Hq & Ht & Hc & Htm).
  destruct e as [pb sent ptr|n'|pb frame]; cbn [effect not_ack fst] in *.
  - set (st0 := st <| cs_framer ::= _ |>) in X. change (view st0 n = Some v) in Hv.
    destruct X as [[_ _ R3 _]|(n0 & [_ _ A3 _ A5])].
    + exists v, q. by rewrite R3.
    + destruct (decide (n = n0)) as [<-|Hne]; [|exists v, q; by rewrite A3].
      rewrite Hv, Ha in A5. destruct A5 as (_ & tm' & Hv' & ->).
      eexists _, (q ++ [_]). split; [exact Hv'|]. cbn. by rewrite Hq.
  - destruct X as (v' & ss & _ & _ & [_ _ X3 _]). exists v, q. rewrite X3; [done|congruence].
  - exists v, q. by rewrite (unchanged_view _ _ _ X).
Qed.

(** A timer that expires reports the first packet or retries it. *)
Lemma expire_first d st st' n md s t c tm :
  effect (Expire n) d st st' -> md_sent md = Some s -> first_is st n md t c tm ->
  d = tm /\ (reported st st' md \/
    exists s' t' c' tm', verdict s' (md_max_transmissions md) t c = inr (t', c') /\
      tm' <= max_delay c' /\ 0 <= tm' /\ first_is st' n md t' c' tm').
Proof.
  intros (v' & ss & Hv' & Hd & [_ (k & s1 & Hss & _) _ X]) Hs (v & q & Hv & Hq & Ht & Hc & Htm).
  assert (v' = v) as -> by congruence. split; [congruence|].
  assert (exists s2 ss2, ss = s2 :: ss2) as (s2 & ss2 & ->) by (rewrite Hss; destruct k; by eexists _, _).
  rewrite Hq, Ht, Hc in X. cbn [serve] in X.
  destruct (verdict s2 (md_max_transmissions md) t c) as [[s3 ntx]|[t' c']] eqn:Ev.
  - left. assert (Hcall : call_for md s3 ntx = [mk_sent_call s (md_cptr md) s3 ntx]) by (unfold call_for; by rewrite Hs).
    assert (Hown : owner md = Some (call_to (mk_sent_call s (md_cptr md) s3 ntx))) by (unfold owner; by rewrite Hs).
    rewrite Hcall in X. destruct (s2 =? MAC_TX_OK).
    + destruct (serve q 0 0 ss2) as [calls [[q2 t2] c2]]. destruct X as (Hcalls & _).
      eexists _, _. split; [exact Hcalls|]. split; [by left|done].
    + destruct X as (Hcalls & _). eexists _, _. split; [exact Hcalls|]. split; [by left|done].
  - right. destruct X as (_ & _ & tm' & Htm' & Hv2). exists s2, t', c', tm'.
    split; [done|]. split; [lia|]. split; [lia|]. by eexists _, q.
Qed.

Lemma effect_calls e d st st' : effect e d st st' -> exists l, sent_calls st' = sent_calls st ++ l.
Proof.
  destruct e as [pb sent ptr|n|pb frame]; cbn [effect].
  - intros [[_ R _ _]|(n & [_ A _ _ _])]; [by eexists|exists []; by rewrite A, app_nil_r].
  - intros (v & ss & _ & _ & [_ _ _ X]). destruct (serve _ _ _ ss) as [calls [[q t] c]].
    exists calls. apply X.
  - intros U. exists []. by rewrite (un_calls _ _ U), app_nil_r.
Qed.
Lemma run_calls st tr st' :
  csma_wf st -> mac_run st tr st' -> exists l, sent_calls st' = sent_calls st ++ l.
Proof.
  revert st tr st'. apply (mac_run_ind_wf (fun st tr st' => exists l, sent_calls st' = sent_calls st ++ l)).
  - intros st _. exists []. by rewrite app_nil_r.
  - intros st e d st1 tr st' _ _ _ X _ [l IH]. destruct (effect_calls _ _ _ _ X) as [l' El].
    exists (l' ++ l). by rewrite IH, El, app_assoc.
Qed.

Lemma reported_first st st1 st' md l :
  reported st st1 md -> sent_calls st' = sent_calls st1 ++ l -> reported st st' md.
Proof.
  intros (l1 & c & E & Hc & Ho) E'. exists (l1 ++ l), c. rewrite E', E, app_assoc.
  split; [done|]. split; [|done]. apply elem_of_app. by left.
Qed.
Lemma reported_later st st1 st' md l :
  sent_calls st1 = sent_calls st ++ l -> reported st1 st' md -> reported st st' md.
Proof.
  intros E (l1 & c & E' & Hc & Ho). exists (l ++ l1), c. rewrite E', E, app_assoc.
  split; [done|]. split; [|done]. apply elem_of_app. by right.
Qed.

Lemma first_ranges st n md t c tm :
  csma_wf st -> first_is st n md t c tm -> 0 <= c <= CSMA_MAX_BACKOFF /\ 0 <= tm /\ 0 <= t.
Proof.
  intros W (v & q & Hv & _ & <- & <- & Htm). apply view_Some in Hv as (Hn & nq & Hnq & ->).
  destruct (cw_each _ W n Hn) as (nq' & d & Hnq' & _ & Hd & Hd0 & Hc & Ht).
  assert (nq' = nq) as -> by congruence. cbn in *. assert (d = tm) as -> by congruence. unfold in_u in Ht. lia.
Qed.

(** Whatever happens, the tries and the delays of the first packet are used up
    together. *)
Lemma first_progress n md s :
  md_sent md = Some s -> 0 <= md_max_transmissions md <= 255 ->
  forall st tr st', csma_wf st -> mac_run st tr st' ->
  forall t c tm, Forall not_ack tr -> first_is st n md t c tm -> (t = 0 \/ t < md_max_transmissions md) ->
  let max := md_max_transmissions md in
  reported st st' md \/
  exists t' c' tm', first_is st' n md t' c' tm' /\ (t' = 0 \/ t' < max) /\
    expiries n tr + tries_left max t' c' <= tries_left max t c /\
    (expiries n tr = 0 /\ tries_left max t' c' = tries_left max t c \/ 1 <= tries_left max t' c') /\
    waited n tr + tm' + wait_left max t' c' <= tm + wait_left max t c.
Proof.
  intros Hs Hmax. apply (mac_run_ind_wf (fun st tr st' => forall t c tm, Forall not_ack tr ->
    first_is st n md t c tm -> (t = 0 \/ t < md_max_transmissions md) -> _)).
  { intros st _ t c tm _ F Ht. right. exists t, c, tm. cbn. split; [done|]. split; [done|]. split; [lia|].
    split; [by left|]. lia. }
  intros st e d st1 tr st' W W1 P X R IH t c tm [Hna Hnas]%Forall_cons F Ht.
  destruct (run_calls _ _ _ W1 R) as [l El]. destruct (effect_calls _ _ _ _ X) as [l' El'].
  destruct (first_ranges _ _ _ _ _ _ W F) as (Hc & Htm & Ht0).
  assert (Hdec : e = Expire n \/ e <> Expire n).
  { destruct e as [| n'|]; try (by right). destruct (decide (n' = n)) as [->|]; [by left|right; congruence]. }
  destruct Hdec as [->|Hne].
  - destruct (expire_first _ _ _ _ _ _ _ _ _ X Hs F) as [-> [Rep|(s' & t1 & c1 & tm1 & Hv & Htm1 & _ & F1)]].
    { left. by eapply reported_first. }
    destruct (verdict_progress _ _ _ _ _ _ Hmax Ht0 Ht Hc Hv) as (Ht1 & Hc1 & Htr & Hw).
    destruct (IH t1 c1 tm1 Hnas F1) as [Rep|(t' & c' & tm' & F' & Ht' & H1 & H2 & H3)]; [by right; lia| |].
    { left. by eapply reported_later. }
    right. exists t', c', tm'. cbn [expiries waited]. rewrite !decide_True by done.
    split; [done|]. split; [done|]. split; [lia|]. split; [right|lia].
    destruct H2 as [[_ H2]|H2]; lia.
  - pose proof (effect_first _ _ _ _ _ _ _ _ _ X Hna Hne F) as F1.
    destruct (IH t c tm Hnas F1 Ht) as [Rep|(t' & c' & tm' & F' & Ht' & H1 & H2 & H3)].
    { left. by eapply reported_later. }
    right. exists t', c', tm'. 
    assert (E : expiries n ((e, d) :: tr) = expiries n tr /\ waited n ((e, d) :: tr) = waited n tr).
    { destruct e as [| n'|]; try done. cbn. by rewrite !decide_False by congruence. }
    destruct E as [-> ->]. auto.
Qed.

(** C8. In bounded time: a packet at the head of its queue that has not been sent yet
    is reported to its owner, at the latest when its neighbour's timer has expired
    six times for every transmission it may have; the delays of the timer until then
    are at most 36 ticks for each.  This holds whatever the radio answers and whatever
    other packets are sent and received in between, acknowledgements excepted, which
    are put before it. *)
Theorem mac_reports_in_time st tr st' n md s :
  csma_wf st -> mac_run st tr st' -> Forall not_ack tr ->
  md_sent md = Some s -> 0 <= md_max_transmissions md <= 255 -> first_is st n md 0 0 0 ->
  reported st st' md \/
  exists t c tm, first_is st' n md t c tm /\
    expiries n tr < Z.max 1 (6 * md_max_transmissions md) /\
    waited n tr + tm <= 36 * md_max_transmissions md.
Proof.
  intros W R Hna Hs Hmax F.
  destruct (first_progress n md s Hs Hmax st tr st' W R 0 0 0 Hna F) as [Rep|(t & c & tm & F' & Ht & H1 & H2 & H3)].
  { by left. }
  { by left. }
  right. exists t, c, tm. split; [done|].
  destruct (first_ranges _ _ _ _ _ _ (mac_run_wf _ _ _ W R) F') as (Hc & _ & Ht0).
  unfold tries_left, wait_left in *. change (backoff_spent 0) with 0 in H3.
  pose proof (backoff_range c). unfold CSMA_MAX_BACKOFF in Hc. split; [lia|].
  destruct (decide (t < md_max_transmissions md)); [lia|].
  assert (c = 0) as -> by lia. change (backoff_spent 0) with 0 in *. lia.
Qed.

(** ** Runs that are evaluated *)

Lemma pb_ready_alt pb :
  ((length (packetbuf pb) = Z.to_nat PACKETBUF_SIZE /\ 0 <= hdrlen pb /\ 0 <= bufptr pb /\ 0 <= buflen pb /\
    bufptr pb + hdrlen pb + buflen pb <= PACKETBUF_SIZE) /\
   length (packetbuf_attrs pb) = PACKETBUF_NUM_ATTRS) <-> pb_ready pb.
Proof. split; [intros [(?&?&?&?&?) ?]; by split; [split|]|intros [[] ?]; auto 10]. Qed.
Definition dec_by_iff (P Q : Prop) (H : P <-> Q) {D : Decision P} : Decision Q :=
  match D with left p => left (proj1 H p) | right n => right (fun q => n (proj2 H q)) end.
#[export] Instance pb_ready_dec pb : Decision (pb_ready pb).
Proof. apply (dec_by_iff _ _ (pb_ready_alt pb)). Defined.
#[export] Instance possible_dec e st : Decision (possible e st).
Proof. destruct e; simpl; apply _. Defined.

Fixpoint mac_exec (es : list mac_event) (st : csma_st) : option (list (mac_event * Z) * csma_st) :=
  match es with
  | [] => Some ([], st)
  | e :: es' =>
      if decide (possible e st) then
        match mac_handle e st with
        | Ok (d, st1) =>
            match mac_exec es' st1 with
            | Some (tr, st') => Some ((e, d) :: tr, st')
            | None => None
            end
        | Err _ => None
        end
      else None
  end.

Lemma mac_exec_run es : forall st tr st', mac_exec es st = Some (tr, st') -> mac_run st tr st'.
Proof.
  induction es as [|e es IH]; intros st tr st' E; cbn [mac_exec] in E.
  - injection E as <- <-. constructor.
  - case_decide as P; [|done]. destruct (mac_handle e st) as [[d st1]|] eqn:Eh; [|done].
    destruct (mac_exec es st1) as [[tr1 st2]|] eqn:Ee; [|done]. injection E as <- <-.
    by apply (run_cons _ _ _ st1); [..|apply IH].
Qed.

Lemma mac_exec_not_ack es : forall st tr st',
  mac_exec es st = Some (tr, st') -> Forall (fun e => not_ack (e, 0)) es -> Forall not_ack tr.
Proof.
  induction es as [|e es IH]; intros st tr st' E H; cbn [mac_exec] in E.
  - injection E as <- _. constructor.
  - apply Forall_cons in H as [H1 H2]. case_decide; [|done]. destruct (mac_handle e st) as [[d st1]|]; [|done].
    destruct (mac_exec es st1) as [[tr1 st2]|] eqn:Ee; [|done]. injection E as <- _.
    constructor; [exact H1|by eapply IH].
Qed.

(** The run of a list of events that can happen one after the other. *)
Definition runs (es : list mac_event) (st : csma_st) : bool :=
  match mac_exec es st with Some _ => true | None => false end.
Lemma runs_exec es st : runs es st = true -> exists tr st', mac_exec es st = Some (tr, st').
Proof. unfold runs. destruct (mac_exec es st) as [[tr st']|]; [|done]. by exists tr, st'. Qed.

(** A node that has just started; the radio reports collisions, and the random
    numbers are such that the longest delays are drawn. *)
Definition csma_example : csma_st :=
  mk_csma (framer_example <| fr_rnd := fun _ => 104 |>)
    (pool_new 0%nat QUEUEBUF_NUM) (pool_new queuebuf_data_zero QUEUEBUF_NUM)
    (pool_new (mk_neighbor_queue 0 None 0 0 []) CSMA_MAX_NEIGHBOR_QUEUES)
    (pool_new (mk_rdc_buf 0 None) MAX_QUEUED_PACKETS)
    (pool_new (mk_metadata None 0 0) MAX_QUEUED_PACKETS) [] 0 0 5
    (fun _ => RADIO_TX_COLLISION) [] [].

Definition packet_example : mac_event := Submit (fr_pb framer_example) (Some 7) 1.

Lemma csma_example_booting : booting csma_example.
Proof.
  assert (Hu : forall b, ~ pool_used (cs_bufmem csma_example) b).
  { intros b (c & Hc & Hn). change (pl_count (cs_bufmem csma_example)) with (replicate QUEUEBUF_NUM 0) in Hc.
    apply lookup_replicate in Hc as [-> _]. done. }
  assert (Hp : pb_wf (fr_pb (cs_framer csma_example))) by (split; vm_compute; try reflexivity; discriminate).
  split; [|done|done|done|done]. split; [|split|done].
  - split; [exact Hp|done|done|intros b r Hb; by destruct (Hu b)|intros b b' r Hb; by destruct (Hu b)].
  - apply Forall_replicate. lia.
  - apply Forall_replicate. lia.
Qed.
Lemma csma_example_wf : csma_wf csma_example.
Proof.
  destruct (csma_init_run csma_example csma_example_booting) as (st & E & W & _).
  assert (E' : csma_init csma_example = Ok (tt, csma_example)) by reflexivity. congruence.
Qed.

Lemma mac_invariant_witness :
  exists st, csma_init csma_example = Ok (tt, st) /\ pending st = [] /\
    forall tr st', mac_run st tr st' -> csma_wf st' /\
      forall e, possible e st' -> exists d st'', mac_handle e st' = Ok (d, st'') /\ csma_wf st''.
Proof. apply (mac_invariant csma_example csma_example_booting). Defined.

(** A packet and six collisions, and the state after the first of these. *)
Definition collisions_example : list mac_event := packet_example :: replicate 6 (Expire 0).
Definition csma_example_sent : csma_st :=
  match mac_handle packet_example csma_example with Ok (_, st) => st | Err _ => csma_example end.

Lemma csma_example_sent_wf : csma_wf csma_example_sent.
Proof.
  apply (mac_run_wf csma_example [(packet_example, 0)] _ csma_example_wf).
  apply (mac_exec_run [packet_example]). vm_compute. reflexivity.
Qed.

Lemma mac_exactly_once_witness :
  exists tr st', mac_exec collisions_example csma_example = Some (tr, st') /\
    owners st' ≡ₚ owners csma_example ++ omap submitter tr.
Proof.
  destruct (runs_exec collisions_example csma_example) as (tr & st' & E); [vm_compute; reflexivity|].
  exists tr, st'. split; [exact E|].
  apply (mac_exactly_once csma_example tr st' csma_example_wf (mac_exec_run _ _ _ _ E)).
Defined.

Lemma mac_reports_in_time_witness :
  let md := mk_metadata (Some 7) 1 3 in
  exists tr st', mac_exec (replicate 6 (Expire 0)) csma_example_sent = Some (tr, st') /\
    (reported csma_example_sent st' md \/
     exists t c tm, first_is st' 0 md t c tm /\
       expiries 0 tr < Z.max 1 (6 * md_max_transmissions md) /\
       waited 0 tr + tm <= 36 * md_max_transmissions md).
Proof.
  intros md. destruct (runs_exec (replicate 6 (Expire 0)) csma_example_sent) as (tr & st' & E); [vm_compute; reflexivity|].
  exists tr, st'. split; [exact E|].
  apply (mac_reports_in_time csma_example_sent tr st' 0 md 7 csma_example_sent_wf (mac_exec_run _ _ _ _ E)).
  - apply (mac_exec_not_ack _ _ _ _ E). repeat constructor.
  - reflexivity.
  - vm_compute. split; discriminate.
  - exists (mk_nview 0 [md] 0 0 (Some 0)), []. split; [vm_compute; reflexivity|]. repeat split.
Defined.

(** How often the timer expired and how long it waited, what became of the neighbour
    and whom the layer called. *)
Definition mac_summary (es : list mac_event) : option (Z * Z * option nview * list sent_call) :=
  match mac_exec es csma_example with
  | Some (tr, st) => Some (expiries 0 tr, waited 0 tr, view st 0, sent_calls st)
  | None => None
  end.

(** The bounds are reached: when every frame collides and the longest delays are
    drawn, the timer expires 18 times and waits 108 ticks before the packet is given
    up; the first of its three transmissions alone is put off by 36 ticks of 1/128 s,
    281 ms, where project-conf.h relies on 125 ms, 16 ticks. *)
Theorem backoff_bounds_reached :
  let md := mk_metadata (Some 7) 1 3 in
  mac_summary (packet_example :: replicate 6 (Expire 0)) =
    Some (6, 36, Some (mk_nview 0 [md] 1 0 (Some 0)), []) /\
  mac_summary (packet_example :: replicate 18 (Expire 0)) =
    Some (6 * md_max_transmissions md, 36 * md_max_transmissions md, None,
          [mk_sent_call 7 1 MAC_TX_COLLISION (md_max_transmissions md)]) /\
  MAC_CLOCK_SECOND / 8 = 16.
Proof.
  intros md. split; [vm_compute; reflexivity|]. split; [vm_compute; reflexivity|reflexivity].
Qed.

(** ** One call *)

(** C10. [send_packet] on every branch: with no free block for the packet, or no free
    entry for a new neighbour, the owner is told MAC_TX_ERR at once and the queues are
    as before; otherwise the packet is put at the end of its receiver's queue, or at
    the front if it is an acknowledgement, a new neighbour gets an entry and sends at
    once, and nobody is called. *)
Theorem csma_send_packet_spec st sent ptr :
  csma_wf st ->
  exists st' n, csma_send_packet sent ptr st = Ok (tt, st') /\ csma_wf st' /\
    radio_frames st' = radio_frames st /\
    (refused st st' sent ptr \/
     accepted st st' (mk_metadata sent ptr (max_of (fr_pb (cs_framer st))))
       (is_ack (fr_pb (cs_framer st))) n).
Proof.
  intros W. destruct (send_packet_run st sent ptr W) as (st' & n & E & W' & _ & Hf & H). by exists st', n.
Qed.

Lemma csma_send_packet_spec_witness :
  exists st' n, csma_send_packet (Some 7) 1 csma_example = Ok (tt, st') /\ csma_wf st' /\
    radio_frames st' = radio_frames csma_example /\
    (refused csma_example st' (Some 7) 1 \/
     accepted csma_example st' (mk_metadata (Some 7) 1 (max_of (fr_pb (cs_framer csma_example))))
       (is_ack (fr_pb (cs_framer csma_example))) n).
Proof. apply (csma_send_packet_spec csma_example (Some 7) 1 csma_example_wf). Defined.


