(* ===== verification/Kernel.v ===== *)
(** * Kernel: processes and events

    core/sys/process.c: the list of processes, the ring buffer of events, polling,
    and the delivery of an event to one process or to all.  The threads of the
    processes are code of other files: they are a parameter, a computation over the
    state of the kernel and the state [T] of the program, and call the functions of
    this file where the code does.  Whom the kernel called with what is recorded. *)
From stdpp Require Import numbers option gmap list.
From S2P Require Import Prelude Lists.

Definition PROCESS_CONF_NUMEVENTS : Z := 8.
Definition PROCESS_ERR_OK : Z := 0.
Definition PROCESS_ERR_FULL : Z := 1.
Definition PROCESS_EVENT_INIT : Z := 0x81.
Definition PROCESS_EVENT_POLL : Z := 0x82.
Definition PROCESS_EVENT_EXIT : Z := 0x83.
Definition PROCESS_EVENT_EXITED : Z := 0x87.
Definition PROCESS_EVENT_TIMER : Z := 0x88.
Definition PROCESS_EVENT_MAX : Z := 0x8a.
Definition PROCESS_STATE_NONE : Z := 0.
Definition PROCESS_STATE_RUNNING : Z := 1.
Definition PROCESS_STATE_CALLED : Z := 2.
Definition PT_WAITING : Z := 0.
Definition PT_YIELDED : Z := 1.
Definition PT_EXITED : Z := 2.
Definition PT_ENDED : Z := 3.

(** [pr_thread] tells whether [thread] is not NULL, [pr_pt] is the local continuation;
    the [next] fields are in the store of the list. *)
Record process := mk_process {
  pr_thread : bool;
  pr_pt : Z;
  pr_state : Z;
  pr_needspoll : Z;
}.
#[export] Instance eta_process : Eta process := fun x =>
  mk_process (pr_thread x) (pr_pt x) (pr_state x) (pr_needspoll x).

(** [PROCESS_BROADCAST] is NULL; the data of an event is a pointer. *)
Record event_data := mk_event {
  ed_ev : Z;
  ed_data : ptr;
  ed_p : ptr;
}.
#[export] Instance eta_event : Eta event_data := fun x => mk_event (ed_ev x) (ed_data x) (ed_p x).

(** A call of a thread. *)
Record thread_call := mk_thread_call { tc_process : loc; tc_ev : Z; tc_data : ptr }.

Record kernel := mk_kernel {
  process_list : list_store;
  processes : gmap loc process;
  process_current : ptr;
  lastevent : Z;
  nevents : Z;
  fevent : Z;
  events : list event_data;
  process_maxevents : Z;
  poll_requested : Z;
  thread_calls : list thread_call;
}.
#[export] Instance eta_kernel : Eta kernel := fun x =>
  mk_kernel (process_list x) (processes x) (process_current x) (lastevent x) (nevents x) (fevent x)
    (events x) (process_maxevents x) (poll_requested x) (thread_calls x).

Abbreviation KN := (M kernel).

(** ** Fields of a process *)

Definition proc_get (p : loc) : KN process := fun k =>
  match processes k !! p with Some pr => Ok (pr, k) | None => Err FWild end.
Definition proc_set (p : loc) (f : process -> process) : KN unit := fun k =>
  match processes k !! p with
  | Some pr => Ok (tt, k <| processes ::= <[p := f pr]> |>)
  | None => Err FWild
  end.
Definition on_list {A} (m : M list_store A) : KN A := zoom process_list m.

(** ** The functions that call no thread *)

Definition process_alloc_event : KN Z :=
  e ← gets lastevent;
  (lastevent <~ e +8 1) ;;
  mret e.

Definition process_init : KN unit := modify (fun k => k
  <| lastevent := PROCESS_EVENT_MAX |> <| fevent := 0 |> <| nevents := 0 |>
  <| process_maxevents := 0 |>
  <| process_list ::= fun l => l <| ls_head := None |> |> <| process_current := None |>).

Definition process_post (p : ptr) (ev : Z) (data : ptr) : KN Z :=
  n ← gets nevents;
  if n =? PROCESS_CONF_NUMEVENTS then mret PROCESS_ERR_FULL
  else
    f ← gets fevent;
    let snum := u8 (f + n) mod PROCESS_CONF_NUMEVENTS in
    modify (fun k => k <| events ::= <[Z.to_nat snum := mk_event ev data p]> |>) ;;
    modify (fun k => k <| nevents ::= fun n => n +8 1 |>) ;;
    n ← gets nevents;
    m ← gets process_maxevents;
    when (m <? n) (process_maxevents <~ n) ;;
    mret PROCESS_ERR_OK.

Definition process_poll (p : ptr) : KN unit :=
  match p with
  | None => skip
  | Some p =>
      pr ← proc_get p;
      when ((pr_state pr =? PROCESS_STATE_RUNNING) || (pr_state pr =? PROCESS_STATE_CALLED))
        (proc_set p (fun pr => pr <| pr_needspoll := 1 |>) ;; (poll_requested <~ 1))
  end.

Definition process_is_running (p : loc) : KN bool :=
  pr ← proc_get p; mret (negb (pr_state pr =? PROCESS_STATE_NONE)).

Definition process_nevents : KN Z :=
  n ← gets nevents; r ← gets poll_requested; mret (n + r).

(** The first event of the queue, which is taken off. *)
Definition next_event : KN (option event_data) :=
  n ← gets nevents;
  if 0 <? n then
    f ← gets fevent;
    e ← gets (fun k => events k !! Z.to_nat f);
    (match e with
     | Some e =>
         modify (fun k => k <| fevent := u8 (f + 1) mod PROCESS_CONF_NUMEVENTS |>
                            <| nevents ::= fun n => n -8 1 |>) ;;
         mret (Some e)
     | None => fail FWild
     end)
  else mret None.

(** [for(q = process_list; q != p && q != NULL; q = q->next);] *)
Fixpoint search_loop (fuel : nat) (p : loc) (q : ptr) : M list_store ptr :=
  match fuel with
  | O => fail FHang
  | S n =>
      match q with
      | None => mret None
      | Some x => if decide (x = p) then mret (Some x) else q' ← get_next x; search_loop n p q'
      end
  end.
Definition in_process_list (p : loc) : KN bool := on_list (fun st =>
  match search_loop (list_fuel st) p (ls_head st) st with
  | Ok (q, st') => Ok (bool_decide (q = Some p), st')
  | Err e => Err e
  end).

(** The second loop of [exit_process]: the item before [p] gets its successor. *)
Fixpoint unlink_loop (fuel : nat) (p : loc) (q : ptr) : M list_store unit :=
  match fuel with
  | O => fail FHang
  | S n =>
      match q with
      | None => skip
      | Some x =>
          q' ← get_next x;
          if decide (q' = Some p) then r ← get_next p; set_next x r
          else unlink_loop n p q'
      end
  end.
Definition unlink_process (p : loc) : KN unit := on_list (fun st =>
  if decide (ls_head st = Some p) then (r ← get_next p; ls_head <~ r) st
  else unlink_loop (list_fuel st) p (ls_head st) st).

Definition push_process (p : loc) : KN unit := on_list (
  h ← gets ls_head; set_next p h ;; (ls_head <~ Some p)).

(** ** The functions that call threads *)

Section threads.
Context {T : Type}.
Abbreviation K := (M (kernel * T)).

Definition on_k {A} (m : KN A) : K A := fun '(k, t) =>
  match m k with Ok (a, k') => Ok (a, (k', t)) | Err e => Err e end.

(** The thread of a process: event, data and the value it returns. *)
Variable thread : loc -> Z -> ptr -> K Z.

Definition call_thread (p : loc) (ev : Z) (data : ptr) : K Z :=
  on_k (modify (fun k => k <| thread_calls ::= fun l => l ++ [mk_thread_call p ev data] |>)) ;;
  thread p ev data.

(** [for(q = process_list; q != NULL; q = q->next)] around a call; the list may
    change during the call. *)
Fixpoint each_process (fuel : nat) (q : ptr) (body : loc -> K unit) : K unit :=
  match fuel with
  | O => fail FHang
  | S n =>
      match q with
      | None => skip
      | Some x => body x ;; q' ← on_k (on_list (get_next x)); each_process n q' body
      end
  end.

(** [exit_process], where [call] is [call_process]. *)
Definition exit_process (fuel : nat) (call : loc -> Z -> ptr -> K unit) (p : loc) (fromprocess : ptr) : K unit :=
  old_current ← on_k (gets process_current);
  found ← on_k (in_process_list p);
  if negb found then skip
  else
    r ← on_k (process_is_running p);
    when r (
      on_k (proc_set p (fun pr => pr <| pr_state := PROCESS_STATE_NONE |>)) ;;
      h ← on_k (gets (fun k => ls_head (process_list k)));
      each_process fuel h (fun q => if decide (p = q) then skip else call q PROCESS_EVENT_EXITED (Some p)) ;;
      pr ← on_k (proc_get p);
      when (pr_thread pr && negb (bool_decide (fromprocess = Some p))) (
        on_k (process_current <~ Some p) ;;
        call_thread p PROCESS_EVENT_EXIT None ;;
        skip)) ;;
    on_k (unlink_process p) ;;
    on_k (process_current <~ old_current).

Fixpoint call_process (fuel : nat) (p : loc) (ev : Z) (data : ptr) : K unit :=
  match fuel with
  | O => fail FHang
  | S n =>
      pr ← on_k (proc_get p);
      when (c_true (Z.land (pr_state pr) PROCESS_STATE_RUNNING) && pr_thread pr) (
        on_k (process_current <~ Some p) ;;
        on_k (proc_set p (fun pr => pr <| pr_state := PROCESS_STATE_CALLED |>)) ;;
        ret ← call_thread p ev data;
        if (ret =? PT_EXITED) || (ret =? PT_ENDED) || (ev =? PROCESS_EVENT_EXIT)
        then exit_process n (call_process n) p (Some p)
        else on_k (proc_set p (fun pr => pr <| pr_state := PROCESS_STATE_RUNNING |>)))
  end.

Definition process_exit (fuel : nat) (p : loc) : K unit :=
  c ← on_k (gets process_current);
  exit_process fuel (call_process fuel) p c.

Definition process_post_synch (fuel : nat) (p : loc) (ev : Z) (data : ptr) : K unit :=
  caller ← on_k (gets process_current);
  call_process fuel p ev data ;;
  on_k (process_current <~ caller).

Definition process_start (fuel : nat) (p : loc) (data : ptr) : K unit :=
  found ← on_k (in_process_list p);
  if found : bool then skip
  else
    on_k (push_process p) ;;
    on_k (proc_set p (fun pr => pr <| pr_state := PROCESS_STATE_RUNNING |> <| pr_pt := 0 |>)) ;;
    process_post_synch fuel p PROCESS_EVENT_INIT data.

Definition do_poll (fuel : nat) : K unit :=
  on_k (poll_requested <~ 0) ;;
  h ← on_k (gets (fun k => ls_head (process_list k)));
  each_process fuel h (fun p =>
    pr ← on_k (proc_get p);
    when (c_true (pr_needspoll pr)) (
      on_k (proc_set p (fun pr => pr <| pr_state := PROCESS_STATE_RUNNING |> <| pr_needspoll := 0 |>)) ;;
      call_process fuel p PROCESS_EVENT_POLL None)).

Definition do_poll_if_requested (fuel : nat) : K unit :=
  r ← on_k (gets poll_requested); when (c_true r) (do_poll fuel).

(** The delivery of one event. *)
Definition deliver (fuel : nat) (e : event_data) : K unit :=
  match ed_p e with
  | None =>
      h ← on_k (gets (fun k => ls_head (process_list k)));
      each_process fuel h (fun p =>
        do_poll_if_requested fuel ;; call_process fuel p (ed_ev e) (ed_data e))
  | Some receiver =>
      when (ed_ev e =? PROCESS_EVENT_INIT)
        (on_k (proc_set receiver (fun pr => pr <| pr_state := PROCESS_STATE_RUNNING |>))) ;;
      call_process fuel receiver (ed_ev e) (ed_data e)
  end.

Definition do_event (fuel : nat) : K unit :=
  e ← on_k next_event;
  match e with Some e => deliver fuel e | None => skip end.

Definition process_run (fuel : nat) : K Z :=
  do_poll_if_requested fuel ;;
  do_event fuel ;;
  on_k process_nevents.
End threads.
