(* ===== verification/KernelFacts.v ===== *)
(** * KernelFacts: the event queue is first in, first out, and every event arrives

    Theorems about [Kernel]: the ring buffer refines a bounded queue; with threads
    that keep to their own business every event reaches its receivers, in the order of
    the events and of the processes. *)
From stdpp Require Import numbers option gmap list.
From S2P Require Import Prelude Lists Kernel.

(** ** The ring buffer *)

#[export] Instance event_inhabited : Inhabited event_data := populate (mk_event 0 None None).

(** The events that wait, the next one first. *)
Definition queue (k : kernel) : list event_data :=
  (fun i => events k !!! ((Z.to_nat (fevent k) + i) mod Z.to_nat PROCESS_CONF_NUMEVENTS)%nat)
    <$> seq 0 (Z.to_nat (nevents k)).

Record queue_ok (k : kernel) : Prop := {
  qo_first : 0 <= fevent k < PROCESS_CONF_NUMEVENTS;
  qo_number : 0 <= nevents k <= PROCESS_CONF_NUMEVENTS;
  qo_size : length (events k) = Z.to_nat PROCESS_CONF_NUMEVENTS;
}.

Lemma queue_length k : queue_ok k -> Z.of_nat (length (queue k)) = nevents k.
Proof. intros []. unfold queue. rewrite length_fmap, length_seq. lia. Qed.

(** The rest of the queue without its first event. *)
Lemma queue_pop k :
  queue_ok k -> 0 < nevents k ->
  exists e, events k !! Z.to_nat (fevent k) = Some e /\
    let k' := k <| fevent := u8 (fevent k + 1) mod PROCESS_CONF_NUMEVENTS |> <| nevents ::= fun n => n -8 1 |> in
    queue_ok k' /\ queue k = e :: queue k'.
Proof.
  intros [H1 H2 H3] Hn. unfold PROCESS_CONF_NUMEVENTS in *.
  destruct (events k !! Z.to_nat (fevent k)) as [e|] eqn:He; [|apply lookup_ge_None in He; lia].
  exists e. split; [done|].
  set (k' := k <| fevent := u8 (fevent k + 1) mod 8 |> <| nevents ::= fun n => n -8 1 |>).
  assert (Ef : fevent k' = (fevent k + 1) mod 8).
  { unfold k'. rsimpl. by rewrite (uwrap_small 8) by (unfold in_u; lia). }
  assert (En : nevents k' = nevents k - 1).
  { unfold k'. rsimpl. by rewrite (uwrap_small 8) by (unfold in_u; lia). }
  assert (Hf : 0 <= fevent k' < 8) by (rewrite Ef; apply Z.mod_pos_bound; lia).
  split; [split; unfold PROCESS_CONF_NUMEVENTS; try lia; exact H3|].
  unfold queue. change (events k') with (events k). unfold PROCESS_CONF_NUMEVENTS. rewrite En.
  replace (Z.to_nat (nevents k)) with (S (Z.to_nat (nevents k - 1))) by lia.
  cbn [seq fmap list_fmap]. f_equal.
  - rewrite Nat.add_0_r, Nat.mod_small by lia. by apply list_lookup_total_correct.
  - rewrite <- fmap_S_seq, <- list_fmap_compose. apply list_fmap_ext. intros j x Hx. cbn. f_equal.
    change ((fevent k +8 1) mod 8) with (fevent k'). rewrite Ef, Z2Nat.inj_mod by lia. change (Z.to_nat 8) with 8%nat.
    rewrite Nat.Div0.add_mod_idemp_l by lia. f_equal. lia.
Qed.

(** One more event at the end. *)
Lemma queue_push k e :
  queue_ok k -> nevents k < PROCESS_CONF_NUMEVENTS ->
  let k' := k <| events ::= <[Z.to_nat (u8 (fevent k + nevents k) mod PROCESS_CONF_NUMEVENTS) := e]> |>
              <| nevents ::= fun n => n +8 1 |> in
  queue_ok k' /\ nevents k' = nevents k + 1 /\ queue k' = queue k ++ [e].
Proof.
  intros [H1 H2 H3] Hn k'. unfold PROCESS_CONF_NUMEVENTS in *.
  assert (En : nevents k' = nevents k + 1).
  { unfold k'. rsimpl. by rewrite (uwrap_small 8) by (unfold in_u; lia). }
  split; [split; unfold PROCESS_CONF_NUMEVENTS; [done|lia|]|split; [done|]].
  { unfold k'. rsimpl. by rewrite length_insert. }
  unfold queue. rewrite En. unfold PROCESS_CONF_NUMEVENTS. change (Z.to_nat 8) with 8%nat.
  replace (Z.to_nat (nevents k + 1)) with (Z.to_nat (nevents k) + 1)%nat by lia.
  rewrite seq_app, fmap_app. cbn [seq fmap list_fmap].
  assert (Ei : Z.to_nat (u8 (fevent k + nevents k) mod 8) = ((Z.to_nat (fevent k) + Z.to_nat (nevents k)) mod 8)%nat).
  { rewrite (uwrap_small 8) by (unfold in_u; lia). rewrite Z2Nat.inj_mod by lia. f_equal. lia. }
  assert (Ee : events k' = <[((Z.to_nat (fevent k) + Z.to_nat (nevents k)) mod 8)%nat := e]> (events k)).
  { unfold k'. rsimpl. by rewrite Ei. }
  change (fevent k') with (fevent k). rewrite Ee. f_equal.
  - apply list_fmap_ext. intros i x Hx. apply lookup_seq in Hx as [-> Hi]. rewrite Nat.add_0_l.
    apply list_lookup_total_insert_ne. intros Hm.
    apply (f_equal Z.of_nat) in Hm. rewrite !Nat2Z.inj_mod, !Nat2Z.inj_add in Hm.
    rewrite !Z2Nat.id in Hm by lia. change (Z.of_nat 8) with 8 in Hm.
    assert (Hd : (fevent k + nevents k - (fevent k + Z.of_nat i)) mod 8 = 0).
    { rewrite Zminus_mod, Hm, Z.sub_diag. done. }
    replace (fevent k + nevents k - (fevent k + Z.of_nat i)) with (nevents k - Z.of_nat i) in Hd by lia.
    rewrite Z.mod_small in Hd by lia. lia.
  - f_equal. rewrite Nat.add_0_l. apply list_lookup_total_insert_eq. rewrite H3. change (Z.to_nat 8) with 8%nat.
    apply Nat.mod_upper_bound. lia.
Qed.

Lemma process_post_run k p ev data :
  queue_ok k ->
  exists r k', process_post p ev data k = Ok (r, k') /\ queue_ok k' /\
    process_list k' = process_list k /\ processes k' = processes k /\ process_current k' = process_current k /\
    poll_requested k' = poll_requested k /\ thread_calls k' = thread_calls k /\
    if decide (length (queue k) = Z.to_nat PROCESS_CONF_NUMEVENTS) then r = PROCESS_ERR_FULL /\ k' = k
    else r = PROCESS_ERR_OK /\ queue k' = queue k ++ [mk_event ev data p] /\
         process_maxevents k' = Z.max (process_maxevents k) (Z.of_nat (length (queue k'))).
Proof.
  intros Hq. pose proof (queue_length k Hq) as Hl. unfold process_post. rewrite bind_gets.
  destruct (Z.eqb_spec (nevents k) PROCESS_CONF_NUMEVENTS) as [E|E].
  - exists PROCESS_ERR_FULL, k. rewrite decide_True by lia. auto 10.
  - destruct (queue_push k (mk_event ev data p) Hq) as (Hq' & En & Eq); [destruct Hq; lia|].
    set (k1 := k <| events ::= _ |> <| nevents ::= _ |>) in *.
    rewrite bind_gets. cbv zeta. rewrite !bind_modify, !bind_gets.
    change (nevents (update nevents _ _)) with (nevents k1).
    change (process_maxevents (update nevents _ _)) with (process_maxevents k).
    assert (Hne : length (queue k) <> Z.to_nat PROCESS_CONF_NUMEVENTS) by (pose proof (qo_number _ Hq); lia).
    pose proof (queue_length _ Hq') as Hl'.
    destruct (Z.ltb_spec (process_maxevents k) (nevents k1)) as [Hm|Hm]; unfold when.
    + exists PROCESS_ERR_OK, (k1 <| process_maxevents := nevents k1 |>).
      split; [by destruct k|]. split; [by destruct Hq'; split|]. do 5 (split; [done|]).
      rewrite decide_False by done. split; [done|]. split; [exact Eq|].
      change (queue (k1 <| process_maxevents := nevents k1 |>)) with (queue k1). rsimpl. lia.
    + exists PROCESS_ERR_OK, k1. split; [by destruct k|]. split; [done|]. do 5 (split; [done|]).
      rewrite decide_False by done. split; [done|]. split; [exact Eq|]. change (process_maxevents k1) with (process_maxevents k). lia.
Qed.

Lemma next_event_run k :
  queue_ok k ->
  exists k', next_event k = Ok (head (queue k), k') /\ queue_ok k' /\ queue k' = tail (queue k) /\
    process_list k' = process_list k /\ processes k' = processes k /\ process_current k' = process_current k /\
    poll_requested k' = poll_requested k /\ thread_calls k' = thread_calls k /\
    process_maxevents k' = process_maxevents k.
Proof.
  intros Hq. unfold next_event. rewrite bind_gets. destruct (Z.ltb_spec 0 (nevents k)) as [Hn|Hn].
  - destruct (queue_pop k Hq Hn) as (e & He & Hq' & Eq). rewrite !bind_gets, He, bind_modify, Eq.
    eexists. split; [reflexivity|]. cbn [tail]. auto 10.
  - exists k. assert (E : queue k = []).
    { apply length_zero_iff_nil. pose proof (queue_length k Hq). lia. }
    rewrite E. auto 10.
Qed.

(** A call on the queue, what it returns, and the bounded queue it should be. *)
Inductive queue_call := QPost (p : ptr) (ev : Z) (data : ptr) | QNext.
Inductive queue_result := RPost (r : Z) | RNext (e : option event_data).

Definition queue_exec (c : queue_call) : KN queue_result :=
  match c with
  | QPost p ev data => RPost <$$> process_post p ev data
  | QNext => RNext <$$> next_event
  end.
Fixpoint queue_execs (cs : list queue_call) : KN (list queue_result) :=
  match cs with
  | [] => mret []
  | c :: cs' => r ← queue_exec c; rs ← queue_execs cs'; mret (r :: rs)
  end.

Definition queue_spec (c : queue_call) (q : list event_data) : queue_result * list event_data :=
  match c with
  | QPost p ev data =>
      if decide (length q = Z.to_nat PROCESS_CONF_NUMEVENTS) then (RPost PROCESS_ERR_FULL, q)
      else (RPost PROCESS_ERR_OK, q ++ [mk_event ev data p])
  | QNext => (RNext (head q), tail q)
  end.
Fixpoint queue_specs (cs : list queue_call) (q : list event_data) : list queue_result * list event_data :=
  match cs with
  | [] => ([], q)
  | c :: cs' =>
      let '(r, q1) := queue_spec c q in
      let '(rs, q2) := queue_specs cs' q1 in
      (r :: rs, q2)
  end.

Lemma queue_exec_refines c k :
  queue_ok k -> exists k', queue_exec c k = Ok ((queue_spec c (queue k)).1, k') /\ queue_ok k' /\
    queue k' = (queue_spec c (queue k)).2.
Proof.
  intros Hq. destruct c as [p ev data|]; cbn [queue_exec queue_spec].
  - destruct (process_post_run k p ev data Hq) as (r & k' & E & Hq' & _ & _ & _ & _ & _ & H).
    exists k'. unfold res_map. rewrite E. case_decide; cbn.
    + destruct H as [-> ->]. auto.
    + destruct H as (-> & Eq & _). auto.
  - destruct (next_event_run k Hq) as (k' & E & Hq' & Eq & _). exists k'. unfold res_map. by rewrite E.
Qed.

(** C19. The ring buffer is a bounded queue: any sequence of posts and of events taken
    off gives the results a queue of at most eight events gives, whatever the position
    of the ring; a post to a full queue is refused and changes nothing. *)
Theorem event_queue_refines cs k :
  queue_ok k ->
  exists k', queue_execs cs k = Ok ((queue_specs cs (queue k)).1, k') /\ queue_ok k' /\
    queue k' = (queue_specs cs (queue k)).2.
Proof.
  revert k. induction cs as [|c cs IH]; intros k Hq; [by exists k|].
  destruct (queue_exec_refines c k Hq) as (k1 & E & Hq1 & Eq).
  destruct (IH k1 Hq1) as (k2 & E2 & Hq2 & Eq2). exists k2. cbn [queue_execs queue_specs].
  destruct (queue_spec c (queue k)) as [r q1]. cbn in E, Eq. subst q1.
  destruct (queue_specs cs (queue k1)) as [rs q2]. cbn in E2, Eq2 |- *.
  split; [|done]. erewrite bind_Ok by exact E. by erewrite bind_Ok by exact E2.
Qed.

Definition kernel_example (n f : Z) : kernel :=
  mk_kernel (mk_list_store (Some 1%positive) (list_to_map [(1%positive, Some 2%positive); (2%positive, None)]))
    (list_to_map [(1%positive, mk_process true 0 PROCESS_STATE_RUNNING 0);
                  (2%positive, mk_process true 0 PROCESS_STATE_RUNNING 1)])
    None PROCESS_EVENT_MAX n f (replicate 8 (mk_event 200 None None)) 0 1 [].

Lemma event_queue_refines_witness :
  let cs := [QNext; QPost None 5 None; QPost (Some 1%positive) 6 None; QNext] in
  exists k', queue_execs cs (kernel_example 7 6) = Ok ((queue_specs cs (queue (kernel_example 7 6))).1, k') /\
    queue_ok k' /\ queue k' = (queue_specs cs (queue (kernel_example 7 6))).2.
Proof.
  intros cs. apply (event_queue_refines cs (kernel_example 7 6)).
  split; vm_compute; try reflexivity; split; congruence.
Defined.

(** ** Threads that keep to their own business *)

(** The local continuations of the processes. *)
Definition pts (k : kernel) : gmap loc Z := pr_pt <$> processes k.

(** The processes [l] are listed and have threads; [I] is an invariant of the program
    the threads belong to, over their continuations and its state. *)
Record ready {T} (I : gmap loc Z -> T -> Prop) (l : list loc) (k : kernel) (t : T) : Prop := {
  rd_queue : queue_ok k;
  rd_list : is_list (process_list k) l;
  rd_procs : forall p, p ∈ l -> exists pr, processes k !! p = Some pr /\ pr_thread pr = true;
  rd_inv : I (pts k) t;
}.
Definition running (l : list loc) (k : kernel) : Prop :=
  forall p pr, p ∈ l -> processes k !! p = Some pr -> pr_state pr = PROCESS_STATE_RUNNING.

(** What a thread may do to the kernel: post events, ask for polls, become current. *)
Record keeps (k k' : kernel) : Prop := {
  kp_list : process_list k' = process_list k;
  kp_procs : forall p pr, processes k !! p = Some pr -> exists pr', processes k' !! p = Some pr' /\
    pr_thread pr' = pr_thread pr /\ pr_state pr' = pr_state pr;
  kp_calls : thread_calls k' = thread_calls k;
  kp_queue : queue_ok k -> queue_ok k' /\ exists new, queue k' = queue k ++ new;
}.

Lemma keeps_refl k : keeps k k.
Proof. split; [done|eauto|done|]. intros H. split; [done|]. exists []. by rewrite app_nil_r. Qed.

Lemma keeps_trans k1 k2 k3 : keeps k1 k2 -> keeps k2 k3 -> keeps k1 k3.
Proof.
  intros [A1 A2 A3 A4] [B1 B2 B3 B4]. split; [congruence| |congruence|].
  - intros p pr Hp. destruct (A2 p pr Hp) as (pr1 & Hp1 & T1 & S1). destruct (B2 p pr1 Hp1) as (pr2 & Hp2 & T2 & S2).
    exists pr2. split; [done|]. split; congruence.
  - intros Hq. destruct (A4 Hq) as (Hq1 & n1 & E1). destruct (B4 Hq1) as (Hq2 & n2 & E2). split; [done|].
    exists (n1 ++ n2). by rewrite E2, E1, app_assoc.
Qed.

Lemma pts_set k p pr f :
  processes k !! p = Some pr -> pr_pt (f pr) = pr_pt pr -> pts (k <| processes ::= <[p := f pr]> |>) = pts k.
Proof.
  intros E H. unfold pts. rsimpl. rewrite fmap_insert, H. apply insert_id. by rewrite lookup_fmap, E.
Qed.

Lemma ready_keeps {T} (I : gmap loc Z -> T -> Prop) l k k' t t' :
  ready I l k t -> keeps k k' -> I (pts k') t' -> ready I l k' t'.
Proof.
  intros [R1 R2 R3 _] [K1 K2 K3 K4] HI. split; [by apply K4|by rewrite K1| |done].
  intros p Hp. destruct (R3 p Hp) as (pr & E & Ht). destruct (K2 p pr E) as (pr' & E' & Ht' & _).
  exists pr'. split; [done|congruence].
Qed.

Lemma process_post_keeps k p ev data :
  queue_ok k -> exists r k', process_post p ev data k = Ok (r, k') /\ keeps k k'.
Proof.
  intros Hq. destruct (process_post_run k p ev data Hq) as (r & k' & E & Hq' & E1 & E2 & E3 & E4 & E5 & H).
  exists r, k'. split; [done|]. split; [done| |done|].
  - intros q pr Hp. exists pr. by rewrite E2.
  - intros _. split; [done|]. case_decide; [destruct H as [_ ->]; exists []; by rewrite app_nil_r|].
    destruct H as (_ & Eq & _). by eexists.
Qed.

Lemma proc_set_run k p f pr :
  processes k !! p = Some pr -> proc_set p f k = Ok (tt, k <| processes ::= <[p := f pr]> |>).
Proof. intros E. unfold proc_set. by rewrite E. Qed.
Lemma proc_get_run k p pr : processes k !! p = Some pr -> proc_get p k = Ok (pr, k).
Proof. intros E. unfold proc_get. by rewrite E. Qed.

Lemma process_poll_keeps k p pr :
  processes k !! p = Some pr -> exists k', process_poll (Some p) k = Ok (tt, k') /\ keeps k k'.
Proof.
  intros E. unfold process_poll. erewrite bind_Ok by (by apply proc_get_run).
  destruct (_ || _); unfold when; [|by exists k; split; [|apply keeps_refl]].
  erewrite bind_Ok by (by apply proc_set_run). eexists. split; [reflexivity|].
  split; [done| |done|].
  - intros q pr' Hq. change (processes (update poll_requested _ ?s)) with (processes s). rsimpl.
    destruct (decide (q = p)) as [->|Hne].
    + rewrite lookup_insert_eq. assert (pr' = pr) as -> by congruence. by eexists.
    + rewrite lookup_insert_ne by done. eauto.
  - intros [Q1 Q2 Q3]. split; [by split|]. exists []. by rewrite app_nil_r.
Qed.

(** The threads of the processes [l] yield, do no more than [keeps] allows, and keep
    the invariant of their program. *)
Class Quiet {T : Type} (I : gmap loc Z -> T -> Prop) (l : list loc)
    (thread : loc -> Z -> ptr -> M (kernel * T) Z) := quiet :
  forall p ev data k t, p ∈ l -> ready I l k t ->
  exists ret k' t', thread p ev data (k, t) = Ok (ret, (k', t')) /\ ret < PT_EXITED /\ keeps k k' /\ I (pts k') t'.

(** The calls of threads with events that [seen] tells; all, or all but the polls. *)
Definition calls_seen (seen : Z -> bool) (cs : list thread_call) : list thread_call :=
  filter (fun c => seen (tc_ev c) = true) cs.
Definition not_poll (ev : Z) : bool := negb (ev =? PROCESS_EVENT_POLL).
Definition any_event (ev : Z) : bool := true.
Abbreviation proper := (calls_seen not_poll).

Lemma calls_seen_app seen a b : calls_seen seen (a ++ b) = calls_seen seen a ++ calls_seen seen b.
Proof. apply filter_app. Qed.
Lemma calls_seen_all cs : calls_seen any_event cs = cs.
Proof. induction cs as [|c cs IH]; [done|]. unfold calls_seen in *. by rewrite filter_cons_True, IH. Qed.

Section calls.
(** Of the processes [l] of the list, those of [r] run; the events [seen] count. *)
Context {T : Type} (I : gmap loc Z -> T -> Prop) (seen : Z -> bool) (l r : list loc).
Context (thread : loc -> Z -> ptr -> M (kernel * T) Z) `{!Quiet I l thread}.
Context (listed : forall p, p ∈ r -> p ∈ l).

(** The kernel went on, and called the threads as in [cs], polls apart. *)
Record advanced (k k' : kernel) (t' : T) (cs : list thread_call) : Prop := {
  ad_ready : ready I l k' t';
  ad_running : running r k';
  ad_others : forall p pr, p ∉ r -> processes k !! p = Some pr ->
    exists pr', processes k' !! p = Some pr' /\ pr_state pr' = pr_state pr /\ pr_thread pr' = pr_thread pr;
  ad_list : process_list k' = process_list k;
  ad_calls : exists new, thread_calls k' = thread_calls k ++ new /\ calls_seen seen new = cs;
  ad_queue : exists new, queue k' = queue k ++ new;
}.

Lemma advanced_refl k t : ready I l k t -> running r k -> advanced k k t [].
Proof. intros R Sr. split; [done..|eauto|done| |]; exists []; by rewrite app_nil_r. Qed.
Lemma advanced_trans k1 k2 k3 t2 t3 a b :
  advanced k1 k2 t2 a -> advanced k2 k3 t3 b -> advanced k1 k3 t3 (a ++ b).
Proof.
  intros [_ _ A0 A3 (c1 & A4 & <-) (q1 & A5)] [B1 B2 B0 B3 (c2 & B4 & <-) (q2 & B5)].
  split; [done|done| |congruence| |].
  - intros p pr Hp E. destruct (A0 p pr Hp E) as (pr1 & E1 & S1 & T1).
    destruct (B0 p pr1 Hp E1) as (pr2 & E2 & S2 & T2). exists pr2. split; [done|]. split; congruence.
  - exists (c1 ++ c2). by rewrite B4, A4, app_assoc, calls_seen_app.
  - exists (q1 ++ q2). by rewrite B5, A5, app_assoc.
Qed.

Lemma on_k_run {A} (m : KN A) k (t : T) a k' : m k = Ok (a, k') -> on_k m (k, t) = Ok (a, (k', t)).
Proof. intros E. unfold on_k. by rewrite E. Qed.

(** A change of one process that keeps its thread and its continuation. *)
Lemma ready_set k t p pr f :
  ready I l k t -> processes k !! p = Some pr -> pr_thread (f pr) = pr_thread pr -> pr_pt (f pr) = pr_pt pr ->
  ready I l (k <| processes ::= <[p := f pr]> |>) t.
Proof.
  intros [[] R2 R3 R4] E Hf Hpt. split; [by split|done| |by rewrite (pts_set k p pr f)]. intros q Hq. destruct (R3 q Hq) as (pq & Eq & Hpq).
  rsimpl. destruct (decide (q = p)) as [->|Hne].
  - rewrite lookup_insert_eq. exists (f pr). split; [done|congruence].
  - rewrite lookup_insert_ne by done. eauto.
Qed.

(** The thread of a running process is called. *)
Lemma call_process_run n p ev data k t :
  ready I l k t -> running r k -> p ∈ r -> ev <> PROCESS_EVENT_EXIT ->
  exists k' t', call_process thread (S n) p ev data (k, t) = Ok (tt, (k', t')) /\
    advanced k k' t' (calls_seen seen [mk_thread_call p ev data]).
Proof.
  intros R Hr Hpr Hev. pose proof (listed p Hpr) as Hp. destruct (rd_procs _ _ _ _ R p Hp) as (pr & E & Ht). pose proof (Hr p pr Hpr E) as Hs.
  cbn [call_process]. erewrite bind_Ok by (by apply on_k_run, proc_get_run).
  rewrite Hs, Ht. change (c_true (Z.land PROCESS_STATE_RUNNING PROCESS_STATE_RUNNING) && true) with true.
  unfold when. erewrite bind_Ok by (by apply on_k_run).
  set (k1 := k <| process_current := Some p |>).
  assert (R1 : ready I l k1 t) by (destruct R as [[] ? ? ?]; by split).
  erewrite bind_Ok by (by apply on_k_run, (proc_set_run k1 p _ pr)).
  set (k2 := k1 <| processes ::= _ |>).
  assert (R2 : ready I l k2 t) by by apply ready_set.
  set (k3 := k2 <| thread_calls ::= fun cs => cs ++ [mk_thread_call p ev data] |>).
  assert (R3 : ready I l k3 t) by (destruct R2 as [[] ? ? ?]; by split).
  destruct (quiet p ev data k3 t Hp R3) as (ret & k4 & t4 & Et & Hret & [K1 K2 K3 K4] & HI).
  assert (Ec : call_thread thread p ev data (k2, t) = Ok (ret, (k4, t4))).
  { unfold call_thread. erewrite bind_Ok by (by apply on_k_run). exact Et. }
  erewrite bind_Ok by exact Ec. unfold PT_EXITED, PT_ENDED in *.
  rewrite !(proj2 (Z.eqb_neq _ _)) by lia. cbn [orb].
  assert (E3 : processes k3 !! p = Some (pr <| pr_state := PROCESS_STATE_CALLED |>)).
  { change (processes k3) with (<[p := pr <| pr_state := PROCESS_STATE_CALLED |>]> (processes k)). apply lookup_insert_eq. }
  destruct (K2 _ _ E3) as (pr4 & E4 & Ht4 & _).
  assert (R4 : ready I l k4 t4) by (apply (ready_keeps I l k3 k4 t); [done|by split|done]).
  exists (k4 <| processes ::= <[p := pr4 <| pr_state := PROCESS_STATE_RUNNING |>]> |>), t4.
  split; [by apply on_k_run, (proc_set_run k4 p (fun pr => pr <| pr_state := PROCESS_STATE_RUNNING |>))|].
  split.
  - by apply (ready_set k4 t4 p pr4 (fun pr => pr <| pr_state := PROCESS_STATE_RUNNING |>)).
  - intros q pq Hq. rsimpl. destruct (decide (q = p)) as [->|Hne].
    + rewrite lookup_insert_eq. by intros [= <-].
    + rewrite lookup_insert_ne by done. intros Epq. destruct (rd_procs _ _ _ _ R q (listed q Hq)) as (pq0 & E0 & _).
      assert (E30 : processes k3 !! q = Some pq0).
      { change (processes k3) with (<[p := pr <| pr_state := PROCESS_STATE_CALLED |>]> (processes k)).
        by rewrite lookup_insert_ne. }
      destruct (K2 _ _ E30) as (pq' & Epq' & _ & Hs'). assert (pq' = pq) as -> by congruence.
      rewrite Hs'. by apply (Hr q).
  - intros q pq Hq Eq. assert (Hne : q <> p) by congruence.
    assert (E30 : processes k3 !! q = Some pq).
    { change (processes k3) with (<[p := pr <| pr_state := PROCESS_STATE_CALLED |>]> (processes k)).
      by rewrite lookup_insert_ne. }
    destruct (K2 _ _ E30) as (pq' & Epq' & Htq & Hsq). exists pq'. rsimpl. by rewrite lookup_insert_ne.
  - exact K1.
  - exists [mk_thread_call p ev data]. split; [exact K3|done].
  - destruct (K4 (rd_queue _ _ _ _ R3)) as (_ & new & Eq). exists new. exact Eq.
Qed.

(** A loop over the processes, when every turn advances the kernel and keeps [P]. *)
Lemma each_process_run (P : kernel -> Prop) (body : loc -> M (kernel * T) unit) (f : loc -> list thread_call) :
  forall l2, (forall p k t, p ∈ l2 -> ready I l k t -> running r k -> P k ->
     exists k' t', body p (k, t) = Ok (tt, (k', t')) /\ advanced k k' t' (f p) /\ P k') ->
  forall fuel q k t, (length l2 < fuel)%nat ->
    seg (ls_next (process_list k)) q l2 None -> ready I l k t -> running r k -> P k ->
    exists k' t', each_process fuel q body (k, t) = Ok (tt, (k', t')) /\ advanced k k' t' (l2 ≫= f) /\ P k'.
Proof.
  intros l2. induction l2 as [|x l2 IH]; intros Hb fuel q k t Hf Hseg R Sr HP; cbn in Hf, Hseg;
    (destruct fuel as [|fuel]; [lia|]); cbn [each_process].
  - subst q. exists k, t. split; [done|]. split; [by apply advanced_refl|done].
  - destruct Hseg as (-> & q' & Hx & Hseg).
    destruct (Hb x k t) as (k1 & t1 & E1 & A1 & HP1); [left|done..|].
    erewrite bind_Ok by exact E1.
    assert (Hn : on_list (get_next x) k1 = Ok (q', k1)).
    { unfold on_list, zoom, get_next. rewrite (ad_list _ _ _ _ A1), Hx. rewrite <- (ad_list _ _ _ _ A1). by destruct k1. }
    erewrite bind_Ok by (by apply on_k_run, Hn).
    destruct (IH (fun p k t Hp => Hb p k t ltac:(by right)) fuel q' k1 t1) as (k2 & t2 & E2 & A2 & HP2).
    + lia.
    + by rewrite (ad_list _ _ _ _ A1).
    + apply A1.
    + apply A1.
    + done.
    + exists k2, t2. split; [exact E2|]. split; [|done]. rewrite bind_cons. by eapply advanced_trans.
Qed.
End calls.

Section delivery.
Context {T : Type} (I : gmap loc Z -> T -> Prop) (l : list loc).
Context (thread : loc -> Z -> ptr -> M (kernel * T) Z) `{!Quiet I l thread}.

Abbreviation advanced_all := (advanced I not_poll l l).

Lemma each_process_all (body : loc -> M (kernel * T) unit) (f : loc -> list thread_call) fuel q k t :
  (forall p k t, p ∈ l -> ready I l k t -> running l k ->
     exists k' t', body p (k, t) = Ok (tt, (k', t')) /\ advanced_all k k' t' (f p)) ->
  (length l < fuel)%nat -> seg (ls_next (process_list k)) q l None -> ready I l k t -> running l k ->
  exists k' t', each_process fuel q body (k, t) = Ok (tt, (k', t')) /\ advanced_all k k' t' (l ≫= f).
Proof.
  intros Hb Hf Hq R Sr.
  destruct (each_process_run I not_poll l l (fun _ => True) body f l) with (fuel := fuel) (q := q) (k := k) (t := t)
    as (k' & t' & E & A & _); [|done..|by exists k', t'].
  intros p k1 t1 Hp R1 S1 _. destruct (Hb p k1 t1 Hp R1 S1) as (k2 & t2 & E2 & A2). by exists k2, t2.
Qed.

(** Setting a listed process running. *)
Lemma advanced_set k t p pr f :
  ready I l k t -> running l k -> p ∈ l -> processes k !! p = Some pr ->
  pr_thread (f pr) = pr_thread pr -> pr_pt (f pr) = pr_pt pr -> pr_state (f pr) = PROCESS_STATE_RUNNING ->
  advanced_all k (k <| processes ::= <[p := f pr]> |>) t [].
Proof.
  intros R Sr Hp E Ht Hpt Hs. split; [by apply (ready_set I)| | |done| |]; [| |exists []; by rewrite app_nil_r..].
  - intros q pq Hq. rsimpl. destruct (decide (q = p)) as [->|Hne].
    + rewrite lookup_insert_eq. by intros [= <-].
    + rewrite lookup_insert_ne by done. by apply Sr.
  - intros q pq Hq Eq. exists pq. rsimpl. by rewrite lookup_insert_ne by set_solver.
Qed.

Lemma do_poll_run fuel k t :
  (length l < fuel)%nat -> ready I l k t -> running l k ->
  exists k' t', do_poll thread fuel (k, t) = Ok (tt, (k', t')) /\ advanced_all k k' t' [].
Proof.
  intros Hf R Sr. unfold do_poll. erewrite bind_Ok by (by apply on_k_run).
  set (k1 := k <| poll_requested := 0 |>).
  assert (R1 : ready I l k1 t) by (destruct R as [[] ? ? ?]; by split).
  erewrite bind_Ok by (by apply on_k_run).
  destruct fuel as [|fuel]; [lia|].
  edestruct (each_process_all (fun p => pr ← on_k (proc_get p);
    when (c_true (pr_needspoll pr)) (
      on_k (proc_set p (fun pr => pr <| pr_state := PROCESS_STATE_RUNNING |> <| pr_needspoll := 0 |>)) ;;
      call_process thread (S fuel) p PROCESS_EVENT_POLL None)) (fun _ => [])) as (k2 & t2 & E & A);
    [|exact Hf|exact (rd_list _ _ _ _ R1)|exact R1|exact Sr|].
  - clear k t k1 R Sr R1. intros p k t Hp R Sr. destruct (rd_procs _ _ _ _ R p Hp) as (pr & E & Ht).
    erewrite bind_Ok by (by apply on_k_run, proc_get_run). unfold when.
    destruct (c_true (pr_needspoll pr)); [|by exists k, t; split; [|apply advanced_refl]].
    erewrite bind_Ok by (by apply on_k_run, proc_set_run).
    pose proof (advanced_set k t p pr (fun pr => pr <| pr_state := PROCESS_STATE_RUNNING |> <| pr_needspoll := 0 |>)
      R Sr Hp E ltac:(by rsimpl) ltac:(by rsimpl) ltac:(by rsimpl)) as A1.
    edestruct (call_process_run I not_poll l l thread (fun _ H => H) fuel p PROCESS_EVENT_POLL None) as (k2 & t2 & E2 & A2);
      [apply A1|apply A1|done|done|].
    exists k2, t2. split; [exact E2|]. by apply (advanced_trans I not_poll l l _ _ _ _ _ [] [] A1).
  - exists k2, t2. split; [exact E|].
    assert (El : l ≫= (fun _ => []) = ([] : list thread_call)) by (clear; by induction l).
    rewrite El in A. destruct A. by split.
Qed.

Lemma do_poll_if_requested_run fuel k t :
  (length l < fuel)%nat -> ready I l k t -> running l k ->
  exists k' t', do_poll_if_requested thread fuel (k, t) = Ok (tt, (k', t')) /\ advanced_all k k' t' [].
Proof.
  intros Hf R Sr. unfold do_poll_if_requested. erewrite bind_Ok by (by apply on_k_run).
  destruct (c_true _); [by apply do_poll_run|]. exists k, t. split; [done|by apply advanced_refl].
Qed.

(** The calls an event makes. *)
Definition receivers (e : event_data) : list thread_call :=
  match ed_p e with
  | None => (fun p => mk_thread_call p (ed_ev e) (ed_data e)) <$> l
  | Some p => [mk_thread_call p (ed_ev e) (ed_data e)]
  end.

(** Events for a listed process or for all; polls and exits are not posted. *)
Definition deliverable (e : event_data) : Prop :=
  ed_ev e <> PROCESS_EVENT_POLL /\ ed_ev e <> PROCESS_EVENT_EXIT /\ forall p, ed_p e = Some p -> p ∈ l.

Lemma proper_one p ev data : ev <> PROCESS_EVENT_POLL -> proper [mk_thread_call p ev data] = [mk_thread_call p ev data].
Proof. intros H. unfold calls_seen. rewrite filter_cons_True; [done|]. cbn. unfold not_poll. by rewrite (proj2 (Z.eqb_neq _ _)). Qed.

Lemma deliver_run fuel e k t :
  (length l < fuel)%nat -> ready I l k t -> running l k -> deliverable e ->
  exists k' t', deliver thread fuel e (k, t) = Ok (tt, (k', t')) /\ advanced_all k k' t' (receivers e).
Proof.
  intros Hf R Sr (Hp & Hx & Hr). unfold deliver, receivers. destruct fuel as [|fuel]; [lia|].
  destruct (ed_p e) as [p|].
  - assert (exists k1, when (ed_ev e =? PROCESS_EVENT_INIT)
      (on_k (proc_set p (fun pr => pr <| pr_state := PROCESS_STATE_RUNNING |>))) (k, t) = Ok (tt, (k1, t)) /\
      advanced_all k k1 t []) as (k1 & E1 & A1).
    { unfold when. destruct (_ =? _); [|exists k; split; [done|by apply advanced_refl]].
      destruct (rd_procs _ _ _ _ R p (Hr p eq_refl)) as (pr & E & Ht).
      eexists. split; [by apply on_k_run, proc_set_run|].
      apply (advanced_set k t p pr (fun pr => pr <| pr_state := PROCESS_STATE_RUNNING |>)); first [by apply Hr|by rsimpl]. }
    erewrite bind_Ok by exact E1.
    destruct (call_process_run I not_poll l l thread (fun _ H => H) fuel p (ed_ev e) (ed_data e) k1 t) as (k2 & t2 & E2 & A2);
      [apply A1|apply A1|by apply Hr|done|].
    exists k2, t2. split; [exact E2|]. rewrite (proper_one _ _ _ Hp) in A2. by apply (advanced_trans I not_poll l l _ _ _ _ _ [] _ A1).
  - erewrite bind_Ok by (by apply on_k_run).
    edestruct (each_process_all (fun p => do_poll_if_requested thread (S fuel) ;;
      call_process thread (S fuel) p (ed_ev e) (ed_data e))
      (fun p => [mk_thread_call p (ed_ev e) (ed_data e)])) as (k2 & t2 & E & A);
      [|exact Hf|exact (rd_list _ _ _ _ R)|exact R|exact Sr|].
    + clear k t R Sr. intros p k t Hpl R Sr.
      destruct (do_poll_if_requested_run (S fuel) k t Hf R Sr) as (k1 & t1 & E1 & A1).
      erewrite bind_Ok by exact E1.
      destruct (call_process_run I not_poll l l thread (fun _ H => H) fuel p (ed_ev e) (ed_data e) k1 t1) as (k2 & t2 & E2 & A2);
        [apply A1|apply A1|done|done|].
      exists k2, t2. split; [exact E2|]. rewrite (proper_one _ _ _ Hp) in A2. by apply (advanced_trans I not_poll l l _ _ _ _ _ [] _ A1).
    + exists k2, t2. split; [exact E|].
      replace ((fun p => mk_thread_call p (ed_ev e) (ed_data e)) <$> l)
        with (l ≫= fun p => [mk_thread_call p (ed_ev e) (ed_data e)]); [done|].
      clear. induction l as [|x l' IH]; [done|]. by rewrite bind_cons, IH.
Qed.
(** One turn of the main loop, with an event waiting. *)
Lemma process_run_run fuel e q k t :
  (length l < fuel)%nat -> ready I l k t -> running l k -> queue k = e :: q -> deliverable e ->
  exists r k' t', process_run thread fuel (k, t) = Ok (r, (k', t')) /\ ready I l k' t' /\ running l k' /\
    process_list k' = process_list k /\
    (exists new, thread_calls k' = thread_calls k ++ new /\ proper new = receivers e) /\
    (exists new, queue k' = q ++ new) /\
    r = Z.of_nat (length (queue k')) + poll_requested k'.
Proof.
  intros Hf R Sr Hq He. unfold process_run.
  destruct (do_poll_if_requested_run fuel k t Hf R Sr) as (k1 & t1 & E1 & A1).
  erewrite bind_Ok by exact E1. destruct (ad_queue _ _ _ _ _ _ _ _ A1) as (n1 & Q1).
  destruct (next_event_run k1) as (k2 & E2 & Hok2 & Q2 & L2 & P2 & _ & _ & C2 & _); [apply A1|].
  rewrite Q1, Hq in E2, Q2. cbn in E2, Q2.
  assert (R2 : ready I l k2 t1) by (destruct (ad_ready _ _ _ _ _ _ _ _ A1); split; [done|by rewrite L2|by rewrite P2|by unfold pts; rewrite P2]).
  assert (S2 : running l k2) by (unfold running; rewrite P2; apply A1).
  destruct (deliver_run fuel e k2 t1 Hf R2 S2 He) as (k3 & t3 & E3 & A3).
  assert (Ed : do_event thread fuel (k1, t1) = Ok (tt, (k3, t3))).
  { unfold do_event. erewrite bind_Ok by (by apply on_k_run). exact E3. }
  erewrite bind_Ok by exact Ed.
  eexists _, k3, t3. split; [by apply on_k_run|]. destruct A3 as [R3 S3 _ L3 (c3 & C3 & Pc3) (n3 & Q3)].
  do 3 (split; [first [done|rewrite L3, L2; apply A1]|]). split; [|split].
  - destruct (ad_calls _ _ _ _ _ _ _ _ A1) as (c1 & C1 & Pc1). exists (c1 ++ c3).
    rewrite C3, C2, C1, calls_seen_app, Pc1, Pc3. by rewrite app_assoc.
  - exists (n1 ++ n3). by rewrite Q3, Q2, app_assoc.
  - by rewrite (queue_length k3) by apply R3.
Qed.

Fixpoint process_runs (fuel n : nat) : M (kernel * T) unit :=
  match n with
  | O => skip
  | S n => process_run thread fuel ;; process_runs fuel n
  end.

(** C15. Every event arrives, once, and in order.  With threads that yield and do no
    more than post events and ask for polls, as many turns of the main loop as events
    wait return, and the calls of threads they make, polls apart, are: for each event
    in the order of the posts, its receiver, or for a broadcast every process in the
    order of the list.  All processes are alive afterwards, the list is the same, and
    what remains queued are events posted meanwhile. *)
Theorem events_delivered_in_order fuel es q k t :
  (length l < fuel)%nat -> ready I l k t -> running l k ->
  queue k = es ++ q -> Forall deliverable es ->
  exists k' t', process_runs fuel (length es) (k, t) = Ok (tt, (k', t')) /\
    ready I l k' t' /\ running l k' /\ process_list k' = process_list k /\
    (exists new, thread_calls k' = thread_calls k ++ new /\ proper new = es ≫= receivers) /\
    exists posted, queue k' = q ++ posted.
Proof.
  intros Hf. revert q k t. induction es as [|e es IH]; intros q k t R Sr Hq He.
  - exists k, t. split; [done|]. do 3 (split; [done|]). split; exists []; by rewrite app_nil_r.
  - apply Forall_cons in He as [He Hes].
    destruct (process_run_run fuel e (es ++ q) k t Hf R Sr Hq He)
      as (r & k1 & t1 & E1 & R1 & S1 & L1 & (c1 & C1 & P1) & (n1 & Q1) & _).
    rewrite <- app_assoc in Q1.
    destruct (IH (q ++ n1) k1 t1 R1 S1 Q1 Hes) as (k2 & t2 & E2 & R2 & S2 & L2 & (c2 & C2 & P2) & (n2 & Q2)).
    exists k2, t2. cbn [length process_runs]. split; [by erewrite bind_Ok by exact E1|].
    do 3 (split; [first [done|congruence]|]). split.
    + exists (c1 ++ c2). by rewrite C2, C1, <- app_assoc, calls_seen_app, P1, P2, bind_cons.
    + exists (n1 ++ n2). by rewrite Q2, <- app_assoc.
Qed.
End delivery.

(** A thread that answers every event but a poll with an event of its own. *)
Definition echo_thread (p : loc) (ev : Z) (data : ptr) : M (kernel * unit) Z :=
  (if ev =? PROCESS_EVENT_POLL then skip
   else on_k (process_post (Some p) (ev +8 1) data) ;; skip) ;;
  mret PT_YIELDED.

Definition any_state (m : gmap loc Z) (t : unit) : Prop := True.
#[export] Instance echo_quiet l : Quiet any_state l echo_thread.
Proof.
  intros p ev data k t Hp R. unfold echo_thread. destruct (ev =? PROCESS_EVENT_POLL).
  - exists PT_YIELDED, k, t. split; [done|]. split; [done|]. split; [apply keeps_refl|done].
  - destruct (process_post_keeps k (Some p) (ev +8 1) data (rd_queue _ _ _ _ R)) as (r & k' & E & K).
    exists PT_YIELDED, k', t. split; [|done].
    erewrite bind_Ok; [reflexivity|]. by erewrite bind_Ok by (by apply on_k_run).
Qed.

Definition posted_example : kernel :=
  (kernel_example 2 7) <| events := <[7%nat := mk_event 5 None (Some 2%positive)]> (replicate 8 (mk_event 200 None None)) |>.

Lemma events_delivered_in_order_witness :
  queue posted_example = [mk_event 5 None (Some 2%positive); mk_event 200 None None] /\
  exists k' t', process_runs echo_thread 3 2 (posted_example, tt) = Ok (tt, (k', t')) /\
    ready any_state [1%positive; 2%positive] k' t' /\ running [1%positive; 2%positive] k' /\
    process_list k' = process_list posted_example /\
    (exists new, thread_calls k' = thread_calls posted_example ++ new /\
       proper new = [mk_event 5 None (Some 2%positive); mk_event 200 None None] ≫= receivers [1%positive; 2%positive]) /\
    exists posted, queue k' = [] ++ posted.
Proof.
  split; [reflexivity|].
  apply (events_delivered_in_order any_state [1%positive; 2%positive] echo_thread 3
    [mk_event 5 None (Some 2%positive); mk_event 200 None None] [] posted_example tt).
  - cbn. lia.
  - split; [split; vm_compute; try reflexivity; split; congruence| | |done].
    + unfold is_list. cbn. eauto 10.
    + intros p Hp. apply elem_of_cons in Hp as [->|Hp]; [by eexists|].
      apply list_elem_of_singleton in Hp as ->. by eexists.
  - intros p pr Hp. apply elem_of_cons in Hp as [->|Hp]; [vm_compute; by intros [= <-]|].
    apply list_elem_of_singleton in Hp as ->. vm_compute. by intros [= <-].
  - reflexivity.
  - apply Forall_cons_2; [|apply Forall_singleton]; split_and!; try done. intros p [= <-]. set_solver.
Defined.
