(* ===== verification/KernelLife.v ===== *)
(** * KernelLife: how processes start and exit

    Theorems about [process_start], [process_exit] and [process_post_synch] of
    [Kernel], with threads that are [Quiet]: a new process is first on the list and has
    had its init event; an exiting process is announced to every other that runs, then
    told itself, then off the list.  A process that is being called hears nothing, and
    one that exits itself and goes on is left off the list but running. *)
From stdpp Require Import numbers option gmap list.
From S2P Require Import Prelude Lists Kernel KernelFacts.

(** ** The list of processes *)

Lemma search_loop_run st p l : forall q fuel,
  seg (ls_next st) q l None -> (length l < fuel)%nat ->
  search_loop fuel p q st = Ok (if decide (p ∈ l) then Some p else None, st).
Proof.
  induction l as [|x l IH]; intros q fuel Hs Hf; cbn in Hf; (destruct fuel as [|fuel]; [lia|]); cbn [search_loop].
  - by rewrite Hs.
  - destruct Hs as (-> & q' & Hq & Hs). destruct (decide (x = p)) as [->|Hne].
    + by rewrite decide_True by left.
    + erewrite bind_Ok by (by apply get_next_ok). rewrite (IH q' fuel Hs) by lia.
      do 2 f_equal. apply decide_ext. set_solver.
Qed.

Lemma in_process_list_run k l p :
  is_list (process_list k) l -> in_process_list p k = Ok (bool_decide (p ∈ l), k).
Proof.
  intros H. unfold in_process_list, on_list, zoom.
  rewrite (search_loop_run _ p l) by (done || (pose proof (seg_length _ _ _ H); unfold list_fuel; lia)).
  destruct k; cbn. do 2 f_equal. case_decide; by case_bool_decide; case_bool_decide.
Qed.

Lemma unlink_loop_run st p r x l : forall q fuel,
  seg (ls_next st) q (l ++ [x]) (Some p) -> p ∉ l ++ [x] -> (length l < fuel)%nat -> ls_next st !! p = Some r ->
  unlink_loop fuel p q st = Ok (tt, st <| ls_next ::= <[x := r]> |>).
Proof.
  induction l as [|y l IH]; intros q fuel Hs Hp Hf Hr; cbn in Hf; (destruct fuel as [|fuel]; [lia|]); cbn [unlink_loop].
  - destruct Hs as (-> & q' & Hq & ->). erewrite bind_Ok by (by apply get_next_ok). rewrite decide_True by done.
    erewrite bind_Ok by (by apply get_next_ok). apply set_next_ok. by apply elem_of_dom.
  - destruct Hs as (-> & q' & Hq & Hs). erewrite bind_Ok by (by apply get_next_ok). cbn in Hp.
    rewrite decide_False; [apply IH; [done|set_solver|lia|done]|].
    intros ->. destruct l; cbn in Hs; destruct Hs as ([= ->] & _); set_solver.
Qed.

Lemma unlink_process_run k l1 p l2 :
  is_list (process_list k) (l1 ++ p :: l2) ->
  exists st', unlink_process p k = Ok (tt, k <| process_list := st' |>) /\ is_list st' (l1 ++ l2).
Proof.
  intros H. pose proof (seg_nodup _ _ _ H) as Hn. pose proof (seg_length _ _ _ H) as Hl.
  apply NoDup_app in Hn as (Hn1 & Hn12 & Hn2). apply NoDup_cons in Hn2 as [Hn2 _].
  apply seg_app in H as (r & H1 & -> & q & Hq & H2).
  unfold unlink_process, on_list, zoom. destruct l1 as [|x l1 _] using rev_ind.
  - cbn in H1. rewrite H1, decide_True by done. erewrite bind_Ok by (by apply get_next_ok).
    eexists. split; [reflexivity|]. exact H2.
  - rewrite decide_False.
    + rewrite (unlink_loop_run _ p q x l1) by
        (done || set_solver || (rewrite !length_app in Hl; cbn in Hl; unfold list_fuel; lia)).
      eexists. split; [reflexivity|]. unfold is_list. rsimpl. apply seg_app. exists q. split.
      * eapply seg_retarget; [|exact H1]. apply NoDup_app in Hn1. set_solver.
      * apply seg_insert_ne; [|done]. intros Hx. apply (Hn12 x); set_solver.
    + intros Eh. rewrite Eh in H1. apply (Hn12 p); [|set_solver].
      destruct l1; cbn in H1; destruct H1 as (Ee & _); injection Ee as Ee; rewrite Ee; set_solver.
Qed.

(** A process that does not run is not called. *)
Lemma call_process_idle {T} (thread : loc -> Z -> ptr -> M (kernel * T) Z) n p pr ev data k t :
  processes k !! p = Some pr -> c_true (Z.land (pr_state pr) PROCESS_STATE_RUNNING) = false ->
  call_process thread (S n) p ev data (k, t) = Ok (tt, (k, t)).
Proof.
  intros E H. cbn [call_process]. erewrite bind_Ok by (by apply on_k_run, proc_get_run). by rewrite H.
Qed.

(** An event posted synchronously to a process that is being called is lost: this is
    the case of a process that posts to itself. *)
Lemma post_to_called_lost {T} (thread : loc -> Z -> ptr -> M (kernel * T) Z) n p pr ev data k t :
  processes k !! p = Some pr -> pr_state pr = PROCESS_STATE_CALLED ->
  process_post_synch thread (S n) p ev data (k, t) = Ok (tt, (k, t)).
Proof.
  intros E H. unfold process_post_synch. erewrite bind_Ok by (by apply on_k_run).
  erewrite bind_Ok by (by eapply call_process_idle; [exact E|rewrite H]). by destruct k.
Qed.

(** ** Starting *)

(** A process that is not on the list is started: it becomes the first of the list,
    runs, and its thread is called once, with the init event and the data given; the
    other processes keep their states and the caller stays current. *)
Theorem process_start_spec {T} (I : gmap loc Z -> T -> Prop) (thread : loc -> Z -> ptr -> M (kernel * T) Z) l p pr data n k t :
  Quiet I (p :: l) thread -> ready I l k t -> I (<[p := 0]> (pts k)) t -> p ∉ l -> p ∈ dom (ls_next (process_list k)) ->
  processes k !! p = Some pr -> pr_thread pr = true ->
  exists k' t', process_start thread (S n) p data (k, t) = Ok (tt, (k', t')) /\
    ready I (p :: l) k' t' /\ running [p] k' /\
    thread_calls k' = thread_calls k ++ [mk_thread_call p PROCESS_EVENT_INIT data] /\
    process_current k' = process_current k /\
    (forall q prq, q ≠ p -> processes k !! q = Some prq ->
       exists prq', processes k' !! q = Some prq' /\ pr_state prq' = pr_state prq).
Proof.
  intros HQ R HI Hp Hd E Ht. unfold process_start.
  erewrite bind_Ok by (apply on_k_run, in_process_list_run, R). rewrite bool_decide_eq_false_2 by done.
  set (st1 := (process_list k) <| ls_next ::= <[p := ls_head (process_list k)]> |> <| ls_head := Some p |>).
  set (k1 := k <| process_list := st1 |>).
  assert (Ep : push_process p k = Ok (tt, k1)).
  { unfold push_process, on_list, zoom. rewrite bind_gets. by erewrite bind_Ok by (by apply set_next_ok). }
  erewrite bind_Ok by (by apply on_k_run).
  erewrite bind_Ok by (by apply on_k_run, (proc_set_run k1 p _ pr)).
  set (f := fun pr : process => pr <| pr_state := PROCESS_STATE_RUNNING |> <| pr_pt := 0 |>).
  set (k2 := k1 <| processes ::= <[p := f pr]> |>).
  assert (R2 : ready I (p :: l) k2 t).
  { destruct R as [[] R2 R3 _]. split; [by split| | |].
    - split; [done|]. exists (ls_head (process_list k)). split; [apply lookup_insert_eq|]. by apply seg_insert_ne.
    - intros q Hq. unfold k2. rsimpl. destruct (decide (q = p)) as [->|Hne]; [rewrite lookup_insert_eq; by eexists|].
      rewrite lookup_insert_ne by done. apply R3. by apply elem_of_cons in Hq as [?|?].
    - unfold pts, k2. rsimpl. by rewrite fmap_insert. }
  assert (S2 : running [p] k2).
  { intros q pq ->%list_elem_of_singleton. unfold k2. rsimpl. rewrite lookup_insert_eq. by intros [= <-]. }
  unfold process_post_synch. erewrite bind_Ok by (by apply on_k_run).
  destruct (call_process_run I any_event (p :: l) [p] thread ltac:(set_solver) n p PROCESS_EVENT_INIT data k2 t R2 S2)
    as (k3 & t3 & E3 & [R3 S3 O3 L3 (c3 & C3 & P3) _]); [set_solver|done|].
  erewrite bind_Ok by exact E3. eexists _, t3. split; [by apply on_k_run|].
  split; [by destruct R3 as [[] ? ? ?]; split|]. split; [exact S3|]. split; [|split; [done|]].
  - change (thread_calls k3 = thread_calls k ++ [mk_thread_call p PROCESS_EVENT_INIT data]).
    rewrite C3. f_equal. rewrite <- (calls_seen_all c3). exact P3.
  - intros q prq Hq Eq. destruct (O3 q prq) as (prq' & Eq' & Hs & _); [set_solver| |by exists prq'].
    unfold k2. rsimpl. by rewrite lookup_insert_ne.
Qed.

(** ** Exiting *)

Definition runs (k : kernel) (q : loc) : bool :=
  match processes k !! q with Some pr => pr_state pr =? PROCESS_STATE_RUNNING | None => false end.

(** Those that hear of the exit of [p]. *)
Definition others (k : kernel) (p : loc) (l : list loc) : list loc :=
  filter (fun q => q ≠ p /\ runs k q = true) l.

Definition states_ok (l : list loc) (k : kernel) : Prop :=
  forall q pr, q ∈ l -> processes k !! q = Some pr ->
  pr_state pr = PROCESS_STATE_NONE \/ pr_state pr = PROCESS_STATE_RUNNING \/ pr_state pr = PROCESS_STATE_CALLED.

Lemma bind_filter {A B} (P : A -> Prop) `{!forall x, Decision (P x)} (f : A -> B) l :
  l ≫= (fun x => if decide (P x) then [f x] else []) = f <$> filter P l.
Proof.
  induction l as [|x l IH]; [done|]. rewrite bind_cons, IH. case_decide.
  - by rewrite filter_cons_True.
  - by rewrite filter_cons_False.
Qed.

Section exit.
Context {T : Type} (I : gmap loc Z -> T -> Prop) (thread : loc -> Z -> ptr -> M (kernel * T) Z) (l : list loc).
Context `{!Quiet I l thread}.

Definition exited (p q : loc) : thread_call := mk_thread_call q PROCESS_EVENT_EXITED (Some p).

(** The processes that do not run, [p] apart, are being called or dead. *)
Definition idle_rest (r : list loc) (k : kernel) : Prop :=
  forall q, q ∈ l -> q ∉ r -> exists pr, processes k !! q = Some pr /\
    c_true (Z.land (pr_state pr) PROCESS_STATE_RUNNING) = false.

Lemma idle_rest_advanced r k k' t' cs :
  idle_rest r k -> advanced I any_event l r k k' t' cs -> idle_rest r k'.
Proof.
  intros H A q Hq Hr. destruct (H q Hq Hr) as (pr & E & Hi).
  destruct (ad_others _ _ _ _ _ _ _ _ A q pr Hr E) as (pr' & E' & Hs & _). exists pr'. by rewrite Hs.
Qed.

(** The loop that announces the exit. *)
Lemma announce_exit_run p n k k1 t :
  (length l <= n)%nat -> p ∈ l -> ready I l k1 t -> running (others k p l) k1 -> idle_rest (others k p l) k1 ->
  exists k2 t2, each_process (S n) (ls_head (process_list k1))
    (fun q => if decide (p = q) then skip else call_process thread (S n) q PROCESS_EVENT_EXITED (Some p)) (k1, t)
      = Ok (tt, (k2, t2)) /\
    advanced I any_event l (others k p l) k1 k2 t2 (exited p <$> others k p l).
Proof.
  intros Hn Hp R Sr Hi. unfold others at 2. rewrite <- bind_filter.
  destruct (each_process_run I any_event l (others k p l) (idle_rest (others k p l))
    (fun q => if decide (p = q) then skip else call_process thread (S n) q PROCESS_EVENT_EXITED (Some p))
    (fun q => if decide (q ≠ p /\ runs k q = true) then [exited p q] else []) l)
    with (fuel := S n) (q := ls_head (process_list k1)) (k := k1) (t := t)
    as (k2 & t2 & E2 & A2 & _); [|lia|apply R|done..|by exists k2, t2].
  clear k1 t R Sr Hi. intros q k1 t Hq R Sr Hi.
  destruct (decide (p = q)) as [->|Hne].
  { exists k1, t. rewrite decide_False by naive_solver. split; [done|]. split; [by apply advanced_refl|done]. }
  destruct (decide (q ≠ p /\ runs k q = true)) as [Hy|Hno].
  - destruct (call_process_run I any_event l (others k p l) thread) with (n := n) (p := q)
      (ev := PROCESS_EVENT_EXITED) (data := Some p) (k := k1) (t := t) as (k2 & t2 & E2 & A2); try done.
    + intros x [_ Hx]%list_elem_of_filter. done.
    + by apply list_elem_of_filter.
    + exists k2, t2. split; [exact E2|]. rewrite calls_seen_all in A2. split; [done|]. by eapply idle_rest_advanced.
  - destruct (Hi q Hq) as (pr & E & Hr); [intros [Hx _]%list_elem_of_filter; done|].
    exists k1, t. rewrite (call_process_idle _ _ _ pr) by done. split; [done|]. split; [by apply advanced_refl|done].
Qed.

(** The kernel just after [p] was marked dead. *)
Lemma marked_exit k t p pr :
  ready I l k t -> states_ok l k -> p ∈ l -> processes k !! p = Some pr ->
  let k1 := k <| processes ::= <[p := pr <| pr_state := PROCESS_STATE_NONE |>]> |> in
  ready I l k1 t /\ running (others k p l) k1 /\ idle_rest (others k p l) k1.
Proof.
  intros R Hs Hp E k1. split; [by apply (ready_set I l k t p pr (fun pr => pr <| pr_state := PROCESS_STATE_NONE |>))|].
  assert (Hk1 : forall q, q ≠ p -> processes k1 !! q = processes k !! q).
  { intros q Hq. unfold k1. rsimpl. by rewrite lookup_insert_ne. }
  split.
  - intros q prq [[Hq Hr] _]%list_elem_of_filter. rewrite Hk1 by done. unfold runs in Hr. intros Eq. rewrite Eq in Hr.
    by apply Z.eqb_eq.
  - intros q Hq Hn. destruct (decide (q = p)) as [->|Hne].
    { exists (pr <| pr_state := PROCESS_STATE_NONE |>). split; [apply lookup_insert_eq|done]. }
    rewrite Hk1 by done. destruct (rd_procs _ _ _ _ R q Hq) as (prq & Eq & _). exists prq. split; [done|].
    destruct (Hs q prq Hq Eq) as [->|[H| ->]]; [done| |done].
    destruct Hn. apply list_elem_of_filter. split; [|done]. split; [done|]. unfold runs. by rewrite Eq, H.
Qed.

(** What the announcement leaves of the states. *)
Lemma exit_states k k2 t t2 p pr prq q cs :
  ready I l k t -> processes k !! p = Some pr ->
  advanced I any_event l (others k p l) (k <| processes ::= <[p := pr <| pr_state := PROCESS_STATE_NONE |>]> |>) k2 t2 cs ->
  q ∈ l -> processes k !! q = Some prq ->
  exists prq2, processes k2 !! q = Some prq2 /\
    pr_state prq2 = if decide (q = p) then PROCESS_STATE_NONE else pr_state prq.
Proof.
  intros R E A Hq Eq. set (k1 := k <| processes ::= _ |>) in A.
  destruct (decide (q ∈ others k p l)) as [Hin|Hout].
  - apply list_elem_of_filter in Hin as Hf. destruct Hf as [[Hne Hr] _]. rewrite decide_False by done.
    destruct (rd_procs _ _ _ _ (ad_ready _ _ _ _ _ _ _ _ A) q Hq) as (pr2 & E2 & _). exists pr2. split; [done|].
    rewrite (ad_running _ _ _ _ _ _ _ _ A q pr2 Hin E2). unfold runs in Hr. rewrite Eq in Hr. symmetry. by apply Z.eqb_eq.
  - destruct (decide (q = p)) as [->|Hne].
    + destruct (ad_others _ _ _ _ _ _ _ _ A p (pr <| pr_state := PROCESS_STATE_NONE |>) Hout) as (pr2 & E2 & Hs & _);
        [apply lookup_insert_eq|]. by exists pr2.
    + destruct (ad_others _ _ _ _ _ _ _ _ A q prq Hout) as (pr2 & E2 & Hs & _); [|by exists pr2].
      unfold k1. rsimpl. by rewrite lookup_insert_ne.
Qed.

(** The thread of a process that another ends is called with the exit event. *)
Lemma exit_call_run k p pr t :
  ready I l k t -> p ∈ l -> processes k !! p = Some pr ->
  exists k' t' ret, call_thread thread p PROCESS_EVENT_EXIT None (k <| process_current := Some p |>, t) = Ok (ret, (k', t')) /\
    process_list k' = process_list k /\
    thread_calls k' = thread_calls k ++ [mk_thread_call p PROCESS_EVENT_EXIT None] /\
    forall q prq, processes k !! q = Some prq ->
      exists prq', processes k' !! q = Some prq' /\ pr_state prq' = pr_state prq.
Proof.
  intros R Hp E. unfold call_thread. erewrite bind_Ok by (by apply on_k_run).
  set (k1 := update thread_calls _ _).
  destruct (quiet p PROCESS_EVENT_EXIT None k1 t Hp) as (ret & k2 & t2 & E2 & _ & [K1 K2 K3 _] & _).
  { destruct R as [[] ? ? ?]; by split. }
  exists k2, t2, ret. split; [exact E2|]. split; [exact K1|]. split; [exact K3|].
  intros q prq Eq. destruct (K2 q prq Eq) as (prq' & E' & _ & Hs). by exists prq'.
Qed.
End exit.

(** C20. A process on the list is ended from outside its own thread: the other
    processes that run are told in the order of the list, then the process itself gets
    the exit event, and it leaves the list, dead; nobody else changes state, those that
    are being called are not told, and the caller stays current. *)
Theorem process_exit_spec {T} (I : gmap loc Z -> T -> Prop) (thread : loc -> Z -> ptr -> M (kernel * T) Z) l1 p l2 pr fuel k t :
  let l := l1 ++ p :: l2 in
  Quiet I l thread -> ready I l k t -> states_ok l k -> (length l < fuel)%nat ->
  processes k !! p = Some pr -> pr_state pr ≠ PROCESS_STATE_NONE -> process_current k ≠ Some p ->
  exists k' t', process_exit thread fuel p (k, t) = Ok (tt, (k', t')) /\
    is_list (process_list k') (l1 ++ l2) /\
    thread_calls k' = thread_calls k ++ (exited p <$> others k p l) ++ [mk_thread_call p PROCESS_EVENT_EXIT None] /\
    process_current k' = process_current k /\
    forall q prq, q ∈ l -> processes k !! q = Some prq -> exists prq', processes k' !! q = Some prq' /\
      pr_state prq' = if decide (q = p) then PROCESS_STATE_NONE else pr_state prq.
Proof.
  intros l HQ R Hs Hf E Hne Hc. assert (Hp : p ∈ l) by (unfold l; set_solver).
  destruct fuel as [|n]; [lia|]. unfold process_exit, exit_process.
  erewrite !bind_Ok by (by apply on_k_run). erewrite bind_Ok by (apply on_k_run, in_process_list_run, R).
  rewrite bool_decide_eq_true_2 by done. cbn [negb].
  erewrite bind_Ok by (apply on_k_run; unfold process_is_running; by erewrite bind_Ok by (by apply proc_get_run)).
  rewrite (proj2 (Z.eqb_neq _ _)) by done. unfold when at 1. cbn [negb].
  destruct (marked_exit I l k t p pr R Hs Hp E) as (R1 & S1 & I1). set (k1 := k <| processes ::= _ |>) in *.
  destruct (announce_exit_run I thread l p n k k1 t ltac:(lia) Hp R1 S1 I1) as (k2 & t2 & E2 & A2).
  destruct (ad_others _ _ _ _ _ _ _ _ A2 p (pr <| pr_state := PROCESS_STATE_NONE |>)) as (pr2 & Ep2 & Hs2 & Ht2);
    [by intros [[] _]%list_elem_of_filter|apply lookup_insert_eq|].
  destruct (exit_call_run I thread l k2 p pr2 t2 (ad_ready _ _ _ _ _ _ _ _ A2) Hp Ep2) as (k3 & t3 & ret & E3 & L3 & C3 & P3).
  destruct (unlink_process_run k3 l1 p l2) as (st' & Eu & Hu); [rewrite L3; apply A2|].
  assert (Hc' : bool_decide (process_current k = Some p) = false) by by apply bool_decide_eq_false_2.
  erewrite bind_Ok; cycle 1.
  { erewrite bind_Ok by (by apply on_k_run, proc_set_run). fold k1. erewrite bind_Ok by (by apply on_k_run).
    erewrite bind_Ok by exact E2. erewrite bind_Ok by (by apply on_k_run, proc_get_run).
    rewrite Hc', Ht2. destruct (rd_procs _ _ _ _ R p Hp) as (pr0 & E0 & Ht0). assert (pr0 = pr) as -> by congruence.
    change (pr_thread (update pr_state _ pr)) with (pr_thread pr). rewrite Ht0. cbn [negb andb]. unfold when.
    erewrite bind_Ok by (by apply on_k_run). erewrite bind_Ok by exact E3. reflexivity. }
  erewrite bind_Ok by (by apply on_k_run). eexists _, t3. split; [by apply on_k_run|].
  split; [exact Hu|]. split; [|split; [done|]].
  - change (thread_calls k3 = thread_calls k ++ (exited p <$> others k p l) ++ [mk_thread_call p PROCESS_EVENT_EXIT None]).
    destruct (ad_calls _ _ _ _ _ _ _ _ A2) as (c2 & C2 & H2). rewrite calls_seen_all in H2. by rewrite C3, C2, H2, <- app_assoc.
  - intros q prq Hq Eq. change (processes (update process_current _ (update process_list _ k3))) with (processes k3).
    destruct (exit_states I l k k2 t t2 p pr prq q _ R E A2 Hq Eq) as (prq2 & Eq2 & Hsq).
    destruct (P3 q prq2 Eq2) as (prq3 & Eq3 & Hs3). exists prq3. split; [done|congruence].
Qed.

Definition start_example : kernel :=
  (kernel_example 1 0) <| process_list ::= fun st => st <| ls_next ::= <[3%positive := None]> |> |>
    <| processes ::= <[3%positive := mk_process true 5 PROCESS_STATE_NONE 0]> |> <| process_current := Some 1%positive |>.

Lemma process_start_spec_witness :
  exists k' t', process_start echo_thread 1 3%positive None (start_example, tt) = Ok (tt, (k', t')) /\
    ready any_state [3%positive; 1%positive; 2%positive] k' t' /\ running [3%positive] k' /\
    thread_calls k' = thread_calls start_example ++ [mk_thread_call 3%positive PROCESS_EVENT_INIT None] /\
    process_current k' = process_current start_example /\
    (forall q prq, q ≠ 3%positive -> processes start_example !! q = Some prq ->
       exists prq', processes k' !! q = Some prq' /\ pr_state prq' = pr_state prq).
Proof.
  apply (process_start_spec any_state echo_thread [1%positive; 2%positive] 3%positive (mk_process true 5 PROCESS_STATE_NONE 0) None 0
    start_example tt); [apply _| |done|set_solver|by apply elem_of_dom; eexists|done..].
  split; [split; vm_compute; try reflexivity; split; congruence| | |done].
  - unfold is_list. cbn. eauto 10.
  - intros p [->| ->%list_elem_of_singleton]%elem_of_cons; by eexists.
Defined.

Lemma process_exit_spec_witness :
  exists k' t', process_exit echo_thread 3 2%positive (kernel_example 0 0, tt) = Ok (tt, (k', t')) /\
    is_list (process_list k') [1%positive] /\
    thread_calls k' = [mk_thread_call 1%positive PROCESS_EVENT_EXITED (Some 2%positive);
                       mk_thread_call 2%positive PROCESS_EVENT_EXIT None] /\
    process_current k' = None /\
    forall q prq, q ∈ [1%positive; 2%positive] -> processes (kernel_example 0 0) !! q = Some prq ->
      exists prq', processes k' !! q = Some prq' /\
      pr_state prq' = if decide (q = 2%positive) then PROCESS_STATE_NONE else pr_state prq.
Proof.
  apply (process_exit_spec any_state echo_thread [1%positive] 2%positive [] (mk_process true 0 PROCESS_STATE_RUNNING 1) 3
    (kernel_example 0 0) tt); [apply _| | |cbn; lia|done..].
  - split; [split; vm_compute; try reflexivity; split; congruence| | |done].
    + unfold is_list. cbn. eauto 10.
    + intros p [->| ->%list_elem_of_singleton]%elem_of_cons; by eexists.
  - intros q pr [->| ->%list_elem_of_singleton]%elem_of_cons; vm_compute; intros [= <-]; auto.
Defined.

(** ** A process that exits itself *)

(** The thread asks for its own exit at event 7, and goes on to yield. *)
Definition leaving_thread (p : loc) (ev : Z) (data : ptr) : M (kernel * unit) Z :=
  if ev =? 7 then process_exit echo_thread 3 p ;; mret PT_YIELDED else echo_thread p ev data.

Definition leave_then_post : M (kernel * unit) (bool * bool * Z) :=
  process_post_synch leaving_thread 3 2%positive 7 None ;;
  found ← on_k (in_process_list 2%positive);
  alive ← on_k (process_is_running 2%positive);
  process_post_synch leaving_thread 3 2%positive 8 None ;;
  n ← on_k (gets (fun k => Z.of_nat (length (filter (fun c => tc_ev c = 8) (thread_calls k)))));
  mret (found, alive, n).

(** It is off the list, yet alive: [call_process] sets its state back, and an event
    sent to it still arrives. *)
Lemma leaving_process_lives :
  match leave_then_post (kernel_example 0 0, tt) with Ok (r, _) => Some r | Err _ => None end = Some (false, true, 1).
Proof. vm_compute. reflexivity. Qed.
