(* ===== verification/Etimer.v ===== *)
(** * Etimer: event timers, the tick interrupt and callback timers

    core/sys/timer.c, etimer.c and ctimer.c, the tick interrupt of
    cpu/msp430/f1xxx/clock.c, and the thread of the process that posts the events of
    expired timers.  [clock_time_t] is a 32-bit [unsigned long].  The tick counter
    [count] changes only in the interrupt; the values of the hardware timer it reads
    are an input.  The computations are over the kernel and the timers. *)
From stdpp Require Import numbers option gmap list.
From S2P Require Import Prelude Lists Kernel.

Definition CLOCK_CONF_SECOND : Z := 128.
Definition MAX_TICKS : Z := u32 (- 1 - 0) / 2.

Record timer := mk_timer { tm_start : Z; tm_interval : Z }.
#[export] Instance eta_timer : Eta timer := fun x => mk_timer (tm_start x) (tm_interval x).

(** [p] is [PROCESS_NONE] (NULL) when the timer has expired; the [next] fields are in
    the store of the list. *)
Record etimer := mk_etimer { et_timer : timer; et_p : ptr }.
#[export] Instance eta_etimer : Eta etimer := fun x => mk_etimer (et_timer x) (et_p x).

(** The event timers of etimer.c and the counters of clock.c; [tbr_reads] are the
    values of the timer register the interrupt will read. *)
Record etimers := mk_etimers {
  timerlist : list_store;
  ets : gmap loc etimer;
  next_expiration : Z;
  clock_count : Z;
  clock_seconds : Z;
  TBCCR2 : Z;
  tbr_reads : list Z;
}.
#[export] Instance eta_etimers : Eta etimers := fun x =>
  mk_etimers (timerlist x) (ets x) (next_expiration x) (clock_count x) (clock_seconds x) (TBCCR2 x) (tbr_reads x).

Abbreviation ET := (M etimers).

(** ** timer.c *)

Definition clock_time : ET Z := gets clock_count.

Definition timer_set (now interval : Z) : timer := mk_timer now interval.
Definition timer_reset (t : timer) : timer := mk_timer (tm_start t +32 tm_interval t) (tm_interval t).
Definition timer_restart (now : Z) (t : timer) : timer := mk_timer now (tm_interval t).
Definition timer_expired (now : Z) (t : timer) : bool :=
  let diff := (now -32 tm_start t) +32 1 in tm_interval t <? diff.
Definition timer_remaining (now : Z) (t : timer) : Z := (tm_start t +32 tm_interval t) -32 now.

(** ** The list of event timers *)

Definition et_get (t : loc) : ET etimer := fun s =>
  match ets s !! t with Some e => Ok (e, s) | None => Err FWild end.
Definition et_upd (t : loc) (f : etimer -> etimer) : ET unit := fun s =>
  match ets s !! t with
  | Some e => Ok (tt, s <| ets ::= <[t := f e]> |>)
  | None => Err FWild
  end.
Definition on_tl {A} (m : M list_store A) : ET A := zoom timerlist m.
Definition tl_fuel : ET nat := gets (fun s => list_fuel (timerlist s)).
Definition tl_head : ET ptr := gets (fun s => ls_head (timerlist s)).

(** The distance of a timer's expiration. *)
Definition tdist_of (t : loc) (now : Z) : ET Z :=
  e ← et_get t; mret (timer_remaining now (et_timer e)).

(** [for(t = t->next; t != NULL; t = t->next)] of [update_time]. *)
Fixpoint tdist_loop (fuel : nat) (now tdist : Z) (t : ptr) : ET Z :=
  match fuel with
  | O => fail FHang
  | S n =>
      match t with
      | None => mret tdist
      | Some t =>
          d ← tdist_of t now;
          q ← on_tl (get_next t);
          tdist_loop n now (if d <? tdist then d else tdist) q
      end
  end.

Definition update_time : ET unit :=
  h ← tl_head;
  match h with
  | None => (next_expiration <~ 0)
  | Some t =>
      now ← clock_time;
      tdist ← tdist_of t now;
      q ← on_tl (get_next t);
      fuel ← tl_fuel;
      tdist ← tdist_loop fuel now tdist q;
      (next_expiration <~ now +32 tdist)
  end.

Definition etimer_pending : ET bool := h ← tl_head; mret (bool_decide (h ≠ None)).

Definition etimer_next_expiration_time : ET Z :=
  b ← etimer_pending; n ← gets next_expiration; mret (if b : bool then n else 0).

Definition etimer_expired (et : loc) : ET bool := e ← et_get et; mret (bool_decide (et_p e = None)).
Definition etimer_expiration_time (et : loc) : ET Z :=
  e ← et_get et; mret (tm_start (et_timer e) +32 tm_interval (et_timer e)).
Definition etimer_start_time (et : loc) : ET Z := e ← et_get et; mret (tm_start (et_timer e)).

(** [timediff] is an [int] (16 bits), converted to [unsigned long]. *)
Definition etimer_adjust (et : loc) (timediff : Z) : ET unit :=
  et_upd et (fun e => e <| et_timer ::= fun t => t <| tm_start ::= fun s => s +32 timediff |> |>) ;;
  update_time.

(** [for(t = timerlist; t != NULL && t->next != et; t = t->next);] *)
Fixpoint before_loop (fuel : nat) (et : loc) (t : ptr) : M list_store ptr :=
  match fuel with
  | O => fail FHang
  | S n =>
      match t with
      | None => mret None
      | Some x => q ← get_next x; if decide (q = Some et) then mret (Some x) else before_loop n et q
      end
  end.

Definition etimer_stop (et : loc) : ET unit :=
  h ← tl_head;
  (if decide (h = Some et) then
     on_tl (q ← get_next et; ls_head <~ q) ;;
     update_time
   else
     fuel ← tl_fuel;
     t ← on_tl (before_loop fuel et h);
     match t with
     | Some t => on_tl (q ← get_next et; set_next t q) ;; update_time
     | None => skip
     end) ;;
  on_tl (set_next et None) ;;
  et_upd et (fun e => e <| et_p := None |>).

(** [while(timerlist != NULL && timerlist->p == p)]. *)
Fixpoint drop_heads (fuel : nat) (p : ptr) : ET unit :=
  match fuel with
  | O => fail FHang
  | S n =>
      h ← tl_head;
      match h with
      | None => skip
      | Some t =>
          e ← et_get t;
          if decide (et_p e = p) then on_tl (q ← get_next t; ls_head <~ q) ;; drop_heads n p else skip
      end
  end.

(** [while(t->next != NULL)]: the timers of [p] after [t] are unlinked. *)
Fixpoint drop_rest (fuel : nat) (p : ptr) (t : loc) : ET unit :=
  match fuel with
  | O => fail FHang
  | S n =>
      q ← on_tl (get_next t);
      match q with
      | None => skip
      | Some u =>
          e ← et_get u;
          if decide (et_p e = p) then on_tl (r ← get_next u; set_next t r) ;; drop_rest n p t
          else drop_rest n p u
      end
  end.

Definition drop_timers_of (p : ptr) : ET unit :=
  fuel ← tl_fuel;
  drop_heads fuel p ;;
  h ← tl_head;
  match h with Some t => drop_rest fuel p t | None => skip end.

(** ** With the kernel *)

Abbreviation KE := (M (kernel * etimers)).

Definition on_e {A} (m : ET A) : KE A := fun '(k, e) =>
  match m e with Ok (a, e') => Ok (a, (k, e')) | Err f => Err f end.

Section process.
Variable etimer_process : loc.

Definition etimer_request_poll : KE unit := on_k (process_poll (Some etimer_process)).

(** One walk through the list; [true] is the jump to [again]. *)
Fixpoint scan_loop (fuel : nat) (u t : ptr) : KE bool :=
  match fuel with
  | O => fail FHang
  | S n =>
      match t with
      | None => mret false
      | Some x =>
          e ← on_e (et_get x);
          now ← on_e clock_time;
          if timer_expired now (et_timer e) then
            r ← on_k (process_post (et_p e) PROCESS_EVENT_TIMER (Some x));
            if r =? PROCESS_ERR_OK then
              on_e (et_upd x (fun e => e <| et_p := None |>)) ;;
              on_e (on_tl (
                q ← get_next x;
                (match u with Some u => set_next u q | None => ls_head <~ q end) ;;
                set_next x None)) ;;
              on_e update_time ;;
              mret true
            else
              etimer_request_poll ;;
              q ← on_e (on_tl (get_next x)); scan_loop n (Some x) q
          else q ← on_e (on_tl (get_next x)); scan_loop n (Some x) q
      end
  end.

Fixpoint again_loop (fuel : nat) : KE unit :=
  match fuel with
  | O => fail FHang
  | S n =>
      h ← on_e tl_head;
      f ← on_e tl_fuel;
      b ← scan_loop f None h;
      if b : bool then again_loop n else skip
  end.

(** Every walk that jumps to [again] took a timer off the list. *)
Definition poll_timers : KE unit := f ← on_e tl_fuel; again_loop f.

(** The thread.  Its continuation is 0 at first and then the line of its only
    [PROCESS_YIELD]. *)
Definition ETIMER_YIELD : Z := 89.
Definition etimer_thread (ev : Z) (data : ptr) : KE Z :=
  pr ← on_k (proc_get etimer_process);
  if pr_pt pr =? 0 then
    on_e (on_tl (ls_head <~ None)) ;;
    on_k (proc_set etimer_process (fun pr => pr <| pr_pt := ETIMER_YIELD |>)) ;;
    mret PT_YIELDED
  else if pr_pt pr =? ETIMER_YIELD then
    (if ev =? PROCESS_EVENT_EXITED then on_e (drop_timers_of data)
     else if negb (ev =? PROCESS_EVENT_POLL) then skip
     else poll_timers) ;;
    on_k (proc_set etimer_process (fun pr => pr <| pr_pt := ETIMER_YIELD |>)) ;;
    mret PT_YIELDED
  else
    on_k (proc_set etimer_process (fun pr => pr <| pr_pt := 0 |>)) ;;
    mret PT_ENDED.

(** [for(t = timerlist; t != NULL; t = t->next) { if(t == timer)]. *)
Definition on_timerlist (timer : loc) : ET bool := fun s =>
  match search_loop (list_fuel (timerlist s)) timer (ls_head (timerlist s)) (timerlist s) with
  | Ok (q, _) => Ok (bool_decide (q = Some timer), s)
  | Err f => Err f
  end.

Definition set_p_current (timer : loc) : KE unit :=
  c ← on_k (gets process_current);
  on_e (et_upd timer (fun e => e <| et_p := c |>)).

Definition add_timer (timer : loc) : KE unit :=
  etimer_request_poll ;;
  e ← on_e (et_get timer);
  found ← (if decide (et_p e = None) then mret false else on_e (on_timerlist timer));
  if found : bool then
    set_p_current timer ;;
    on_e update_time
  else
    set_p_current timer ;;
    on_e (on_tl (h ← gets ls_head; set_next timer h ;; (ls_head <~ Some timer))) ;;
    on_e update_time.

Definition upd_timer (et : loc) (f : timer -> timer) : KE unit :=
  on_e (et_upd et (fun e => e <| et_timer ::= f |>)).

Definition etimer_set (et : loc) (interval : Z) : KE unit :=
  now ← on_e clock_time;
  upd_timer et (fun _ => timer_set now interval) ;;
  add_timer et.
Definition etimer_reset_with_new_interval (et : loc) (interval : Z) : KE unit :=
  upd_timer et timer_reset ;;
  upd_timer et (fun t => t <| tm_interval := interval |>) ;;
  add_timer et.
Definition etimer_reset (et : loc) : KE unit :=
  upd_timer et timer_reset ;;
  add_timer et.
Definition etimer_restart (et : loc) : KE unit :=
  now ← on_e clock_time;
  upd_timer et (timer_restart now) ;;
  add_timer et.

(** ** The tick interrupt, case 4 of [timerb1] *)

Definition RTIMER_CONF_SECOND : Z := 524288.
Definition ETIMER_RESOLUTION : Z := RTIMER_CONF_SECOND / CLOCK_CONF_SECOND.
Definition CLOCK_LT (a b : Z) : bool := s16 (a -16 b) <? 0.

Definition read_tbr : ET Z := fun s =>
  match tbr_reads s with
  | [] => Err FHang
  | r :: rs => Ok (r, s <| tbr_reads := rs |>)
  end.

(** [while(!CLOCK_LT(read_tbr(), TBCCR2))]. *)
Fixpoint tick_loop (fuel : nat) : ET unit :=
  match fuel with
  | O => fail FHang
  | S n =>
      r ← read_tbr;
      c ← gets TBCCR2;
      if CLOCK_LT r c then skip
      else
        (TBCCR2 <~ c +16 ETIMER_RESOLUTION) ;;
        modify (fun s => s <| clock_count ::= fun c => c +32 1 |>) ;;
        n' ← gets clock_count;
        when (n' mod CLOCK_CONF_SECOND =? 0) (modify (fun s => s <| clock_seconds ::= fun c => c +32 1 |>)) ;;
        tick_loop n
  end.

(** [true] when the processor is woken up ([LPM4_EXIT]). *)
Definition etimer_interrupt : KE bool :=
  on_e (fun s => tick_loop (length (tbr_reads s)) s) ;;
  pending ← on_e etimer_pending;
  next ← on_e etimer_next_expiration_time;
  now ← on_e (gets clock_count);
  if (pending : bool) && (MAX_TICKS <? (next -32 now) -32 1) then
    etimer_request_poll ;;
    mret true
  else mret false.

(** ** ctimer.c *)

(** The event timer inside the callback timer [c] has the name [c]. *)
Record ctimer := mk_ctimer { ct_p : ptr; ct_f : ptr; ct_ptr : ptr }.
#[export] Instance eta_ctimer : Eta ctimer := fun x => mk_ctimer (ct_p x) (ct_f x) (ct_ptr x).

Record ctimers := mk_ctimers {
  ctimer_list : list_store;
  cts : gmap loc ctimer;
  initialized : Z;
}.
#[export] Instance eta_ctimers : Eta ctimers := fun x => mk_ctimers (ctimer_list x) (cts x) (initialized x).

Section ctimers.
(** The state of the rest of the program, and what the functions [f] do. *)
Context {U : Type}.
Abbreviation KC := (M (kernel * (etimers * (ctimers * U)))).
Variable ctimer_process : loc.
Variable callback : loc -> ptr -> KC unit.

Definition on_ke {A} (m : KE A) : KC A := fun '(k, (e, cu)) =>
  match m (k, e) with Ok (a, (k', e')) => Ok (a, (k', (e', cu))) | Err f => Err f end.
Definition on_c {A} (m : M ctimers A) : KC A := fun '(k, (e, (c, u))) =>
  match m c with Ok (a, c') => Ok (a, (k, (e, (c', u)))) | Err f => Err f end.
Definition on_cl {A} (m : M list_store A) : KC A := on_c (zoom ctimer_list m).
Definition ct_get (c : loc) : KC ctimer := on_c (fun s =>
  match cts s !! c with Some x => Ok (x, s) | None => Err FWild end).
Definition ct_set (c : loc) (x : ctimer) : KC unit := on_c (fun s =>
  match cts s !! c with
  | Some _ => Ok (tt, s <| cts ::= <[c := x]> |>)
  | None => Err FWild
  end).

(** [PROCESS_CONTEXT_BEGIN(p)] and [PROCESS_CONTEXT_END(p)] around [m]. *)
Definition in_context (p : ptr) (m : KC unit) : KC unit :=
  tmp_current ← on_k (gets process_current);
  on_k (process_current <~ p) ;;
  m ;;
  on_k (process_current <~ tmp_current).

Definition ctimer_set_with_process (c : loc) (t : Z) (f ptr p : ptr) : KC unit :=
  ct_set c (mk_ctimer p f ptr) ;;
  i ← on_c (gets initialized);
  (if c_true i then in_context (Some ctimer_process) (on_ke (etimer_set c t))
   else on_ke (upd_timer c (fun tm => tm <| tm_interval := t |>))) ;;
  on_cl (list_add c).

Definition ctimer_set (c : loc) (t : Z) (f ptr : ptr) : KC unit :=
  p ← on_k (gets process_current);
  ctimer_set_with_process c t f ptr p.

Definition ctimer_reset (c : loc) : KC unit :=
  i ← on_c (gets initialized);
  when (c_true i) (in_context (Some ctimer_process) (on_ke (etimer_reset c))) ;;
  on_cl (list_add c).

Definition ctimer_restart (c : loc) : KC unit :=
  i ← on_c (gets initialized);
  when (c_true i) (in_context (Some ctimer_process) (on_ke (etimer_restart c))) ;;
  on_cl (list_add c).

Definition ctimer_stop (c : loc) : KC unit :=
  i ← on_c (gets initialized);
  (if c_true i then on_ke (on_e (etimer_stop c))
   else on_ke (on_e (on_tl (set_next c None) ;; et_upd c (fun e => e <| et_p := None |>)))) ;;
  on_cl (list_remove c).

Definition ctimer_expired (c : loc) : KC bool :=
  i ← on_c (gets initialized);
  if c_true i then on_ke (on_e (etimer_expired c))
  else on_c (fun s =>
    match search_loop (list_fuel (ctimer_list s)) c (ls_head (ctimer_list s)) (ctimer_list s) with
    | Ok (q, _) => Ok (negb (bool_decide (q = Some c)), s)
    | Err f => Err f
    end).

(** The loop over the timers that were set before the process was started. *)
Fixpoint set_all_loop (fuel : nat) (c : ptr) : KC unit :=
  match fuel with
  | O => fail FHang
  | S n =>
      match c with
      | None => skip
      | Some c =>
          e ← on_ke (on_e (et_get c));
          on_ke (etimer_set c (tm_interval (et_timer e))) ;;
          q ← on_cl (get_next c);
          set_all_loop n q
      end
  end.

(** The loop that finds the callback timer of an event. *)
Fixpoint fire_loop (fuel : nat) (data c : ptr) : KC unit :=
  match fuel with
  | O => fail FHang
  | S n =>
      match c with
      | None => skip
      | Some c =>
          if decide (data = Some c) then
            on_cl (list_remove c) ;;
            x ← ct_get c;
            in_context (ct_p x) (match ct_f x with Some f => callback f (ct_ptr x) | None => skip end)
          else q ← on_cl (get_next c); fire_loop n data q
      end
  end.

Definition CTIMER_YIELD : Z := 74.
Definition ctimer_thread (ev : Z) (data : ptr) : KC Z :=
  pr ← on_k (proc_get ctimer_process);
  let yield :=
    on_k (proc_set ctimer_process (fun pr => pr <| pr_pt := CTIMER_YIELD |>)) ;;
    mret PT_YIELDED in
  if pr_pt pr =? 0 then
    h ← on_c (gets (fun s => ls_head (ctimer_list s)));
    f ← on_c (gets (fun s => list_fuel (ctimer_list s)));
    set_all_loop f h ;;
    on_c (initialized <~ 1) ;;
    yield
  else if pr_pt pr =? CTIMER_YIELD then
    if negb (ev =? PROCESS_EVENT_TIMER) then mret PT_YIELDED
    else
      h ← on_c (gets (fun s => ls_head (ctimer_list s)));
      f ← on_c (gets (fun s => list_fuel (ctimer_list s)));
      fire_loop f data h ;;
      yield
  else
    on_k (proc_set ctimer_process (fun pr => pr <| pr_pt := 0 |>)) ;;
    mret PT_ENDED.

(** The threads of the two processes and of the [rest]. *)
Variable rest : loc -> Z -> ptr -> KC Z.
Definition timer_threads (p : loc) (ev : Z) (data : ptr) : KC Z :=
  if decide (p = etimer_process) then on_ke (etimer_thread ev data)
  else if decide (p = ctimer_process) then ctimer_thread ev data
  else rest p ev data.

Definition ctimer_init (fuel : nat) : KC unit :=
  on_c (initialized <~ 0) ;;
  on_cl list_init ;;
  process_start timer_threads fuel ctimer_process None.
End ctimers.
End process.
