(* ===== verification/EtimerFacts.v ===== *)
(** * EtimerFacts: expired timers become events, and none is forgotten

    Theorems about [Etimer]: the poll of the event timer process posts an event for
    every expired timer, in the order of the list, as far as the queue has room; the
    tick interrupt asks for that poll exactly when a timer has expired; the process is
    [Quiet], so the kernel delivers these events. *)
From stdpp Require Import numbers option gmap list.
From S2P Require Import Prelude Lists Kernel KernelFacts Etimer.

(** ** Times *)

(** Expired: the interval is over.  The one exception is an elapsed time of 2^32 - 1. *)
Lemma timer_expired_spec now t :
  timer_expired now t = (tm_interval t <=? now -32 tm_start t) && negb (now -32 tm_start t =? 2 ^ 32 - 1) ||
                        (tm_interval t <? 0).
Proof.
  unfold timer_expired. set (d := now -32 tm_start t).
  assert (Hd : 0 <= d < 2 ^ 32) by (apply uwrap_range; lia). clearbody d.
  destruct (Z.eqb_spec d (2 ^ 32 - 1)) as [->|Hne].
  - change (u32 (2 ^ 32 - 1 + 1)) with 0. cbn [negb]. by rewrite andb_false_r.
  - rewrite uwrap_small by (unfold in_u; lia). cbn [negb]. rewrite andb_true_r.
    destruct (Z.ltb_spec (tm_interval t) (d + 1)), (Z.leb_spec (tm_interval t) d), (Z.ltb_spec (tm_interval t) 0);
      cbn; lia.
Qed.

(** ** The list of timers *)

Record timers_ok (l : list loc) (s : etimers) : Prop := {
  to_list : is_list (timerlist s) l;
  to_known : forall t, t ∈ l -> exists e, ets s !! t = Some e;
}.

Definition remaining (s : etimers) (t : loc) : Z :=
  match ets s !! t with Some e => timer_remaining (clock_count s) (et_timer e) | None => 0 end.
Definition due (s : etimers) (t : loc) : bool :=
  match ets s !! t with Some e => timer_expired (clock_count s) (et_timer e) | None => false end.
Definition soonest (s : etimers) (t : loc) (l : list loc) : Z := foldl Z.min (remaining s t) (remaining s <$> l).
Definition next_due (s : etimers) (l : list loc) : Z :=
  match l with [] => 0 | t :: l => clock_count s +32 soonest s t l end.

Lemma et_get_run s t e : ets s !! t = Some e -> et_get t s = Ok (e, s).
Proof. intros E. unfold et_get. by rewrite E. Qed.
Lemma et_upd_run s t e f : ets s !! t = Some e -> et_upd t f s = Ok (tt, s <| ets ::= <[t := f e]> |>).
Proof. intros E. unfold et_upd. by rewrite E. Qed.
Lemma tdist_of_run s t e : ets s !! t = Some e -> tdist_of t (clock_count s) s = Ok (remaining s t, s).
Proof. intros E. unfold tdist_of, remaining. erewrite bind_Ok by (by apply et_get_run). by rewrite E. Qed.
Lemma on_tl_next s t q : ls_next (timerlist s) !! t = Some q -> on_tl (get_next t) s = Ok (q, s).
Proof. intros E. unfold on_tl, zoom, get_next. rewrite E. by destruct s. Qed.

Lemma tdist_loop_run s l : forall d t fuel,
  seg (ls_next (timerlist s)) t l None -> (forall x, x ∈ l -> exists e, ets s !! x = Some e) -> (length l < fuel)%nat ->
  tdist_loop fuel (clock_count s) d t s = Ok (foldl Z.min d (remaining s <$> l), s).
Proof.
  induction l as [|x l IH]; intros d t fuel Hs Hk Hf; cbn in Hf; (destruct fuel as [|fuel]; [lia|]); cbn [tdist_loop].
  - by rewrite Hs.
  - destruct Hs as (-> & q & Hq & Hs). destruct (Hk x ltac:(left)) as [e E].
    erewrite bind_Ok by (by eapply tdist_of_run). erewrite bind_Ok by (by apply on_tl_next).
    assert (Hm : (if remaining s x <? d then remaining s x else d) = Z.min d (remaining s x)).
    { destruct (Z.ltb_spec (remaining s x) d); lia. }
    rewrite Hm. by rewrite (IH _ q) by (done || lia || (intros; apply Hk; by right)).
Qed.

Lemma update_time_run l s :
  timers_ok l s -> update_time s = Ok (tt, s <| next_expiration := next_due s l |>).
Proof.
  intros [Hl Hk]. pose proof (seg_length _ _ _ Hl) as Hn. unfold update_time, tl_head. rewrite bind_gets.
  destruct l as [|t l]; [by rewrite Hl|]. destruct Hl as (Eh & q & Hq & Hl). rewrite Eh.
  destruct (Hk t ltac:(left)) as [e E]. unfold clock_time. rewrite bind_gets.
  erewrite bind_Ok by (by eapply tdist_of_run). erewrite bind_Ok by (by apply on_tl_next).
  unfold tl_fuel. rewrite bind_gets. cbn in Hn.
  erewrite bind_Ok by (apply tdist_loop_run; [done|intros; apply Hk; by right|unfold list_fuel; lia]). reflexivity.
Qed.

(** ** Asking for the poll *)

Section process.
Context (etimer_process : loc).

(** The kernel after [process_poll]. *)
Definition wake (k : kernel) : kernel :=
  match processes k !! etimer_process with
  | Some pr =>
      if (pr_state pr =? PROCESS_STATE_RUNNING) || (pr_state pr =? PROCESS_STATE_CALLED) then
        k <| processes ::= <[etimer_process := pr <| pr_needspoll := 1 |>]> |> <| poll_requested := 1 |>
      else k
  | None => k
  end.

Definition wake_if (b : bool) (k : kernel) : kernel := if b then wake k else k.

Lemma request_poll_run k pr s :
  processes k !! etimer_process = Some pr ->
  etimer_request_poll etimer_process (k, s) = Ok (tt, (wake k, s)).
Proof.
  intros E. unfold etimer_request_poll. apply on_k_run. unfold process_poll, wake.
  erewrite bind_Ok by (by apply proc_get_run). rewrite E. destruct (_ || _); [|done].
  unfold when. by erewrite bind_Ok by (by apply proc_set_run).
Qed.

Lemma wake_twice k : wake (wake k) = wake k.
Proof.
  unfold wake at 2 3. destruct (processes k !! etimer_process) as [pr|] eqn:E; [|unfold wake; by rewrite E].
  destruct (_ || _) eqn:Es; [|unfold wake; by rewrite E, Es].
  unfold wake. rsimpl. rewrite lookup_insert_eq. rsimpl. rewrite Es.
  destruct k; cbn. unfold update; cbn. by rewrite insert_insert_eq.
Qed.

Lemma wake_queue b k : queue (wake_if b k) = queue k.
Proof. unfold wake_if, wake. destruct b; [|done]. destruct (processes k !! _); [|done]. by destruct (_ || _). Qed.
Lemma wake_queue_ok b k : queue_ok k -> queue_ok (wake_if b k).
Proof.
  intros []. unfold wake_if, wake. destruct b; [|by split]. destruct (processes k !! _); [|by split].
  destruct (_ || _); by split.
Qed.
Lemma wake_known k pr : processes k !! etimer_process = Some pr ->
  forall b, exists pr', processes (wake_if b k) !! etimer_process = Some pr'.
Proof.
  intros E []; [|by exists pr]. unfold wake_if, wake. rewrite E. destruct (_ || _); [|by exists pr].
  rsimpl. rewrite lookup_insert_eq. eauto.
Qed.
Lemma wake_if_twice a b k : wake_if b (wake_if a k) = wake_if (a || b) k.
Proof. destruct a, b; try done. apply wake_twice. Qed.

(** ** The walk through the list *)

(** Kernels that differ in the queue and its statistics only. *)
Record same_but_queue (k k' : kernel) : Prop := {
  sq_list : process_list k' = process_list k;
  sq_procs : processes k' = processes k;
  sq_current : process_current k' = process_current k;
  sq_poll : poll_requested k' = poll_requested k;
  sq_calls : thread_calls k' = thread_calls k;
}.
Lemma same_but_queue_trans k1 k2 k3 : same_but_queue k1 k2 -> same_but_queue k2 k3 -> same_but_queue k1 k3.
Proof. intros [] []. split; congruence. Qed.
Lemma same_but_queue_wake b k k' : same_but_queue k k' -> same_but_queue (wake_if b k) (wake_if b k').
Proof.
  intros H. destruct b; [|done]. destruct H as [H1 H2 H3 H4 H5]. cbn. unfold wake. rewrite H2.
  destruct (processes k !! _); [|by split]. destruct (_ || _); [|by split]. split; try done. rsimpl. by rewrite H2.
Qed.

Definition full (k : kernel) : Prop := length (queue k) = Z.to_nat PROCESS_CONF_NUMEVENTS.
#[export] Instance full_dec k : Decision (full k) := decide (length (queue k) = Z.to_nat PROCESS_CONF_NUMEVENTS).

Lemma post_full k p ev d : queue_ok k -> full k -> process_post p ev d k = Ok (PROCESS_ERR_FULL, k).
Proof.
  intros Hq Hf. destruct (process_post_run k p ev d Hq) as (r & k' & E & _ & _ & _ & _ & _ & _ & H).
  rewrite decide_True in H by exact Hf. by destruct H as [-> ->].
Qed.
Lemma post_room k p ev d :
  queue_ok k -> ~ full k -> exists k', process_post p ev d k = Ok (PROCESS_ERR_OK, k') /\ queue_ok k' /\
    queue k' = queue k ++ [mk_event ev d p] /\ same_but_queue k k'.
Proof.
  intros Hq Hf. destruct (process_post_run k p ev d Hq) as (r & k' & E & Hq' & E1 & E2 & E3 & E4 & E5 & H).
  rewrite decide_False in H by exact Hf. destruct H as (-> & Eq & _). exists k'. split; [done|].
  split; [done|]. split; [exact Eq|by split].
Qed.

(** Nothing can be posted, or nothing is due: the walk asks for another poll if it
    leaves expired timers. *)
Lemma scan_through s l : forall u t fuel k pr,
  seg (ls_next (timerlist s)) t l None -> (forall x, x ∈ l -> exists e, ets s !! x = Some e) -> (length l < fuel)%nat ->
  queue_ok k -> processes k !! etimer_process = Some pr -> full k \/ existsb (due s) l = false ->
  scan_loop etimer_process fuel u t (k, s) = Ok (false, (wake_if (existsb (due s) l) k, s)).
Proof.
  induction l as [|x l IH]; intros u t fuel k pr Hs Hk Hf Hq Hp Hor; cbn in Hf;
    (destruct fuel as [|fuel]; [lia|]); cbn [scan_loop].
  { by rewrite Hs. }
  destruct Hs as (-> & q & Hn & Hs). destruct (Hk x ltac:(left)) as [e E]. cbn [existsb] in Hor |- *.
  assert (Hk' : forall y, y ∈ l -> exists e, ets s !! y = Some e) by (intros; apply Hk; by right).
  erewrite bind_Ok by (unfold on_e; by rewrite (et_get_run _ _ _ E)). erewrite bind_Ok by reflexivity.
  assert (Hd : due s x = timer_expired (clock_count s) (et_timer e)) by (unfold due; by rewrite E).
  assert (Hnext : on_e (on_tl (get_next x)) (k, s) = Ok (q, (k, s))) by (unfold on_e; by rewrite (on_tl_next _ _ _ Hn)).
  rewrite <- Hd. destruct (due s x) eqn:Ed; cbn [orb] in *.
  - destruct Hor as [Hfull|?]; [|done].
    erewrite bind_Ok by (by apply on_k_run, post_full). change (PROCESS_ERR_FULL =? PROCESS_ERR_OK) with false. cbn iota.
    erewrite bind_Ok by (by eapply request_poll_run).
    assert (Hnext' : on_e (on_tl (get_next x)) (wake k, s) = Ok (q, (wake k, s))) by (unfold on_e; by rewrite (on_tl_next _ _ _ Hn)).
    erewrite bind_Ok by exact Hnext'.
    destruct (wake_known k pr Hp true) as [pr' Hp']. change (wake k) with (wake_if true k).
    rewrite (IH _ _ fuel (wake_if true k) pr'); [by rewrite wake_if_twice|done|done|lia|by apply wake_queue_ok|done|].
    left. unfold full. by rewrite wake_queue.
  - erewrite bind_Ok by exact Hnext. by apply (IH _ _ fuel k pr); try done; lia.
Qed.

(** The timer [x] with its entry marked expired and taken off the list. *)
Definition take_off (u : ptr) (x : loc) (q : ptr) (s : etimers) : etimers :=
  s <| ets ::= alter (fun e => e <| et_p := None |>) x |> <| timerlist ::= unlink u x q |>.

Definition timer_event (s : etimers) (t : loc) : event_data :=
  mk_event PROCESS_EVENT_TIMER (Some t) (match ets s !! t with Some e => et_p e | None => None end).

(** The first expired timer is posted. *)
Lemma scan_first s x b qx : forall a u t fuel k,
  seg (ls_next (timerlist s)) t (a ++ x :: b) None -> ls_next (timerlist s) !! x = Some qx ->
  (forall y, y ∈ a ++ [x] -> exists e, ets s !! y = Some e) -> (forall v, u = Some v -> v ∈ dom (ls_next (timerlist s))) ->
  (length a < fuel)%nat -> queue_ok k -> ~ full k -> existsb (due s) a = false -> due s x = true ->
  exists k', scan_loop etimer_process fuel u t (k, s) =
      (on_e update_time ;; mret true) (k', take_off (from_option Some u (last a)) x qx s) /\
    queue_ok k' /\ queue k' = queue k ++ [timer_event s x] /\ same_but_queue k k'.
Proof.
  induction a as [|y a IH]; intros u t fuel k Hs Hqx Hk Hu Hf Hq Hroom Ha Hx; cbn in Hf;
    (destruct fuel as [|fuel]; [lia|]); cbn [scan_loop].
  - destruct Hs as (-> & _). destruct (Hk x ltac:(left)) as [e E].
    erewrite bind_Ok by (unfold on_e; by rewrite (et_get_run _ _ _ E)). erewrite bind_Ok by reflexivity.
    unfold due in Hx. rewrite E in Hx. rewrite Hx.
    destruct (post_room k (et_p e) PROCESS_EVENT_TIMER (Some x) Hq Hroom) as (k' & Ep & Hq' & Eq & Hsame).
    erewrite bind_Ok by (by apply on_k_run). rewrite Z.eqb_refl.
    erewrite bind_Ok by (unfold on_e; by rewrite (et_upd_run _ _ _ _ E)).
    exists k'. split; [|unfold timer_event; by rewrite E]. cbn [last from_option].
    set (s1 := s <| ets ::= _ |>).
    assert (Ho : (q ← get_next x; (match u with Some u => set_next u q | None => ls_head <~ q end) ;; set_next x None)
      (timerlist s) = Ok (tt, unlink u x qx (timerlist s))).
    { erewrite bind_Ok by (by apply get_next_ok). assert (x ∈ dom (ls_next (timerlist s))) by by apply elem_of_dom.
      destruct u as [u|]; cbn [unlink].
      - erewrite bind_Ok by (apply set_next_ok; by apply Hu). apply set_next_ok. rsimpl. set_solver.
      - rewrite bind_modify. by apply set_next_ok. }
    assert (Ex : alter (fun e => e <| et_p := None |>) x (ets s) = <[x := e <| et_p := None |>]> (ets s)).
    { apply map_eq. intros z. destruct (decide (z = x)) as [->|Hne].
      - by rewrite lookup_alter_eq, lookup_insert_eq, E.
      - by rewrite lookup_alter_ne, lookup_insert_ne. }
    erewrite bind_Ok; [|unfold on_e, on_tl, zoom; change (timerlist s1) with (timerlist s); rewrite Ho; reflexivity].
    assert (Es1 : s <| ets ::= alter (fun e => e <| et_p := None |>) x |> = s1).
    { change (s <| ets := alter (fun e => e <| et_p := None |>) x (ets s) |> = s1). by rewrite Ex. }
    unfold take_off. by rewrite Es1.
  - destruct Hs as (-> & q & Hn & Hs). destruct (Hk y ltac:(left)) as [e E]. cbn [existsb] in Ha.
    apply orb_false_iff in Ha as [Hy Ha].
    erewrite bind_Ok by (unfold on_e; by rewrite (et_get_run _ _ _ E)). erewrite bind_Ok by reflexivity.
    unfold due in Hy. rewrite E in Hy. rewrite Hy.
    erewrite bind_Ok by (unfold on_e; by rewrite (on_tl_next _ _ _ Hn)).
    destruct (IH (Some y) q fuel k) as (k' & Es & H); try done; [intros; apply Hk; by right|by intros v [= <-]; apply elem_of_dom|lia|].
    exists k'. split; [|done]. rewrite Es. f_equal. f_equal. destruct a as [|z a _] using rev_ind; [done|].
    rewrite app_comm_cons, !last_snoc. done.
Qed.

(** ** All expired timers *)

Lemma take_off_lookup u x q s y :
  ets (take_off u x q s) !! y = if decide (y = x) then (fun e => e <| et_p := None |>) <$> ets s !! y else ets s !! y.
Proof.
  change (ets (take_off u x q s)) with (alter (fun e => e <| et_p := None |>) x (ets s)).
  case_decide; [subst; by rewrite lookup_alter_eq|by rewrite lookup_alter_ne].
Qed.
Lemma take_off_due u x q s y : due (take_off u x q s) y = due s y.
Proof.
  unfold due. rewrite take_off_lookup. change (clock_count (take_off u x q s)) with (clock_count s).
  case_decide; by destruct (ets s !! y).
Qed.
Lemma take_off_event u x q s y : y <> x -> timer_event (take_off u x q s) y = timer_event s y.
Proof. intros H. unfold timer_event. rewrite take_off_lookup. by rewrite decide_False. Qed.

Lemma take_off_ok s a x b qx :
  timers_ok (a ++ x :: b) s -> ls_next (timerlist s) !! x = Some qx -> timers_ok (a ++ b) (take_off (last a) x qx s).
Proof.
  intros [Hl Hk] Hq. split; [by apply unlink_spec|].
  intros y Hy. rewrite take_off_lookup. destruct (Hk y) as [e E]; [set_solver|]. rewrite E.
  case_decide; by eexists.
Qed.

Lemma first_due {A} (f : A -> bool) l :
  existsb f l = true -> exists a x b, l = a ++ x :: b /\ existsb f a = false /\ f x = true.
Proof.
  induction l as [|y l IH]; [done|]. cbn. destruct (f y) eqn:E.
  - intros _. by exists [], y, l.
  - intros H. destruct (IH H) as (a & x & b & -> & Ha & Hx). exists (y :: a), x, b. cbn. by rewrite E, Ha.
Qed.

Definition dues (s : etimers) (l : list loc) : list loc := filter (fun t => due s t = true) l.

Lemma dues_none s l : existsb (due s) l = false -> dues s l = [].
Proof.
  intros H. unfold dues. induction l as [|x l IH]; [done|]. cbn in H. apply orb_false_iff in H as [Hx H].
  rewrite filter_cons_False by congruence. by apply IH.
Qed.
Lemma dues_some s l : existsb (due s) l = true -> dues s l <> [].
Proof.
  intros (a & x & b & -> & _ & Hx)%first_due H. assert (Hi : x ∈ dues s (a ++ x :: b)).
  { apply list_elem_of_filter. set_solver. }
  rewrite H in Hi. set_solver.
Qed.
Lemma dues_first s a x b : existsb (due s) a = false -> due s x = true -> dues s (a ++ x :: b) = x :: dues s b.
Proof.
  intros Ha Hx. unfold dues. rewrite filter_app, filter_cons_True by done. pose proof (dues_none s a Ha) as H.
  unfold dues in H. by rewrite H.
Qed.
Lemma dues_ext s s' l : (forall t, due s' t = due s t) -> dues s' l = dues s l.
Proof. intros H. unfold dues. apply list_filter_iff. intros x. by rewrite H. Qed.

(** What the poll makes of the timers [l] and of the kernel, [posted] being the timers
    whose events were posted. *)
Record polled (l posted : list loc) (k : kernel) (s : etimers) (k' : kernel) (s' : etimers) : Prop := {
  po_timers : timers_ok (filter (.∉ posted) l) s';
  po_entries : forall t, ets s' !! t =
    if decide (t ∈ posted) then (fun e => e <| et_p := None |>) <$> ets s !! t else ets s !! t;
  po_count : clock_count s' = clock_count s;
  po_next : if decide (posted = []) then next_expiration s' = next_expiration s
            else next_expiration s' = next_due s' (filter (.∉ posted) l);
  po_queue_ok : queue_ok k';
  po_queue : queue k' = queue k ++ (timer_event s <$> posted);
  po_kernel : same_but_queue (wake_if (bool_decide (length posted < length (dues s l))%nat) k) k';
}.

Definition room (k : kernel) : nat := (Z.to_nat PROCESS_CONF_NUMEVENTS - length (queue k))%nat.

Lemma filter_none (l : list loc) : filter (.∉ ([] : list loc)) l = l.
Proof. induction l as [|y l IH]; [done|]. rewrite filter_cons_True by set_solver. by rewrite IH. Qed.

Lemma polled_none l k s b :
  timers_ok l s -> queue_ok k -> b = bool_decide (0 < length (dues s l))%nat -> polled l [] k s (wake_if b k) s.
Proof.
  intros Hl Hq ->. split; try done.
  - by rewrite filter_none.
  - by apply wake_queue_ok.
  - rewrite wake_queue. by rewrite app_nil_r.
Qed.

Lemma next_due_ext s s' l :
  clock_count s' = clock_count s -> (forall t, ets s' !! t = ets s !! t) -> next_due s' l = next_due s l.
Proof.
  intros Hc H. assert (Hr : forall t, remaining s' t = remaining s t) by (intros t; unfold remaining; by rewrite Hc, H).
  destruct l as [|t l]; [done|]. unfold next_due, soonest. rewrite Hc, Hr.
  by rewrite (list_fmap_ext (remaining s') (remaining s) l) by (intros; apply Hr).
Qed.

Lemma filter_posted (a b P : list loc) x :
  NoDup (a ++ x :: b) -> filter (.∉ x :: P) (a ++ x :: b) = filter (.∉ P) (a ++ b).
Proof.
  intros Hn. apply NoDup_app in Hn as (_ & Ha & Hb). apply NoDup_cons in Hb as [Hb _].
  rewrite !filter_app, filter_cons_False by set_solver.
  assert (forall l : list loc, x ∉ l -> filter (.∉ x :: P) l = filter (.∉ P) l) as Hf.
  { clear. induction l as [|y l IH]; intros Hx; [done|]. assert (y <> x /\ x ∉ l) as [Hne Hl] by set_solver.
    destruct (decide (y ∈ P)) as [Hy|Hy].
    - rewrite !filter_cons_False by set_solver. by apply IH.
    - rewrite !filter_cons_True by set_solver. by rewrite IH. }
  rewrite !Hf; [done|done|]. intros Hx. apply (Ha x); set_solver.
Qed.

(** One event more, before the rest. *)
Lemma polled_cons k s k1 k' s' a x b qx P :
  timers_ok (a ++ x :: b) s -> ls_next (timerlist s) !! x = Some qx ->
  existsb (due s) a = false -> due s x = true -> x ∉ P ->
  queue k1 = queue k ++ [timer_event s x] -> same_but_queue k k1 ->
  let s0 := take_off (last a) x qx s in
  let s1 := s0 <| next_expiration := next_due s0 (a ++ b) |> in
  polled (a ++ b) P k1 s1 k' s' -> polled (a ++ x :: b) (x :: P) k s k' s'.
Proof.
  intros Hl Hq Ha Hx HP Eq Hsame s0 s1 [P1 P2 P3 P4 P5 P6 P7].
  pose proof (seg_nodup _ _ _ (to_list _ _ Hl)) as Hn.
  assert (Hd : dues s1 (a ++ b) = dues s b).
  { rewrite (dues_ext s s1) by apply take_off_due. unfold dues. rewrite filter_app.
    pose proof (dues_none s a Ha) as E. unfold dues in E. by rewrite E. }
  split.
  - by rewrite filter_posted.
  - intros t. rewrite P2. change (ets s1) with (ets s0). unfold s0. rewrite take_off_lookup.
    destruct (decide (t = x)) as [->|Hne].
    + by rewrite decide_False, decide_True by set_solver.
    + destruct (decide (t ∈ P)); [by rewrite decide_True by set_solver|by rewrite decide_False by set_solver].
  - exact P3.
  - rewrite decide_False by done. rewrite filter_posted by done. case_decide as HPe; [|done]. subst P. rewrite P4.
    rewrite filter_none. change (next_expiration s1) with (next_due s1 (a ++ b)). symmetry.
    apply next_due_ext; [done|]. intros t. rewrite P2. by rewrite decide_False by set_solver.
  - exact P5.
  - rewrite P6, Eq, <- app_assoc. do 2 f_equal. cbn. f_equal. apply list_fmap_ext. intros i t Ht.
    apply list_elem_of_lookup_2 in Ht. apply take_off_event. set_solver.
  - eapply same_but_queue_trans; [|exact P7]. rewrite Hd, dues_first by done. cbn [length].
    rewrite (bool_decide_ext (S (length P) < S (length (dues s b)))%nat (length P < length (dues s b))%nat) by lia.
    by apply same_but_queue_wake.
Qed.

Lemma again_run n : forall l s k pr,
  timers_ok l s -> queue_ok k -> processes k !! etimer_process = Some pr -> (length (dues s l) < n)%nat ->
  exists k' s', again_loop etimer_process n (k, s) = Ok (tt, (k', s')) /\
    polled l (take (room k) (dues s l)) k s k' s'.
Proof.
  induction n as [|n IH]; intros l s k pr Hl Hq Hp Hn; [lia|]. cbn [again_loop].
  erewrite !bind_Ok by reflexivity. pose proof (seg_length _ _ _ (to_list _ _ Hl)) as Hlen.
  destruct (decide (full k \/ existsb (due s) l = false)) as [Hor|Hor].
  - erewrite bind_Ok by (by eapply scan_through; [apply Hl|apply Hl|unfold list_fuel; lia|..]).
    eexists _, s. split; [reflexivity|].
    assert (E : take (room k) (dues s l) = []).
    { destruct Hor as [Hf|Hd]; [unfold room; rewrite Hf, Nat.sub_diag; done|by rewrite dues_none, take_nil]. }
    rewrite E. apply polled_none; [done|done|].
    destruct (existsb (due s) l) eqn:Ed.
    + symmetry. apply bool_decide_eq_true_2. pose proof (dues_some s l Ed). destruct (dues s l); [done|cbn; lia].
    + symmetry. apply bool_decide_eq_false_2. rewrite (dues_none s l Ed). cbn. lia.
  - assert (full k -> False) as Hroom by auto. assert (existsb (due s) l = true) as Hd.
    { destruct (existsb (due s) l); [done|]. destruct Hor. by right. }
    destruct (first_due _ _ Hd) as (a & x & b & -> & Ha & Hx).
    pose proof (seg_nodup _ _ _ (to_list _ _ Hl)) as Hnd. pose proof (to_list _ _ Hl) as Hs.
    unfold is_list in Hs. apply seg_app in Hs as (r & _ & -> & qx & Hqx & _).
    rewrite length_app in Hlen. cbn in Hlen.
    destruct (scan_first s x b qx a None (ls_head (timerlist s)) (list_fuel (timerlist s)) k)
      as (k1 & E1 & Hq1 & Eq1 & Hsame); try done; [apply Hl|intros y Hy; apply Hl; set_solver|unfold list_fuel; lia|].
    pose proof (take_off_ok s a x b qx Hl Hqx) as Hl0.
    replace (from_option Some None (last a)) with (last a) in E1 by by destruct (last a).
    set (s0 := take_off (last a) x qx s) in *. set (s1 := s0 <| next_expiration := next_due s0 (a ++ b) |>).
    assert (E1' : scan_loop etimer_process (list_fuel (timerlist s)) None (ls_head (timerlist s)) (k, s) = Ok (true, (k1, s1))).
    { rewrite E1. erewrite bind_Ok; [reflexivity|]. unfold on_e. by rewrite (update_time_run _ _ Hl0). }
    erewrite bind_Ok by exact E1'.
    assert (Hd1 : dues s1 (a ++ b) = dues s b).
    { rewrite (dues_ext s s1) by apply take_off_due. unfold dues. rewrite filter_app.
      pose proof (dues_none s a Ha) as E. unfold dues in E. by rewrite E. }
    rewrite dues_first in Hn |- * by done. cbn in Hn.
    destruct (IH (a ++ b) s1 k1 pr) as (k' & s' & E2 & HP); [by destruct Hl0|done|by rewrite (sq_procs _ _ Hsame)|rewrite Hd1; lia|].
    exists k', s'. split; [exact E2|]. rewrite Hd1 in HP.
    assert (Hr : room k = S (room k1)).
    { unfold room. rewrite Eq1, length_app. cbn [length]. unfold full in Hroom.
      pose proof (queue_length k Hq). pose proof (qo_number _ Hq). unfold PROCESS_CONF_NUMEVENTS in *. lia. }
    rewrite Hr. cbn [take]. apply (polled_cons k s k1 k' s' a x b qx); try done.
    intros Hin. apply elem_of_take in Hin as (i & Hi & _). apply list_elem_of_lookup_2, list_elem_of_filter in Hi as [_ Hi].
    apply NoDup_app in Hnd as (_ & _ & Hnd). by apply NoDup_cons in Hnd as [? _].
Qed.
End process.
