(* ===== verification/EtimerSpec.v ===== *)
(** * EtimerSpec: event timers, their process and the tick interrupt

    What [Etimer] promises: the poll, the interrupt, setting and stopping a timer, the
    exit of a process that owned timers; the event timer process is [Quiet]; setting a
    listed timer twice outside every process never returns. *)
From stdpp Require Import numbers option gmap list.
From S2P Require Import Prelude Lists Kernel KernelFacts KernelLife Etimer EtimerFacts.

(** ** The timers of an exiting process *)

Definition owner (s : etimers) (t : loc) : ptr := match ets s !! t with Some e => et_p e | None => None end.
Definition not_of (s : etimers) (p : ptr) (l : list loc) : list loc := filter (fun t => owner s t <> p) l.

Lemma not_of_in s p t l : owner s t = p -> not_of s p (t :: l) = not_of s p l.
Proof. intros H. unfold not_of. by rewrite filter_cons_False by auto. Qed.
Lemma not_of_out s p t l : owner s t <> p -> not_of s p (t :: l) = t :: not_of s p l.
Proof. intros H. unfold not_of. by rewrite filter_cons_True. Qed.

Lemma owner_get s t e : ets s !! t = Some e -> et_p e = owner s t.
Proof. unfold owner. by intros ->. Qed.

(** Only the list of timers differs. *)
Definition relisted (s s' : etimers) : Prop := exists st, s' = s <| timerlist := st |>.
Lemma relisted_trans s1 s2 s3 : relisted s1 s2 -> relisted s2 s3 -> relisted s1 s3.
Proof. intros [st1 ->] [st2 ->]. by exists st2. Qed.

Lemma drop_heads_run p l : forall fuel s,
  timers_ok l s -> (length l < fuel)%nat ->
  exists s' l', drop_heads fuel p s = Ok (tt, s') /\ timers_ok l' s' /\ relisted s s' /\
    not_of s p l' = not_of s p l /\ (length l' <= length l)%nat /\ (forall t, head l' = Some t -> owner s t <> p).
Proof.
  induction l as [|t l IH]; intros fuel s [Hl Hk] Hf; cbn in Hf; (destruct fuel as [|fuel]; [lia|]); cbn [drop_heads];
    unfold tl_head; rewrite bind_gets.
  - rewrite Hl. exists s, []. split; [done|]. split; [by split|]. split; [by exists (timerlist s); destruct s|].
    split; [done|]. split; [done|]. done.
  - destruct Hl as (Eh & q & Hq & Hl). rewrite Eh. destruct (Hk t ltac:(left)) as [e E].
    erewrite bind_Ok by (by apply et_get_run). rewrite (owner_get _ _ _ E). destruct (decide (owner s t = p)) as [Ho|Ho].
    + set (s1 := s <| timerlist := (timerlist s) <| ls_head := q |> |>).
      assert (E1 : on_tl (q ← get_next t; ls_head <~ q) s = Ok (tt, s1)).
      { unfold on_tl, zoom. by erewrite bind_Ok by (by apply get_next_ok). }
      erewrite bind_Ok by exact E1.
      destruct (IH fuel s1) as (s' & l' & E2 & H & Hr & Hn & Hlen & Hh); [split; [exact Hl|intros; apply Hk; by right]|lia|].
      exists s', l'. split; [exact E2|]. split; [done|]. split; [eapply relisted_trans; [|exact Hr]; by eexists|].
      split; [by rewrite (not_of_in s p t l)|]. split; [cbn; lia|exact Hh].
    + exists s, (t :: l). split; [done|]. split; [by split; [split; [|exists q]|]|].
      split; [by exists (timerlist s); destruct s|]. split; [done|]. split; [done|]. by intros ? [= <-].
Qed.

(** The walk behind a timer [t] that stays: [a] are the timers before it. *)
Lemma drop_rest_run p l : forall fuel s a t,
  timers_ok (a ++ t :: l) s -> (length l < fuel)%nat ->
  exists s', drop_rest fuel p t s = Ok (tt, s') /\ timers_ok (a ++ t :: not_of s p l) s' /\ relisted s s'.
Proof.
  induction l as [|u l IH]; intros fuel s a t [Hl Hk] Hf; cbn in Hf; (destruct fuel as [|fuel]; [lia|]); cbn [drop_rest];
    pose proof Hl as Hs; unfold is_list in Hs; apply seg_app in Hs as (h & Ha & -> & q & Hq & Hs);
    erewrite bind_Ok by (by apply on_tl_next).
  - rewrite Hs. exists s. split; [done|]. split; [by split|]. by exists (timerlist s); destruct s.
  - destruct Hs as (-> & r & Hr & Hs). destruct (Hk u ltac:(set_solver)) as [e E].
    erewrite bind_Ok by (by apply et_get_run). rewrite (owner_get _ _ _ E). destruct (decide (owner s u = p)) as [Ho|Ho].
    + set (s1 := s <| timerlist := (timerlist s) <| ls_next ::= <[t := r]> |> |>).
      assert (E1 : on_tl (r ← get_next u; set_next t r) s = Ok (tt, s1)).
      { unfold on_tl, zoom. erewrite bind_Ok by (by apply get_next_ok).
        by rewrite set_next_ok by by apply elem_of_dom. }
      erewrite bind_Ok by exact E1. rewrite (not_of_in s p u l) by done.
      destruct (IH fuel s1 a t) as (s' & E2 & H & Hr'); [|lia|].
      * split; [|intros y Hy; apply Hk; set_solver]. unfold is_list. change (ls_head (timerlist s1)) with (ls_head (timerlist s)).
        change (ls_next (timerlist s1)) with (<[t := r]> (ls_next (timerlist s))).
        pose proof (seg_nodup _ _ _ Hl) as (_ & Hn1 & [Hn2 _]%NoDup_cons)%NoDup_app.
        apply seg_app. exists (Some t). split; [apply seg_insert_ne; [|done]; intros Hx; apply (Hn1 t); set_solver|].
        split; [done|]. exists r. split; [apply lookup_insert_eq|]. apply seg_insert_ne; [set_solver|done].
      * exists s'. split; [exact E2|]. split; [exact H|]. eapply relisted_trans; [|exact Hr']. by eexists.
    + rewrite (not_of_out s p u l) by done. rewrite (cons_middle t a), app_assoc.
      destruct (IH fuel s (a ++ [t]) u) as (s' & E2 & H & Hr'); [|lia|exists s'; split; [exact E2|by split]].
      by rewrite <- app_assoc.
Qed.

Lemma relisted_ok l s s' : relisted s s' -> timers_ok l s' -> forall t, t ∈ l -> exists e, ets s !! t = Some e.
Proof. intros [st ->] [_ Hk] t Ht. by apply Hk. Qed.

(** When a process exits, its timers leave the list, and only those. *)
Lemma drop_timers_run p l s :
  timers_ok l s -> exists s', drop_timers_of p s = Ok (tt, s') /\ timers_ok (not_of s p l) s' /\ relisted s s'.
Proof.
  intros Hl. pose proof (seg_length _ _ _ (to_list _ _ Hl)) as Hn. unfold drop_timers_of, tl_fuel. rewrite bind_gets.
  destruct (drop_heads_run p l (list_fuel (timerlist s)) s Hl) as (s1 & l1 & E1 & H1 & Hr1 & Hn1 & Hlen & Hh);
    [unfold list_fuel; lia|].
  erewrite bind_Ok by exact E1. unfold tl_head. rewrite bind_gets. rewrite <- Hn1.
  destruct l1 as [|t l1].
  - rewrite (to_list _ _ H1). by exists s1.
  - pose proof (to_list _ _ H1) as Hs. destruct Hs as (Eh & _). rewrite Eh. cbn in Hlen.
    destruct (drop_rest_run p l1 (list_fuel (timerlist s)) s1 [] t H1) as (s2 & E2 & H2 & Hr2); [unfold list_fuel; lia|].
    exists s2. split; [exact E2|]. split; [|by eapply relisted_trans].
    rewrite not_of_out by (by apply Hh). destruct Hr1 as [st ->]. exact H2.
Qed.

(** ** Stopping *)

Lemma before_loop_run st et l : forall t fuel,
  seg (ls_next st) t l None -> (length l < fuel)%nat ->
  before_loop fuel et t st = Ok (list_find (fun x => ls_next st !! x = Some (Some et)) l ≫= fun '(_, x) => Some x, st).
Proof.
  induction l as [|x l IH]; intros t fuel Hs Hf; cbn in Hf; (destruct fuel as [|fuel]; [lia|]); cbn [before_loop].
  - by rewrite Hs.
  - destruct Hs as (-> & q & Hq & Hs). erewrite bind_Ok by (by apply get_next_ok). cbn [list_find].
    destruct (decide (q = Some et)) as [->|Hne]; [by rewrite decide_True|].
    rewrite decide_False by congruence. rewrite (IH q) by (done || lia). by destruct (list_find _ l) as [[]|].
Qed.

Lemma next_is_listed m h l x y : seg m h l None -> x ∈ l -> m !! x = Some (Some y) -> y ∈ l.
Proof.
  intros Hs (a & b & ->)%list_elem_of_split Hx. apply seg_app in Hs as (r & _ & -> & q & Hq & Hs).
  assert (q = Some y) as -> by congruence. destruct b as [|z b]; cbn in Hs; [done|].
  destruct Hs as ([= ->] & _). set_solver.
Qed.

Lemma before_find m h a u t b :
  seg m h (a ++ u :: t :: b) None ->
  list_find (fun x => m !! x = Some (Some t)) (a ++ u :: t :: b) = Some (length a, u).
Proof.
  intros Hs. pose proof (seg_nodup _ _ _ Hs) as Hn.
  apply list_find_Some. split; [by rewrite list_lookup_middle|].
  pose proof Hs as Hs'. apply seg_app in Hs' as (r & Ha & -> & q & Hq & -> & _). split; [done|].
  intros j y Hj Hlt. rewrite lookup_app_l in Hj by done. intros Hy.
  apply list_elem_of_split_length in Hj as (a1 & a2 & -> & ->). rewrite <- app_assoc in Hs, Hn. cbn in Hs, Hn.
  apply seg_app in Hs as (r2 & _ & -> & q2 & Hq2 & Hs). assert (q2 = Some t) as -> by congruence.
  apply NoDup_app in Hn as (_ & _ & [_ Hn]%NoDup_cons).
  destruct a2 as [|z a2]; cbn in Hs, Hn; destruct Hs as ([= ->] & _).
  - apply NoDup_cons in Hn as [Hn _]. set_solver.
  - apply NoDup_cons in Hn as [Hn _]. set_solver.
Qed.

Lemma seg_insert_back m h l t v q : t ∉ l -> m !! t = Some q -> seg (<[t := v]> m) h l None -> seg m h l None.
Proof.
  intros Ht Hq Hs. apply (seg_insert_ne _ _ _ _ t q Ht) in Hs. by rewrite insert_insert_eq, insert_id in Hs.
Qed.

(** The list without [t], before the [next] field of [t] is cleared. *)
Lemma unlinked_ok s a t b q :
  timers_ok (a ++ t :: b) s -> ls_next (timerlist s) !! t = Some q ->
  exists st1, on_tl (match last a with Some u => q ← get_next t; set_next u q | None => q ← get_next t; ls_head <~ q end) s
      = Ok (tt, s <| timerlist := st1 |>) /\
    timers_ok (a ++ b) (s <| timerlist := st1 |>) /\
    unlink (last a) t q (timerlist s) = st1 <| ls_next ::= <[t := None]> |> /\ ls_next st1 !! t = Some q.
Proof.
  intros [Hl Hk] Hq. pose proof (unlink_spec _ _ _ _ _ Hl Hq) as (Hu & _ & _).
  pose proof (seg_nodup _ _ _ Hl) as Hn. apply NoDup_app in Hn as (Hn1 & Hn2 & [Hn3 _]%NoDup_cons).
  assert (Ht : t ∉ a ++ b) by (intros [H|H]%elem_of_app; [apply (Hn2 t H); left|done]).
  assert (Hk' : forall y, y ∈ a ++ b -> exists e, ets s !! y = Some e) by (intros; apply Hk; set_solver).
  unfold on_tl, zoom. destruct (last a) as [u|] eqn:El; cbn [unlink] in *.
  - assert (u ∈ a) as Hua by by apply last_Some_elem_of.
    assert (Hut : u <> t) by (intros ->; apply Ht; set_solver).
    erewrite bind_Ok by (by apply get_next_ok).
    rewrite set_next_ok by (eapply seg_dom; [exact Hl|set_solver]).
    eexists. split; [reflexivity|].
    assert (E : (<[u := q]> (ls_next (timerlist s))) !! t = Some q) by by rewrite lookup_insert_ne.
    split; [|by split]. split; [|exact Hk']. eapply seg_insert_back; [exact Ht|exact E|exact Hu].
  - erewrite bind_Ok by (by apply get_next_ok). eexists. split; [reflexivity|].
    split; [|by split]. split; [|exact Hk']. eapply seg_insert_back; [exact Ht|exact Hq|exact Hu].
Qed.

(** The branches of [etimer_stop] that unlink. *)
Lemma etimer_stop_first t l s :
  timers_ok l s -> t ∈ dom (ls_next (timerlist s)) ->
  exists s1, (h ← tl_head;
    (if decide (h = Some t) then on_tl (q ← get_next t; ls_head <~ q) ;; update_time
     else
       fuel ← tl_fuel;
       u ← on_tl (before_loop fuel t h);
       match u with
       | Some u => on_tl (q ← get_next t; set_next u q) ;; update_time
       | None => skip
       end)) s = Ok (tt, s1) /\
    timers_ok (seq_remove t l) s1 /\ ets s1 = ets s /\ clock_count s1 = clock_count s /\
    t ∈ dom (ls_next (timerlist s1)) /\
    is_list ((timerlist s1) <| ls_next ::= <[t := None]> |>) (seq_remove t l).
Proof.
  intros Hl Hd. unfold tl_head. rewrite bind_gets. pose proof (seg_length _ _ _ (to_list _ _ Hl)) as Hn.
  destruct (decide (t ∈ l)) as [(a & b & ->)%list_elem_of_split|Hout].
  - pose proof (to_list _ _ Hl) as Hs. pose proof (seg_nodup _ _ _ Hs) as Hnd. rewrite seq_remove_split by done.
    unfold is_list in Hs. apply seg_app in Hs as (r & Ha & -> & q & Hq & Hb).
    destruct (unlinked_ok s a t b q Hl Hq) as (st1 & E1 & H1 & Hu & Hq1).
    pose proof (unlink_spec _ _ _ _ _ (to_list _ _ Hl) Hq) as (Hfin & _ & _). rewrite Hu in Hfin.
    exists (s <| timerlist := st1 |> <| next_expiration := next_due (s <| timerlist := st1 |>) (a ++ b) |>).
    split; [|split; [by destruct H1|split; [done|split; [done|split; [by apply elem_of_dom|exact Hfin]]]]].
    destruct a as [|u a _] using rev_ind.
    + cbn in Ha. rewrite Ha, decide_True by done. cbn [last] in E1. erewrite bind_Ok by exact E1. by apply update_time_run.
    + rewrite last_snoc in E1. rewrite decide_False.
      * unfold tl_fuel. rewrite bind_gets.
        assert (Eb : on_tl (before_loop (list_fuel (timerlist s)) t (ls_head (timerlist s))) s = Ok (Some u, s)).
        { unfold on_tl, zoom. rewrite (before_loop_run _ _ ((a ++ [u]) ++ t :: b)) by (apply Hl || (unfold list_fuel; lia)).
          pose proof (to_list _ _ Hl) as Hs. rewrite <- app_assoc in Hs |- *. cbn in Hs |- *.
          rewrite (before_find _ _ _ _ _ _ Hs). by destruct s. }
        erewrite bind_Ok by exact Eb. cbn beta iota. erewrite bind_Ok by exact E1. by apply update_time_run.
      * intros Eh. rewrite Eh in Ha. apply NoDup_app in Hnd as (_ & Hnd & _). apply (Hnd t); [|left].
        destruct a; cbn in Ha; destruct Ha as (Ee & _); injection Ee as Ee; rewrite Ee; set_solver.
  - rewrite seq_remove_notin by done. exists s. rewrite decide_False.
    + unfold tl_fuel. rewrite bind_gets. split; [|split; [done|split; [done|split; [done|split; [done|]]]]].
      * erewrite bind_Ok; [|unfold on_tl, zoom; rewrite (before_loop_run _ _ l) by (apply Hl || (unfold list_fuel; lia)); reflexivity].
        destruct (list_find _ l) as [[i x]|] eqn:E; [|by destruct s].
        apply list_find_Some in E as (Hi & Hx & _). destruct Hout.
        eapply next_is_listed; [apply Hl|by eapply list_elem_of_lookup_2|done].
      * by apply is_list_set_next, Hl.
    + intros Eh. pose proof (to_list _ _ Hl) as Hs. destruct l as [|x l]; cbn in Hs; unfold is_list in Hs; rewrite Eh in Hs; [done|].
      destruct Hs as ([= ->] & _). set_solver.
Qed.

(** A timer that is stopped is off the list and expired, whether it was listed or not. *)
Lemma etimer_stop_run t e l s :
  timers_ok l s -> ets s !! t = Some e -> t ∈ dom (ls_next (timerlist s)) ->
  exists s', etimer_stop t s = Ok (tt, s') /\ timers_ok (seq_remove t l) s' /\
    ets s' = <[t := e <| et_p := None |>]> (ets s) /\ clock_count s' = clock_count s /\
    ls_next (timerlist s') !! t = Some None.
Proof.
  intros Hl E Hd. destruct (etimer_stop_first t l s Hl Hd) as (s1 & E1 & H1 & He & Hc & Hd1 & Hfin).
  unfold etimer_stop. unfold tl_head in *. rewrite bind_gets in E1 |- *. erewrite bind_Ok by exact E1.
  erewrite bind_Ok; [|unfold on_tl, zoom; rewrite set_next_ok by exact Hd1; reflexivity].
  set (s2 := s1 <| timerlist := _ |>). assert (E2 : ets s2 !! t = Some e) by (change (ets s2) with (ets s1); by rewrite He).
  rewrite (et_upd_run s2 t e _ E2). eexists. split; [reflexivity|].
  set (s3 := s2 <| ets ::= _ |>). assert (E3 : ets s3 = <[t := e <| et_p := None |>]> (ets s)).
  { change (ets s3) with (<[t := e <| et_p := None |>]> (ets s1)). by rewrite He. }
  split; [|split; [exact E3|split; [exact Hc|apply lookup_insert_eq]]].
  split; [exact Hfin|]. intros x Hx. rewrite E3. destruct (decide (x = t)) as [->|Hne]; [rewrite lookup_insert_eq; eauto|].
  rewrite lookup_insert_ne by done. destruct H1 as [_ Hk]. rewrite <- He. by apply Hk.
Qed.

(** ** Setting *)

Section process.
Context (etimer_process : loc).
Abbreviation wake := (wake etimer_process).
Abbreviation wake_if := (wake_if etimer_process).

Lemma on_e_run {A} (m : ET A) k s a s' : m s = Ok (a, s') -> on_e m (k, s) = Ok (a, (k, s')).
Proof. intros E. unfold on_e. by rewrite E. Qed.

Lemma on_timerlist_run t l s : timers_ok l s -> on_timerlist t s = Ok (bool_decide (t ∈ l), s).
Proof.
  intros [Hl _]. unfold on_timerlist. pose proof (seg_length _ _ _ Hl).
  rewrite (search_loop_run _ t l) by (done || (unfold list_fuel; lia)).
  do 2 f_equal. case_decide; by case_bool_decide; case_bool_decide.
Qed.

Lemma wake_current k : process_current (wake k) = process_current k.
Proof. unfold EtimerFacts.wake. destruct (processes k !! _); [|done]. by destruct (_ || _). Qed.

Definition listed (t : loc) (l : list loc) : list loc := if decide (t ∈ l) then l else t :: l.

(** A timer on the list has a process ([et_p] is not NULL). *)
Lemma add_timer_run t e l k s pr :
  timers_ok l s -> ets s !! t = Some e -> t ∈ dom (ls_next (timerlist s)) -> processes k !! etimer_process = Some pr ->
  (t ∈ l -> et_p e <> None) ->
  exists s', add_timer etimer_process t (k, s) = Ok (tt, (wake k, s')) /\ timers_ok (listed t l) s' /\
    ets s' = <[t := e <| et_p := process_current k |>]> (ets s) /\ clock_count s' = clock_count s /\
    next_expiration s' = next_due s' (listed t l).
Proof.
  intros Hl E Hd Hp Ho. unfold add_timer. erewrite bind_Ok by (by eapply request_poll_run).
  erewrite bind_Ok by (by apply on_e_run, et_get_run).
  assert (Ef : (if decide (et_p e = None) then mret false else on_e (on_timerlist t)) (wake k, s)
    = Ok (bool_decide (t ∈ l), (wake k, s))).
  { destruct (decide (et_p e = None)) as [Hn|Hn]; [rewrite bool_decide_eq_false_2 by (intros ?; by apply Ho); done|].
    by apply on_e_run, on_timerlist_run. }
  erewrite bind_Ok by exact Ef.
  set (s1 := s <| ets ::= <[t := e <| et_p := process_current k |>]> |>).
  assert (Es : set_p_current t (wake k, s) = Ok (tt, (wake k, s1))).
  { unfold set_p_current. erewrite bind_Ok by (by apply on_k_run). rewrite wake_current. by apply on_e_run, et_upd_run. }
  assert (H1 : forall st l', is_list st l' -> (forall y, y ∈ l' -> y = t \/ y ∈ l) -> timers_ok l' (s1 <| timerlist := st |>)).
  { intros st l' Hs Hin. split; [exact Hs|]. intros y Hy. change (ets (s1 <| timerlist := st |>)) with
      (<[t := e <| et_p := process_current k |>]> (ets s)). destruct (decide (y = t)) as [->|Hne].
    - rewrite lookup_insert_eq. eauto.
    - rewrite lookup_insert_ne by done. apply Hl. destruct (Hin y Hy); done. }
  unfold listed. destruct (decide (t ∈ l)) as [Ht|Ht].
  - rewrite bool_decide_eq_true_2 by done. erewrite bind_Ok by exact Es.
    assert (H2 : timers_ok l s1) by (apply (H1 (timerlist s) l); [apply Hl|auto]).
    rewrite (on_e_run _ _ _ _ _ (update_time_run _ _ H2)). eexists. split; [reflexivity|]. by destruct H2.
  - rewrite bool_decide_eq_false_2 by done. erewrite bind_Ok by exact Es.
    set (st := (timerlist s) <| ls_next ::= <[t := ls_head (timerlist s)]> |> <| ls_head := Some t |>).
    erewrite bind_Ok; [|apply on_e_run; unfold on_tl, zoom; rewrite bind_gets; erewrite bind_Ok by (by apply set_next_ok); reflexivity].
    assert (H2 : timers_ok (t :: l) (s1 <| timerlist := st |>)).
    { apply H1; [|set_solver]. split; [done|]. exists (ls_head (timerlist s)). split; [apply lookup_insert_eq|].
      apply seg_insert_ne; [done|apply Hl]. }
    rewrite (on_e_run _ _ _ _ _ (update_time_run _ _ H2)). eexists. split; [reflexivity|]. by destruct H2.
Qed.

(** The timer of [t] after [f]; the rest of the list's state is as it was. *)
Lemma upd_timer_run t e f k s :
  ets s !! t = Some e -> upd_timer t f (k, s) = Ok (tt, (k, s <| ets ::= <[t := e <| et_timer ::= f |>]> |>)).
Proof. intros E. unfold upd_timer. by apply on_e_run, et_upd_run. Qed.

Lemma timers_ok_upd l s t e : timers_ok l s -> timers_ok l (s <| ets ::= <[t := e]> |>).
Proof.
  intros [Hl Hk]. split; [exact Hl|]. intros x Hx. rsimpl. destruct (decide (x = t)) as [->|Hne].
  - rewrite lookup_insert_eq. eauto.
  - rewrite lookup_insert_ne by done. by apply Hk.
Qed.

(** The four ways to set a timer: a new interval from now, the last interval from the
    last expiration, a new one from there, the last interval from now. *)
Inductive setting := SSet (interval : Z) | SReset | SResetWith (interval : Z) | SRestart.
Definition set_op (o : setting) (t : loc) : KE unit :=
  match o with
  | SSet i => etimer_set etimer_process t i
  | SReset => etimer_reset etimer_process t
  | SResetWith i => etimer_reset_with_new_interval etimer_process t i
  | SRestart => etimer_restart etimer_process t
  end.
Definition set_timer (o : setting) (now : Z) (tm : timer) : timer :=
  match o with
  | SSet i => mk_timer now i
  | SReset => mk_timer (tm_start tm +32 tm_interval tm) (tm_interval tm)
  | SResetWith i => mk_timer (tm_start tm +32 tm_interval tm) i
  | SRestart => mk_timer now (tm_interval tm)
  end.

Lemma set_op_run o t e l k s pr :
  timers_ok l s -> ets s !! t = Some e -> t ∈ dom (ls_next (timerlist s)) -> processes k !! etimer_process = Some pr ->
  (t ∈ l -> et_p e <> None) ->
  exists s', set_op o t (k, s) = Ok (tt, (wake k, s')) /\ timers_ok (listed t l) s' /\
    ets s' = <[t := mk_etimer (set_timer o (clock_count s) (et_timer e)) (process_current k)]> (ets s) /\
    clock_count s' = clock_count s /\ next_expiration s' = next_due s' (listed t l).
Proof.
  intros Hl E Hd Hp Ho.
  assert (H : forall tm, exists s', add_timer etimer_process t (k, s <| ets ::= <[t := mk_etimer tm (et_p e)]> |>) = Ok (tt, (wake k, s')) /\
    timers_ok (listed t l) s' /\ ets s' = <[t := mk_etimer tm (process_current k)]> (ets s) /\
    clock_count s' = clock_count s /\ next_expiration s' = next_due s' (listed t l)).
  { intros tm. set (s1 := s <| ets ::= _ |>).
    destruct (add_timer_run t (mk_etimer tm (et_p e)) l k s1 pr) as (s' & E1 & H1 & He & Hc & Hn);
      [by apply timers_ok_upd|apply lookup_insert_eq|done..|].
    exists s'. split; [exact E1|]. split; [exact H1|]. split; [|done]. rewrite He. apply insert_insert_eq. }
  destruct o as [i| |i|]; cbn [set_op set_timer]; unfold etimer_set, etimer_reset, etimer_reset_with_new_interval, etimer_restart.
  - erewrite bind_Ok by reflexivity. erewrite bind_Ok by (by apply upd_timer_run). apply H.
  - erewrite bind_Ok by (by apply upd_timer_run). apply H.
  - erewrite bind_Ok by (by apply upd_timer_run).
    erewrite bind_Ok by (apply upd_timer_run, lookup_insert_eq).
    destruct (H (mk_timer (tm_start (et_timer e) +32 tm_interval (et_timer e)) i)) as (s' & E1 & H').
    exists s'. split; [|exact H']. rewrite <- E1. f_equal. f_equal. unfold update; cbn. f_equal. apply insert_insert_eq.
  - erewrite bind_Ok by reflexivity. erewrite bind_Ok by (by apply upd_timer_run). apply H.
Qed.

(** ** The tick interrupt *)

(** The loop of the interrupt ends at the last of the values [rs]. *)
Fixpoint reads_end (c : Z) (rs : list Z) : bool :=
  match rs with
  | [] => false
  | r :: rs => if CLOCK_LT r c then match rs with [] => true | _ => false end else reads_end (c +16 ETIMER_RESOLUTION) rs
  end.

Lemma tick_loop_run rs : forall s,
  tbr_reads s = rs -> reads_end (TBCCR2 s) rs = true -> in_u 32 (clock_count s) ->
  exists s', tick_loop (length rs) s = Ok (tt, s') /\ timerlist s' = timerlist s /\ ets s' = ets s /\
    next_expiration s' = next_expiration s /\
    clock_count s' = u32 (clock_count s + Z.of_nat (length rs - 1)).
Proof.
  induction rs as [|r rs IH]; intros s Hr He Hc; [done|]. cbn [length tick_loop reads_end] in *.
  assert (Erd : read_tbr s = Ok (r, s <| tbr_reads := rs |>)) by (unfold read_tbr; by rewrite Hr).
  erewrite bind_Ok by exact Erd. rewrite bind_gets. change (TBCCR2 (update tbr_reads _ s)) with (TBCCR2 s).
  destruct (CLOCK_LT r (TBCCR2 s)).
  - destruct rs; [|done]. eexists. split; [reflexivity|]. do 3 (split; [done|]). cbn.
    by rewrite Z.add_0_r, uwrap_small.
  - rewrite !bind_modify, bind_gets.
    set (s1 := update clock_count _ _).
    set (s2 := if clock_count s1 mod CLOCK_CONF_SECOND =? 0 then s1 <| clock_seconds ::= fun c => c +32 1 |> else s1).
    erewrite (bind_Ok _ _ s1 tt s2) by (unfold s2; by destruct (_ =? 0)).
    assert (Ec : clock_count s2 = clock_count s +32 1) by (unfold s2; by destruct (_ =? 0)).
    destruct (IH s2) as (s' & E & H1 & H2 & H3 & H4); [unfold s2; by destruct (_ =? 0)| |rewrite Ec; apply uwrap_range; lia|].
    { replace (TBCCR2 s2) with (TBCCR2 s +16 ETIMER_RESOLUTION) by (unfold s2; by destruct (_ =? 0)). done. }
    exists s'. split; [exact E|]. rewrite H1, H2, H3, H4, Ec.
    split; [unfold s2; by destruct (_ =? 0)|]. split; [unfold s2; by destruct (_ =? 0)|].
    split; [unfold s2; by destruct (_ =? 0)|]. rewrite uwrap_add_l. f_equal.
    destruct rs; [done|]. cbn [length]. lia.
Qed.

(** When a timer that was not due at [n0] is due [d] ticks later. *)
Lemma due_later tm n0 d :
  in_u 32 (tm_start tm) -> 0 <= tm_interval tm < 2 ^ 31 -> 0 <= d < 2 ^ 31 -> timer_expired n0 tm = false ->
  0 < timer_remaining n0 tm <= 2 ^ 31 /\
  timer_expired (u32 (n0 + d)) tm = (timer_remaining n0 tm <=? d).
Proof.
  intros Hs Hi Hd. rewrite !timer_expired_spec. unfold timer_remaining.
  rewrite uwrap_sub_l, (uwrap_sub_l 32 (n0 + d)).
  set (e := n0 -32 tm_start tm).
  assert (He : 0 <= e < 2 ^ 32) by (apply uwrap_range; lia).
  assert (Hr : u32 (tm_start tm + tm_interval tm - n0) = u32 (tm_interval tm - e)).
  { unfold e. rewrite uwrap_sub_r. f_equal. lia. }
  assert (Hl : u32 (n0 + d - tm_start tm) = u32 (e + d)).
  { unfold e. rewrite uwrap_add_l. f_equal. lia. }
  rewrite Hr, Hl. clearbody e. clear Hr Hl.
  rewrite (proj2 (Z.ltb_ge (tm_interval tm) 0)) by lia. rewrite !orb_false_r.
  destruct (Z.eqb_spec e (2 ^ 32 - 1)) as [->|Hne]; cbn [negb]; [rewrite andb_false_r|rewrite andb_true_r]; intros Hx.
  - replace (tm_interval tm - (2 ^ 32 - 1)) with (tm_interval tm + 1 - 2 ^ 32) by lia.
    assert (E : u32 (tm_interval tm + 1 - 2 ^ 32) = tm_interval tm + 1).
    { unfold uwrap. rewrite <- (Z_mod_plus_full _ 1). rewrite Z.mod_small; lia. }
    rewrite E. split; [lia|]. destruct (Z.eq_dec d 0) as [->|Hd0].
    + rewrite Z.add_0_r, uwrap_small by (unfold in_u; lia). rewrite Z.eqb_refl, andb_false_r.
      symmetry. apply Z.leb_gt. lia.
    + assert (E2 : u32 (2 ^ 32 - 1 + d) = d - 1).
      { unfold uwrap. rewrite <- (Z_mod_plus_full _ (-1)). rewrite Z.mod_small; lia. }
      rewrite E2. rewrite (proj2 (Z.eqb_neq (d - 1) _)) by lia. cbn [negb]. rewrite andb_true_r.
      destruct (Z.leb_spec (tm_interval tm) (d - 1)), (Z.leb_spec (tm_interval tm + 1) d); lia.
  - apply Z.leb_gt in Hx. rewrite (uwrap_small 32 (tm_interval tm - e)) by (unfold in_u; lia). split; [lia|].
    rewrite uwrap_small by (unfold in_u; lia). rewrite (proj2 (Z.eqb_neq (e + d) _)) by lia. cbn [negb]. rewrite andb_true_r.
    destruct (Z.leb_spec (tm_interval tm) (e + d)), (Z.leb_spec (tm_interval tm - e) d); lia.
Qed.

Lemma foldl_min_leb d l : forall a, (foldl Z.min a l <=? d) = (a <=? d) || existsb (fun x => x <=? d) l.
Proof.
  induction l as [|x l IH]; intros a; cbn; [by rewrite orb_false_r|]. rewrite IH, orb_assoc. f_equal.
  destruct (Z.leb_spec (Z.min a x) d), (Z.leb_spec a d), (Z.leb_spec x d); cbn; lia.
Qed.
Lemma foldl_min_range b l : forall a, 0 < a <= b -> (forall x, x ∈ l -> 0 < x <= b) -> 0 < foldl Z.min a l <= b.
Proof.
  induction l as [|x l IH]; intros a Ha Hl; cbn; [done|]. apply IH; [|intros; apply Hl; by right].
  specialize (Hl x ltac:(left)). lia.
Qed.

Lemma existsb_ext_in {A} (f g : A -> bool) l : (forall x, x ∈ l -> f x = g x) -> existsb f l = existsb g l.
Proof.
  induction l as [|x l IH]; intros H; [done|]. cbn. rewrite H by left. f_equal. apply IH. intros; apply H; by right.
Qed.

(** The distance the interrupt computes from the wrapped times. *)
Lemma late_test n0 m d :
  in_u 32 n0 -> 0 < m <= 2 ^ 31 -> 0 <= d < 2 ^ 31 ->
  (MAX_TICKS <? ((n0 +32 m) -32 u32 (n0 + d)) -32 1) = (m <=? d).
Proof.
  intros Hn Hm Hd. change MAX_TICKS with (2 ^ 31 - 1). rewrite (uwrap_sub_l 32 (n0 + m)), (uwrap_sub_r 32 (n0 + m) (n0 + d)), uwrap_sub_l.
  replace (n0 + m - (n0 + d) - 1) with (m - d - 1) by lia.
  destruct (Z.leb_spec m d).
  - replace (u32 (m - d - 1)) with (2 ^ 32 + (m - d - 1)).
    + apply Z.ltb_lt. lia.
    + unfold uwrap. rewrite <- (Z_mod_plus_full _ 1). rewrite Z.mod_small; lia.
  - rewrite uwrap_small by (unfold in_u; lia). apply Z.ltb_ge. lia.
Qed.

(** C17. The tick interrupt asks for the poll exactly when a timer has expired.  Let the
    next expiration be the one computed at time [n0], when no timer was due, and let
    less than half of the range of the clock have passed since: however many ticks the
    interrupt makes up for, it requests the poll and wakes the processor if some timer
    of the list is due at the new time, also across the overflow of the clock, and does
    nothing else to kernel and timers. *)
Theorem interrupt_polls_when_due l n0 k s pr :
  timers_ok l s -> processes k !! etimer_process = Some pr -> in_u 32 (clock_count s) -> in_u 32 n0 ->
  next_expiration s = next_due (s <| clock_count := n0 |>) l ->
  (forall t, t ∈ l -> due (s <| clock_count := n0 |>) t = false) ->
  (forall t e, t ∈ l -> ets s !! t = Some e ->
     in_u 32 (tm_start (et_timer e)) /\ 0 <= tm_interval (et_timer e) < 2 ^ 31) ->
  reads_end (TBCCR2 s) (tbr_reads s) = true ->
  let now := u32 (clock_count s + Z.of_nat (length (tbr_reads s) - 1)) in
  now -32 n0 < 2 ^ 31 ->
  exists s', clock_count s' = now /\ timerlist s' = timerlist s /\ ets s' = ets s /\
    next_expiration s' = next_expiration s /\
    etimer_interrupt etimer_process (k, s)
      = Ok (existsb (due s') l, (wake_if (existsb (due s') l) k, s')).
Proof.
  intros Hl Hp Hc Hn0 Hnext Hnot Hrange Hreads now Hd.
  destruct (tick_loop_run (tbr_reads s) s eq_refl Hreads Hc) as (s' & E & Elist & Eets & Enext & Ecount). fold now in Ecount.
  exists s'. do 4 (split; [done|]). unfold etimer_interrupt.
  erewrite bind_Ok by (by apply on_e_run).
  unfold etimer_next_expiration_time, etimer_pending, tl_head. erewrite !bind_Ok by reflexivity. rewrite Elist, Enext, Ecount.
  destruct Hl as [Hl Hk]. destruct l as [|t l].
  { rewrite Hl. by rewrite bool_decide_eq_false_2 by auto. }
  destruct Hl as (Eh & _). rewrite Eh, bool_decide_eq_true_2 by done. cbn [andb]. rewrite Hnext.
  set (s0 := s <| clock_count := n0 |>) in *. set (d := now -32 n0) in *.
  assert (Hd' : 0 <= d < 2 ^ 31) by (pose proof (uwrap_range 32 (now - n0)); unfold in_u, d in *; lia).
  assert (Hnow : now = u32 (n0 + d)).
  { unfold d. rewrite uwrap_add_r. replace (n0 + (now - n0)) with now by lia. symmetry. apply uwrap_idem. }
  assert (Hper : forall x, x ∈ t :: l -> 0 < remaining s0 x <= 2 ^ 31 /\ due s' x = (remaining s0 x <=? d)).
  { intros x Hx. destruct (Hk x Hx) as [e Ee]. specialize (Hnot x Hx). destruct (Hrange x e Hx Ee) as [Hs Hi].
    unfold due, remaining in *. change (ets s0) with (ets s) in *. rewrite Eets, Ecount, Ee in *. rewrite Hnow.
    by apply due_later. }
  cbn [next_due]. change (clock_count s0) with n0. rewrite Hnow. unfold soonest.
  rewrite late_test; [|done| |done].
  - rewrite foldl_min_leb. cbn [existsb]. rewrite (proj2 (Hper t ltac:(left))), (existsb_ext_in (due s') (fun x => remaining s0 x <=? d)).
    + assert (Ex : existsb (fun x => x <=? d) (remaining s0 <$> l) = existsb (fun x => remaining s0 x <=? d) l).
      { clear. induction l as [|x l IH]; [done|]. cbn. by rewrite IH. }
      rewrite Ex. destruct (_ || _); [|done]. by erewrite bind_Ok by (by eapply request_poll_run).
    + intros x Hx. apply Hper. by right.
  - apply foldl_min_range; [apply Hper; left|]. intros r (x & -> & Hx)%list_elem_of_fmap. apply Hper. by right.
Qed.

(** C16. The poll of the event timer process returns, and what it does: in the order of the
    list it posts the timer event of every expired timer to the process of the timer,
    as long as the event queue has room; a posted timer is marked expired and leaves the
    list, the others stay as they were in their order; the next expiration is computed
    anew; and a poll is requested again exactly if expired timers are left over. *)
Theorem poll_timers_spec l k s pr :
  timers_ok l s -> queue_ok k -> processes k !! etimer_process = Some pr ->
  exists k' s', poll_timers etimer_process (k, s) = Ok (tt, (k', s')) /\
    polled etimer_process l (take (room k) (dues s l)) k s k' s'.
Proof.
  intros Hl Hq Hp. unfold poll_timers, tl_fuel. erewrite bind_Ok by reflexivity.
  apply (again_run etimer_process _ l s k pr Hl Hq Hp).
  pose proof (seg_length _ _ _ (to_list _ _ Hl)). pose proof (length_filter (fun t => due s t = true) l).
  unfold dues, list_fuel. lia.
Qed.

(** ** The process keeps to its own business *)

Lemma keeps_wake b k : keeps k (wake_if b k).
Proof.
  destruct b; [|apply keeps_refl]. unfold EtimerFacts.wake_if, EtimerFacts.wake.
  destruct (processes k !! etimer_process) as [pr|] eqn:E; [|apply keeps_refl].
  destruct (_ || _); [|apply keeps_refl]. split; [done| |done|].
  - intros q prq Hq. rsimpl. destruct (decide (q = etimer_process)) as [->|Hne].
    + rewrite lookup_insert_eq. assert (prq = pr) as -> by congruence. by eexists.
    + rewrite lookup_insert_ne by done. eauto.
  - intros [Q1 Q2 Q3]. split; [by split|]. exists []. by rewrite app_nil_r.
Qed.

Lemma keeps_set k p pr f :
  processes k !! p = Some pr -> pr_thread (f pr) = pr_thread pr -> pr_state (f pr) = pr_state pr ->
  keeps k (k <| processes ::= <[p := f pr]> |>).
Proof.
  intros E Ht Hs. split; [done| |done|].
  - intros q prq Hq. rsimpl. destruct (decide (q = p)) as [->|Hne].
    + rewrite lookup_insert_eq. assert (prq = pr) as -> by congruence. by eexists.
    + rewrite lookup_insert_ne by done. eauto.
  - intros []. split; [by split|]. exists []. by rewrite app_nil_r.
Qed.

Lemma keeps_polled l P k s k' s' : polled etimer_process l P k s k' s' -> keeps k k'.
Proof.
  intros H. pose proof (keeps_wake (bool_decide (length P < length (dues s l))%nat) k) as [K1 K2 K3 _].
  destruct (po_kernel _ _ _ _ _ _ _ H) as [S1 S2 _ _ S5]. split; [congruence| |congruence|].
  - by rewrite S2.
  - intros _. split; [apply H|]. eexists. apply H.
Qed.

(** The thread is at its start, or at its yield with a list of timers it knows. *)
Definition timers_inv (m : gmap loc Z) (s : etimers) : Prop :=
  m !! etimer_process = Some 0 \/
  m !! etimer_process = Some ETIMER_YIELD /\ exists l, timers_ok l s.

Lemma yield_run k k' s' :
  keeps k k' -> (exists pr, processes k !! etimer_process = Some pr) -> (exists l, timers_ok l s') ->
  exists k2, (on_k (proc_set etimer_process (fun pr => pr <| pr_pt := ETIMER_YIELD |>)) ;; mret PT_YIELDED) (k', s')
      = Ok (PT_YIELDED, (k2, s')) /\ keeps k k2 /\ timers_inv (pts k2) s'.
Proof.
  intros K [pr E] Hl. destruct (kp_procs _ _ K _ _ E) as (pr' & E' & _).
  erewrite bind_Ok by (by apply on_k_run, proc_set_run). eexists. split; [reflexivity|]. split.
  - eapply keeps_trans; [exact K|]. by apply (keeps_set k' etimer_process pr' (fun pr => pr <| pr_pt := ETIMER_YIELD |>)).
  - right. split; [|done]. unfold pts. rsimpl. rewrite lookup_fmap, lookup_insert_eq. done.
Qed.

Lemma etimer_thread_run l ev data k s pr :
  ready timers_inv l k s -> processes k !! etimer_process = Some pr ->
  exists ret k' s', etimer_thread etimer_process ev data (k, s) = Ok (ret, (k', s')) /\
    ret < PT_EXITED /\ keeps k k' /\ timers_inv (pts k') s'.
Proof.
  intros R E. unfold etimer_thread. erewrite bind_Ok by (by apply on_k_run, proc_get_run).
  destruct (rd_inv _ _ _ _ R) as [H0|[H1 [tl Htl]]].
  - unfold pts in H0. rewrite lookup_fmap, E in H0. cbn in H0. injection H0 as H0. rewrite H0. cbn [Z.eqb].
    assert (Hn : exists tl, timers_ok tl (s <| timerlist ::= fun st => st <| ls_head := None |> |>)) by (exists []; split; [done|set_solver]).
    destruct (yield_run k k _ (keeps_refl k) (ex_intro _ pr E) Hn) as (k2 & E2 & K2 & I2).
    exists PT_YIELDED, k2, (s <| timerlist ::= fun st => st <| ls_head := None |> |>). split; [|done].
    erewrite bind_Ok by reflexivity. exact E2.
  - unfold pts in H1. rewrite lookup_fmap, E in H1. cbn in H1. injection H1 as H1. rewrite H1.
    change (ETIMER_YIELD =? 0) with false. change (ETIMER_YIELD =? ETIMER_YIELD) with true. cbn iota.
    assert (Hb : exists k1 s1, (if ev =? PROCESS_EVENT_EXITED then on_e (drop_timers_of data)
        else if negb (ev =? PROCESS_EVENT_POLL) then skip else poll_timers etimer_process) (k, s) = Ok (tt, (k1, s1)) /\
        keeps k k1 /\ exists tl, timers_ok tl s1).
    { destruct (ev =? PROCESS_EVENT_EXITED).
      - destruct (drop_timers_run data tl s Htl) as (s1 & E1 & H & _).
        exists k, s1. split; [by apply on_e_run|]. split; [apply keeps_refl|eauto].
      - destruct (ev =? PROCESS_EVENT_POLL); cbn [negb].
        + destruct (again_run etimer_process (list_fuel (timerlist s)) tl s k pr Htl) as (k1 & s1 & E1 & HP);
            [apply R|done| |].
          { pose proof (seg_length _ _ _ (to_list _ _ Htl)). pose proof (length_filter (fun t => due s t = true) tl).
            unfold dues, list_fuel. lia. }
          exists k1, s1. unfold poll_timers, tl_fuel. erewrite bind_Ok by reflexivity.
          split; [exact E1|]. split; [by eapply keeps_polled|]. eexists. apply HP.
        + exists k, s. split; [done|]. split; [apply keeps_refl|eauto]. }
    destruct Hb as (k1 & s1 & E1 & K1 & Hl1).
    destruct (yield_run k k1 s1 K1 (ex_intro _ pr E) Hl1) as (k2 & E2 & K2 & I2).
    exists PT_YIELDED, k2, s1. split; [|done]. erewrite bind_Ok by exact E1. exact E2.
Qed.

(** With other processes that are [Quiet], the event timer process is [Quiet]. *)
#[export] Instance etimer_quiet l (rest : loc -> Z -> ptr -> KE Z) :
  Quiet timers_inv l rest ->
  Quiet timers_inv l (fun p ev data => if decide (p = etimer_process) then etimer_thread etimer_process ev data
                                       else rest p ev data).
Proof.
  intros HQ p ev data k s Hp R. destruct (decide (p = etimer_process)) as [->|Hne]; [|by apply HQ].
  destruct (rd_procs _ _ _ _ R _ Hp) as (pr & E & _). by eapply etimer_thread_run.
Qed.

(** ** Setting a timer twice outside every process *)

(** A walk that never meets the end. *)
Lemma tdist_loop_hangs s (X : list loc) now :
  (forall x, x ∈ X -> exists y, y ∈ X /\ ls_next (timerlist s) !! x = Some (Some y)) ->
  (forall x, x ∈ X -> exists e, ets s !! x = Some e) ->
  forall fuel d x, x ∈ X -> tdist_loop fuel now d (Some x) s = Err FHang.
Proof.
  intros Hn Hk fuel. induction fuel as [|fuel IH]; intros d x Hx; cbn [tdist_loop]; [done|].
  destruct (Hn x Hx) as (y & Hy & E). destruct (Hk x Hx) as [e Ee].
  erewrite bind_Ok; [|unfold tdist_of; erewrite bind_Ok by (by apply et_get_run); reflexivity].
  erewrite bind_Ok by (by apply on_tl_next). by apply IH.
Qed.

Lemma bind_fails {S A B} (m : M S A) (f : A -> M S B) s x : m s = Err x -> (m ≫= f) s = Err x.
Proof. unfold mbind, M_bind. by intros ->. Qed.

(** A timer that no process owns and that is set again while it runs is linked to
    itself, and [update_time] never returns: [add_timer] takes the missing owner for
    the sign that the timer is not on the list. *)
Theorem double_set_hangs t i j e l k s pr :
  timers_ok l s -> ets s !! t = Some e -> t ∈ dom (ls_next (timerlist s)) -> processes k !! etimer_process = Some pr ->
  t ∉ l -> process_current k = None ->
  (etimer_set etimer_process t i ;; etimer_set etimer_process t j) (k, s) = Err FHang.
Proof.
  intros Hl E Hd Hp Ht Hc.
  destruct (set_op_run (SSet i) t e l k s pr Hl E Hd Hp ltac:(done)) as (s1 & E1 & H1 & He & _ & _).
  cbn [set_op] in E1. erewrite bind_Ok by exact E1. unfold listed in H1. rewrite decide_False in H1 by done.
  assert (Et : ets s1 !! t = Some (mk_etimer (mk_timer (clock_count s) i) None)) by (rewrite He, Hc; apply lookup_insert_eq).
  unfold etimer_set. erewrite bind_Ok by reflexivity. erewrite bind_Ok by (by apply upd_timer_run).
  set (s2 := s1 <| ets ::= _ |>). unfold add_timer.
  destruct (wake_known etimer_process k pr Hp true) as [pr' Hp'].
  erewrite bind_Ok by (by eapply request_poll_run).
  erewrite bind_Ok by (apply on_e_run, et_get_run, lookup_insert_eq). rewrite decide_True by done.
  erewrite bind_Ok by reflexivity. unfold set_p_current.
  erewrite bind_Ok; [|erewrite bind_Ok by (by apply on_k_run); apply on_e_run, et_upd_run, lookup_insert_eq].
  set (s3 := s2 <| ets ::= _ |>).
  set (st := (timerlist s1) <| ls_next ::= <[t := Some t]> |> <| ls_head := Some t |>).
  destruct (to_list _ _ H1) as (Eh & q & Hq & _).
  assert (Ep : on_tl (h ← gets ls_head; set_next t h ;; (ls_head <~ Some t)) s3 = Ok (tt, s3 <| timerlist := st |>)).
  { unfold on_tl, zoom. change (timerlist s3) with (timerlist s1). rewrite bind_gets, Eh.
    by erewrite bind_Ok by (apply set_next_ok; by apply elem_of_dom). }
  erewrite bind_Ok by (by apply on_e_run). unfold on_e. set (s4 := s3 <| timerlist := st |>).
  assert (Hk : forall x, x ∈ [t] -> exists e, ets s4 !! x = Some e).
  { intros x ->%list_elem_of_singleton. eexists. apply lookup_insert_eq. }
  assert (Hnext : ls_next (timerlist s4) !! t = Some (Some t)) by apply lookup_insert_eq.
  assert (Hh : update_time s4 = Err FHang); [|by rewrite Hh].
  unfold update_time, tl_head. rewrite bind_gets. change (ls_head (timerlist s4)) with (Some t). cbn beta iota.
  erewrite bind_Ok by reflexivity. destruct (Hk t ltac:(left)) as [e4 Ee4].
  erewrite bind_Ok; [|unfold tdist_of; erewrite bind_Ok by (by apply et_get_run); reflexivity].
  erewrite bind_Ok by (by apply on_tl_next). erewrite bind_Ok by reflexivity.
  apply bind_fails, (tdist_loop_hangs s4 [t]); [|done|left].
  intros x ->%list_elem_of_singleton. exists t. split; [left|done].
Qed.
End process.

(** ** Witnesses *)

(** Two timers on the list, set before the clock overflows, and a third off the list. *)
Definition etimers_example (count : Z) : etimers :=
  mk_etimers (mk_list_store (Some 1%positive)
      (list_to_map [(1%positive, Some 2%positive); (2%positive, None); (3%positive, None)]))
    (list_to_map [(1%positive, mk_etimer (mk_timer 0xfffffff0 20) (Some 2%positive));
                  (2%positive, mk_etimer (mk_timer 0xfffffff8 7) (Some 2%positive));
                  (3%positive, mk_etimer (mk_timer 0 0) None)])
    0xffffffff count 0 4096 [4096; 8191].

Lemma etimers_example_ok count : timers_ok [1%positive; 2%positive] (etimers_example count).
Proof.
  split; [unfold is_list; cbn; eauto 10|].
  intros t [->| ->%list_elem_of_singleton]%elem_of_cons; by eexists.
Qed.

Lemma etimers_example_timer count t e :
  t ∈ [1%positive; 2%positive] -> ets (etimers_example count) !! t = Some e ->
  et_timer e = mk_timer 0xfffffff0 20 \/ et_timer e = mk_timer 0xfffffff8 7.
Proof.
  intros [->| ->%list_elem_of_singleton]%elem_of_cons; cbn; intros H; vm_compute in H; simplify_eq; auto.
Qed.

Lemma interrupt_polls_when_due_witness :
  let now := u32 (0xffffffff + Z.of_nat (length [4096; 8191] - 1)) in
  now = 0 /\ exists s', clock_count s' = now /\ timerlist s' = timerlist (etimers_example 0xffffffff) /\
    ets s' = ets (etimers_example 0xffffffff) /\ next_expiration s' = 0xffffffff /\
    etimer_interrupt 1%positive (kernel_example 0 0, etimers_example 0xffffffff)
      = Ok (existsb (due s') [1%positive; 2%positive],
            (wake_if 1%positive (existsb (due s') [1%positive; 2%positive]) (kernel_example 0 0), s')).
Proof.
  split; [vm_compute; reflexivity|].
  apply (interrupt_polls_when_due 1%positive [1%positive; 2%positive] 0xfffffffa (kernel_example 0 0)
    (etimers_example 0xffffffff) (mk_process true 0 PROCESS_STATE_RUNNING 0)).
  - apply etimers_example_ok.
  - reflexivity.
  - unfold in_u. cbn. lia.
  - unfold in_u. lia.
  - vm_compute. reflexivity.
  - intros t [->| ->%list_elem_of_singleton]%elem_of_cons; vm_compute; reflexivity.
  - intros t e Ht He. destruct (etimers_example_timer _ t e Ht He) as [-> | ->]; unfold in_u; cbn; lia.
  - vm_compute. reflexivity.
  - vm_compute. reflexivity.
Defined.

Lemma poll_timers_spec_witness :
  dues (etimers_example 6) [1%positive; 2%positive] = [1%positive; 2%positive] /\ room (kernel_example 7 6) = 1%nat /\
  exists k' s', poll_timers 1%positive (kernel_example 7 6, etimers_example 6) = Ok (tt, (k', s')) /\
    polled 1%positive [1%positive; 2%positive] [1%positive] (kernel_example 7 6) (etimers_example 6) k' s'.
Proof.
  split; [vm_compute; reflexivity|]. split; [vm_compute; reflexivity|].
  apply (poll_timers_spec 1%positive [1%positive; 2%positive] (kernel_example 7 6) (etimers_example 6)
    (mk_process true 0 PROCESS_STATE_RUNNING 0)).
  - apply etimers_example_ok.
  - split; vm_compute; try reflexivity; split; congruence.
  - reflexivity.
Defined.

Lemma double_set_hangs_witness :
  (etimer_set 1%positive 3%positive 10 ;; etimer_set 1%positive 3%positive 10) (kernel_example 0 0, etimers_example 6) = Err FHang.
Proof.
  apply (double_set_hangs 1%positive 3%positive 10 10 (mk_etimer (mk_timer 0 0) None) [1%positive; 2%positive]
    (kernel_example 0 0) (etimers_example 6) (mk_process true 0 PROCESS_STATE_RUNNING 0)).
  - apply etimers_example_ok.
  - reflexivity.
  - apply elem_of_dom. by eexists.
  - reflexivity.
  - set_solver.
  - reflexivity.
Defined.
