(* ===== verification/CtimerSpec.v ===== *)
(** * CtimerSpec: callback timers fire in the right process, once; and once too early

    Theorems about the callback timers of [Etimer] and runs of the whole chain: tick
    interrupt, poll of the event timer process, event, callback timer process,
    callback.  A callback timer that is set again while the event of its last expiration
    is still queued is fired by that event. *)
From stdpp Require Import numbers option gmap list.
From S2P Require Import Prelude Lists Kernel KernelFacts Etimer.

Section ctimers.
Context {U : Type} (etimer_process ctimer_process : loc).
Abbreviation KC := (M (kernel * (etimers * (ctimers * U)))).
Context (callback : loc -> ptr -> KC unit).

Lemma on_c_run {A} (m : M ctimers A) k e c (u : U) a c' :
  m c = Ok (a, c') -> on_c m (k, (e, (c, u))) = Ok (a, (k, (e, (c', u)))).
Proof. intros E. unfold on_c. by rewrite E. Qed.

Definition with_list (c : ctimers) (st : list_store) : ctimers := c <| ctimer_list := st |>.

Lemma on_cl_run {A} (m : M list_store A) k e c (u : U) a st :
  m (ctimer_list c) = Ok (a, st) -> on_cl m (k, (e, (c, u))) = Ok (a, (k, (e, (with_list c st, u)))).
Proof. intros E. apply on_c_run. unfold zoom. by rewrite E. Qed.

Lemma with_list_id c : with_list c (ctimer_list c) = c.
Proof. by destruct c. Qed.

(** The part of the loop that fires the timer [t] whose data are [x]. *)
Definition fire (t : loc) (x : ctimer) : KC unit :=
  in_context (ct_p x) (match ct_f x with Some f => callback f (ct_ptr x) | None => skip end).

Lemma fire_loop_run t x cl st' k e c u :
  cts c !! t = Some x -> list_remove t (ctimer_list c) = Ok (tt, st') ->
  forall fuel h, seg (ls_next (ctimer_list c)) h cl None -> (length cl < fuel)%nat ->
  fire_loop callback fuel (Some t) h (k, (e, (c, u))) =
    if decide (t ∈ cl) then fire t x (k, (e, (with_list c st', u))) else Ok (tt, (k, (e, (c, u)))).
Proof.
  intros Ex Er. induction cl as [|y cl IH]; intros fuel h Hs Hf; cbn in Hf; (destruct fuel as [|fuel]; [lia|]); cbn [fire_loop].
  - by rewrite Hs, decide_False by set_solver.
  - destruct Hs as (-> & q & Hq & Hs). destruct (decide (Some t = Some y)) as [[= ->]|Hne].
    + rewrite decide_True by left. erewrite bind_Ok by (by apply on_cl_run).
      erewrite bind_Ok; [reflexivity|]. apply on_c_run.
      change (cts (with_list c st')) with (cts c). by rewrite Ex.
    + erewrite bind_Ok by (apply on_cl_run; by apply get_next_ok). rewrite with_list_id, (IH fuel q Hs) by lia.
      destruct (decide (t ∈ cl)); [by rewrite decide_True by (by right)|].
      rewrite decide_False; [done|]. intros [->|?]%elem_of_cons; [by destruct Hne|done].
Qed.

(** The process yields. *)
Definition yielded (k : kernel) : kernel :=
  k <| processes ::= alter (fun pr => pr <| pr_pt := CTIMER_YIELD |>) ctimer_process |>.
Definition ct_yield : KC Z :=
  on_k (proc_set ctimer_process (fun pr => pr <| pr_pt := CTIMER_YIELD |>)) ;; mret PT_YIELDED.

Lemma ct_yield_run k s pr : processes k !! ctimer_process = Some pr -> ct_yield (k, s) = Ok (PT_YIELDED, (yielded k, s)).
Proof.
  intros E. unfold ct_yield. erewrite bind_Ok by (by apply on_k_run, proc_set_run).
  set (f := fun pr : process => pr <| pr_pt := CTIMER_YIELD |>).
  assert (Ea : alter f ctimer_process (processes k) = <[ctimer_process := f pr]> (processes k)).
  { apply map_eq. intros z. destruct (decide (z = ctimer_process)) as [->|Hne].
    - by rewrite lookup_alter_eq, lookup_insert_eq, E.
    - by rewrite lookup_alter_ne, lookup_insert_ne. }
  assert (Ey : yielded k = k <| processes := <[ctimer_process := f pr]> (processes k) |>).
  { change (k <| processes := alter f ctimer_process (processes k) |> = k <| processes := <[ctimer_process := f pr]> (processes k) |>).
    by rewrite Ea. }
  by rewrite Ey.
Qed.

(** C18. What the callback timer process does with a timer event.  If the callback timer
    of the event is on the list, it leaves the list and its function is called with its
    pointer, as the process that set it; afterwards the process that was current before
    is current again, and the process has yielded.  If it is not on the list (it was
    stopped), nothing is called. *)
Theorem ctimer_event_spec t x cl k e c u pr :
  is_list (ctimer_list c) cl -> cts c !! t = Some x ->
  processes k !! ctimer_process = Some pr -> pr_pt pr = CTIMER_YIELD ->
  let run := ctimer_thread etimer_process ctimer_process callback PROCESS_EVENT_TIMER (Some t) (k, (e, (c, u))) in
  (t ∈ cl -> exists st', is_list st' (seq_remove t cl) /\
     forall f k2 s2 pr2, ct_f x = Some f ->
       callback f (ct_ptr x) (k <| process_current := ct_p x |>, (e, (with_list c st', u))) = Ok (tt, (k2, s2)) ->
       processes k2 !! ctimer_process = Some pr2 ->
       run = Ok (PT_YIELDED, (yielded (k2 <| process_current := process_current k |>), s2))) /\
  (t ∉ cl -> run = Ok (PT_YIELDED, (yielded k, (e, (c, u))))).
Proof.
  intros Hl Ex Ep Hpt run. pose proof (seg_length _ _ _ Hl) as Hn.
  destruct (list_remove_ok _ _ t Hl) as (st' & Er & Hr & _).
  assert (Erun : run = (fire_loop callback (list_fuel (ctimer_list c)) (Some t) (ls_head (ctimer_list c)) ;;
    ct_yield) (k, (e, (c, u)))).
  { unfold run, ctimer_thread. erewrite bind_Ok by (by apply on_k_run, proc_get_run). rewrite Hpt.
    change (CTIMER_YIELD =? 0) with false. change (CTIMER_YIELD =? CTIMER_YIELD) with true. rewrite Z.eqb_refl. cbn [negb].
    by erewrite !bind_Ok by reflexivity. }
  assert (Ef := fire_loop_run t x cl st' k e c u Ex Er (list_fuel (ctimer_list c)) _ Hl ltac:(unfold list_fuel; lia)).
  split; intros Ht; [rewrite decide_True in Ef by done|rewrite decide_False in Ef by done].
  - exists st'. split; [exact Hr|]. intros f k2 s2 pr2 Hf Hc E2. rewrite Erun.
    assert (Eh : fire t x (k, (e, (with_list c st', u))) = Ok (tt, (k2 <| process_current := process_current k |>, s2))).
    { unfold fire, in_context. rewrite Hf. erewrite !bind_Ok by (by apply on_k_run). by erewrite bind_Ok by exact Hc. }
    erewrite bind_Ok by (rewrite Ef; exact Eh). by eapply ct_yield_run.
  - rewrite Erun. erewrite bind_Ok by exact Ef. by eapply ct_yield_run.
Qed.
End ctimers.

(** ** The whole chain *)

(** Process 1 is the event timer process, 2 the callback timer process, 3 a program
    whose callbacks note the process they run in and the time. *)
Abbreviation log := (list (ptr * Z)).
Abbreviation KL := (M (kernel * (etimers * (ctimers * log)))).

Definition note (f : loc) (data : ptr) : KL unit := fun '(k, (e, (c, u))) =>
  Ok (tt, (k, (e, (c, u ++ [(process_current k, clock_count e)])))).

(** On event 200 the program sets its timer 7 anew, to 100 ticks. *)
Definition program (p : loc) (ev : Z) (data : ptr) : KL Z :=
  (if ev =? 200 then ctimer_set 1%positive 2%positive 7%positive 100 (Some 9%positive) None else skip) ;;
  mret PT_YIELDED.

Definition threads : loc -> Z -> ptr -> KL Z := timer_threads 1%positive 2%positive note program.

Definition boot_state : kernel * (etimers * (ctimers * log)) :=
  let links := list_to_map [(1%positive, None); (2%positive, None); (3%positive, None)] in
  (mk_kernel (mk_list_store None links)
     (list_to_map [(1%positive, mk_process true 0 0 0); (2%positive, mk_process true 0 0 0); (3%positive, mk_process true 0 0 0)])
     None PROCESS_EVENT_MAX 0 0 (replicate 8 (mk_event 0 None None)) 0 0 [],
   (mk_etimers (mk_list_store None (list_to_map [(7%positive, None)]))
      (list_to_map [(7%positive, mk_etimer (mk_timer 0 0) None)]) 0 0xffffffff 0 4096 [4096; 8192; 8193],
    (mk_ctimers (mk_list_store None (list_to_map [(7%positive, None)])) (list_to_map [(7%positive, mk_ctimer None None None)]) 0,
     []))).

(** The processes are started, and process 3 sets timer 7 to one tick; the interrupt
    then makes up for two. *)
Definition boot_and_tick : KL unit :=
  process_start threads 5 1%positive None ;;
  ctimer_init 1%positive 2%positive note program 5 ;;
  process_start threads 5 3%positive None ;;
  in_context (Some 3%positive) (ctimer_set 1%positive 2%positive 7%positive 1 (Some 9%positive) None) ;;
  process_run threads 5 ;;
  on_ke (etimer_interrupt 1%positive) ;;
  skip.

Definition log_of {A} (r : res (A * (kernel * (etimers * (ctimers * log))))) : option (log * ptr * bool) :=
  match r with
  | Ok (_, (k, (e, (c, u)))) => Some (u, ls_head (ctimer_list c), bool_decide (ls_head (timerlist e) = None))
  | Err _ => None
  end.

(** The callback runs once, as process 3, when the tick has come; then no timer is left. *)
Lemma callback_arrives :
  log_of ((boot_and_tick ;; process_run threads 5 ;; process_run threads 5) boot_state) = Some ([(Some 3%positive, 1)], None, true).
Proof. vm_compute. reflexivity. Qed.

(** An event for process 3 waits before the event of the timer, and process 3 sets the
    timer again, to 100 ticks: it fires at once all the same, 100 ticks early, and its
    event timer goes on without it. *)
Lemma set_again_fires_early :
  log_of ((boot_and_tick ;; on_k (process_post (Some 3%positive) 200 None) ;;
           process_run threads 5 ;; process_run threads 5) boot_state) = Some ([(Some 3%positive, 1)], None, false).
Proof. vm_compute. reflexivity. Qed.

(** Timer 7 is on the list and 8 was stopped. *)
Definition listed_ctimers : ctimers :=
  mk_ctimers (mk_list_store (Some 7%positive) (list_to_map [(7%positive, None); (8%positive, None)]))
    (list_to_map [(7%positive, mk_ctimer (Some 3%positive) (Some 9%positive) None);
                  (8%positive, mk_ctimer (Some 3%positive) (Some 9%positive) None)]) 1.
Definition yielding_kernel : kernel :=
  (kernel_example 0 0) <| processes ::= <[2%positive := mk_process true CTIMER_YIELD PROCESS_STATE_CALLED 0]> |>.

Lemma ctimer_event_spec_witness :
  let e := mk_etimers (mk_list_store None ∅) ∅ 0 5 0 0 [] in
  let run t := ctimer_thread 1%positive 2%positive note PROCESS_EVENT_TIMER (Some t)
    (yielding_kernel, (e, (listed_ctimers, []))) in
  (exists st', is_list st' [] /\
     run 7%positive = Ok (PT_YIELDED, (yielded 2%positive yielding_kernel,
       (e, (with_list listed_ctimers st', [(Some 3%positive, clock_count e)]))))) /\
  run 8%positive = Ok (PT_YIELDED, (yielded 2%positive yielding_kernel, (e, (listed_ctimers, [])))).
Proof.
  intros e run. assert (Hl : is_list (ctimer_list listed_ctimers) [7%positive]).
  { unfold is_list. cbn. eauto. }
  split.
  - destruct (proj1 (ctimer_event_spec 1%positive 2%positive note 7%positive (mk_ctimer (Some 3%positive) (Some 9%positive) None)
      [7%positive] yielding_kernel e listed_ctimers [] (mk_process true CTIMER_YIELD PROCESS_STATE_CALLED 0)
      Hl eq_refl eq_refl eq_refl)) as (st' & Hs & H); [left|].
    exists st'. split; [exact Hs|].
    exact (H 9%positive (yielding_kernel <| process_current := Some 3%positive |>)
      (e, (with_list listed_ctimers st', [(Some 3%positive, clock_count e)]))
      (mk_process true CTIMER_YIELD PROCESS_STATE_CALLED 0) eq_refl eq_refl eq_refl).
  - apply (proj2 (ctimer_event_spec 1%positive 2%positive note 8%positive (mk_ctimer (Some 3%positive) (Some 9%positive) None)
      [7%positive] yielding_kernel e listed_ctimers [] (mk_process true CTIMER_YIELD PROCESS_STATE_CALLED 0)
      Hl eq_refl eq_refl eq_refl)). set_solver.
Defined.
