(* ===== verification/Cc2420.v ===== *)
(** * Cc2420: the radio driver

    dev/cc2420/cc2420.c on the platform sky.  The chip is not code of the repository: it
    is a parameter, which answers the bytes of a transaction on the SPI bus with as
    many bytes, the readings of pins and counters, and takes the settings of ports.  The
    energy accounting and the statistics are left out. *)
From stdpp Require Import numbers option list.
From S2P Require Import Prelude Packetbuf.

(** ** The chip and its ports *)

Inductive reading := FIFOP_IS_1 | FIFO_IS_1 | SFD_IS_1 | CCA_IS_1 | RTIMER_NOW | SFD_START_TIME.
Inductive port_op :=
  | ARCH_INIT | ENABLE_FIFOP_INT | DISABLE_FIFOP_INT | FIFOP_INT_INIT | CLEAR_FIFOP_INT
  | VREG_ACTIVE | RESET_ACTIVE | RESET_INACTIVE.

(** [spi] is one transaction between [CC2420_SPI_ENABLE] and [CC2420_SPI_DISABLE]. *)
Class Chip (chip : Type) := {
  spi : list Z -> chip -> list Z * chip;
  read_port : reading -> chip -> Z * chip;
  set_port : port_op -> chip -> chip;
}.

Definition CC2420_SNOP : Z := 0x00.
Definition CC2420_SXOSCON : Z := 0x01.
Definition CC2420_SRXON : Z := 0x03.
Definition CC2420_STXON : Z := 0x04.
Definition CC2420_STXONCCA : Z := 0x05.
Definition CC2420_SRFOFF : Z := 0x06.
Definition CC2420_SFLUSHRX : Z := 0x08.
Definition CC2420_SFLUSHTX : Z := 0x09.
Definition CC2420_SAES : Z := 0x0E.
Definition CC2420_MDMCTRL0 : Z := 0x11.
Definition CC2420_MDMCTRL1 : Z := 0x12.
Definition CC2420_RSSI : Z := 0x13.
Definition CC2420_TXCTRL : Z := 0x15.
Definition CC2420_RXCTRL1 : Z := 0x17.
Definition CC2420_FSCTRL : Z := 0x18.
Definition CC2420_SECCTRL0 : Z := 0x19.
Definition CC2420_SECCTRL1 : Z := 0x1A.
Definition CC2420_IOCFG0 : Z := 0x1C.
Definition CC2420_TXFIFO : Z := 0x3E.
Definition CC2420_RXFIFO : Z := 0x3F.
Definition CC2420RAM_TXFIFO : Z := 0x000.
Definition CC2420RAM_KEY0 : Z := 0x100.
Definition CC2420RAM_SABUF : Z := 0x120.
Definition CC2420RAM_IEEEADDR : Z := 0x160.
Definition CC2420RAM_PANID : Z := 0x168.
Definition CC2420RAM_SHORTADDR : Z := 0x16A.
Definition CC2420_XOSC16M_STABLE : Z := 6.
Definition CC2420_ENC_BUSY : Z := 4.
Definition CC2420_TX_ACTIVE : Z := 3.
Definition CC2420_RSSI_VALID : Z := 1.
Definition BV (x : Z) : Z := Z.shiftl 1 x.

Definition WITH_SEND_CCA : Z := 1.
Definition CC2420_CONF_CHANNEL : Z := 26.
Definition CC2420_CONF_CCA_THRESH : Z := -45.
Definition CC2420_CONF_AUTOACK : Z := 1.
Definition CHECKSUM_LEN : Z := 2.
Definition FOOTER_LEN : Z := 2.
Definition FOOTER1_CRC_OK : Z := 0x80.
Definition FOOTER1_CORRELATION : Z := 0x7f.
Definition RSSI_OFFSET : Z := -45.
Definition CC2420_MAX_PACKET_LEN : Z := 127.
Definition AUTOACK : Z := Z.shiftl 1 4.
Definition AUTOCRC : Z := Z.shiftl 1 5.
Definition ADR_DECODE : Z := Z.shiftl 1 11.
Definition CORR_THR (n : Z) : Z := Z.shiftl (Z.land n 0x1f) 6.
Definition FIFOP_THR (n : Z) : Z := Z.land n 0x7f.
Definition RXBPF_LOCUR : Z := Z.shiftl 1 13.
Definition LOOP_20_SYMBOLS : nat := 800.
Definition RTIMER_LF_SECOND : Z := 512.

Definition output_power : list (Z * Z) :=
  [(0, 31); (-1, 27); (-3, 23); (-5, 19); (-7, 15); (-10, 11); (-15, 7); (-25, 3)].
Definition OUTPUT_POWER_MAX : Z := 0.
Definition OUTPUT_POWER_MIN : Z := -25.

Definition PACKETBUF_ATTR_LINK_QUALITY : nat := 3.
Definition PACKETBUF_ATTR_RSSI : nat := 4.
Definition PACKETBUF_ATTR_TIMESTAMP : nat := 5.
Definition PACKETBUF_ATTR_RADIO_TXPOWER : nat := 6.

(** The variables of the driver; [radio_polled] and [radio_started] are what it does to
    its process, [radio_pt] the continuation of its thread. *)
Record radio (chip : Type) := mk_radio {
  radio_chip : chip;
  receive_on : Z;
  channel : Z;
  poll_mode : Z;
  send_on_cca : Z;
  locked : Z;
  lock_on : Z;
  lock_off : Z;
  cc2420_last_rssi : Z;
  cc2420_last_correlation : Z;
  last_packet_timestamp : Z;
  radio_polled : bool;
  radio_started : bool;
  radio_pt : Z;
  radio_pb : packetbuf_st;
}.
Arguments mk_radio {chip}.
Arguments radio_chip {chip}.
Arguments receive_on {chip}.
Arguments channel {chip}.
Arguments poll_mode {chip}.
Arguments send_on_cca {chip}.
Arguments locked {chip}.
Arguments lock_on {chip}.
Arguments lock_off {chip}.
Arguments cc2420_last_rssi {chip}.
Arguments cc2420_last_correlation {chip}.
Arguments last_packet_timestamp {chip}.
Arguments radio_polled {chip}.
Arguments radio_started {chip}.
Arguments radio_pt {chip}.
Arguments radio_pb {chip}.
#[export] Instance eta_radio chip : Eta (radio chip) := fun x =>
  mk_radio (radio_chip x) (receive_on x) (channel x) (poll_mode x) (send_on_cca x) (locked x) (lock_on x)
    (lock_off x) (cc2420_last_rssi x) (cc2420_last_correlation x) (last_packet_timestamp x) (radio_polled x)
    (radio_started x) (radio_pt x) (radio_pb x).

Section driver.
Context {chip : Type} `{!Chip chip}.
Abbreviation RD := (M (radio chip)).

(** ** The bus *)

Definition transaction (out : list Z) : RD (list Z) := fun r =>
  let '(input, c) := spi out (radio_chip r) in Ok (input, r <| radio_chip := c |>).
Definition reads (x : reading) : RD Z := fun r =>
  let '(v, c) := read_port x (radio_chip r) in Ok (v, r <| radio_chip := c |>).
Definition sets (x : port_op) : RD unit := fun r => Ok (tt, r <| radio_chip ::= set_port x |>).

Definition byte_at (l : list Z) (i : Z) : RD Z :=
  match (if 0 <=? i then l !! Z.to_nat i else None) with Some b => mret b | None => fail FWild end.

(** [for(i = 0; i < count; i++)] over a buffer with a [uint8_t i]; what it sends. *)
Fixpoint up_loop (fuel : nat) (buffer : list Z) (i count : Z) : RD (list Z) :=
  match fuel with
  | O => fail FHang
  | S n =>
      if i <? count then b ← byte_at buffer i; l ← up_loop n buffer (i +8 1) count; mret (b :: l)
      else mret []
  end.
(** [for(i = count; i > 0; i--)]. *)
Fixpoint down_loop (fuel : nat) (buffer : list Z) (i : Z) : RD (list Z) :=
  match fuel with
  | O => fail FHang
  | S n =>
      if 0 <? i then b ← byte_at buffer (i - 1); l ← down_loop n buffer (i -8 1); mret (b :: l)
      else mret []
  end.
(** The same loop around [SPI_READ]: the zeros it sends. *)
Fixpoint read_loop (fuel : nat) (i count : Z) : RD (list Z) :=
  match fuel with
  | O => fail FHang
  | S n => if i <? count then l ← read_loop n (i +8 1) count; mret (0 :: l) else mret []
  end.
Definition BYTES : nat := 257.

Definition strobe (regname : Z) : RD unit := transaction [regname] ;; skip.

Definition getreg (regname : Z) : RD Z :=
  l ← transaction [Z.lor regname 0x40; 0; 0];
  h ← byte_at l 1;
  b ← byte_at l 2;
  mret (Z.lor (u16 (Z.shiftl h 8)) b).

Definition setreg (regname value : Z) : RD unit :=
  transaction [regname; u8 (Z.shiftr value 8); u8 (Z.land value 0xff); 0] ;; skip.

Definition read_ram (adr count : Z) : RD (list Z) :=
  zeros ← read_loop BYTES 0 count;
  l ← transaction ([Z.lor 0x80 (Z.land adr 0x7f); Z.lor (Z.land (Z.shiftr adr 1) 0xc0) 0x20] ++ zeros);
  mret (drop 2 l).

Inductive write_ram_order := WRITE_RAM_IN_ORDER | WRITE_RAM_REVERSE.
Definition write_ram (buffer : list Z) (adr count : Z) (order : write_ram_order) : RD unit :=
  bytes ← (match order with
           | WRITE_RAM_IN_ORDER => up_loop BYTES buffer 0 count
           | WRITE_RAM_REVERSE => down_loop BYTES buffer (u8 count)
           end);
  transaction ([u8 (Z.lor 0x80 (Z.land adr 0x7f)); u8 (Z.land (Z.shiftr adr 1) 0xc0)] ++ bytes) ;; skip.

Definition write_fifo_buf (buffer : list Z) (count : Z) : RD unit :=
  bytes ← up_loop BYTES buffer 0 count;
  transaction (CC2420_TXFIFO :: bytes) ;; skip.

Definition get_status : RD Z := l ← transaction [CC2420_SNOP]; byte_at l 0.

Definition getrxdata (count : Z) : RD (list Z) :=
  zeros ← read_loop BYTES 0 count;
  l ← transaction (Z.lor CC2420_RXFIFO 0x40 :: zeros);
  mret (drop 1 l).

Definition flushrx : RD unit :=
  getrxdata 1 ;; strobe CC2420_SFLUSHRX ;; strobe CC2420_SFLUSHRX.

(** The busy-waits, on a status bit or its absence, end at the latest a tenth of a
    second after [t0]. *)
Definition RTIMER_CLOCK_LT (a b : Z) : bool := s16 (a - b) <? 0.

Variable wait_fuel : nat.

Fixpoint wait_loop (fuel : nat) (want : bool) (status_bit t0 : Z) : RD unit :=
  match fuel with
  | O => fail FHang
  | S n =>
      s ← get_status;
      if Bool.eqb (c_true (Z.land s status_bit)) want then skip
      else
        now ← reads RTIMER_NOW;
        if RTIMER_CLOCK_LT now (t0 + RTIMER_LF_SECOND / 10) then wait_loop n want status_bit t0 else skip
  end.
Definition wait_for_status (status_bit : Z) : RD unit :=
  t0 ← reads RTIMER_NOW; wait_loop wait_fuel true status_bit t0.
Definition wait_for_transmission : RD unit :=
  t0 ← reads RTIMER_NOW; wait_loop wait_fuel false (BV CC2420_TX_ACTIVE) t0.

(** ** On, off and the lock *)

Definition on : RD unit :=
  p ← gets poll_mode;
  when (negb (c_true p)) (sets ENABLE_FIFOP_INT) ;;
  strobe CC2420_SRXON ;;
  (receive_on <~ 1).

Definition off : RD unit :=
  (receive_on <~ 0) ;;
  wait_for_transmission ;;
  strobe CC2420_SRFOFF ;;
  p ← gets poll_mode;
  when (negb (c_true p)) (sets DISABLE_FIFOP_INT) ;;
  f ← reads FIFOP_IS_1;
  when (negb (c_true f)) flushrx.

Definition GET_LOCK : RD unit := modify (fun r => r <| locked ::= fun l => l +8 1 |>).
Definition RELEASE_LOCK : RD unit :=
  l ← gets locked;
  when (l =? 1) (
    a ← gets lock_on;
    when (c_true a) (on ;; (lock_on <~ 0)) ;;
    b ← gets lock_off;
    when (c_true b) (off ;; (lock_off <~ 0))) ;;
  modify (fun r => r <| locked ::= fun l => l -8 1 |>).

Definition cc2420_off : RD Z :=
  r ← gets receive_on;
  if r =? 0 then mret 1
  else
    l ← gets locked;
    if c_true l then (lock_off <~ 1) ;; mret 1
    else
      GET_LOCK ;;
      s ← get_status;
      (if c_true (Z.land s (BV CC2420_TX_ACTIVE)) then (lock_off <~ 1) else off) ;;
      RELEASE_LOCK ;;
      mret 1.

Definition cc2420_on : RD Z :=
  r ← gets receive_on;
  if c_true r then mret 1
  else
    l ← gets locked;
    if c_true l then (lock_on <~ 1) ;; mret 1
    else GET_LOCK ;; on ;; RELEASE_LOCK ;; mret 1.

(** [GET_LOCK] and [RELEASE_LOCK] around [m]. *)
Definition with_lock {A} (m : RD A) : RD A := GET_LOCK ;; a ← m; RELEASE_LOCK ;; mret a.

(** ** Security *)

Definition init_security : RD unit := setreg CC2420_SECCTRL0 0 ;; setreg CC2420_SECCTRL1 0.

Definition set_key (key : list Z) : RD unit :=
  with_lock (write_ram key CC2420RAM_KEY0 16 WRITE_RAM_REVERSE).

(** [while(get_status() & BV(CC2420_ENC_BUSY));] *)
Fixpoint busy_loop (fuel : nat) : RD unit :=
  match fuel with
  | O => fail FHang
  | S n => s ← get_status; if c_true (Z.land s (BV CC2420_ENC_BUSY)) then busy_loop n else skip
  end.
Definition encrypt (plaintext : list Z) : RD (list Z) :=
  with_lock (
    write_ram plaintext CC2420RAM_SABUF 16 WRITE_RAM_IN_ORDER ;;
    strobe CC2420_SAES ;;
    busy_loop wait_fuel ;;
    read_ram CC2420RAM_SABUF 16).

(** ** Parameters of the chip *)

Definition set_txpower (power : Z) : RD unit :=
  reg ← getreg CC2420_TXCTRL;
  setreg CC2420_TXCTRL (Z.lor (Z.land reg 0xffe0) (Z.land power 0x1f)).
Definition cc2420_set_txpower (power : Z) : RD unit := with_lock (set_txpower power).
Definition cc2420_get_txpower : RD Z := with_lock (reg ← getreg CC2420_TXCTRL; mret (Z.land reg 0x001f)).

Definition cc2420_get_channel : RD Z := gets channel.
Definition cc2420_set_channel (c : Z) : RD Z :=
  with_lock (
    (channel <~ c) ;;
    let f := u16 (5 * (c - 11) + 357 + 0x4000) in
    wait_for_transmission ;;
    setreg CC2420_FSCTRL f ;;
    r ← gets receive_on;
    when (c_true r) (strobe CC2420_SRXON)) ;;
  mret 1.

Definition bytes_of_16 (x : Z) : list Z := [u8 x; u8 (Z.shiftr x 8)].
Definition cc2420_set_pan_addr (pan addr : Z) (ieee_addr : option (list Z)) : RD unit :=
  with_lock (
    write_ram (bytes_of_16 pan) CC2420RAM_PANID 2 WRITE_RAM_IN_ORDER ;;
    write_ram (bytes_of_16 addr) CC2420RAM_SHORTADDR 2 WRITE_RAM_IN_ORDER ;;
    match ieee_addr with
    | Some a => write_ram a CC2420RAM_IEEEADDR 8 WRITE_RAM_REVERSE
    | None => skip
    end).

Definition get_cca_threshold : RD Z := with_lock (reg ← getreg CC2420_RSSI; mret (s8 (Z.shiftr reg 8))).
Definition cc2420_set_cca_threshold (value : Z) : RD unit :=
  with_lock (setreg CC2420_RSSI (u16 (Z.shiftl value 8))).

(** [reg |= bit] or [reg &= ~bit]. *)
Definition set_bit (reg bit : Z) (enable : Z) : Z :=
  if c_true enable then Z.lor reg bit else u16 (Z.land reg (Z.lnot bit)).
Definition set_auto_ack (enable : Z) : RD unit :=
  with_lock (reg ← getreg CC2420_MDMCTRL0; setreg CC2420_MDMCTRL0 (set_bit reg AUTOACK enable)).
Definition set_frame_filtering (enable : Z) : RD unit :=
  with_lock (reg ← getreg CC2420_MDMCTRL0; setreg CC2420_MDMCTRL0 (set_bit reg ADR_DECODE enable)).
Definition set_poll_mode (enable : Z) : RD unit :=
  with_lock (
    (poll_mode <~ enable) ;;
    if c_true enable then sets CLEAR_FIFOP_INT ;; sets DISABLE_FIFOP_INT
    else sets FIFOP_INT_INIT ;; sets ENABLE_FIFOP_INT ;; sets CLEAR_FIFOP_INT).
Definition set_send_on_cca (enable : Z) : RD unit := send_on_cca <~ enable.

Definition cc2420_init : RD Z :=
  sets ARCH_INIT ;; sets DISABLE_FIFOP_INT ;; sets FIFOP_INT_INIT ;;
  sets VREG_ACTIVE ;; sets RESET_ACTIVE ;; sets RESET_INACTIVE ;;
  strobe CC2420_SXOSCON ;;
  wait_for_status (BV CC2420_XOSC16M_STABLE) ;;
  set_auto_ack CC2420_CONF_AUTOACK ;;
  set_frame_filtering CC2420_CONF_AUTOACK ;;
  reg ← getreg CC2420_MDMCTRL0;
  setreg CC2420_MDMCTRL0 (Z.lor reg AUTOCRC) ;;
  setreg CC2420_MDMCTRL1 (CORR_THR 20) ;;
  reg ← getreg CC2420_RXCTRL1;
  setreg CC2420_RXCTRL1 (Z.lor reg RXBPF_LOCUR) ;;
  setreg CC2420_IOCFG0 (FIFOP_THR 127) ;;
  init_security ;;
  cc2420_set_pan_addr 0xffff 0x0000 None ;;
  cc2420_set_channel CC2420_CONF_CHANNEL ;;
  cc2420_set_cca_threshold CC2420_CONF_CCA_THRESH ;;
  flushrx ;;
  set_poll_mode 0 ;;
  (radio_started <~ true) ;;
  mret 1.

(** ** Sending *)

Definition on_pb {A} (m : PB A) : RD A := fun r =>
  match m (radio_pb r) with Ok (a, pb) => Ok (a, r <| radio_pb := pb |>) | Err e => Err e end.

Definition RADIO_TX_OK : Z := 0.
Definition RADIO_TX_COLLISION : Z := 2.

(** The transmission power that was saved is set again. *)
Definition restore_power (txpower : Z) : RD unit :=
  p ← on_pb (packetbuf_attr PACKETBUF_ATTR_RADIO_TXPOWER);
  when (0 <? p) (set_txpower (Z.land txpower 0xff)).

(** What happens when SFD is seen high; the result of the function. *)
Definition sfd_seen (payload_len txpower : Z) : RD Z :=
  sfd_timestamp ← reads SFD_START_TIME;
  t ← on_pb (packetbuf_attr PACKETBUF_ATTR_PACKET_TYPE);
  when (t =? PACKETBUF_ATTR_PACKET_TYPE_TIMESTAMP)
    (write_ram (bytes_of_16 sfd_timestamp) (u16 (CC2420RAM_TXFIFO + payload_len - 1)) 2 WRITE_RAM_IN_ORDER) ;;
  s ← get_status;
  if negb (c_true (Z.land s (BV CC2420_TX_ACTIVE))) then RELEASE_LOCK ;; mret RADIO_TX_COLLISION
  else
    wait_for_transmission ;;
    r ← gets receive_on;
    when (negb (c_true r)) off ;;
    restore_power txpower ;;
    RELEASE_LOCK ;;
    mret RADIO_TX_OK.

Fixpoint sfd_loop (i : nat) (payload_len txpower : Z) : RD Z :=
  match i with
  | O => restore_power txpower ;; RELEASE_LOCK ;; mret RADIO_TX_COLLISION
  | S i =>
      f ← reads SFD_IS_1;
      if c_true f then sfd_seen payload_len txpower else sfd_loop i payload_len txpower
  end.

Definition cc2420_transmit (payload_len : Z) : RD Z :=
  GET_LOCK ;;
  p ← on_pb (packetbuf_attr PACKETBUF_ATTR_RADIO_TXPOWER);
  txpower ← (if 0 <? p then
               txpower ← cc2420_get_txpower;
               set_txpower (u8 (p - 1)) ;;
               mret txpower
             else mret 0);
  c ← gets send_on_cca;
  (if c_true c then
     strobe CC2420_SRXON ;; wait_for_status (BV CC2420_RSSI_VALID) ;; strobe CC2420_STXONCCA
   else strobe CC2420_STXON) ;;
  sfd_loop LOOP_20_SYMBOLS payload_len txpower.

Definition cc2420_prepare (payload : list Z) (payload_len : Z) : RD Z :=
  with_lock (
    strobe CC2420_SFLUSHTX ;;
    let total_len := u8 (payload_len + CHECKSUM_LEN) in
    write_fifo_buf [total_len] 1 ;;
    write_fifo_buf payload payload_len) ;;
  mret 0.

Definition cc2420_send (payload : list Z) (payload_len : Z) : RD Z :=
  cc2420_prepare payload payload_len ;; cc2420_transmit payload_len.

(** ** Receiving *)

Definition poll_process : RD unit := radio_polled <~ true.

Definition cc2420_interrupt : RD Z :=
  sets CLEAR_FIFOP_INT ;;
  poll_process ;;
  t ← reads SFD_START_TIME;
  (last_packet_timestamp <~ t) ;;
  mret 1.

(** A frame of [len] bytes is taken from the FIFO, under the lock: the bytes written to
    the buffer, and the length to return. *)
Definition read_frame (len : Z) : RD (list Z * Z) :=
  buf ← getrxdata (len - FOOTER_LEN);
  footer ← getrxdata FOOTER_LEN;
  f1 ← byte_at footer 1;
  len ← (if c_true (Z.land f1 FOOTER1_CRC_OK) then
           f0 ← byte_at footer 0;
           (cc2420_last_rssi <~ s8 (f0 + RSSI_OFFSET)) ;;
           (cc2420_last_correlation <~ Z.land f1 FOOTER1_CORRELATION) ;;
           p ← gets poll_mode;
           when (negb (c_true p)) (
             rssi ← gets cc2420_last_rssi;
             corr ← gets cc2420_last_correlation;
             on_pb (packetbuf_set_attr PACKETBUF_ATTR_RSSI rssi) ;;
             on_pb (packetbuf_set_attr PACKETBUF_ATTR_LINK_QUALITY corr)) ;;
           mret len
         else mret FOOTER_LEN);
  p ← gets poll_mode;
  when (negb (c_true p)) (
    fp ← reads FIFOP_IS_1;
    when (c_true fp) (
      f ← reads FIFO_IS_1;
      if negb (c_true f) then flushrx else poll_process)) ;;
  mret (buf, len - FOOTER_LEN).

(** [cc2420_read]: the bytes it writes from [buf] on, and what it returns. *)
Definition cc2420_read (bufsize : Z) : RD (list Z * Z) :=
  f ← reads FIFOP_IS_1;
  if negb (c_true f) then mret ([], 0)
  else
    GET_LOCK ;;
    l ← getrxdata 1;
    len ← byte_at l 0;
    if (CC2420_MAX_PACKET_LEN <? len) || (len <=? FOOTER_LEN) || (bufsize <? len - FOOTER_LEN) then
      flushrx ;; RELEASE_LOCK ;; mret ([], 0)
    else a ← read_frame len; RELEASE_LOCK ;; mret a.

(** [NETSTACK_RDC.input]. *)
Variable rdc_input : RD unit.

Definition cc2420_receive : RD unit :=
  on_pb packetbuf_clear ;;
  t ← gets last_packet_timestamp;
  on_pb (packetbuf_set_attr PACKETBUF_ATTR_TIMESTAMP t) ;;
  d ← on_pb packetbuf_dataptr;
  r ← cc2420_read PACKETBUF_SIZE;
  on_pb (pb_store d (fst r)) ;;
  on_pb (packetbuf_set_datalen (snd r)) ;;
  rdc_input.

(** The thread of the process; [PROCESS_EVENT_POLL] is 0x82, [PT_YIELDED] 1, [PT_ENDED] 3. *)
Definition CC2420_YIELD : Z := 940.
Definition cc2420_thread (ev : Z) : RD Z :=
  pt ← gets radio_pt;
  if pt =? 0 then (radio_pt <~ CC2420_YIELD) ;; mret 1
  else if pt =? CC2420_YIELD then
    p ← gets poll_mode;
    if negb (c_true p) && (ev =? 0x82) then cc2420_receive ;; (radio_pt <~ CC2420_YIELD) ;; mret 1
    else mret 1
  else (radio_pt <~ 0) ;; mret 3.

(** ** The channel *)

Definition cc2420_rssi : RD Z :=
  l ← gets locked;
  if c_true l then mret 0
  else
    GET_LOCK ;;
    r ← gets receive_on;
    let radio_was_off := negb (c_true r) in
    when radio_was_off (cc2420_on ;; skip) ;;
    wait_for_status (BV CC2420_RSSI_VALID) ;;
    reg ← getreg CC2420_RSSI;
    let rssi := s8 reg + RSSI_OFFSET in
    when radio_was_off (cc2420_off ;; skip) ;;
    RELEASE_LOCK ;;
    mret rssi.

Definition cc2420_cca : RD Z :=
  l ← gets locked;
  if c_true l then mret 1
  else
    GET_LOCK ;;
    r ← gets receive_on;
    let radio_was_off := negb (c_true r) in
    when radio_was_off (cc2420_on ;; skip) ;;
    r ← gets receive_on;
    if negb (c_true r) then
      RELEASE_LOCK ;;
      when radio_was_off (cc2420_off ;; skip) ;;
      mret 1
    else
      wait_for_status (BV CC2420_RSSI_VALID) ;;
      cca ← reads CCA_IS_1;
      when radio_was_off (cc2420_off ;; skip) ;;
      RELEASE_LOCK ;;
      mret cca.

Definition cc2420_receiving_packet : RD Z := reads SFD_IS_1.
Definition pending_packet : RD Z := reads FIFOP_IS_1.

(** ** The parameters of [struct radio_driver] *)

Inductive radio_param :=
  | RADIO_PARAM_POWER_MODE | RADIO_PARAM_CHANNEL | RADIO_PARAM_PAN_ID | RADIO_PARAM_16BIT_ADDR
  | RADIO_PARAM_RX_MODE | RADIO_PARAM_TX_MODE | RADIO_PARAM_TXPOWER | RADIO_PARAM_CCA_THRESHOLD
  | RADIO_PARAM_RSSI | RADIO_PARAM_LAST_RSSI | RADIO_PARAM_LAST_LINK_QUALITY | RADIO_PARAM_64BIT_ADDR
  | RADIO_PARAM_LAST_PACKET_TIMESTAMP
  | RADIO_CONST_CHANNEL_MIN | RADIO_CONST_CHANNEL_MAX | RADIO_CONST_TXPOWER_MIN | RADIO_CONST_TXPOWER_MAX.
Inductive radio_result :=
  | RADIO_RESULT_OK | RADIO_RESULT_NOT_SUPPORTED | RADIO_RESULT_INVALID_VALUE | RADIO_RESULT_ERROR.

Definition RADIO_RX_MODE_ADDRESS_FILTER : Z := 1.
Definition RADIO_RX_MODE_AUTOACK : Z := 2.
Definition RADIO_RX_MODE_POLL_MODE : Z := 4.
Definition RADIO_TX_MODE_SEND_ON_CCA : Z := 1.

(** [for(i = 0; i < OUTPUT_NUM; i++)] of [get_value]. *)
Fixpoint power_of (table : list (Z * Z)) (v default : Z) : Z :=
  match table with
  | [] => default
  | (power, config) :: t => if config <=? v then power else power_of t v default
  end.
(** [for(i = 1; i < OUTPUT_NUM; i++)] of [set_value], [config] being that of the entry
    before. *)
Fixpoint config_of (table : list (Z * Z)) (value config : Z) : Z :=
  match table with
  | [] => config
  | (power, c) :: t => if power <? value then config else config_of t value c
  end.

(** The result, and the value written through the pointer, which is not NULL. *)
Definition get_value (param : radio_param) : RD (radio_result * option Z) :=
  match param with
  | RADIO_PARAM_POWER_MODE => r ← gets receive_on; mret (RADIO_RESULT_OK, Some (if c_true r then 1 else 0))
  | RADIO_PARAM_CHANNEL => c ← cc2420_get_channel; mret (RADIO_RESULT_OK, Some c)
  | RADIO_PARAM_RX_MODE =>
      a ← getreg CC2420_MDMCTRL0;
      let v := if c_true (Z.land a ADR_DECODE) then RADIO_RX_MODE_ADDRESS_FILTER else 0 in
      b ← getreg CC2420_MDMCTRL0;
      let v := if c_true (Z.land b AUTOACK) then Z.lor v RADIO_RX_MODE_AUTOACK else v in
      p ← gets poll_mode;
      mret (RADIO_RESULT_OK, Some (if c_true p then Z.lor v RADIO_RX_MODE_POLL_MODE else v))
  | RADIO_PARAM_TX_MODE =>
      s ← gets send_on_cca; mret (RADIO_RESULT_OK, Some (if c_true s then RADIO_TX_MODE_SEND_ON_CCA else 0))
  | RADIO_PARAM_TXPOWER =>
      v ← cc2420_get_txpower; mret (RADIO_RESULT_OK, Some (power_of output_power v OUTPUT_POWER_MIN))
  | RADIO_PARAM_CCA_THRESHOLD => t ← get_cca_threshold; mret (RADIO_RESULT_OK, Some (t + RSSI_OFFSET))
  | RADIO_PARAM_RSSI => v ← cc2420_rssi; mret (RADIO_RESULT_OK, Some v)
  | RADIO_PARAM_LAST_RSSI => v ← gets cc2420_last_rssi; mret (RADIO_RESULT_OK, Some v)
  | RADIO_PARAM_LAST_LINK_QUALITY => v ← gets cc2420_last_correlation; mret (RADIO_RESULT_OK, Some v)
  | RADIO_CONST_CHANNEL_MIN => mret (RADIO_RESULT_OK, Some 11)
  | RADIO_CONST_CHANNEL_MAX => mret (RADIO_RESULT_OK, Some 26)
  | RADIO_CONST_TXPOWER_MIN => mret (RADIO_RESULT_OK, Some OUTPUT_POWER_MIN)
  | RADIO_CONST_TXPOWER_MAX => mret (RADIO_RESULT_OK, Some OUTPUT_POWER_MAX)
  | _ => mret (RADIO_RESULT_NOT_SUPPORTED, None)
  end.

Definition set_value (param : radio_param) (value : Z) : RD radio_result :=
  match param with
  | RADIO_PARAM_POWER_MODE =>
      if value =? 1 then cc2420_on ;; mret RADIO_RESULT_OK
      else if value =? 0 then cc2420_off ;; mret RADIO_RESULT_OK
      else mret RADIO_RESULT_INVALID_VALUE
  | RADIO_PARAM_CHANNEL =>
      if (value <? 11) || (26 <? value) then mret RADIO_RESULT_INVALID_VALUE
      else cc2420_set_channel value ;; mret RADIO_RESULT_OK
  | RADIO_PARAM_RX_MODE =>
      if c_true (Z.land value (Z.lnot 7)) then mret RADIO_RESULT_INVALID_VALUE
      else
        set_frame_filtering (b2z (c_true (Z.land value RADIO_RX_MODE_ADDRESS_FILTER))) ;;
        set_auto_ack (b2z (c_true (Z.land value RADIO_RX_MODE_AUTOACK))) ;;
        set_poll_mode (b2z (c_true (Z.land value RADIO_RX_MODE_POLL_MODE))) ;;
        mret RADIO_RESULT_OK
  | RADIO_PARAM_TX_MODE =>
      if c_true (Z.land value (Z.lnot RADIO_TX_MODE_SEND_ON_CCA)) then mret RADIO_RESULT_INVALID_VALUE
      else set_send_on_cca (b2z (c_true (Z.land value RADIO_TX_MODE_SEND_ON_CCA))) ;; mret RADIO_RESULT_OK
  | RADIO_PARAM_TXPOWER =>
      if (value <? OUTPUT_POWER_MIN) || (OUTPUT_POWER_MAX <? value) then mret RADIO_RESULT_INVALID_VALUE
      else cc2420_set_txpower (config_of (tail output_power) value 31) ;; mret RADIO_RESULT_OK
  | RADIO_PARAM_CCA_THRESHOLD => cc2420_set_cca_threshold (value - RSSI_OFFSET) ;; mret RADIO_RESULT_OK
  | _ => mret RADIO_RESULT_NOT_SUPPORTED
  end.

(** [dest] is not NULL; [size] must be that of [rtimer_clock_t]. *)
Definition get_object (param : radio_param) (size : Z) : RD (radio_result * option Z) :=
  match param with
  | RADIO_PARAM_LAST_PACKET_TIMESTAMP =>
      if negb (size =? 2) then mret (RADIO_RESULT_INVALID_VALUE, None)
      else t ← reads SFD_START_TIME; mret (RADIO_RESULT_OK, Some t)
  | _ => mret (RADIO_RESULT_NOT_SUPPORTED, None)
  end.
Definition set_object (param : radio_param) : radio_result := RADIO_RESULT_NOT_SUPPORTED.
End driver.
