(* ===== verification/Cc2420Facts.v ===== *)
(** * Cc2420Facts: the radio driver returns and gives its lock back

    Lemmas about [Cc2420] under the laws of a chip that answers every byte and whose
    clock advances: what uses the bus only changes the chip, the busy-waits end, and a
    locked section leaves no deferred request behind. *)
From stdpp Require Import numbers option list.
From S2P Require Import Prelude Packetbuf Cc2420.

(** A chip answers as many bytes as it gets; its time, of which a tick of the counter
    takes [scale] units, advances with every reading of the counter, and by no more than
    [step] with any transaction or reading. *)
Class ChipLaws (chip : Type) `{!Chip chip} := {
  chip_time : chip -> Z;
  chip_scale : Z;
  chip_step : Z;
  scale_pos : 0 < chip_scale;
  step_small : 0 <= chip_step /\ 2 * chip_step <= 2 ^ 14 * chip_scale;
  spi_length : forall out c, length (fst (spi out c)) = length out;
  spi_time : forall out c, chip_time c <= chip_time (snd (spi out c)) <= chip_time c + chip_step;
  now_reads : forall c, fst (read_port RTIMER_NOW c) = u16 (chip_time c / chip_scale);
  now_time : forall c, chip_time c < chip_time (snd (read_port RTIMER_NOW c)) <= chip_time c + chip_step;
}.

Section facts.
Context {chip : Type} `{!Chip chip} `{!ChipLaws chip}.
Abbreviation RD := (M (radio chip)).

(** Computations that return and change the chip only. *)
Definition bus {A} (m : RD A) (P : A -> Prop) : Prop :=
  forall r, exists a c, m r = Ok (a, r <| radio_chip := c |>) /\ P a.

Lemma bus_same {A} (a : A) (P : A -> Prop) : P a -> bus (mret a) P.
Proof. intros H r. exists a, (radio_chip r). split; [by destruct r|done]. Qed.
Lemma bus_skip : bus (skip : RD unit) (fun _ => True).
Proof. by apply (bus_same tt). Qed.
Lemma bus_bind {A B} (m : RD A) (k : A -> RD B) P Q :
  bus m P -> (forall a, P a -> bus (k a) Q) -> bus (m ≫= k) Q.
Proof.
  intros Hm Hk r. destruct (Hm r) as (a & c & E & Ha). destruct (Hk a Ha (r <| radio_chip := c |>)) as (b & c' & E' & Hb).
  exists b, c'. split; [|done]. erewrite bind_Ok by exact E. rewrite E'. by destruct r.
Qed.
Lemma bus_mono {A} (m : RD A) (P Q : A -> Prop) : bus m P -> (forall a, P a -> Q a) -> bus m Q.
Proof. intros H HQ r. destruct (H r) as (a & c & E & Ha). eauto 10. Qed.
Lemma bus_when b (m : RD unit) : bus m (fun _ => True) -> bus (when b m) (fun _ => True).
Proof. intros H. destruct b; [done|apply bus_skip]. Qed.

Lemma bus_transaction out : bus (transaction out) (fun l => length l = length out).
Proof.
  intros r. unfold transaction. destruct (spi out (radio_chip r)) as [l c] eqn:E. exists l, c. split; [done|].
  change l with (fst (l, c)). rewrite <- E. apply spi_length.
Qed.
Lemma bus_reads x : bus (reads x) (fun _ => True).
Proof. intros r. unfold reads. destruct (read_port x (radio_chip r)) as [v c]. by exists v, c. Qed.
Lemma bus_sets x : bus (sets x) (fun _ => True).
Proof. intros r. by exists tt, (set_port x (radio_chip r)). Qed.
Lemma bus_byte_at l i : 0 <= i < Z.of_nat (length l) -> bus (byte_at (chip := chip) l i) (fun _ => True).
Proof.
  intros Hi. unfold byte_at. rewrite (proj2 (Z.leb_le 0 i)) by lia.
  destruct (l !! Z.to_nat i) eqn:E; [by apply bus_same|]. apply lookup_ge_None in E. lia.
Qed.

Lemma bus_strobe x : bus (strobe x) (fun _ => True).
Proof. eapply bus_bind; [apply bus_transaction|]. intros. apply bus_skip. Qed.
Lemma bus_getreg x : bus (getreg x) (fun _ => True).
Proof.
  eapply bus_bind; [apply bus_transaction|]. intros l Hl. cbn in Hl.
  eapply bus_bind; [apply bus_byte_at; lia|]. intros h _.
  eapply bus_bind; [apply bus_byte_at; lia|]. intros b _. by apply bus_same.
Qed.
Lemma bus_setreg x v : bus (setreg x v) (fun _ => True).
Proof. eapply bus_bind; [apply bus_transaction|]. intros. apply bus_skip. Qed.
Lemma bus_status : bus get_status (fun _ => True).
Proof. eapply bus_bind; [apply bus_transaction|]. intros l Hl. cbn in Hl. apply bus_byte_at. lia. Qed.

(** The loops over bytes return when the count fits the [uint8_t]. *)
Lemma bus_read_loop n : forall i count,
  0 <= i -> count <= 255 -> 0 <= count - i < Z.of_nat n ->
  bus (read_loop (chip := chip) n i count) (fun l => Z.of_nat (length l) = Z.max 0 (count - i)).
Proof.
  induction n as [|n IH]; intros i count Hi Hc Hn; cbn [read_loop]; [lia|].
  destruct (Z.ltb_spec i count); [|apply bus_same; cbn; lia].
  rewrite uwrap_small by (unfold in_u; lia).
  eapply bus_bind; [apply IH; lia|]. intros l Hl. apply bus_same. cbn beta in Hl. cbn [length]. lia.
Qed.
Lemma bus_up_loop buffer n : forall i count,
  0 <= i -> count <= 255 -> count <= Z.of_nat (length buffer) -> 0 <= count - i < Z.of_nat n ->
  bus (up_loop (chip := chip) n buffer i count) (fun _ => True).
Proof.
  induction n as [|n IH]; intros i count Hi Hc Hb Hn; cbn [up_loop]; [lia|].
  destruct (Z.ltb_spec i count); [|by apply bus_same].
  eapply bus_bind; [apply bus_byte_at; lia|]. intros b _. rewrite uwrap_small by (unfold in_u; lia).
  eapply bus_bind; [apply IH; lia|]. intros l _. by apply bus_same.
Qed.
Lemma bus_down_loop buffer n : forall i,
  0 <= i <= 255 -> i <= Z.of_nat (length buffer) -> i < Z.of_nat n ->
  bus (down_loop (chip := chip) n buffer i) (fun _ => True).
Proof.
  induction n as [|n IH]; intros i Hi Hb Hn; cbn [down_loop]; [lia|].
  destruct (Z.ltb_spec 0 i); [|by apply bus_same].
  eapply bus_bind; [apply bus_byte_at; lia|]. intros b _. rewrite uwrap_small by (unfold in_u; lia).
  eapply bus_bind; [apply IH; lia|]. intros l _. by apply bus_same.
Qed.

Lemma bus_getrxdata count : 0 <= count <= 255 -> bus (getrxdata count) (fun l => Z.of_nat (length l) = count).
Proof.
  intros Hc. eapply bus_bind; [apply bus_read_loop; unfold BYTES; lia|]. intros z Hz.
  eapply bus_bind; [apply bus_transaction|]. intros l Hl. apply bus_same. cbn in Hz, Hl. rewrite length_drop. lia.
Qed.
Lemma bus_flushrx : bus flushrx (fun _ => True).
Proof.
  eapply bus_bind; [by apply bus_getrxdata|]. intros _ _.
  eapply bus_bind; [apply bus_strobe|]. intros _ _. apply bus_strobe.
Qed.
Lemma bus_write_ram buffer adr count order :
  0 <= count <= 255 -> count <= Z.of_nat (length buffer) -> bus (write_ram buffer adr count order) (fun _ => True).
Proof.
  intros Hc Hb. apply bus_bind with (P := fun _ => True).
  - destruct order; [apply bus_up_loop; unfold BYTES; lia|].
    rewrite uwrap_small by (unfold in_u; lia). apply bus_down_loop; unfold BYTES; lia.
  - intros bytes _. eapply bus_bind; [apply bus_transaction|]. intros. apply bus_skip.
Qed.
Lemma bus_write_fifo buffer count :
  0 <= count <= 255 -> count <= Z.of_nat (length buffer) -> bus (write_fifo_buf buffer count) (fun _ => True).
Proof.
  intros Hc Hb. eapply bus_bind; [apply bus_up_loop; unfold BYTES; lia|].
  intros bytes _. eapply bus_bind; [apply bus_transaction|]. intros. apply bus_skip.
Qed.
Lemma bus_read_ram adr count : 0 <= count <= 255 -> bus (read_ram adr count) (fun l => Z.of_nat (length l) = count).
Proof.
  intros Hc. eapply bus_bind; [apply bus_read_loop; unfold BYTES; lia|]. intros z Hz.
  eapply bus_bind; [apply bus_transaction|]. intros l Hl. apply bus_same. cbn in Hz, Hl. rewrite length_drop. lia.
Qed.

(** ** The busy-waits *)

Definition ticks (c : chip) : Z := chip_time c / chip_scale.

(** The time a wait has left, in units. *)
Lemma before_deadline t0 t :
  0 <= t - t0 < 2 ^ 15 -> RTIMER_CLOCK_LT (u16 t) (u16 t0 + RTIMER_LF_SECOND / 10) = (t - t0 <? 51).
Proof.
  intros H. unfold RTIMER_CLOCK_LT. change (RTIMER_LF_SECOND / 10) with 51.
  assert (E : s16 (u16 t - (u16 t0 + 51)) = t - t0 - 51).
  { unfold swrap, uwrap.
    replace (t mod 2 ^ 16 - (t0 mod 2 ^ 16 + 51) + 2 ^ (16 - 1)) with
      (t - t0 - 51 + 2 ^ 15 + (t0 / 2 ^ 16 - t / 2 ^ 16) * 2 ^ 16) by (pose proof (Z.div_mod t (2 ^ 16)); pose proof (Z.div_mod t0 (2 ^ 16)); lia).
    rewrite Z_mod_plus_full, Z.mod_small by lia. lia. }
  rewrite E. destruct (Z.ltb_spec (t - t0 - 51) 0), (Z.ltb_spec (t - t0) 51); lia.
Qed.

Lemma status_run r : exists st c, get_status r = Ok (st, r <| radio_chip := c |>) /\
  chip_time (radio_chip r) <= chip_time c <= chip_time (radio_chip r) + chip_step.
Proof.
  unfold get_status, transaction. destruct (spi [CC2420_SNOP] (radio_chip r)) as [l c] eqn:E.
  pose proof (spi_length [CC2420_SNOP] (radio_chip r)) as Hl. pose proof (spi_time [CC2420_SNOP] (radio_chip r)) as Ht.
  rewrite E in Hl, Ht. destruct l as [|st []]; try done. exists st, c. split; [|exact Ht].
  by erewrite bind_Ok by (by rewrite E).
Qed.
Lemma now_run r : exists c, reads RTIMER_NOW r = Ok (u16 (ticks (radio_chip r)), r <| radio_chip := c |>) /\
  chip_time (radio_chip r) < chip_time c <= chip_time (radio_chip r) + chip_step.
Proof.
  unfold reads. pose proof (now_reads (radio_chip r)) as Hn. pose proof (now_time (radio_chip r)) as Ht.
  destruct (read_port RTIMER_NOW (radio_chip r)) as [v c]. cbn in Hn, Ht. exists c. by rewrite Hn.
Qed.

Lemma wait_loop_run want bit T0 n : forall r,
  T0 * chip_scale <= chip_time (radio_chip r) <= (T0 + 51) * chip_scale + chip_step ->
  Z.max 0 ((T0 + 51) * chip_scale - chip_time (radio_chip r)) < Z.of_nat n ->
  exists c, wait_loop n want bit (u16 T0) r = Ok (tt, r <| radio_chip := c |>).
Proof.
  pose proof scale_pos as Hs. assert (Hs0 : chip_scale <> 0) by lia. destruct step_small as [Hs1 Hs2].
  induction n as [|n IH]; intros r Ht Hn; [lia|]. cbn [wait_loop].
  destruct (status_run r) as (st & c1 & Est & Ht1). erewrite bind_Ok by exact Est.
  set (r1 := r <| radio_chip := c1 |>). destruct (Bool.eqb _ want); [by exists c1|].
  destruct (now_run r1) as (c2 & En & Ht2). change (radio_chip r1) with c1 in *. erewrite bind_Ok by exact En.
  assert (Hd : 0 <= ticks c1 - T0 < 2 ^ 15).
  { unfold ticks. split.
    - enough (T0 <= chip_time c1 / chip_scale) by lia. apply Z.div_le_lower_bound; lia.
    - enough (chip_time c1 / chip_scale < T0 + 2 ^ 15) by lia. apply Z.div_lt_upper_bound; [lia|]. nia. }
  rewrite before_deadline by done. destruct (Z.ltb_spec (ticks c1 - T0) 51) as [Hlt|Hge].
  - assert (Hc1 : chip_time c1 < (T0 + 51) * chip_scale).
    { unfold ticks in Hlt. pose proof (Z.div_mod (chip_time c1) chip_scale Hs0).
      pose proof (Z.mod_pos_bound (chip_time c1) chip_scale Hs). nia. }
    destruct (IH (r1 <| radio_chip := c2 |>)) as (c & E); [rsimpl; lia|rsimpl; lia|].
    exists c. rewrite E. by destruct r.
  - exists c2. by destruct r.
Qed.

(** Fuel for a tenth of a second. *)
Context (wait_fuel : nat) (enough_fuel : 52 * chip_scale < Z.of_nat wait_fuel).

Lemma bus_wait want bit : bus (t0 ← reads RTIMER_NOW; wait_loop wait_fuel want bit t0) (fun _ => True).
Proof.
  intros r. pose proof scale_pos as Hs. assert (Hs0 : chip_scale <> 0) by lia. destruct step_small as [Hs1 Hs2].
  destruct (now_run r) as (c1 & E1 & Ht1). erewrite bind_Ok by exact E1.
  unfold ticks in *. pose proof (Z.div_mod (chip_time (radio_chip r)) chip_scale Hs0).
  pose proof (Z.mod_pos_bound (chip_time (radio_chip r)) chip_scale Hs).
  destruct (wait_loop_run want bit (chip_time (radio_chip r) / chip_scale) wait_fuel (r <| radio_chip := c1 |>)) as (c & E);
    [rsimpl; nia|rsimpl; nia|].
  exists tt, c. split; [|done]. rewrite E. by destruct r.
Qed.

(** ** On and off *)

Definition with_chip (r : radio chip) (c : chip) : radio chip := r <| radio_chip := c |>.

Lemma gets_run {A} (f : radio chip -> A) (k : A -> RD unit) r : (gets f ≫= k) r = k (f r) r.
Proof. done. Qed.

Lemma on_run r : exists c, on r = Ok (tt, (with_chip r c) <| receive_on := 1 |>).
Proof.
  unfold on. rewrite bind_gets.
  destruct (bus_when (negb (c_true (poll_mode r))) _ (bus_sets ENABLE_FIFOP_INT) r) as (? & c1 & E1 & _).
  erewrite bind_Ok by exact E1. destruct (bus_strobe CC2420_SRXON (r <| radio_chip := c1 |>)) as (? & c2 & E2 & _).
  erewrite bind_Ok by exact E2. exists c2. by destruct r.
Qed.

Lemma off_run r : exists c, off wait_fuel r = Ok (tt, (with_chip r c) <| receive_on := 0 |>).
Proof.
  unfold off. rewrite bind_modify. set (r1 := update receive_on _ r).
  destruct (bus_wait false (BV CC2420_TX_ACTIVE) r1) as (? & c1 & E1 & _).
  erewrite bind_Ok by exact E1.
  destruct (bus_strobe CC2420_SRFOFF (r1 <| radio_chip := c1 |>)) as (? & c2 & E2 & _).
  erewrite bind_Ok by exact E2. rewrite bind_gets.
  set (r2 := update radio_chip _ (update radio_chip _ r1)).
  destruct (bus_when (negb (c_true (poll_mode r2))) _ (bus_sets DISABLE_FIFOP_INT) r2) as (? & c3 & E3 & _).
  erewrite bind_Ok by exact E3.
  destruct (bus_reads FIFOP_IS_1 (r2 <| radio_chip := c3 |>)) as (f & c4 & E4 & _).
  erewrite bind_Ok by exact E4.
  destruct (bus_when (negb (c_true f)) _ bus_flushrx (r2 <| radio_chip := c3 |> <| radio_chip := c4 |>)) as ([] & c5 & E5 & _).
  exists c5. rewrite E5. by destruct r.
Qed.

(** No request is deferred unless the lock is held, and it is not held too often. *)
Definition lock_ok (r : radio chip) : Prop :=
  0 <= locked r < 255 /\ (locked r = 0 -> lock_on r = 0 /\ lock_off r = 0).

(** A locked section that only uses the bus. *)
Lemma with_lock_run {A} (m : RD A) P r :
  bus m P -> lock_ok r -> exists a c, with_lock wait_fuel m r = Ok (a, with_chip r c) /\ P a.
Proof.
  intros Hm [Hl H0]. unfold with_lock, GET_LOCK. rewrite bind_modify.
  set (r1 := update locked _ r). destruct (Hm r1) as (a & c & E & Ha). erewrite bind_Ok by exact E.
  exists a, c. split; [|done].
  assert (El : locked (r1 <| radio_chip := c |>) = locked r + 1).
  { change (locked r +8 1 = locked r + 1). apply uwrap_small. unfold in_u. lia. }
  erewrite bind_Ok; [reflexivity|]. unfold RELEASE_LOCK. rewrite bind_gets, El.
  assert (Eu : modify (fun r => r <| locked ::= fun l => l -8 1 |>) (r1 <| radio_chip := c |>) = Ok (tt, with_chip r c)).
  { unfold modify, with_chip, r1. do 3 f_equal. destruct r; cbn in *. unfold update; cbn. f_equal.
    rewrite (uwrap_small 8 (_ + 1)) by (unfold in_u; lia). rewrite uwrap_small by (unfold in_u; lia). lia. }
  destruct (Z.eqb_spec (locked r + 1) 1) as [E1|E1]; unfold when at 1.
  - destruct H0 as [Hon Hoff]; [lia|]. erewrite bind_Ok; [exact Eu|]. rewrite bind_gets.
    change (lock_on (r1 <| radio_chip := c |>)) with (lock_on r). rewrite Hon. cbn [c_true Z.eqb negb when].
    unfold when. erewrite bind_Ok by reflexivity. rewrite bind_gets.
    change (lock_off (r1 <| radio_chip := c |>)) with (lock_off r). by rewrite Hoff.
  - erewrite bind_Ok by reflexivity. exact Eu.
Qed.
End facts.
