(* ===== verification/Cc2420Data.v ===== *)
(** * Cc2420Data: what the radio driver stores in the chip and takes from it

    With the registers and FIFOs of the chip as an interface ([ChipData]): a parameter
    that [set_value] accepts is the one [get_value] returns, up to what the hardware can
    express; a payload written by [cc2420_prepare] is the one [cc2420_read] takes out of
    the FIFO of a chip that received it. *)
From stdpp Require Import numbers option list.
From S2P Require Import Prelude Packetbuf Cc2420 Cc2420Facts Cc2420Spec.

Definition is_reg (x : Z) : Prop := 0x10 <= x < 0x3E.
Definition is_byte (b : Z) : Prop := 0 <= b < 256.
Definition fifop_port (x : port_op) : bool :=
  match x with ENABLE_FIFOP_INT | DISABLE_FIFOP_INT | FIFOP_INT_INIT | CLEAR_FIFOP_INT => true | _ => false end.

(** A register holds what was written last, but the low byte of the RSSI register, which
    is a measurement; the pins leave the registers; the FIFOs are queues of bytes, that for
    transmission of 128. *)
Class ChipData (chip : Type) `{!Chip chip} := {
  setting : Z -> chip -> Z;
  tx_fifo : chip -> list Z;
  rx_fifo : chip -> list Z;
  setting_range : forall x c, 0 <= setting x c < 65536;
  getreg_answers : forall x c, is_reg x ->
    exists s h l c', spi [Z.lor x 0x40; 0; 0] c = ([s; h; l], c') /\ is_byte h /\ is_byte l /\
      h = setting x c / 256 /\ (x <> CC2420_RSSI -> l = setting x c mod 256) /\ forall y, setting y c' = setting y c;
  setreg_takes : forall x h l c y, is_reg x -> is_byte h -> is_byte l ->
    setting y (snd (spi [x; h; l; 0] c)) = if y =? x then 256 * h + l else setting y c;
  sets_keep : forall x c y, fifop_port x = true -> setting y (set_port x c) = setting y c;
  tx_takes : forall bytes c, (length (tx_fifo c ++ bytes) <= 128)%nat ->
    tx_fifo (snd (spi (CC2420_TXFIFO :: bytes) c)) = tx_fifo c ++ bytes;
  tx_flushed : forall c, tx_fifo (snd (spi [CC2420_SFLUSHTX] c)) = [];
  rx_gives : forall n c, (n <= length (rx_fifo c))%nat ->
    exists s c', spi (Z.lor CC2420_RXFIFO 0x40 :: replicate n 0) c = (s :: take n (rx_fifo c), c') /\
      rx_fifo c' = drop n (rx_fifo c);
  rx_kept : forall x c, rx_fifo (snd (read_port x c)) = rx_fifo c;
}.

(** ** Words and bits *)

Lemma word_of_bytes h l : is_byte h -> is_byte l -> Z.lor (u16 (Z.shiftl h 8)) l = 256 * h + l.
Proof.
  unfold is_byte. intros Hh Hl. rewrite Z.shiftl_mul_pow2 by lia. rewrite uwrap_small by (unfold in_u; lia).
  assert (E : Z.land (h * 2 ^ 8) l = 0).
  { apply Z.bits_inj'. intros n Hn. rewrite Z.land_spec, Z.bits_0. destruct (Z.ltb_spec n 8).
    - by rewrite Z.mul_pow2_bits_low by lia.
    - rewrite andb_comm, (Z.bits_above_log2 l n); [done|lia|].
      destruct (Z.eq_dec l 0) as [->|]; [cbn; lia|]. apply Z.log2_lt_pow2; [lia|].
      apply Z.lt_le_trans with (2 ^ 8); [lia|]. apply Z.pow_le_mono_r; lia. }
  pose proof (Z.add_lor_land (h * 2 ^ 8) l). lia.
Qed.

Lemma c_true_bit x k : 0 <= k -> c_true (Z.land x (Z.shiftl 1 k)) = Z.testbit x k.
Proof.
  intros Hk. unfold c_true. rewrite Z.shiftl_1_l. destruct (Z.testbit x k) eqn:E.
  - apply negb_true_iff, Z.eqb_neq. intros H. assert (Z.testbit (Z.land x (2 ^ k)) k = true) as H2.
    { by rewrite Z.land_spec, E, Z.pow2_bits_true. }
    by rewrite H, Z.bits_0 in H2.
  - apply negb_false_iff, Z.eqb_eq, Z.bits_inj'. intros n Hn. rewrite Z.land_spec, Z.bits_0, Z.pow2_bits_eqb by lia.
    destruct (Z.eqb_spec k n) as [<-|]; [by rewrite E|by rewrite andb_false_r].
Qed.

Lemma set_bit_same reg k e : 0 <= k < 16 -> Z.testbit (set_bit reg (Z.shiftl 1 k) e) k = c_true e.
Proof.
  intros Hk. unfold set_bit. rewrite Z.shiftl_1_l. destruct (c_true e).
  - rewrite Z.lor_spec, Z.pow2_bits_true by lia. apply orb_true_r.
  - unfold uwrap. rewrite Z.mod_pow2_bits_low by lia. rewrite Z.land_spec, Z.lnot_spec, Z.pow2_bits_true by lia. apply andb_false_r.
Qed.
Lemma set_bit_other reg j k e :
  0 <= k < 16 -> 0 <= j -> j <> k -> Z.testbit (set_bit reg (Z.shiftl 1 j) e) k = Z.testbit reg k.
Proof.
  intros Hk Hj Hjk. unfold set_bit. rewrite Z.shiftl_1_l. destruct (c_true e).
  - rewrite Z.lor_spec, Z.pow2_bits_false by lia. apply orb_false_r.
  - unfold uwrap. rewrite Z.mod_pow2_bits_low by lia. rewrite Z.land_spec, Z.lnot_spec, Z.pow2_bits_false by lia. apply andb_true_r.
Qed.
Lemma lor_word a b : 0 <= a < 65536 -> 0 <= b < 65536 -> 0 <= Z.lor a b < 65536.
Proof.
  intros Ha Hb. assert (0 <= Z.lor a b) by (by apply Z.lor_nonneg; lia). split; [done|].
  destruct (Z.eq_dec (Z.lor a b) 0) as [->|]; [lia|]. apply (Z.log2_lt_pow2 _ 16); [lia|].
  rewrite Z.log2_lor by lia. apply Z.max_lub_lt.
  - destruct (Z.eq_dec a 0) as [->|]; [cbn; lia|]. apply Z.log2_lt_pow2; lia.
  - destruct (Z.eq_dec b 0) as [->|]; [cbn; lia|]. apply Z.log2_lt_pow2; lia.
Qed.
Lemma set_bit_word reg k e : 0 <= reg < 65536 -> 0 <= k < 16 -> 0 <= set_bit reg (Z.shiftl 1 k) e < 65536.
Proof.
  intros Hr Hk. unfold set_bit. destruct (c_true e); [|apply u16_range]. apply lor_word; [done|].
  rewrite Z.shiftl_1_l. split; [lia|]. change 65536 with (2 ^ 16). apply Z.pow_lt_mono_r; lia.
Qed.

(** The five bits of the power in the word of the register. *)
Lemma power_bits reg config : 0 <= config < 32 -> Z.land (Z.lor (Z.land reg 0xffe0) (Z.land config 0x1f)) 0x1f = config.
Proof.
  intros H. rewrite Z.land_lor_distr_l, <- !Z.land_assoc. change (Z.land 0xffe0 0x1f) with 0. change (Z.land 0x1f 0x1f) with (Z.ones 5).
  rewrite Z.land_0_r, Z.lor_0_l, Z.land_ones by lia. apply Z.mod_small. lia.
Qed.
Lemma power_word reg config : 0 <= reg < 65536 -> 0 <= config < 32 -> 0 <= Z.lor (Z.land reg 0xffe0) (Z.land config 0x1f) < 65536.
Proof.
  intros H1 H2. apply lor_word; [|change 0x1f with (Z.ones 5); rewrite Z.land_ones by lia; pose proof (Z.mod_pos_bound config (2 ^ 5)); lia].
  assert (0 <= Z.land reg 0xffe0) by (by apply Z.land_nonneg; lia). split; [done|].
  destruct (Z.eq_dec (Z.land reg 0xffe0) 0) as [->|]; [lia|]. apply (Z.log2_lt_pow2 _ 16); [lia|].
  pose proof (Z.log2_land reg 0xffe0 ltac:(lia) ltac:(lia)). change (Z.log2 0xffe0) with 15 in *. lia.
Qed.

Section data.
Context {chip : Type} `{!Chip chip} `{!ChipLaws chip} `{!ChipData chip}.
Abbreviation RD := (M (radio chip)).

Definition same_settings (c c' : chip) : Prop := forall y, setting y c' = setting y c.

Lemma getreg_run x r : is_reg x ->
  exists v c, getreg x r = Ok (v, with_chip r c) /\ same_settings (radio_chip r) c /\ 0 <= v < 65536 /\
    v / 256 = setting x (radio_chip r) / 256 /\ (x <> CC2420_RSSI -> v = setting x (radio_chip r)).
Proof.
  intros Hx. destruct (getreg_answers x (radio_chip r) Hx) as (s & h & l & c & E & Hh & Hl & Eh & El & Hs).
  exists (256 * h + l), c. unfold getreg, transaction. erewrite bind_Ok by (by rewrite E).
  erewrite bind_Ok by reflexivity. erewrite bind_Ok by reflexivity. rewrite word_of_bytes by done.
  unfold is_byte in *. pose proof (setting_range x (radio_chip r)). split; [done|]. split; [done|]. split; [lia|]. split.
  - rewrite <- Eh. replace (256 * h + l) with (l + h * 256) by lia. rewrite Z.div_add by lia. rewrite Z.div_small by lia. lia.
  - intros H1. specialize (El H1). pose proof (Z.div_mod (setting x (radio_chip r)) 256). lia.
Qed.

Lemma setreg_run x v r : is_reg x -> 0 <= v < 65536 ->
  exists c, setreg x v r = Ok (tt, with_chip r c) /\ forall y, setting y c = if y =? x then v else setting y (radio_chip r).
Proof.
  intros Hx Hv. unfold setreg, transaction.
  assert (Eh : u8 (Z.shiftr v 8) = v / 256) by (rewrite Z.shiftr_div_pow2 by lia; apply uwrap_small; unfold in_u; split; [apply Z.div_pos; lia|apply Z.div_lt_upper_bound; lia]).
  assert (El : u8 (Z.land v 0xff) = v mod 256).
  { change 0xff with (Z.ones 8). rewrite Z.land_ones by lia. apply uwrap_idem. }
  rewrite Eh, El. pose proof (setreg_takes x (v / 256) (v mod 256) (radio_chip r)) as H.
  destruct (spi [x; v / 256; v mod 256; 0] (radio_chip r)) as [out c] eqn:E. exists c.
  split; [by erewrite bind_Ok by (by rewrite E)|]. intros y. cbn [snd] in H. rewrite H.
  - destruct (y =? x); [|done]. pose proof (Z.div_mod v 256). lia.
  - done.
  - split; [apply Z.div_pos; lia|apply Z.div_lt_upper_bound; lia].
  - apply Z.mod_pos_bound. lia.
Qed.

Lemma sets_run x r : fifop_port x = true ->
  exists c, sets x r = Ok (tt, with_chip r c) /\ same_settings (radio_chip r) c.
Proof. intros Hx. exists (set_port x (radio_chip r)). split; [done|]. intros y. by apply sets_keep. Qed.

Context (wait_fuel : nat).

(** The release of a lock taken once, without requests. *)
Lemma release_exact (r : radio chip) :
  locked r = 1 -> lock_on r = 0 -> lock_off r = 0 -> RELEASE_LOCK wait_fuel r = Ok (tt, r <| locked := 0 |>).
Proof.
  intros Hl Hon Hoff. unfold RELEASE_LOCK. rewrite bind_gets, Hl. cbn [Z.eqb Pos.eqb].
  unfold when at 1. erewrite bind_Ok; cycle 1.
  { rewrite bind_gets, Hon. cbn [c_true Z.eqb negb when]. erewrite bind_Ok by reflexivity. rewrite bind_gets, Hoff. reflexivity. }
  unfold modify. do 2 f_equal. unfold update. destruct r; cbn in *. by rewrite Hl.
Qed.

(** A locked section from an idle driver, exactly. *)
Lemma section_exact {A} (m : RD A) r a r1 :
  idle r -> m (r <| locked := 1 |>) = Ok (a, r1) -> locks r1 = (receive_on r, 1, 0, 0) ->
  with_lock wait_fuel m r = Ok (a, r1 <| locked := 0 |>).
Proof.
  intros Hi E L. injection L as _ Hl Hon Hoff. unfold with_lock. erewrite bind_Ok by (by apply get_lock_run).
  replace (taken r (radio_chip r)) with (r <| locked := 1 |>) by (by destruct r).
  erewrite bind_Ok by exact E. erewrite bind_Ok by (by apply release_exact). done.
Qed.

(** The driver after a section that changed the chip only. *)
Lemma section_chip {A} (m : RD A) r a c :
  idle r -> m (r <| locked := 1 |>) = Ok (a, with_chip (r <| locked := 1 |>) c) ->
  with_lock wait_fuel m r = Ok (a, with_chip r c).
Proof.
  intros Hi E. erewrite section_exact by (done || exact E || (unfold locks; cbn; by rewrite (id_lock_on _ Hi), (id_lock_off _ Hi))).
  do 2 f_equal. unfold with_chip, update. destruct r as [? ? ? ? ? lk]; cbn in *. f_equal. symmetry. apply Hi.
Qed.

Lemma idle_with_chip (r : radio chip) c : idle r -> idle (with_chip r c).
Proof. intros []. by split. Qed.

(** ** Registers behind the calls *)

(** A word of a register is changed under the lock. *)
Lemma change_reg x (f : Z -> Z) r :
  is_reg x -> x <> CC2420_RSSI -> (forall v, 0 <= v < 65536 -> 0 <= f v < 65536) -> idle r ->
  exists c, with_lock wait_fuel (reg ← getreg x; setreg x (f reg)) r = Ok (tt, with_chip r c) /\
    forall y, setting y c = if y =? x then f (setting x (radio_chip r)) else setting y (radio_chip r).
Proof.
  intros Hx Hr Hf Hi. set (r1 := r <| locked := 1 |>).
  destruct (getreg_run x r1 Hx) as (v & c1 & E1 & Hs & Hv & _ & Ev). specialize (Ev Hr). change (radio_chip r1) with (radio_chip r) in *.
  destruct (setreg_run x (f v) (with_chip r1 c1) Hx (Hf v Hv)) as (c2 & E2 & Hs2).
  exists c2. split; [|intros y; rewrite Hs2, Ev; destruct (y =? x); [done|apply Hs]].
  apply section_chip; [done|]. erewrite bind_Ok by exact E1. exact E2.
Qed.

(** A register is read under the lock. *)
Lemma read_reg {A} x (f : Z -> A) (r : radio chip) :
  is_reg x -> idle r ->
  exists v c, with_lock wait_fuel (reg ← getreg x; mret (f reg)) r = Ok (f v, with_chip r c) /\
    0 <= v < 65536 /\ v / 256 = setting x (radio_chip r) / 256 /\ (x <> CC2420_RSSI -> v = setting x (radio_chip r)).
Proof.
  intros Hx Hi. set (r1 := r <| locked := 1 |>). destruct (getreg_run x r1 Hx) as (v & c1 & E1 & _ & Hv & Hh & Ev).
  exists v, c1. split; [|done]. apply section_chip; [done|]. by erewrite bind_Ok by exact E1.
Qed.
End data.
