(* ===== verification/Cc2420Sim.v ===== *)
(** * Cc2420Sim: a chip

    A concrete chip with registers, FIFOs and a clock, which has the laws of
    [Cc2420Facts] and of [Cc2420Data]: the theorems about the driver are applied to it. *)
From stdpp Require Import numbers option list.
From S2P Require Import Prelude Packetbuf Cc2420 Cc2420Facts Cc2420Spec Cc2420Data.

Record sim := mk_sim { sim_time : Z; sim_regs : Z -> Z; sim_tx : list Z; sim_rx : list Z }.
#[export] Instance eta_sim : Eta sim := fun c => mk_sim (sim_time c) (sim_regs c) (sim_tx c) (sim_rx c).

Definition sim_setting (x : Z) (c : sim) : Z := u16 (sim_regs c x).
(** The status of a stable oscillator and a valid measurement. *)
Definition sim_status : Z := 0x42.

Definition zeros (l : list Z) : list Z := replicate (length l) 0.
Definition sim_command (x : Z) (args : list Z) (c : sim) : list Z * sim :=
  if x =? 0x7F then
    let n := length args in
    (take n (sim_rx c ++ replicate n 0), c <| sim_rx ::= drop n |>)
  else if x =? CC2420_TXFIFO then (zeros args, c <| sim_tx ::= fun l => l ++ args |>)
  else if x =? CC2420_SFLUSHTX then (zeros args, c <| sim_tx := [] |>)
  else if (0x10 <=? x) && (x <? 0x3E) then
    match args with
    | h :: l :: _ => (zeros args, c <| sim_regs ::= fun f y => if y =? x then 256 * h + l else f y |>)
    | _ => (zeros args, c)
    end
  else if (0x50 <=? x) && (x <? 0x7E) then
    let v := sim_setting (x - 0x40) c in
    (take (length args) ([v / 256; v mod 256] ++ zeros args), c)
  else (zeros args, c).
Definition sim_spi (out : list Z) (c : sim) : list Z * sim :=
  match out with
  | [] => ([], c <| sim_time ::= Z.add 1 |>)
  | x :: args => let '(l, c) := sim_command x args c in (sim_status :: l, c <| sim_time ::= Z.add 1 |>)
  end.
Definition sim_read (x : reading) (c : sim) : Z * sim :=
  match x with
  | FIFOP_IS_1 | FIFO_IS_1 => (if sim_rx c is [] then 0 else 1, c)
  | SFD_IS_1 | CCA_IS_1 => (1, c)
  | SFD_START_TIME => (7, c)
  | RTIMER_NOW => (u16 (sim_time c / 1), c <| sim_time ::= Z.add 1 |>)
  end.
#[export] Instance sim_chip : Chip sim := {| spi := sim_spi; read_port := sim_read; set_port := fun _ c => c |}.

Lemma sim_command_spec x args c :
  length (fst (sim_command x args c)) = length args /\ sim_time (snd (sim_command x args c)) = sim_time c.
Proof.
  unfold sim_command, zeros. repeat case_match; subst; cbn [fst snd]; (split; [|done]).
  all: rewrite ?length_take, ?length_app, ?length_replicate; cbn [length]; rewrite ?length_replicate; lia.
Qed.

#[export] Instance sim_laws : ChipLaws sim.
Proof.
  refine {| chip_time := sim_time; chip_scale := 1; chip_step := 1 |}; try lia.
  - intros [|x args] c; [done|]. cbn. pose proof (sim_command_spec x args c). destruct (sim_command x args c); cbn in *. lia.
  - intros [|x args] c; [cbn; lia|]. unfold spi, sim_chip, sim_spi. pose proof (sim_command_spec x args c) as [_ H].
    destruct (sim_command x args c) as [l c']; cbn in *. lia.
  - done.
  - intros c. cbn. lia.
Defined.

#[export] Instance sim_data : ChipData sim.
Proof.
  refine {| setting := sim_setting; tx_fifo := sim_tx; rx_fifo := sim_rx |}.
  - intros. apply u16_range.
  - intros x c Hx. exists sim_status. unfold is_reg in Hx.
    assert (E : Z.lor x 0x40 = x + 0x40).
    { assert (Z.land x 0x40 = 0) as E; [|pose proof (Z.add_lor_land x 0x40); lia].
      apply Z.bits_inj'. intros n Hn. rewrite Z.land_spec, Z.bits_0. change 0x40 with (2 ^ 6). rewrite Z.pow2_bits_eqb by lia.
      destruct (Z.eqb_spec 6 n) as [<-|]; [|by rewrite andb_false_r]. rewrite Z.bits_above_log2; [done|lia|].
      apply Z.log2_lt_pow2; lia. }
    rewrite E. exists (sim_setting x c / 256), (sim_setting x c mod 256). eexists. split.
    { cbn -[sim_setting Z.div Z.modulo Z.eqb Z.leb Z.ltb Z.add Z.sub]. unfold sim_command, CC2420_TXFIFO, CC2420_SFLUSHTX.
      assert ((x + 64 =? 0x7F) = false) as -> by lia. assert ((x + 64 =? 0x3E) = false) as -> by lia.
      assert ((x + 64 =? 9) = false) as -> by lia. assert ((16 <=? x + 64) && (x + 64 <? 62) = false) as -> by lia.
      assert ((80 <=? x + 64) && (x + 64 <? 126) = true) as -> by lia. replace (x + 64 - 64) with x by lia. reflexivity. }
    pose proof (u16_range (sim_regs c x)) as Hr. fold (sim_setting x c) in Hr. unfold is_byte.
    pose proof (Z.mod_pos_bound (sim_setting x c) 256). repeat split; try done; try lia; try (apply Z.div_pos; lia).
    apply Z.div_lt_upper_bound; lia.
  - intros x h l c y Hx Hh Hl. unfold is_reg, is_byte in *.
    cbn -[sim_setting Z.eqb Z.leb Z.ltb Z.add Z.sub]. unfold sim_command, CC2420_TXFIFO, CC2420_SFLUSHTX.
    assert ((x =? 0x7F) = false) as -> by lia. assert ((x =? 0x3E) = false) as -> by lia.
    assert ((x =? 9) = false) as -> by lia. assert ((16 <=? x) && (x <? 62) = true) as -> by lia.
    unfold sim_setting. cbn -[Z.eqb Z.add Z.mul uwrap]. destruct (y =? x); [|done]. apply uwrap_small. unfold in_u. lia.
  - done.
  - done.
  - done.
  - intros n c Hn. exists sim_status. eexists. split.
    { cbn -[take drop replicate length]. unfold sim_command. cbn -[take drop replicate length].
      rewrite length_replicate, take_app_le by done. reflexivity. }
    done.
  - by intros [] c.
Defined.

(** A driver with that chip: the radio on or off, [rx] in the FIFO. *)
Definition sim_radio (on : Z) (rx : list Z) : radio sim :=
  mk_radio (mk_sim 0 (fun _ => 0) [] rx) on 26 0 1 0 0 0 0 0 0 false false 0
    (mk_packetbuf (replicate (Z.to_nat PACKETBUF_SIZE) 0) 0 0 0 (replicate PACKETBUF_NUM_ATTRS 0) (replicate PACKETBUF_NUM_ADDRS 0)).
Lemma sim_idle on rx : on = 0 \/ on = 1 -> idle (sim_radio on rx).
Proof. by split. Qed.
Lemma sim_fuel : 52 * chip_scale (chip := sim) < Z.of_nat 60.
Proof. cbn. lia. Qed.
