(* ===== verification/Cc2420Calls.v ===== *)
(** * Cc2420Calls: sequences of calls of the radio driver

    Whatever calls the stack makes of an idle driver, each returns and leaves the driver
    idle; what a call under the lock asks for happens when the lock is released, the
    calls that measure the channel with the radio off show what that costs. *)
From stdpp Require Import numbers option list.
From S2P Require Import Prelude Packetbuf Cc2420 Cc2420Facts Cc2420Spec Cc2420Data Cc2420Sim.

Lemma existsb_same {A} (f g : A -> bool) l : (forall a, f a = g a) -> existsb f l = existsb g l.
Proof. intros H. induction l as [|a l IH]; [done|]. cbn. by rewrite H, IH. Qed.

Section measuring.
Context {chip : Type} `{!Chip chip} `{!ChipLaws chip} (wait_fuel : nat).
Context (enough_fuel : 52 * chip_scale < Z.of_nat wait_fuel).
Abbreviation RD := (M (radio chip)).

(** ** Measuring the channel *)

Lemma wait_taken want bit r c :
  exists c', (t0 ← reads RTIMER_NOW; wait_loop wait_fuel want bit t0) (taken r c) = Ok (tt, taken r c').
Proof. destruct (bus_taken _ _ r c (bus_wait wait_fuel enough_fuel want bit)) as ([] & c' & E & _). by exists c'. Qed.

(** What was deferred under the lock of [r] when the radio is off. *)
Lemma on_deferred r c :
  receive_on r = 0 -> (cc2420_on wait_fuel ;; skip) (taken r c) = Ok (tt, (taken r c) <| lock_on := 1 |>).
Proof. intros H. unfold cc2420_on. erewrite bind_Ok; [reflexivity|]. rewrite bind_gets. change (receive_on (taken r c)) with (receive_on r). by rewrite H. Qed.

Lemma release_deferred r c :
  idle r -> exists c', RELEASE_LOCK wait_fuel ((taken r c) <| lock_on := 1 |>) = Ok (tt, after r c' 1).
Proof.
  intros Hi. destruct (release_run wait_fuel enough_fuel ((taken r c) <| lock_on := 1 |>)) as [c' E]; [done|by right|left; apply Hi|].
  exists c'. rewrite E. change (lock_off (_ <| lock_on := 1 |>)) with (lock_off r). rewrite (id_lock_off _ Hi). by destruct r.
Qed.

Lemma rssi_on r :
  idle r -> receive_on r = 1 -> exists v c, cc2420_rssi wait_fuel r = Ok (v, after r c 1).
Proof.
  intros Hi Hr. unfold cc2420_rssi. rewrite bind_gets, (id_locked _ Hi). cbn [c_true Z.eqb negb].
  erewrite bind_Ok by (by apply get_lock_run). rewrite bind_gets. cbv zeta.
  change (receive_on (taken r _)) with (receive_on r). rewrite Hr. cbn [c_true Z.eqb negb when].
  erewrite bind_Ok by reflexivity. destruct (wait_taken true (BV CC2420_RSSI_VALID) r (radio_chip r)) as [c1 E1].
  unfold wait_for_status. erewrite bind_Ok by exact E1.
  destruct (bus_taken _ _ r c1 (bus_getreg CC2420_RSSI)) as (reg & c2 & E2 & _). erewrite bind_Ok by exact E2.
  erewrite bind_Ok by reflexivity. destruct (release_taken wait_fuel enough_fuel r c2 Hi) as [c3 E3].
  erewrite bind_Ok by exact E3. rewrite Hr. by eexists _, c3.
Qed.

Lemma rssi_off r :
  idle r -> receive_on r = 0 -> exists v c, cc2420_rssi wait_fuel r = Ok (v, after r c 1).
Proof.
  intros Hi Hr. unfold cc2420_rssi. rewrite bind_gets, (id_locked _ Hi). cbn [c_true Z.eqb negb].
  erewrite bind_Ok by (by apply get_lock_run). rewrite bind_gets. cbv zeta.
  change (receive_on (taken r _)) with (receive_on r). rewrite Hr. cbn [c_true Z.eqb negb when].
  erewrite bind_Ok by (by apply on_deferred). set (r1 := update lock_on _ _).
  destruct (bus_wait wait_fuel enough_fuel true (BV CC2420_RSSI_VALID) r1) as ([] & c1 & E1 & _).
  unfold wait_for_status. erewrite bind_Ok by exact E1.
  destruct (bus_getreg CC2420_RSSI (r1 <| radio_chip := c1 |>)) as (reg & c2 & E2 & _). erewrite bind_Ok by exact E2.
  erewrite bind_Ok; cycle 1.
  { unfold cc2420_off. erewrite bind_Ok; [reflexivity|]. rewrite bind_gets.
    change (receive_on (r1 <| radio_chip := c1 |> <| radio_chip := c2 |>)) with (receive_on r). by rewrite Hr. }
  destruct (release_deferred r c2 Hi) as [c3 E3]. erewrite bind_Ok by exact E3. by eexists _, c3.
Qed.

Lemma cca_on r :
  idle r -> receive_on r = 1 -> exists v c, cc2420_cca wait_fuel r = Ok (v, after r c 1).
Proof.
  intros Hi Hr. unfold cc2420_cca. rewrite bind_gets, (id_locked _ Hi). cbn [c_true Z.eqb negb].
  erewrite bind_Ok by (by apply get_lock_run). rewrite bind_gets. cbv zeta.
  change (receive_on (taken r _)) with (receive_on r). rewrite Hr. cbn [c_true Z.eqb negb when].
  erewrite bind_Ok by reflexivity. rewrite bind_gets. change (receive_on (taken r _)) with (receive_on r). rewrite Hr.
  cbn [c_true Z.eqb negb when]. destruct (wait_taken true (BV CC2420_RSSI_VALID) r (radio_chip r)) as [c1 E1].
  unfold wait_for_status. erewrite bind_Ok by exact E1.
  destruct (bus_taken _ _ r c1 (bus_reads CCA_IS_1)) as (v & c2 & E2 & _). erewrite bind_Ok by exact E2.
  erewrite bind_Ok by reflexivity. destruct (release_taken wait_fuel enough_fuel r c2 Hi) as [c3 E3].
  erewrite bind_Ok by exact E3. rewrite Hr. by eexists _, c3.
Qed.

Lemma cca_off r :
  idle r -> receive_on r = 0 -> exists c, cc2420_cca wait_fuel r = Ok (1, after r c 0).
Proof.
  intros Hi Hr. unfold cc2420_cca. rewrite bind_gets, (id_locked _ Hi). cbn [c_true Z.eqb negb].
  erewrite bind_Ok by (by apply get_lock_run). rewrite bind_gets. cbv zeta.
  change (receive_on (taken r _)) with (receive_on r). rewrite Hr. cbn [c_true Z.eqb negb when].
  erewrite bind_Ok by (by apply on_deferred). rewrite bind_gets. change (receive_on (_ <| lock_on := 1 |>)) with (receive_on r).
  rewrite Hr. cbn [c_true Z.eqb negb when]. destruct (release_deferred r (radio_chip r) Hi) as [c1 E1].
  erewrite bind_Ok by exact E1.
  destruct (off_call wait_fuel enough_fuel (after r c1 1)) as [c2 E2]; [by apply after_idle; right|].
  exists c2. erewrite bind_Ok; [reflexivity|]. erewrite bind_Ok by exact E2. by destruct r.
Qed.

(** C14. A channel that is not heard: with the radio off, the request to turn it on is
    deferred because the caller itself holds the lock; the clear channel assessment then
    says that the channel is clear, whatever the chip sees, and turns the radio off
    again; a reading of the signal strength waits, reads, and leaves the radio on. *)
Theorem channel_unheard r :
  idle r -> receive_on r = 0 ->
  (exists c, cc2420_cca wait_fuel r = Ok (1, after r c 0)) /\
  (exists v c, cc2420_rssi wait_fuel r = Ok (v, after r c 1)).
Proof. intros Hi Hr. split; [by apply cca_off|by apply rssi_off]. Qed.

(** ** Requests under the lock *)

(** [cc2420_on] or [cc2420_off], as callers under the lock make them. *)
Definition request (on : bool) : RD unit :=
  if on then cc2420_on wait_fuel ;; skip else cc2420_off wait_fuel ;; skip.
Fixpoint requests (l : list bool) : RD unit :=
  match l with [] => skip | q :: l => request q ;; requests l end.

Lemma requests_run l : forall r, locked r = 1 -> receive_on r = 0 \/ receive_on r = 1 ->
  requests l r = Ok (tt, r <| lock_on := if (receive_on r =? 0) && existsb id l then 1 else lock_on r |>
                           <| lock_off := if (receive_on r =? 1) && existsb negb l then 1 else lock_off r |>).
Proof.
  induction l as [|q l IH]; intros r Hl Hr; cbn [requests existsb].
  { rewrite !andb_false_r. by destruct r. }
  assert (E : request q r = Ok (tt, r <| lock_on := if (receive_on r =? 0) && q then 1 else lock_on r |>
                                      <| lock_off := if (receive_on r =? 1) && negb q then 1 else lock_off r |>)).
  { destruct q; unfold request, cc2420_on, cc2420_off; erewrite bind_Ok.
    1, 3: reflexivity.
    all: rewrite bind_gets; destruct Hr as [-> | ->]; cbn [c_true Z.eqb Pos.eqb negb andb]; [rewrite ?bind_gets, ?Hl|rewrite ?bind_gets, ?Hl].
    all: by destruct r. }
  erewrite bind_Ok by exact E. rewrite IH by done. f_equal. f_equal. destruct Hr as [Hr|Hr].
  - destruct r; cbn in *; subst; unfold update; cbn. f_equal. by destruct q, (existsb id l).
  - destruct r; cbn in *; subst; unfold update; cbn. f_equal. by destruct q, (existsb negb l).
Qed.

(** Requests under the lock: whatever sequence of calls to [cc2420_on] and
    [cc2420_off] is made while the driver is locked, all return at once, and when the
    lock is released the radio changes state exactly when some call asked for the other
    state; so the order does not count, and a last call that asks for the present state
    does not take back an earlier one. *)
Theorem deferred_requests l r :
  locked r = 1 -> lock_on r = 0 -> lock_off r = 0 -> receive_on r = 0 \/ receive_on r = 1 ->
  exists c, (requests l ;; RELEASE_LOCK wait_fuel) r = Ok (tt, after r c
    (if existsb (fun q => negb (b2z q =? receive_on r)) l then 1 - receive_on r else receive_on r)).
Proof.
  intros Hl H1 H2 Hr. erewrite bind_Ok by (by apply requests_run). rewrite H1, H2. set (r1 := update lock_off _ _).
  assert (Eon : lock_on r1 = if (receive_on r =? 0) && existsb id l then 1 else 0) by done.
  assert (Eoff : lock_off r1 = if (receive_on r =? 1) && existsb negb l then 1 else 0) by done.
  destruct (release_run wait_fuel enough_fuel r1) as [c E]; [done|rewrite Eon; destruct (existsb id l), (receive_on r =? 0); cbn; tauto|rewrite Eoff; destruct (existsb negb l), (receive_on r =? 1); cbn; tauto|].
  exists c. rewrite E, Eon, Eoff. change (receive_on r1) with (receive_on r). destruct Hr as [-> | ->]; cbn [Z.eqb Pos.eqb andb c_true negb].
  - rewrite (existsb_same (fun q => negb (b2z q =? 0)) id) by (by intros []). by destruct r, (existsb id l).
  - rewrite (existsb_same (fun q => negb (b2z q =? 1)) negb) by (by intros []). by destruct r, (existsb negb l).
Qed.

(** ** All the calls *)

(** The operations of [cc2420_driver] and the other functions other files call. *)
Inductive radio_op :=
  | DO_init | DO_prepare (payload : list Z) (payload_len : Z) | DO_transmit (payload_len : Z)
  | DO_send (payload : list Z) (payload_len : Z) | DO_read (bufsize : Z) | DO_cca | DO_receiving_packet
  | DO_pending_packet | DO_on | DO_off | DO_get_value (p : radio_param) | DO_set_value (p : radio_param) (v : Z)
  | DO_get_object (p : radio_param) (size : Z)
  | DO_interrupt | DO_rssi | DO_set_pan_addr (pan addr : Z) (ieee_addr : option (list Z)) | DO_set_key (key : list Z).

Definition radio_call (o : radio_op) : RD unit :=
  match o with
  | DO_init => cc2420_init wait_fuel ;; skip
  | DO_prepare payload payload_len => cc2420_prepare wait_fuel payload payload_len ;; skip
  | DO_transmit payload_len => cc2420_transmit wait_fuel payload_len ;; skip
  | DO_send payload payload_len => cc2420_send wait_fuel payload payload_len ;; skip
  | DO_read bufsize => cc2420_read wait_fuel bufsize ;; skip
  | DO_cca => cc2420_cca wait_fuel ;; skip
  | DO_receiving_packet => cc2420_receiving_packet ;; skip
  | DO_pending_packet => pending_packet ;; skip
  | DO_on => cc2420_on wait_fuel ;; skip
  | DO_off => cc2420_off wait_fuel ;; skip
  | DO_get_value p => get_value wait_fuel p ;; skip
  | DO_set_value p v => set_value wait_fuel p v ;; skip
  | DO_get_object p size => get_object p size ;; skip
  | DO_interrupt => cc2420_interrupt ;; skip
  | DO_rssi => cc2420_rssi wait_fuel ;; skip
  | DO_set_pan_addr pan addr ieee_addr => cc2420_set_pan_addr wait_fuel pan addr ieee_addr
  | DO_set_key key => set_key wait_fuel key
  end.
Fixpoint radio_calls (l : list radio_op) : RD unit :=
  match l with [] => skip | o :: l => radio_call o ;; radio_calls l end.

(** What a caller owes: the bytes it announces are there, and no more than a [uint8_t]
    counts. *)
Definition op_ok (o : radio_op) : Prop :=
  match o with
  | DO_prepare payload n | DO_send payload n => 0 <= n <= 255 /\ n <= Z.of_nat (length payload)
  | DO_read bufsize => 0 <= bufsize
  | DO_set_pan_addr _ _ (Some a) => length a = 8%nat
  | DO_set_key key => length key = 16%nat
  | _ => True
  end.

Definition any {A} : A -> Prop := fun _ => True.

Lemma calls_bus {A} (m : RD A) P : bus m P -> calls m any.
Proof. intros H. apply calls_steady, steady_bus. by eapply bus_mono. Qed.
Lemma calls_any {A} (m : RD A) P : calls m P -> calls m any.
Proof. intros H r Hi. destruct (H r Hi) as (a & r' & E & Hi' & _). by exists a, r'. Qed.
Lemma calls_then {A} (m : RD A) P : calls m P -> calls (m ;; skip) any.
Proof. intros H. eapply calls_bind; [exact H|]. intros a _. by apply calls_ret. Qed.
Lemma section_any {A} (m : RD A) P : bus m P -> calls (with_lock wait_fuel m) any.
Proof. intros H. eapply calls_any, calls_section, steady_bus, H. exact enough_fuel. Qed.

Lemma calls_on : calls (cc2420_on wait_fuel) any.
Proof. apply calls_after. intros r Hi. destruct (on_call wait_fuel enough_fuel r Hi) as [c E]. exists 1, c, 1. rewrite E. unfold any. auto. Qed.
Lemma calls_off : calls (cc2420_off wait_fuel) any.
Proof. apply calls_after. intros r Hi. destruct (off_call wait_fuel enough_fuel r Hi) as [c E]. exists 1, c, 0. rewrite E. unfold any. auto. Qed.
Lemma calls_rssi : calls (cc2420_rssi wait_fuel) any.
Proof.
  apply calls_after. intros r Hi.
  destruct (id_on _ Hi) as [Hr|Hr]; [destruct (rssi_off r Hi Hr) as (v & c & E)|destruct (rssi_on r Hi Hr) as (v & c & E)].
  all: exists v, c, 1; rewrite E; unfold any; auto.
Qed.
Lemma calls_cca : calls (cc2420_cca wait_fuel) any.
Proof.
  apply calls_after. intros r Hi. destruct (id_on _ Hi) as [Hr|Hr].
  - destruct (cca_off r Hi Hr) as (c & E). exists 1, c, 0. rewrite E. unfold any. auto.
  - destruct (cca_on r Hi Hr) as (v & c & E). exists v, c, 1. rewrite E. unfold any. auto.
Qed.
Lemma calls_transmit n : calls (cc2420_transmit wait_fuel n) any.
Proof.
  apply calls_after. intros r Hi. destruct (transmit_call wait_fuel enough_fuel n r Hi) as (v & c & E & _).
  exists v, c, (receive_on r). rewrite E. unfold any. destruct (id_on _ Hi); auto.
Qed.
Lemma calls_prepare payload n :
  0 <= n <= 255 -> n <= Z.of_nat (length payload) -> calls (cc2420_prepare wait_fuel payload n) any.
Proof.
  intros H1 H2. apply calls_after. intros r Hi. destruct (prepare_call wait_fuel payload n r Hi H1 H2) as (c & E).
  exists 0, c, (receive_on r). rewrite E. unfold any. destruct (id_on _ Hi); auto.
Qed.

(** *** The settings *)

Ltac any_bus := lazymatch goal with
  | |- bus (mbind _ _) _ => eapply bus_bind with (P := any); [any_bus|intros ? _; any_bus]
  | |- bus (getreg _) _ => apply bus_getreg
  | |- bus (setreg _ _) _ => apply bus_setreg
  | |- bus (mret _) _ => by apply bus_same
  end.

Lemma calls_set_txpower p : calls (cc2420_set_txpower wait_fuel p) any.
Proof. eapply section_any, bus_set_txpower. Qed.
Lemma calls_get_txpower : calls (cc2420_get_txpower wait_fuel) any.
Proof. eapply section_any with (P := any). any_bus. Qed.
Lemma calls_get_cca_threshold : calls (get_cca_threshold wait_fuel) any.
Proof. eapply section_any with (P := any). any_bus. Qed.
Lemma calls_set_cca_threshold v : calls (cc2420_set_cca_threshold wait_fuel v) any.
Proof. eapply section_any, bus_setreg. Qed.
Lemma calls_set_auto_ack v : calls (set_auto_ack wait_fuel v) any.
Proof. eapply section_any with (P := any). any_bus. Qed.
Lemma calls_set_frame_filtering v : calls (set_frame_filtering wait_fuel v) any.
Proof. eapply section_any with (P := any). any_bus. Qed.
Lemma calls_set_poll_mode v : calls (set_poll_mode wait_fuel v) any.
Proof.
  eapply calls_any with (P := any), calls_section; [exact enough_fuel|].
  eapply steady_bind; [by apply steady_modify|]. intros _ _. apply steady_bus.
  destruct (c_true v); repeat (eapply bus_bind with (P := any); [apply bus_sets|intros _ _]); apply bus_sets.
Qed.
Lemma calls_set_channel c : calls (cc2420_set_channel wait_fuel c) any.
Proof.
  unfold cc2420_set_channel. eapply calls_bind with (P := any); [|intros _ _; by apply calls_ret].
  eapply calls_any with (P := any), calls_section; [exact enough_fuel|].
  eapply steady_bind; [by apply steady_modify|]. intros _ _. cbv zeta.
  eapply steady_bind; [eapply steady_bus, bus_wait, enough_fuel|]. intros _ _.
  eapply steady_bind; [apply steady_bus, bus_setreg|]. intros _ _.
  eapply steady_bind; [apply steady_gets|]. intros r _. apply steady_when, steady_bus, bus_strobe.
Qed.
Lemma calls_set_pan_addr pan addr ieee :
  op_ok (DO_set_pan_addr pan addr ieee) -> calls (cc2420_set_pan_addr wait_fuel pan addr ieee) any.
Proof.
  intros H. eapply section_any with (P := any).
  eapply bus_bind; [apply bus_write_ram; cbn; lia|]. intros _ _.
  eapply bus_bind; [apply bus_write_ram; cbn; lia|]. intros _ _.
  destruct ieee as [a|]; [cbn in H; apply bus_write_ram; lia|apply bus_skip].
Qed.
Lemma calls_set_key key : length key = 16%nat -> calls (set_key wait_fuel key) any.
Proof. intros H. eapply section_any, bus_write_ram; lia. Qed.
Lemma calls_setreg x v : calls (setreg x v) any.
Proof. eapply calls_bus, bus_setreg. Qed.
Lemma calls_getreg x : calls (getreg x) any.
Proof. eapply calls_bus, bus_getreg. Qed.
Lemma calls_sets x : calls (sets x) any.
Proof. eapply calls_bus, bus_sets. Qed.
Lemma calls_gets {A} (f : radio chip -> A) : calls (gets f) any.
Proof. eapply calls_any, calls_steady, steady_gets. Qed.
Lemma calls_wait b : calls (wait_for_status wait_fuel b) any.
Proof. eapply calls_bus, bus_wait, enough_fuel. Qed.
Lemma calls_strobe x : calls (strobe x) any.
Proof. eapply calls_bus, bus_strobe. Qed.
Lemma calls_flushrx : calls (flushrx : RD unit) any.
Proof. eapply calls_bus, bus_flushrx. Qed.
Lemma calls_modify (f : radio chip -> radio chip) : (forall r, locks (f r) = locks r) -> calls (modify f) any.
Proof. intros H. eapply calls_any, calls_steady, steady_modify, H. Qed.

Create HintDb radio.
Hint Resolve calls_on calls_off calls_rssi calls_cca calls_transmit calls_set_txpower calls_get_txpower
  calls_get_cca_threshold calls_set_cca_threshold calls_set_auto_ack calls_set_frame_filtering
  calls_set_poll_mode calls_set_channel calls_setreg calls_getreg calls_sets calls_gets calls_wait
  calls_strobe calls_flushrx : radio.
Ltac radio_step := lazymatch goal with
  | |- calls (mbind _ _) _ => eapply calls_bind with (P := any); [radio_step|intros ? _; radio_step]
  | |- calls (let _ := _ in _) _ => cbv zeta; radio_step
  | |- calls (mret _) _ => by apply calls_ret
  | |- calls (modify _) _ => by apply calls_modify
  | |- calls (if ?b then _ else _) _ => destruct b; radio_step
  | |- _ => first [by auto with radio | by apply (calls_ret tt)]
  end.

Lemma calls_get_value p : calls (get_value wait_fuel p) any.
Proof. destruct p; unfold get_value, cc2420_get_channel; radio_step. Qed.
Lemma calls_set_value p v : calls (set_value wait_fuel p v) any.
Proof. destruct p; unfold set_value, set_send_on_cca; radio_step. Qed.
Lemma calls_init : calls (cc2420_init wait_fuel) any.
Proof.
  unfold cc2420_init, init_security. assert (Hp : calls (cc2420_set_pan_addr wait_fuel 0xffff 0 None : RD unit) any) by (by apply calls_set_pan_addr).
  radio_step.
Qed.

Lemma radio_call_returns o : op_ok o -> calls (radio_call o) any.
Proof.
  intros Ho. destruct o; cbn [radio_call]; cbn [op_ok] in Ho.
  all: try (eapply calls_then with (P := any)).
  - apply calls_init.
  - apply calls_prepare; apply Ho.
  - apply calls_transmit.
  - eapply calls_bind; [apply calls_prepare; apply Ho|]. intros _ _. apply calls_transmit.
  - eapply calls_any, read_call; [exact enough_fuel|done].
  - apply calls_cca.
  - eapply calls_bus, bus_reads.
  - eapply calls_bus, bus_reads.
  - apply calls_on.
  - apply calls_off.
  - apply calls_get_value.
  - apply calls_set_value.
  - unfold get_object. destruct p; try (by apply (calls_ret (_, None))). destruct (negb (size =? 2)); [by apply calls_ret|].
    eapply calls_bind; [eapply calls_bus, bus_reads|]. intros t _. by apply calls_ret.
  - unfold cc2420_interrupt, poll_process. assert (calls (reads SFD_START_TIME) any) by (eapply calls_bus, bus_reads). radio_step.
  - apply calls_rssi.
  - by apply calls_set_pan_addr.
  - by apply calls_set_key.
Qed.

End measuring.

Lemma channel_unheard_witness :
  let r := sim_radio 0 [] in idle r /\ receive_on r = 0 /\
  (exists c, cc2420_cca 60 r = Ok (1, after r c 0)) /\ (exists v c, cc2420_rssi 60 r = Ok (v, after r c 1)).
Proof.
  split; [apply sim_idle; by left|]. split; [done|].
  apply (channel_unheard 60 sim_fuel); [apply sim_idle; by left|done].
Defined.

(** Off and on again under the lock of a radio that is on: it ends off. *)
Lemma deferred_requests_witness :
  let r := (sim_radio 1 []) <| locked := 1 |> in
  exists c, (requests 60 [false; true] ;; RELEASE_LOCK 60) r = Ok (tt, after r c 0).
Proof.
  destruct (deferred_requests 60 sim_fuel [false; true] ((sim_radio 1 []) <| locked := 1 |>)) as [c E]; try (by right); [done..|].
  by exists c.
Defined.

