(* ===== verification/Cc2420Params.v ===== *)
(** * Cc2420Params: the parameters of the radio

    [set_value] and [get_value] of the driver against the registers of the chip: which
    values are accepted, and what is read back of them. *)
From stdpp Require Import numbers option list.
From S2P Require Import Prelude Packetbuf Cc2420 Cc2420Facts Cc2420Spec Cc2420Data Cc2420Sim.

(** The values [set_value] accepts. *)
Definition param_accepts (p : radio_param) (v : Z) : bool :=
  match p with
  | RADIO_PARAM_POWER_MODE => (v =? 0) || (v =? 1)
  | RADIO_PARAM_CHANNEL => (11 <=? v) && (v <=? 26)
  | RADIO_PARAM_RX_MODE => (0 <=? v) && (v <=? 7)
  | RADIO_PARAM_TX_MODE => (0 <=? v) && (v <=? 1)
  | RADIO_PARAM_TXPOWER => (-25 <=? v) && (v <=? 0)
  | RADIO_PARAM_CCA_THRESHOLD => true
  | _ => false
  end.
(** The parameters [set_value] knows; the others are not supported. *)
Definition param_settable (p : radio_param) : bool :=
  match p with
  | RADIO_PARAM_POWER_MODE | RADIO_PARAM_CHANNEL | RADIO_PARAM_RX_MODE | RADIO_PARAM_TX_MODE
  | RADIO_PARAM_TXPOWER | RADIO_PARAM_CCA_THRESHOLD => true
  | _ => false
  end.
(** What is read back of an accepted value [v]: of the transmission power, the smallest
    power of the table that is at least [v]; of the threshold, a signed byte after the
    offset; the value itself otherwise. *)
Definition reads_back (p : radio_param) (v w : Z) : Prop :=
  match p with
  | RADIO_PARAM_TXPOWER => w ∈ output_power.*1 /\ v <= w /\ forall w', w' ∈ output_power.*1 -> v <= w' -> w <= w'
  | RADIO_PARAM_CCA_THRESHOLD => w = s8 (v + 45) - 45
  | _ => w = v
  end.

(** ** The power table *)

Lemma config_small v : -25 <= v <= 0 -> 0 <= config_of (tail output_power) v 31 < 32.
Proof. intros _. cbn. repeat case_match; lia. Qed.

Definition power_spec (v : Z) : bool :=
  let w := power_of output_power (config_of (tail output_power) v 31) OUTPUT_POWER_MIN in
  bool_decide (w ∈ output_power.*1) && (v <=? w) && forallb (fun w' => (w' <? v) || (w <=? w')) (output_power.*1).
Lemma powers_checked : forallb power_spec (seqZ (-25) 26) = true.
Proof. by vm_compute. Qed.
Lemma power_found v : -25 <= v <= 0 ->
  reads_back RADIO_PARAM_TXPOWER v (power_of output_power (config_of (tail output_power) v 31) OUTPUT_POWER_MIN).
Proof.
  intros Hv. pose proof powers_checked as H. rewrite forallb_forall in H.
  specialize (H v ltac:(apply list_elem_of_In, elem_of_seqZ; lia)). unfold power_spec in H.
  apply andb_true_iff in H as [H H3]. apply andb_true_iff in H as [H1 H2].
  split; [by apply bool_decide_eq_true in H1|]. split; [lia|]. intros w' Hw' Hle.
  rewrite forallb_forall in H3. apply list_elem_of_In in Hw'. specialize (H3 w' Hw'). lia.
Qed.

(** ** The modes *)

Lemma mode_bits v : c_true (Z.land v (Z.lnot 7)) = negb ((0 <=? v) && (v <=? 7)).
Proof.
  assert (E : Z.land v (Z.lnot 7) = v - v mod 8).
  { change 7 with (Z.ones 3). rewrite <- Z.ldiff_land, Z.ldiff_ones_r, Z.shiftl_mul_pow2, Z.shiftr_div_pow2 by lia.
    change (2 ^ 3) with 8. pose proof (Z.div_mod v 8). lia. }
  unfold c_true. rewrite E. f_equal. pose proof (Z.mod_pos_bound v 8). destruct (Z.eqb_spec (v - v mod 8) 0).
  - destruct (Z.leb_spec 0 v), (Z.leb_spec v 7); lia.
  - destruct (Z.leb_spec 0 v), (Z.leb_spec v 7); try lia. rewrite Z.mod_small in n by lia. lia.
Qed.
Lemma tx_mode_bits v : c_true (Z.land v (Z.lnot 1)) = negb ((0 <=? v) && (v <=? 1)).
Proof.
  assert (E : Z.land v (Z.lnot 1) = v - v mod 2).
  { change 1 with (Z.ones 1) at 1. rewrite <- Z.ldiff_land, Z.ldiff_ones_r, Z.shiftl_mul_pow2, Z.shiftr_div_pow2 by lia.
    change (2 ^ 1) with 2. pose proof (Z.div_mod v 2). lia. }
  unfold c_true. rewrite E. f_equal. pose proof (Z.mod_pos_bound v 2). destruct (Z.eqb_spec (v - v mod 2) 0).
  - destruct (Z.leb_spec 0 v), (Z.leb_spec v 1); lia.
  - destruct (Z.leb_spec 0 v), (Z.leb_spec v 1); try lia. rewrite Z.mod_small in n by lia. lia.
Qed.

Section params.
Context {chip : Type} `{!Chip chip} `{!ChipLaws chip} `{!ChipData chip} (wait_fuel : nat).
Context (enough_fuel : 52 * chip_scale < Z.of_nat wait_fuel).
Abbreviation RD := (M (radio chip)).

(** [set_value] accepts [v], and what [get_value] then returns. *)
Definition sets_to (p : radio_param) (v : Z) (r : radio chip) : Prop :=
  exists r' r'' w, set_value wait_fuel p v r = Ok (RADIO_RESULT_OK, r') /\ idle r' /\
    get_value wait_fuel p r' = Ok ((RADIO_RESULT_OK, Some w), r'') /\ reads_back p v w.

Lemma power_mode_sets v r : idle r -> v = 0 \/ v = 1 -> sets_to RADIO_PARAM_POWER_MODE v r.
Proof.
  intros Hi [-> | ->].
  - destruct (off_call wait_fuel enough_fuel r Hi) as [c E]. exists (after r c 0), (after r c 0), 0.
    split; [cbn [set_value Z.eqb]; by erewrite bind_Ok by exact E|]. split; [apply after_idle; auto|done].
  - destruct (on_call wait_fuel enough_fuel r Hi) as [c E]. exists (after r c 1), (after r c 1), 1.
    split; [cbn [set_value Z.eqb Pos.eqb]; by erewrite bind_Ok by exact E|]. split; [apply after_idle; auto|done].
Qed.

Lemma channel_sets v r : idle r -> 11 <= v <= 26 -> sets_to RADIO_PARAM_CHANNEL v r.
Proof.
  intros Hi Hv. set (r1 := r <| locked := 1 |> <| channel := v |>). set (f := u16 (5 * (v - 11) + 357 + 0x4000)).
  destruct (bus_wait wait_fuel enough_fuel false (BV CC2420_TX_ACTIVE) r1) as ([] & c1 & E1 & _).
  destruct (bus_setreg CC2420_FSCTRL f (with_chip r1 c1)) as ([] & c2 & E2 & _).
  destruct (bus_when (c_true (receive_on r)) _ (bus_strobe CC2420_SRXON) (with_chip r1 c2)) as ([] & c & E3 & _).
  assert (Es : with_lock wait_fuel ((channel <~ v) ;; wait_for_transmission wait_fuel ;; setreg CC2420_FSCTRL f ;;
    r ← gets receive_on; when (c_true r) (strobe CC2420_SRXON)) r = Ok (tt, (with_chip r1 c) <| locked := 0 |>)).
  { apply section_exact; [done| |unfold locks; cbn; by rewrite (id_lock_on _ Hi), (id_lock_off _ Hi)].
    rewrite bind_modify. erewrite bind_Ok by exact E1. erewrite bind_Ok by exact E2. exact E3. }
  exists ((with_chip r1 c) <| locked := 0 |>), ((with_chip r1 c) <| locked := 0 |>), v. split; [|split; [|done]].
  - unfold set_value. assert ((v <? 11) || (26 <? v) = false) as -> by lia. erewrite bind_Ok; [reflexivity|].
    unfold cc2420_set_channel. by erewrite bind_Ok by exact Es.
  - split; [done|apply Hi|apply Hi|apply Hi].
Qed.

Lemma tx_mode_sets v r : idle r -> 0 <= v <= 1 -> sets_to RADIO_PARAM_TX_MODE v r.
Proof.
  intros Hi Hv. exists (r <| send_on_cca := b2z (c_true (Z.land v RADIO_TX_MODE_SEND_ON_CCA)) |>). eexists _, v.
  split; [|split; [|split; [|done]]].
  - unfold set_value. rewrite tx_mode_bits. by assert ((0 <=? v) && (v <=? 1) = true) as -> by lia.
  - split; apply Hi.
  - unfold get_value. rewrite bind_gets. unfold mret, M_ret. do 4 f_equal. assert (v = 0 \/ v = 1) as [-> | ->] by lia; done.
Qed.

Lemma txpower_sets v r : idle r -> -25 <= v <= 0 -> sets_to RADIO_PARAM_TXPOWER v r.
Proof.
  intros Hi Hv. pose proof (config_small v Hv) as Hc. set (config := config_of (tail output_power) v 31) in *.
  destruct (change_reg wait_fuel CC2420_TXCTRL (fun reg => Z.lor (Z.land reg 0xffe0) (Z.land config 0x1f)) r) as (c & E & Hs);
    [done|done|intros; by apply power_word|done|].
  destruct (read_reg wait_fuel CC2420_TXCTRL (fun reg => Z.land reg 0x001f) (with_chip r c)) as (w & c2 & E2 & _ & _ & Hw);
    [done|by apply idle_with_chip|].
  exists (with_chip r c). eexists _, _. split; [|split; [by apply idle_with_chip|split; [|by apply power_found]]].
  - unfold set_value. assert ((v <? OUTPUT_POWER_MIN) || (OUTPUT_POWER_MAX <? v) = false) as -> by (unfold OUTPUT_POWER_MIN, OUTPUT_POWER_MAX; lia).
    by erewrite bind_Ok by exact E.
  - unfold get_value. erewrite bind_Ok by exact E2. rewrite Hw by done. change (radio_chip (with_chip r c)) with c.
    rewrite Hs, Z.eqb_refl, power_bits by done. reflexivity.
Qed.

Lemma cca_threshold_sets v r : idle r -> sets_to RADIO_PARAM_CCA_THRESHOLD v r.
Proof.
  intros Hi. set (f := u16 (Z.shiftl (v - RSSI_OFFSET) 8)).
  destruct (setreg_run CC2420_RSSI f (r <| locked := 1 |>)) as (c & E & Hs); [done|apply u16_range|].
  destruct (read_reg wait_fuel CC2420_RSSI (fun reg => s8 (Z.shiftr reg 8)) (with_chip r c)) as (w & c2 & E2 & _ & Hw & _);
    [done|by apply idle_with_chip|].
  exists (with_chip r c). eexists _, _. split; [|split; [by apply idle_with_chip|split]].
  - unfold set_value. erewrite bind_Ok; [reflexivity|]. apply section_chip; [done|]. exact E.
  - unfold get_value. erewrite bind_Ok by exact E2. reflexivity.
  - cbn [reads_back]. rewrite Z.shiftr_div_pow2 by lia. change (2 ^ 8) with 256. rewrite Hw.
    change (radio_chip (with_chip r c)) with c. rewrite Hs, Z.eqb_refl. unfold f, RSSI_OFFSET.
    rewrite Z.shiftl_mul_pow2 by lia. f_equal. uwrap_lia.
Qed.

Lemma poll_mode_run e r : idle r ->
  exists c, set_poll_mode wait_fuel e r = Ok (tt, with_chip (r <| poll_mode := e |>) c) /\ same_settings (radio_chip r) c.
Proof.
  intros Hi.
  assert (exists c, (if c_true e then sets CLEAR_FIFOP_INT ;; sets DISABLE_FIFOP_INT
    else sets FIFOP_INT_INIT ;; sets ENABLE_FIFOP_INT ;; sets CLEAR_FIFOP_INT) (r <| locked := 1 |> <| poll_mode := e |>)
    = Ok (tt, with_chip (r <| locked := 1 |> <| poll_mode := e |>) c) /\ same_settings (radio_chip r) c) as (c & E & Hs).
  { destruct (c_true e); eexists; (split; [reflexivity|]); intros y; cbn; by rewrite !sets_keep. }
  exists c. split; [|done]. unfold set_poll_mode. erewrite section_exact; [|done|rewrite bind_modify; exact E|].
  - do 2 f_equal. unfold with_chip, update. destruct r as [? ? ? ? ? lk]; cbn in *. f_equal. symmetry. apply Hi.
  - unfold locks. cbn. by rewrite (id_lock_on _ Hi), (id_lock_off _ Hi).
Qed.

(** The mode computed from the two bits of the register and the mode of polling. *)
Lemma mode_read v : 0 <= v <= 7 ->
  let b1 := c_true (b2z (c_true (Z.land v RADIO_RX_MODE_ADDRESS_FILTER))) in
  let b2 := c_true (b2z (c_true (Z.land v RADIO_RX_MODE_AUTOACK))) in
  let b3 := c_true (b2z (c_true (Z.land v RADIO_RX_MODE_POLL_MODE))) in
  let w := if b1 then RADIO_RX_MODE_ADDRESS_FILTER else 0 in
  let w := if b2 then Z.lor w RADIO_RX_MODE_AUTOACK else w in
  (if b3 then Z.lor w RADIO_RX_MODE_POLL_MODE else w) = v.
Proof. intros Hv. assert (v = 0 \/ v = 1 \/ v = 2 \/ v = 3 \/ v = 4 \/ v = 5 \/ v = 6 \/ v = 7) as H by lia. by destruct_or! H; subst v. Qed.

Lemma rx_mode_sets v r : idle r -> 0 <= v <= 7 -> sets_to RADIO_PARAM_RX_MODE v r.
Proof.
  intros Hi Hv. set (e1 := b2z (c_true (Z.land v RADIO_RX_MODE_ADDRESS_FILTER))).
  set (e2 := b2z (c_true (Z.land v RADIO_RX_MODE_AUTOACK))). set (e3 := b2z (c_true (Z.land v RADIO_RX_MODE_POLL_MODE))).
  destruct (change_reg wait_fuel CC2420_MDMCTRL0 (fun reg => set_bit reg ADR_DECODE e1) r) as (c1 & E1 & Hs1);
    [done|done|intros; by apply set_bit_word|done|].
  destruct (change_reg wait_fuel CC2420_MDMCTRL0 (fun reg => set_bit reg AUTOACK e2) (with_chip r c1)) as (c2 & E2 & Hs2);
    [done|done|intros; by apply set_bit_word|by apply idle_with_chip|].
  destruct (poll_mode_run e3 (with_chip r c2)) as (c3 & E3 & Hs3); [by apply idle_with_chip|].
  set (r3 := with_chip _ c3) in E3.
  assert (Hreg : setting CC2420_MDMCTRL0 c3 = set_bit (set_bit (setting CC2420_MDMCTRL0 (radio_chip r)) ADR_DECODE e1) AUTOACK e2).
  { rewrite Hs3. change (radio_chip (with_chip r c2)) with c2. rewrite Hs2, Z.eqb_refl. change (radio_chip (with_chip r c1)) with c1.
    by rewrite Hs1, Z.eqb_refl. }
  destruct (getreg_run CC2420_MDMCTRL0 r3) as (a & c4 & E4 & Hs4 & _ & _ & Ha); [done|]. specialize (Ha ltac:(done)).
  destruct (getreg_run CC2420_MDMCTRL0 (with_chip r3 c4)) as (b & c5 & E5 & _ & _ & _ & Hb); [done|]. specialize (Hb ltac:(done)).
  assert (Hb' : b = a) by (rewrite Hb, Ha; apply Hs4). change (radio_chip r3) with c3 in Ha. rewrite Hreg in Ha.
  exists r3. eexists _, _. split; [|split; [|split]].
  - unfold set_value. rewrite mode_bits. assert ((0 <=? v) && (v <=? 7) = true) as -> by lia. cbn [negb].
    erewrite bind_Ok by exact E1. erewrite bind_Ok by exact E2. by erewrite bind_Ok by exact E3.
  - split; [apply Hi|apply Hi|apply Hi|apply Hi].
  - unfold get_value. erewrite bind_Ok by exact E4. cbv zeta. erewrite bind_Ok by exact E5. rewrite bind_gets. reflexivity.
  - rewrite Hb'. unfold ADR_DECODE, AUTOACK in *. rewrite (c_true_bit a 11), (c_true_bit a 4) by lia. rewrite Ha.
    rewrite (set_bit_other _ 4 11), (set_bit_same _ 11), (set_bit_same _ 4) by lia. by apply mode_read.
Qed.

(** C13. Parameters of the radio: from an idle driver, over the registers of the chip, [set_value]
    accepts exactly the values of [param_accepts] and what [get_value] returns next is
    the value, the smallest power of the table that is at least the value, or the value
    as a signed byte after the offset; other values, and other parameters, are refused
    and change nothing. *)
Theorem set_value_read_back p v r :
  idle r ->
  if param_accepts p v then sets_to p v r
  else set_value wait_fuel p v r =
    Ok (if param_settable p then RADIO_RESULT_INVALID_VALUE else RADIO_RESULT_NOT_SUPPORTED, r).
Proof.
  intros Hi. destruct (param_accepts p v) eqn:Ha; destruct p; try done; cbn [param_accepts param_settable] in *.
  - apply power_mode_sets; [done|]. lia.
  - apply channel_sets; [done|]. lia.
  - apply rx_mode_sets; [done|]. lia.
  - apply tx_mode_sets; [done|]. lia.
  - apply txpower_sets; [done|]. lia.
  - by apply cca_threshold_sets.
  - unfold set_value. apply orb_false_iff in Ha as [-> ->]. done.
  - unfold set_value. by assert ((v <? 11) || (26 <? v) = true) as -> by lia.
  - unfold set_value. rewrite mode_bits, Ha. done.
  - unfold set_value. rewrite tx_mode_bits, Ha. done.
  - unfold set_value, OUTPUT_POWER_MIN, OUTPUT_POWER_MAX. by assert ((v <? -25) || (0 <? v) = true) as -> by lia.
Qed.
End params.

Lemma set_value_read_back_witness : sets_to 60 RADIO_PARAM_TXPOWER (-6) (sim_radio 1 []).
Proof.
  apply (set_value_read_back 60 sim_fuel RADIO_PARAM_TXPOWER (-6)). apply sim_idle. by right.
Defined.
