(* ===== verification/Cc2420Frame.v ===== *)
(** * Cc2420Frame: from the FIFO of one radio to the buffer of another

    The bytes [cc2420_prepare] leaves in the transmission FIFO, and what [cc2420_read]
    makes of them at a radio whose FIFO received them with a footer. *)
From stdpp Require Import numbers option list.
From S2P Require Import Prelude Packetbuf Cc2420 Cc2420Facts Cc2420Spec Cc2420Data Cc2420Sim.

Section frame.
Context {chip : Type} `{!Chip chip}.
Abbreviation RD := (M (radio chip)).

(** ** The loops over bytes, exactly *)

Lemma read_loop_exact (r : radio chip) n : forall i count,
  0 <= i -> count <= 255 -> 0 <= count - i < Z.of_nat n ->
  read_loop n i count r = Ok (replicate (Z.to_nat (count - i)) 0, r).
Proof.
  induction n as [|n IH]; intros i count Hi Hc Hn; cbn [read_loop]; [lia|].
  destruct (Z.ltb_spec i count).
  - rewrite uwrap_small by (unfold in_u; lia). erewrite bind_Ok by (apply IH; lia).
    replace (Z.to_nat (count - i)) with (S (Z.to_nat (count - (i + 1)))) by lia. done.
  - by replace (Z.to_nat (count - i)) with 0%nat by lia.
Qed.

Lemma up_loop_exact (r : radio chip) buffer n : forall i,
  0 <= i -> Z.of_nat (length buffer) <= 255 -> 0 <= Z.of_nat (length buffer) - i < Z.of_nat n ->
  up_loop n buffer i (Z.of_nat (length buffer)) r = Ok (drop (Z.to_nat i) buffer, r).
Proof.
  induction n as [|n IH]; intros i Hi Hc Hn; cbn [up_loop]; [lia|].
  destruct (Z.ltb_spec i (Z.of_nat (length buffer))) as [Hlt|].
  - destruct (lookup_lt_is_Some_2 buffer (Z.to_nat i)) as [b Hb]; [lia|]. unfold byte_at.
    rewrite (proj2 (Z.leb_le 0 i)), Hb by lia. erewrite bind_Ok by reflexivity.
    rewrite uwrap_small by (unfold in_u; lia). erewrite bind_Ok by (apply IH; lia).
    rewrite (drop_S buffer b (Z.to_nat i) Hb). by replace (Z.to_nat (i + 1)) with (S (Z.to_nat i)) by lia.
  - rewrite drop_ge by lia. done.
Qed.

Context `{!ChipLaws chip} `{!ChipData chip} (wait_fuel : nat).

Lemma getrxdata_run n (r : radio chip) :
  (n <= 255)%nat -> (n <= length (rx_fifo (radio_chip r)))%nat ->
  exists c, getrxdata (Z.of_nat n) r = Ok (take n (rx_fifo (radio_chip r)), with_chip r c) /\
    rx_fifo c = drop n (rx_fifo (radio_chip r)).
Proof.
  intros Hn Hl. unfold getrxdata. erewrite bind_Ok by (apply read_loop_exact; unfold BYTES; lia).
  replace (Z.to_nat (Z.of_nat n - 0)) with n by lia.
  destruct (rx_gives n (radio_chip r) Hl) as (s & c & E & Hd). exists c. split; [|done].
  unfold transaction. erewrite bind_Ok by (by rewrite E). done.
Qed.
Lemma write_fifo_run bytes (r : radio chip) :
  (length bytes <= 255)%nat -> (length (tx_fifo (radio_chip r) ++ bytes) <= 128)%nat ->
  exists c, write_fifo_buf bytes (Z.of_nat (length bytes)) r = Ok (tt, with_chip r c) /\
    tx_fifo c = tx_fifo (radio_chip r) ++ bytes.
Proof.
  intros Hn Hl. unfold write_fifo_buf. erewrite bind_Ok by (apply up_loop_exact; unfold BYTES; lia). change (drop (Z.to_nat 0) bytes) with bytes.
  pose proof (tx_takes bytes (radio_chip r) Hl) as H. unfold transaction.
  destruct (spi (CC2420_TXFIFO :: bytes) (radio_chip r)) as [out c] eqn:E. exists c. split; [|exact H].
  by erewrite bind_Ok by (by rewrite E).
Qed.

(** What [cc2420_prepare] puts in the FIFO: the length with the footer, and the payload. *)
Lemma prepare_run payload (r : radio chip) :
  idle r -> (length payload <= 125)%nat ->
  exists c, cc2420_prepare wait_fuel payload (Z.of_nat (length payload)) r = Ok (0, with_chip r c) /\
    tx_fifo c = (Z.of_nat (length payload) + 2) :: payload.
Proof.
  intros Hi Hl. set (r1 := r <| locked := 1 |>).
  pose proof (tx_flushed (radio_chip r)) as Hf. destruct (spi [CC2420_SFLUSHTX] (radio_chip r)) as [o c1] eqn:E1. cbn in Hf.
  assert (S1 : strobe CC2420_SFLUSHTX r1 = Ok (tt, with_chip r1 c1)).
  { unfold strobe, transaction. change (radio_chip r1) with (radio_chip r). by erewrite bind_Ok by (change (radio_chip r1) with (radio_chip r); by rewrite E1). }
  destruct (write_fifo_run [Z.of_nat (length payload) + 2] (with_chip r1 c1)) as (c2 & S2 & T2); [cbn; lia|cbn; rewrite Hf; cbn; lia|].
  change (radio_chip (with_chip r1 c1)) with c1 in T2. rewrite Hf in T2.
  destruct (write_fifo_run payload (with_chip r1 c2)) as (c3 & S3 & T3); [lia|cbn; rewrite T2; cbn; lia|].
  change (radio_chip (with_chip r1 c2)) with c2 in T3. rewrite T2 in T3.
  exists c3. split; [|exact T3]. unfold cc2420_prepare. erewrite bind_Ok; [reflexivity|]. apply section_chip; [done|].
  fold r1. erewrite bind_Ok by exact S1. cbv zeta. unfold CHECKSUM_LEN. rewrite uwrap_small by (unfold in_u; lia).
  erewrite bind_Ok by exact S2. exact S3.
Qed.

(** ** Taking a frame from the FIFO *)

Definition crc_ok (f1 : Z) : bool := c_true (Z.land f1 FOOTER1_CRC_OK).

(** The end of [read_frame]: the pins are read. *)
Lemma pins_run (r : radio chip) :
  exists c b, (p ← gets poll_mode;
    when (negb (c_true p)) (
      fp ← reads FIFOP_IS_1;
      when (c_true fp) (f ← reads FIFO_IS_1; if negb (c_true f) then flushrx else poll_process))) r
  = Ok (tt, (with_chip r c) <| radio_polled := b |>).
Proof.
  rewrite bind_gets. destruct (negb (c_true (poll_mode r))); cbn [when]; [|exists (radio_chip r), (radio_polled r); by destruct r].
  destruct (bus_reads FIFOP_IS_1 r) as (fp & c1 & E1 & _). erewrite bind_Ok by exact E1.
  destruct (c_true fp); cbn [when]; [|exists c1, (radio_polled r); by destruct r].
  destruct (bus_reads FIFO_IS_1 (with_chip r c1)) as (f & c2 & E2 & _). erewrite bind_Ok by exact E2.
  destruct (c_true f); cbn [negb]; [by exists c2, true|].
  destruct (bus_flushrx (with_chip r c2)) as ([] & c3 & E3 & _). exists c3, (radio_polled r).
  etransitivity; [exact E3|]. by destruct r.
Qed.

(** What a footer with a valid CRC sets. *)
Definition footer_set (f0 f1 : Z) (r : radio chip) : radio chip :=
  let r := r <| cc2420_last_rssi := s8 (f0 + RSSI_OFFSET) |> <| cc2420_last_correlation := Z.land f1 FOOTER1_CORRELATION |> in
  if c_true (poll_mode r) then r
  else r <| radio_pb ::= fun pb => pb <| packetbuf_attrs ::= fun l =>
    <[PACKETBUF_ATTR_LINK_QUALITY := u16 (Z.land f1 FOOTER1_CORRELATION)]>
      (<[PACKETBUF_ATTR_RSSI := u16 (s8 (f0 + RSSI_OFFSET))]> l) |> |>.

Lemma footer_run f0 f1 (len : Z) (r : radio chip) :
  ((cc2420_last_rssi <~ s8 (f0 + RSSI_OFFSET)) ;;
   (cc2420_last_correlation <~ Z.land f1 FOOTER1_CORRELATION) ;;
   p ← gets poll_mode;
   when (negb (c_true p)) (
     rssi ← gets cc2420_last_rssi;
     corr ← gets cc2420_last_correlation;
     on_pb (packetbuf_set_attr PACKETBUF_ATTR_RSSI rssi) ;;
     on_pb (packetbuf_set_attr PACKETBUF_ATTR_LINK_QUALITY corr)) ;;
   mret len) r = Ok (len, footer_set f0 f1 r).
Proof.
  rewrite !bind_modify, bind_gets. unfold footer_set. cbv zeta. change (poll_mode (update _ _ _)) with (poll_mode r).
  destruct (c_true (poll_mode r)); cbn [negb when]; [done|]. destruct r; reflexivity.
Qed.

Lemma read_frame_run payload f0 f1 rest (r : radio chip) :
  (length payload <= 125)%nat -> rx_fifo (radio_chip r) = payload ++ [f0; f1] ++ rest ->
  exists c b, read_frame (Z.of_nat (length payload) + 2) r =
    Ok ((payload, if crc_ok f1 then Z.of_nat (length payload) else 0),
        (with_chip (if crc_ok f1 then footer_set f0 f1 r else r) c) <| radio_polled := b |>).
Proof.
  intros Hl Hrx. unfold read_frame, FOOTER_LEN. rewrite Z.add_simpl_r.
  destruct (getrxdata_run (length payload) r) as (c1 & E1 & D1); [lia|rewrite Hrx, length_app; lia|].
  rewrite Hrx, take_app_length in E1. rewrite Hrx, drop_app_length in D1. erewrite bind_Ok by exact E1.
  destruct (getrxdata_run 2 (with_chip r c1)) as (c2 & E2 & _); [lia|cbn; rewrite D1; cbn; lia|].
  change (radio_chip (with_chip r c1)) with c1 in E2. rewrite D1 in E2. change (take 2 _) with [f0; f1] in E2.
  erewrite bind_Ok by exact E2. erewrite bind_Ok by reflexivity. unfold crc_ok. set (r2 := with_chip r c2).
  destruct (c_true (Z.land f1 FOOTER1_CRC_OK)).
  - destruct (pins_run (footer_set f0 f1 r2)) as (c & b & E). exists c, b.
    erewrite bind_Ok by (erewrite bind_Ok by reflexivity; apply footer_run).
    rewrite bind_gets. rewrite bind_gets in E. erewrite bind_Ok by exact E. rewrite Z.add_simpl_r.
    unfold mret, M_ret. do 3 f_equal. unfold footer_set, with_chip, r2. cbv zeta. destruct r; cbn. by case_match.
  - destruct (pins_run r2) as (c & b & E). exists c, b. erewrite bind_Ok by reflexivity.
    rewrite bind_gets. rewrite bind_gets in E. erewrite bind_Ok by exact E. reflexivity.
Qed.

Definition fifop_high (c : chip) : Prop := fst (read_port FIFOP_IS_1 c) <> 0.

(** [cc2420_read] of a frame that fits the buffer. *)
Lemma read_run payload f0 f1 rest bufsize (r : radio chip) :
  idle r -> (1 <= length payload <= 125)%nat -> Z.of_nat (length payload) <= bufsize -> fifop_high (radio_chip r) ->
  rx_fifo (radio_chip r) = ((Z.of_nat (length payload) + 2) :: payload) ++ [f0; f1] ++ rest ->
  exists c b, cc2420_read wait_fuel bufsize r =
    Ok ((payload, if crc_ok f1 then Z.of_nat (length payload) else 0),
        (with_chip (if crc_ok f1 then footer_set f0 f1 r else r) c) <| radio_polled := b |>).
Proof.
  intros Hi Hl Hb Hp Hrx. unfold cc2420_read, fifop_high in *. pose proof (rx_kept FIFOP_IS_1 (radio_chip r)) as Hk.
  destruct (read_port FIFOP_IS_1 (radio_chip r)) as [v c0] eqn:E0. cbn [fst snd] in Hp, Hk.
  erewrite bind_Ok; cycle 1. { unfold reads. rewrite E0. reflexivity. }
  change (r <| radio_chip := c0 |>) with (with_chip r c0). unfold c_true at 1. rewrite (proj2 (Z.eqb_neq v 0) Hp). cbn [negb].
  erewrite bind_Ok by (by apply get_lock_run, idle_with_chip). set (r0 := taken _ _).
  assert (Hr0 : rx_fifo (radio_chip r0) = ((Z.of_nat (length payload) + 2) :: payload) ++ [f0; f1] ++ rest) by (change (radio_chip r0) with c0; congruence).
  destruct (getrxdata_run 1 r0) as (c1 & E1 & D1); [lia|rewrite Hr0; cbn; lia|]. rewrite Hr0 in E1, D1. cbn in D1.
  erewrite bind_Ok by exact E1. erewrite bind_Ok by reflexivity.
  unfold CC2420_MAX_PACKET_LEN. change FOOTER_LEN with 2.
  assert ((127 <? Z.of_nat (length payload) + 2) || (Z.of_nat (length payload) + 2 <=? 2) ||
    (bufsize <? Z.of_nat (length payload) + 2 - 2) = false) as -> by lia.
  destruct (read_frame_run payload f0 f1 rest (with_chip r0 c1)) as (c & b & E); [lia|exact D1|].
  erewrite bind_Ok by exact E. exists c, b.
  assert (L : locks (with_chip (if crc_ok f1 then footer_set f0 f1 (with_chip r0 c1) else with_chip r0 c1) c) = (receive_on r, 1, 0, 0)).
  { unfold locks. destruct Hi as [_ Hon Hoff _]. unfold footer_set. cbv zeta. repeat case_match; cbn; by rewrite Hon, Hoff. }
  injection L as _ L1 L2 L3. erewrite bind_Ok by (by apply release_exact). unfold mret, M_ret. do 2 f_equal.
  clear - Hi. destruct Hi as [Hl _ _ _]. unfold footer_set, r0, taken, with_chip. cbv zeta. destruct r; cbn in *. subst. by repeat case_match.
Qed.

(** [cc2420_receive]: what the layer above is called with. *)
Lemma receive_run rdc_input payload f0 f1 rest (r : radio chip) :
  idle r -> pb_wf (radio_pb r) -> (1 <= length payload <= 125)%nat -> fifop_high (radio_chip r) ->
  rx_fifo (radio_chip r) = ((Z.of_nat (length payload) + 2) :: payload) ++ [f0; f1] ++ rest ->
  exists r', cc2420_receive wait_fuel rdc_input r = rdc_input r' /\ idle r' /\
    pb_view (radio_pb r') = ([], 0, if crc_ok f1 then payload else []) /\
    packetbuf_attrs (radio_pb r') !!! PACKETBUF_ATTR_TIMESTAMP = u16 (last_packet_timestamp r) /\
    (crc_ok f1 = true -> poll_mode r = 0 ->
      packetbuf_attrs (radio_pb r') !!! PACKETBUF_ATTR_RSSI = u16 (s8 (f0 + RSSI_OFFSET)) /\
      packetbuf_attrs (radio_pb r') !!! PACKETBUF_ATTR_LINK_QUALITY = u16 (Z.land f1 FOOTER1_CORRELATION)).
Proof.
  intros Hi Hw Hl Hp Hrx. unfold cc2420_receive.
  set (pb1 := mk_packetbuf (packetbuf (radio_pb r)) 0 0 0
    (<[PACKETBUF_ATTR_TIMESTAMP := u16 (last_packet_timestamp r)]> (replicate PACKETBUF_NUM_ATTRS 0)) (replicate PACKETBUF_NUM_ADDRS 0)).
  set (r1 := r <| radio_pb := pb1 |>).
  erewrite bind_Ok by reflexivity. rewrite bind_gets. erewrite bind_Ok by reflexivity. erewrite bind_Ok by reflexivity.
  match goal with |- context [cc2420_read _ _ ≫= ?k] => set (rest_k := k) end.
  match goal with |- context [(cc2420_read _ _ ≫= rest_k) ?s] => change s with r1 end.
  destruct (read_run payload f0 f1 rest PACKETBUF_SIZE r1) as (c & b & E); [by destruct Hi|done|unfold PACKETBUF_SIZE; lia|done|done|].
  erewrite bind_Ok by exact E. clear E. set (r2 := update radio_polled _ _). unfold rest_k. cbn [fst snd].
  assert (Hpb : radio_pb r2 = mk_packetbuf (packetbuf (radio_pb r)) 0 0 0
    (if crc_ok f1 && (poll_mode r =? 0) then
       <[PACKETBUF_ATTR_LINK_QUALITY := u16 (Z.land f1 FOOTER1_CORRELATION)]>
         (<[PACKETBUF_ATTR_RSSI := u16 (s8 (f0 + RSSI_OFFSET))]> (packetbuf_attrs pb1))
     else packetbuf_attrs pb1) (replicate PACKETBUF_NUM_ADDRS 0)).
  { unfold r2, footer_set. cbv zeta. destruct (crc_ok f1); [|done]. unfold c_true.
    change (poll_mode (update _ _ (update _ _ r1))) with (poll_mode r). by destruct (poll_mode r =? 0). }
  assert (Hi2 : idle r2) by (unfold r2, footer_set; cbv zeta; destruct Hi; repeat case_match; by split).
  pose proof (wf_size _ Hw) as Hsz. unfold PACKETBUF_SIZE in Hsz.
  erewrite bind_Ok; cycle 1.
  { unfold on_pb. change (pb_store _) with (pb_store 0). rewrite pb_store_ok; [reflexivity|lia|]. rewrite Hpb. cbn [packetbuf]. lia. }
  erewrite bind_Ok by reflexivity. set (r3 := update radio_pb _ (update radio_pb _ r2)).
  exists r3. split; [done|]. split; [by destruct Hi2|].
  assert (Ha : packetbuf_attrs (radio_pb r3) = packetbuf_attrs (radio_pb r2)) by done. rewrite Ha, Hpb. cbn [packetbuf_attrs]. clear Ha.
  assert (Hlen : forall x, length (<[PACKETBUF_ATTR_TIMESTAMP := x]> (replicate PACKETBUF_NUM_ATTRS 0)) = 29%nat)
    by (intros; by rewrite length_insert, length_replicate).
  split; [|split].
  - unfold r3, pb_view, pb_header, pb_payload. rewrite Hpb. rsimpl. rewrite take_0. f_equal. cbn [Z.add Z.to_nat take drop].
    destruct (crc_ok f1); [|done]. rewrite uwrap_small by (unfold in_u; lia). rewrite Nat2Z.id. cbn [packetbuf bufptr hdrlen Z.add]. change (Z.to_nat 0) with 0%nat. rewrite take_0, drop_0. cbn [app]. apply take_app_length.
  - unfold pb1, PACKETBUF_ATTR_TIMESTAMP, PACKETBUF_ATTR_LINK_QUALITY, PACKETBUF_ATTR_RSSI in *. cbn [packetbuf_attrs].
    destruct (_ && _); rewrite ?list_lookup_total_insert_ne by done; by rewrite list_lookup_total_insert_eq by (rewrite length_replicate; unfold PACKETBUF_NUM_ATTRS; lia).
  - intros -> ->. cbn [andb Z.eqb]. unfold pb1. cbn [packetbuf_attrs]. split.
    + rewrite list_lookup_total_insert_ne by done. by rewrite list_lookup_total_insert_eq by (rewrite Hlen; unfold PACKETBUF_ATTR_RSSI; lia).
    + by rewrite list_lookup_total_insert_eq by (rewrite length_insert, Hlen; unfold PACKETBUF_ATTR_LINK_QUALITY; lia).
Qed.

(** C11. A frame is carried from radio to radio: [cc2420_prepare] leaves the length and
    the payload in the FIFO of the sender; when a chip received those bytes with a
    footer, [cc2420_receive] calls the layer above with exactly the payload in the
    packet buffer, its timestamp and, outside the mode of polling, the signal strength
    and the link quality of the footer as attributes; with a bad CRC it calls it with no
    payload.  Both drivers are left idle. *)
Theorem frame_carried rdc_input payload f0 f1 rest (r r' : radio chip) :
  idle r -> idle r' -> pb_wf (radio_pb r') -> (1 <= length payload <= 125)%nat ->
  exists c, cc2420_prepare wait_fuel payload (Z.of_nat (length payload)) r = Ok (0, with_chip r c) /\
    idle (with_chip r c) /\
    (fifop_high (radio_chip r') -> rx_fifo (radio_chip r') = tx_fifo c ++ [f0; f1] ++ rest ->
     exists r2, cc2420_receive wait_fuel rdc_input r' = rdc_input r2 /\ idle r2 /\
       pb_view (radio_pb r2) = ([], 0, if crc_ok f1 then payload else []) /\
       packetbuf_attrs (radio_pb r2) !!! PACKETBUF_ATTR_TIMESTAMP = u16 (last_packet_timestamp r') /\
       (crc_ok f1 = true -> poll_mode r' = 0 ->
         packetbuf_attrs (radio_pb r2) !!! PACKETBUF_ATTR_RSSI = u16 (s8 (f0 + RSSI_OFFSET)) /\
         packetbuf_attrs (radio_pb r2) !!! PACKETBUF_ATTR_LINK_QUALITY = u16 (Z.land f1 FOOTER1_CORRELATION))).
Proof.
  intros Hi Hi' Hw Hl. destruct (prepare_run payload r Hi) as (c & E & T); [lia|]. exists c. split; [done|].
  split; [by apply idle_with_chip|]. intros Hp Hrx. rewrite T in Hrx. by apply (receive_run rdc_input payload f0 f1 rest).
Qed.
End frame.

Lemma sim_pb_wf on rx : pb_wf (radio_pb (sim_radio on rx)).
Proof. split; cbn; unfold PACKETBUF_SIZE; lia || done. Qed.

Lemma frame_carried_witness :
  let r' := sim_radio 1 [5; 10; 20; 30; 0xD0; 0xE5] in
  exists c, cc2420_prepare 60 [10; 20; 30] 3 (sim_radio 1 []) = Ok (0, with_chip (sim_radio 1 []) c) /\
    idle (with_chip (sim_radio 1 []) c) /\
    (fifop_high (radio_chip r') -> rx_fifo (radio_chip r') = tx_fifo c ++ [0xD0; 0xE5] ++ [] ->
     exists r2, cc2420_receive 60 skip r' = skip r2 /\ idle r2 /\ pb_view (radio_pb r2) = ([], 0, [10; 20; 30]) /\
       packetbuf_attrs (radio_pb r2) !!! PACKETBUF_ATTR_TIMESTAMP = 0 /\
       (crc_ok 0xE5 = true -> poll_mode r' = 0 ->
         packetbuf_attrs (radio_pb r2) !!! PACKETBUF_ATTR_RSSI = u16 (-93) /\
         packetbuf_attrs (radio_pb r2) !!! PACKETBUF_ATTR_LINK_QUALITY = 0x65)).
Proof.
  apply (frame_carried 60 skip [10; 20; 30] 0xD0 0xE5 [] (sim_radio 1 [])).
  - apply sim_idle. by right.
  - apply sim_idle. by right.
  - apply sim_pb_wf.
  - cbn. lia.
Defined.

(** The frame of the sender is the one the receiver has. *)
Example frame_on_air :
  exists s, cc2420_prepare 60 [10; 20; 30] 3 (sim_radio 1 []) = Ok (0, s) /\ sim_tx (radio_chip s) = [5; 10; 20; 30].
Proof. eexists. split; vm_compute; reflexivity. Qed.
