(* ===== verification/CSync.v ===== *)
(** * CSync: the state of the clustering protocol and its lists

    core/net/c-sync/c-sync.h, the variables of examples/c-sync/c-sync.c, and the
    operations on the cluster lists: handle_lists.c, init_consensus_convergence.c,
    init_consensus_synchronization.c and the placing functions of c-sync.c.  The
    configuration is examples/c-sync/project-conf.h: [MOD_NEIGHBOURS] 1,
    [TEST_GTSP] 0, [TEST_BYZ] 0, [AVG_CONSENSUS] 0.

    A list holds indices of blocks of its pool; [list_length] and the loops over
    lists are those of sequences.  The pointers of [struct cluster] always point to
    the static lists and pools, which are fields here.  The static loop variable
    [ch] of c-sync.c is always assigned before it is read and is left out. *)
From stdpp Require Import numbers option list.
From S2P Require Import Prelude Lists Memb CDouble Rtimer Packetbuf Announcement Announcers.

(** ** Constants *)

Definition MAX_DEGREE : nat := 64.
Definition LOGICAL_CHANNEL : Z := 11.
Definition NUM_CH_MAX : Z := 4.
Definition NUM_CB_MAX : Z := 8.
Definition NUM_BL_MAX : Z := 2.
Definition NUM_CONS_SLOTS : Z := 5.
Definition NUM_CONS_CTRL_ITERATIONS : Z := 3.
Definition RSSI_THRESHOLD : Z := - 80.
Definition MAX_RX_SYNC_DISCOVERY : Z := 12.
Definition BYZANTINE_FINE_DIFF : Z := 500.
Definition BYZANTINE_COARSE_DIFF : Z := 3.
Definition PA_REGULAR_MAX_RECV_DUPS : Z := 20.
Definition PA_RESILIENCE_MAX_SEND_DUPS : Z := 10.
Definition PACKETBUF_ATTR_RSSI : nat := 4.
Definition PACKETBUF_ATTR_TIMESTAMP : nat := 5.
Definition LEDS_GREEN : Z := 1.
Definition LEDS_BLUE : Z := 2.
Definition LEDS_RED : Z := 4.

(** [state_t]: [my_state] only takes these values, but the state of a neighbour
    is the byte it sent. *)
Inductive state_t :=
  | DISCOVERY | ELECTION_REVELATION | ELECTION_DECLARATION | CONNECTION_REVELATION
  | CONNECTION_DECLARATION | CONSENSUS_CONVERGENCE | CONSENSUS_REVELATION
  | CONSENSUS_SYNCHRONIZATION | IDLE | BYZANTINE_CONSENSUS.
#[export] Instance state_eq_dec : EqDecision state_t.
Proof. solve_decision. Defined.
Definition state_val (s : state_t) : Z :=
  match s with
  | DISCOVERY => 0 | ELECTION_REVELATION => 2 | ELECTION_DECLARATION => 4
  | CONNECTION_REVELATION => 6 | CONNECTION_DECLARATION => 8 | CONSENSUS_CONVERGENCE => 10
  | CONSENSUS_REVELATION => 12 | CONSENSUS_SYNCHRONIZATION => 14 | IDLE => 16
  | BYZANTINE_CONSENSUS => 18
  end.
Coercion state_val : state_t >-> Z.
(** [instr_t]. *)
Definition DISC_TO_EREV : Z := 1.
Definition CONVERGENCE_PROACTIVE : Z := 11.

Inductive role_t := CM | CH | CB.
#[export] Instance role_eq_dec : EqDecision role_t.
Proof. solve_decision. Defined.
Definition role_val (r : role_t) : Z := match r with CM => 0 | CH => 1 | CB => 2 end.

(** The callbacks of the real-time timer and the announcement handlers. *)
Inductive callback_t :=
  | Enter_election_revelation | Enter_election_declaration | Enter_connection_revelation
  | Enter_connection_declaration | Enter_convergence | Enter_convergence_slot
  | Enter_consensus_revelation | Enter_consensus_synchronization | Enter_synchronization_slot
  | Enter_idle | Enter_discovery.
#[export] Instance callback_eq_dec : EqDecision callback_t.
Proof. solve_decision. Defined.
Inductive handler_t :=
  | Received_discovery | Received_revelation | Received_declaration | Received_convergence
  | Received_synchronization.

(** The announcement variables. *)
Definition discovery_announcement : nat := 0.
Definition revelation_announcement : nat := 1.
Definition declaration_announcement : nat := 2.
Definition convergence_announcement : nat := 3.
Definition synchronization_announcement : nat := 4.

(** ** Data *)

Record neighbour := mk_neighbour {
  n_addr : Z;
  n_degree : Z;
  n_role : role_t;
  n_state : Z;
  n_jumped : Z;
  n_synced : Z;
  relative_rate : double;
  last_n_coarse : Z;
  last_lg_n_fine : Z;
  last_my_coarse : Z;
  last_hw_my_fine : Z;
  coarse_diff : Z;
  fine_diff : Z;
}.
#[export] Instance eta_neighbour : Eta neighbour := fun x =>
  mk_neighbour (n_addr x) (n_degree x) (n_role x) (n_state x) (n_jumped x) (n_synced x)
    (relative_rate x) (last_n_coarse x) (last_lg_n_fine x) (last_my_coarse x)
    (last_hw_my_fine x) (coarse_diff x) (fine_diff x).
Definition neighbour_zero : neighbour :=
  mk_neighbour 0 0 CM 0 0 0 (SpecFloat.S754_zero false) 0 0 0 0 0 0.

(** [struct CHB]: a cluster head or bridge. *)
Record chb := mk_chb {
  ch_addr : Z;
  ch_degree : Z;
  cons_slot : Z;
  n_CHB_addr_A : Z;
  n_CHB_addr_B : Z;
}.
#[export] Instance eta_chb : Eta chb := fun x =>
  mk_chb (ch_addr x) (ch_degree x) (cons_slot x) (n_CHB_addr_A x) (n_CHB_addr_B x).
Definition chb_zero : chb := mk_chb 0 0 0 0 0.

(** A list with the pool its blocks come from. *)
Record blist (A : Type) := mk_blist {
  bl_list : list nat;
  bl_memb : pool A;
}.
Arguments mk_blist {A}. Arguments bl_list {A}. Arguments bl_memb {A}.
#[export] Instance eta_blist A : Eta (blist A) := fun x => mk_blist (bl_list x) (bl_memb x).

(** [struct cluster]; a [struct BL] is its address. *)
Record cluster_t := mk_cluster {
  role : role_t;
  CHs : blist chb;
  CBs : blist chb;
  blacklist : blist Z;
}.
#[export] Instance eta_cluster : Eta cluster_t := fun x =>
  mk_cluster (role x) (CHs x) (CBs x) (blacklist x).

Record node := mk_node {
  net : net_st callback_t handler_t;
  my_addr : Z;
  my_degree : Z;
  my_state : state_t;
  my_placing : Z;
  my_cluster : cluster_t;
  my_proactive_slot : Z;
  my_cons_slot : Z;
  this_sync_slot : Z;
  my_slot_ack : Z;
  my_sync_border : Z;
  cons_ctrl_counter : Z;
  ref_n_CHB_degree : Z;
  ref_n_CHB_addr : Z;
  synced_counter : Z;
  msg_count : Z;
  (* static variables of c-sync.c *)
  neighbour_list : list nat;
  mod_neighbour_list : list nat;
  neighbour_memb : pool neighbour;
  temp_state : Z;
  my_cons_rate : double;
  sync_LC_addr : Z;
  saved_proactive_slot : Z;
  saved_cons_slot : Z;
  saved_slot_ack : Z;
  saved_sync_border : Z;
  convergence_complete : Z;
  soft_reset_count : Z;
  (* hardware and process *)
  radio_on : bool;
  radio_cca : Z;
  leds : Z;
  needspoll : bool;            (* process_poll(&c_gtsp_process) *)
  llsec_init : Z;              (* calls of NETSTACK_LLSEC.init *)
}.
#[export] Instance eta_node : Eta node := fun x =>
  mk_node (net x) (my_addr x) (my_degree x) (my_state x) (my_placing x) (my_cluster x)
    (my_proactive_slot x) (my_cons_slot x) (this_sync_slot x) (my_slot_ack x)
    (my_sync_border x) (cons_ctrl_counter x) (ref_n_CHB_degree x) (ref_n_CHB_addr x)
    (synced_counter x) (msg_count x) (neighbour_list x) (mod_neighbour_list x)
    (neighbour_memb x) (temp_state x) (my_cons_rate x) (sync_LC_addr x)
    (saved_proactive_slot x) (saved_cons_slot x) (saved_slot_ack x) (saved_sync_border x)
    (convergence_complete x) (soft_reset_count x) (radio_on x) (radio_cca x) (leds x)
    (needspoll x) (llsec_init x).

(** ** Lists and their blocks *)

Section blist.
Context {A : Type}.
Local Abbreviation BL := (M (blist A)).

Definition bl_get (i : nat) : BL A := fun l =>
  match pl_blocks (bl_memb l) !! i with Some x => Ok (x, l) | None => Err FWild end.
Definition bl_upd (i : nat) (f : A -> A) : BL unit :=
  modify (fun l => l <| bl_memb ::= fun p => p <| pl_blocks ::= alter f i |> |>).
Definition bl_alloc : BL (option nat) := fun l =>
  let '(i, p) := pool_alloc (bl_memb l) in Ok (i, l <| bl_memb := p |>).
Definition bl_free (i : nat) : BL unit := modify (fun l => l <| bl_memb ::= pool_free i |>).
Definition bl_memb_init (zero : A) : BL unit := modify (fun l => l <| bl_memb ::= pool_init zero |>).
Definition bl_list_init : BL unit := bl_list <~ [].
Definition bl_items : BL (list nat) := gets bl_list.
Definition bl_length : BL Z := gets (fun l => Z.of_nat (length (bl_list l))).
Definition bl_push (i : nat) : BL unit := modify (fun l => l <| bl_list ::= seq_push i |>).
Definition bl_insert (prev i : nat) : BL unit := modify (fun l => l <| bl_list ::= seq_insert prev i |>).
Definition bl_chop : BL (option nat) := fun l =>
  Ok (last (bl_list l), l <| bl_list ::= fun l => removelast l |>).
End blist.

(** The contents of the blocks on a list, in order. *)
Definition bl_view {A} (l : blist A) : list A :=
  omap (fun i => pl_blocks (bl_memb l) !! i) (bl_list l).

Section csync.
Context {DF : DoubleFormat}.
Local Abbreviation N := (M node).

Definition on_cluster {A} (m : M cluster_t A) : N A := zoom my_cluster m.
Definition on_CHs {A} (m : M (blist chb) A) : N A := on_cluster (zoom CHs m).
Definition on_CBs {A} (m : M (blist chb) A) : N A := on_cluster (zoom CBs m).
Definition on_blacklist {A} (m : M (blist Z) A) : N A := on_cluster (zoom blacklist m).
Definition on_clock {A} (m : M (rtimer_st callback_t) A) : N A := zoom net (zoom clock m).
Definition on_ann {A} (m : M (announcement_st handler_t observer_t) A) : N A := zoom net (zoom ann m).
Definition get_role : N role_t := gets (fun s => role (my_cluster s)).
Definition set_role (r : role_t) : N unit := on_cluster (role <~ r).

(** [for(ch = list_head(l); ch != NULL; ch = list_item_next(ch))] with a body that
    reads and writes the block but not the list. *)
Definition for_blocks {A} (on : forall B, M (blist A) B -> N B) (body : nat -> A -> N unit) : N unit :=
  l ← on _ bl_items;
  forM l (fun i => x ← on _ (bl_get i); body i x).

(** ** handle_lists.c *)

(** The loop that looks for the place: it stops on the same address, or on the
    first entry the neighbour precedes. *)
Inductive found := Same | Before (position : Z) | End (position : Z).
Fixpoint find_place (l : list chb) (addr degree : Z) (position : Z) : found :=
  match l with
  | [] => End position
  | ch :: l' =>
      if ch_addr ch =? addr then Same
      else if (ch_degree ch <? degree) || ((degree =? ch_degree ch) && (ch_addr ch <? addr))
      then Before position
      else find_place l' addr degree (position +8 1)
  end.

(** The loop that walks to the entry before the place. *)
Fixpoint walk_to (l : list nat) (position : Z) : option nat :=
  match l with
  | [] => None
  | chch :: l' => if position <=? 2 then Some chch else walk_to l' (position -8 1)
  end.

(** What [handle_lists] writes in the block of the neighbour. *)
Definition chb_of (r : role_t) (my_addr my_degree : Z) (v : announcement_value) (n : neighbour) : chb :=
  if decide (r = CH) then
    mk_chb (n_addr n) (av_degree v -8 my_degree) 0 (av_ref_addr v -16 my_addr) 0
  else mk_chb (n_addr n) (n_degree n) 0 (av_ref_addr v) 0.

(** Write the entry in its block and link it; [on] selects the list and the pool. *)
Definition insert_entry (on : forall B, M (blist chb) B -> N B) (v : announcement_value) (n : neighbour)
    (position : Z) (ch : option nat) : N Z :=
  match ch with
  | None => mret 1
  | Some ch =>
      r ← get_role; a ← gets my_addr; d ← gets my_degree;
      on _ (bl_upd ch (fun _ => chb_of r a d v n)) ;;
      if position =? 1 then on _ (bl_push ch) ;; mret 1
      else
        l ← on _ bl_items;
        match walk_to l position with
        | Some chch => on _ (bl_insert chch ch)
        | None => skip
        end ;;
        mret 1
  end.

Definition handle_list (on : forall B, M (blist chb) B -> N B) (v : announcement_value) (n : neighbour)
    : N Z :=
  len ← on _ bl_length;
  st ← gets my_state;
  if len =? 0 then
    ch ← on _ bl_alloc;
    match ch with
    | None => mret 0
    | Some ch =>
        when (bool_decide (st = ELECTION_DECLARATION) || bool_decide (st = CONSENSUS_CONVERGENCE))
          (set_role CM) ;;
        r ← get_role; a ← gets my_addr; d ← gets my_degree;
        on _ (bl_upd ch (fun _ => chb_of r a d v n)) ;;
        on _ (bl_push ch) ;;
        mret 1
    end
  else
    entries ← on _ (gets bl_view);
    match find_place entries (n_addr n) (n_degree n) 1 with
    | Same => mret 1
    | Before position =>
        if len <? NUM_CH_MAX then ch ← on _ bl_alloc; insert_entry on v n position ch
        else if len =? NUM_CH_MAX then
          ch ← on _ bl_chop;
          ch ← deref ch;
          on _ (bl_free ch) ;;
          ch ← on _ bl_alloc; insert_entry on v n position ch
        else mret 1
    | End position =>
        if len <? NUM_CH_MAX then ch ← on _ bl_alloc; insert_entry on v n position ch
        else mret 1
    end.

Definition handle_lists (v : announcement_value) (n : neighbour) : N Z :=
  st ← gets my_state;
  match st with
  | ELECTION_DECLARATION | CONSENSUS_CONVERGENCE => handle_list (@on_CHs) v n
  | CONNECTION_DECLARATION => handle_list (@on_CBs) v n
  | _ => mret 0
  end.

(** ** init_consensus_convergence.c *)

(** The first entry of the list with the address. *)
Fixpoint find_addr (on : forall B, M (blist chb) B -> N B) (l : list nat) (addr : Z) : N (option nat) :=
  match l with
  | [] => mret None
  | i :: l' =>
      x ← on _ (bl_get i);
      if addr =? ch_addr x then mret (Some i) else find_addr on l' addr
  end.

(** The loop over the cluster bridges: a neighbouring cluster head becomes an
    entry; a second bridge to the same cluster head is noted in it.  The function
    returns from the loop when the pool is exhausted: then the rest is skipped. *)
Fixpoint convergence_entries (l : list nat) : N bool :=
  match l with
  | [] => mret true
  | i :: l' =>
      ch ← on_CBs (bl_get i);
      chs ← on_CHs bl_items;
      chch ← find_addr (@on_CHs) chs (n_CHB_addr_A ch);
      match chch with
      | Some chch =>
          on_CHs (bl_upd chch (fun x => x <| n_CHB_addr_B := ch_addr ch |>)) ;;
          convergence_entries l'
      | None =>
          chch ← on_CHs bl_alloc;
          match chch with
          | None => mret false
          | Some chch =>
              on_CHs (bl_upd chch (fun _ =>
                mk_chb (n_CHB_addr_A ch) (ch_degree ch) 0 (ch_addr ch) 0)) ;;
              on_CHs (bl_push chch) ;;
              convergence_entries l'
          end
      end
  end.

Definition init_consensus_convergence : N unit :=
  on_CHs (bl_memb_init chb_zero) ;;
  on_CHs bl_list_init ;;
  cbs ← on_CBs bl_items;
  completed ← convergence_entries cbs;
  when completed
    (len ← on_CHs bl_length;
     (my_proactive_slot <~ (if len <=? 1 then 0 else if len =? 2 then 1 else 3)) ;;
     st ← gets my_state;
     on_ann (announcement_set_instr convergence_announcement (state_val st))).

(** ** init_consensus_synchronization.c *)

Definition init_consensus_synchronization : N unit :=
  modify (fun s => s <| my_cons_slot ::= fun c => (NUM_CONS_SLOTS + 1) -8 c |>) ;;
  for_blocks (@on_CHs) (fun i x =>
    on_CHs (bl_upd i (fun x => x <| cons_slot ::= fun c => (NUM_CONS_SLOTS + 1) -8 c |>))) ;;
  r ← get_role;
  modify (fun s => s <| ref_n_CHB_degree :=
    if decide (r = CH) then my_cons_slot s else NUM_CONS_SLOTS |>) ;;
  modify (fun s => s <| ref_n_CHB_addr := my_addr s |>) ;;
  when (bool_decide (r = CH)) (my_sync_border <~ 1) ;;
  for_blocks (@on_CHs) (fun _ x =>
    d ← gets ref_n_CHB_degree;
    if cons_slot x <? d then
      (ref_n_CHB_addr <~ ch_addr x) ;;
      (ref_n_CHB_degree <~ cons_slot x) ;;
      (my_sync_border <~ 0)
    else when (NUM_CONS_SLOTS <? cons_slot x) (my_sync_border <~ 0)) ;;
  when (bool_decide (r = CB))
    (for_blocks (@on_CHs) (fun _ x =>
       ref ← gets ref_n_CHB_addr;
       when (negb (ch_addr x =? ref)) (my_cons_slot <~ cons_slot x))).

Fixpoint update_slots (l : list nat) : N unit :=
  match l with
  | [] => skip
  | i :: l' =>
      x ← on_CHs (bl_get i);
      ref ← gets ref_n_CHB_addr;
      if ch_addr x =? ref then skip
      else (my_cons_slot <~ cons_slot x) ;; update_slots l'
  end.
Definition update_consensus_synchronization : N unit :=
  l ← on_CHs bl_items; update_slots l.

(** ** c-sync.c: neighbours *)

Definition get_neighbour (n : nat) : N neighbour := fun s =>
  match pl_blocks (neighbour_memb s) !! n with Some x => Ok (x, s) | None => Err FWild end.
Definition upd_neighbour (n : nat) (f : neighbour -> neighbour) : N unit :=
  modify (fun s => s <| neighbour_memb ::= fun p => p <| pl_blocks ::= alter f n |> |>).
Definition neighbour_alloc : N (option nat) := fun s =>
  let '(i, p) := pool_alloc (neighbour_memb s) in Ok (i, s <| neighbour_memb := p |>).

(** A loop over a list of neighbours whose body leaves the list alone. *)
Definition for_neighbours (l : list nat) (body : nat -> neighbour -> N unit) : N unit :=
  forM l (fun i => n ← get_neighbour i; body i n).

(** The topology of the test bed, for [MOD_TYPE] 1, 2 and 3: who each node takes
    for a neighbour. *)
Definition mod_topology_1 : list (Z * list Z) :=
  [(48, [40; 42; 44; 45; 46; 47]); (40, [48]); (42, [48]); (44, [48; 78]); (45, [48; 78]);
   (46, [48]); (47, [48]); (78, [44; 45; 72; 49]); (72, [69; 78]);
   (69, [62; 64; 66; 70; 71; 72; 75; 76]); (62, [69]); (65, [62]); (64, [69; 56]); (66, [69]);
   (70, [69; 71]); (71, [70]); (75, [69]); (76, [69]); (49, [58; 78]); (53, [58]);
   (54, [58; 61]); (55, [58]); (58, [49; 53; 54; 55]); (61, [54]); (60, [51]); (51, [57; 60]);
   (57, [23; 56]); (56, [51; 57; 64; 52]); (52, [23]); (23, [16; 19; 22; 24; 52; 57]);
   (24, [23]); (22, [23; 35]); (35, [22; 30]); (30, [35]); (19, [17; 23]); (17, [19; 23]);
   (16, [23])].
Definition mod_topology_2 : list (Z * list Z) :=
  [(75, [62]); (62, [70; 75]); (70, [71; 62]); (71, [66; 70]); (66, [71; 69]); (69, [66; 76]);
   (76, [64; 69]); (64, [56; 76]); (56, [51; 64]); (51, [56; 60]); (60, [51])].
Definition mod_topology_3 : list (Z * list Z) :=
  [(69, [64; 66; 70; 71; 75]); (70, [69]); (71, [69]); (75, [69]); (65, [62; 64; 66; 76]);
   (62, [65]); (76, [65]); (64, [65; 69; 66]); (66, [64; 65; 69])].

(** The two nested [switch] statements. *)
Fixpoint topology_lookup (t : list (Z * list Z)) (a b : Z) : Z :=
  match t with
  | [] => 0
  | (a', bs) :: t' =>
      if a =? a' then b2z (existsb (Z.eqb b) bs) else topology_lookup t' a b
  end.

(** [MOD_TYPE] is 1. *)
Definition check_mod (my_addr n_id : Z) : Z := topology_lookup mod_topology_1 my_addr n_id.
Definition check_mod_neighbours (n_id : Z) : N Z := gets (fun s => check_mod (my_addr s) n_id).

Definition csync_all_synced : N Z :=
  l ← gets mod_neighbour_list;
  (fix loop (l : list nat) : N Z :=
     match l with
     | [] => mret 1
     | i :: l' =>
         n ← get_neighbour i;
         if (n_synced n =? 0) || (1 <? n_state n) then mret 0 else loop l'
     end) l.

Definition update_neighbour_role (addr : Z) (role_sender : role_t) : N unit :=
  l ← gets mod_neighbour_list;
  for_neighbours l (fun i k =>
    ok ← check_mod_neighbours (n_addr k);
    when ((n_addr k =? addr) && c_true ok)
      (match role_sender with
       | CH => upd_neighbour i (fun k => k <| n_role := CH |>)
       | CB => upd_neighbour i (fun k => k <| n_role := CB |>)
       | CM => skip
       end)).

(** ** c-sync.c: placing *)

Definition csync_update_placing : N unit :=
  (my_placing <~ 0) ;;
  l ← gets mod_neighbour_list;
  for_neighbours l (fun _ n =>
    modify (fun s =>
      if my_degree s <? n_degree n then s <| my_placing ::= fun p => p +8 (n_degree n - my_degree s) |>
      else if (n_degree n =? my_degree s) && (my_addr s <? n_addr n)
      then s <| my_placing ::= fun p => p +8 1 |>
      else s)).

Definition CHB_place (r : role_t) (my_addr my_degree : Z) (placing : Z) (ch : chb) : Z :=
  if (my_degree <? ch_degree ch) && bool_decide (r = CB) then placing +8 (ch_degree ch - my_degree)
  else if (ch_degree ch =? my_degree) && (my_addr <? ch_addr ch) then placing +8 1
  else placing.
Definition csync_CHB_placing : N Z :=
  l ← on_CHs (gets bl_view);
  r ← get_role; a ← gets my_addr; d ← gets my_degree;
  mret (fold_left (CHB_place r a d) l 0).
End csync.

(** ** The memory of a node before its process starts

    The clock has been initialised by [rtimer_init]; the register readings, the
    random numbers and the results of [chameleon_create] to come are given. *)
Section boot.
Context {DF : DoubleFormat}.

Definition clock_boot (l : list reg_read) : rtimer_st callback_t :=
  mk_rtimer_st 0 (d_of_Z 0) 0 0 RTIMER_FINE_MAX RTIMER_FINE_MAX FREE FREE FREE 0 0
    (replicate NUM_OF_RTIMERS rtimer_zero) 0 false 0 false 0 false l.
Definition announcement_boot : announcement handler_t :=
  mk_announcement 0 0 (mk_value 0 0 0 0 0 (d_of_Z 0)) None.
Definition net_boot (addr : Z) (l : list reg_read) (rnd chameleon : nat -> Z) :
    net_st callback_t handler_t :=
  mk_net (clock_boot l) (mk_announcement_st [] None (replicate 5 announcement_boot))
    (mk_queue (mk_packetbuf (replicate (Z.to_nat PACKETBUF_SIZE) 0) 0 0 0
                 (replicate PACKETBUF_NUM_ATTRS 0) (replicate PACKETBUF_NUM_ADDRS 0))
       (pool_new 0%nat QUEUEBUF_NUM) (pool_new queuebuf_data_zero QUEUEBUF_NUM))
    (mk_broadcast None None 0 0 0) (mk_polite 0 PENDING 0 0) (mk_ipolite None None 0 0 0 0)
    [] (fun _ => 0) addr rnd chameleon [].
Definition node_boot (addr : Z) (l : list reg_read) (rnd chameleon : nat -> Z) : node :=
  mk_node (net_boot addr l rnd chameleon) 0 0 DISCOVERY 0
    (mk_cluster CM (mk_blist [] (pool_new chb_zero 4)) (mk_blist [] (pool_new chb_zero 8))
       (mk_blist [] (pool_new 0 2)))
    0 0 0 0 0 0 0 0 0 0 [] [] (pool_new neighbour_zero MAX_DEGREE) 0 (d_of_Z 1) 0 1 1 0 0 0 0
    false 0 0 false 0.
End boot.
