(* ===== verification/Gtsp.v ===== *)
(** * Gtsp: gradient time synchronisation, core/net/c-sync/gtsp.c

    [gtsp_recv] compares the clock reading of a received packet with the own
    clock and keeps the differences and the relative rate of the neighbour;
    [gtsp_update_rtimer] moves the own clock to agree with the neighbours. *)
From stdpp Require Import numbers option list.
From S2P Require Import Prelude Memb CDouble Rtimer Packetbuf Announcement Announcers CSync.

Definition GTSP_JUMP_THRESHOLD : Z := 100.
Definition GTSP_COARSE_OVERFLOW_THRESHOLD : Z := 1000.
Definition TRANSMISSION_DELAY : Z := 3.

(** The ticks from the first stamp to the second, on 16 bits. *)
Definition get_lg_delta_mac_netw (hw_a_timestamp hw_b_timestamp : Z) : Z :=
  if hw_a_timestamp <? hw_b_timestamp then hw_b_timestamp -16 hw_a_timestamp
  else u16 (hw_b_timestamp + (65535 - hw_a_timestamp)).

Definition in_jump (d : Z) : bool := (- GTSP_JUMP_THRESHOLD <? d) && (d <? GTSP_JUMP_THRESHOLD).

Section gtsp.
Context {DF : DoubleFormat}.
Local Abbreviation N := (M node).

Definition GTSP_MOVING_ALPHA : double := d_lit 9 10.
Definition GTSP_DRIFT_THRESHOLD : double := d_lit 1 1000.
Definition d_neg (x : double) : double := SpecFloat.SFopp x.
Definition d_one : double := d_of_Z 1.

(** The offset of the sender's logical clock when the packet is examined: its
    own, the time between its reading and the transmission, the time between the
    reception and our reading, and the transmission delay. *)
Definition total_offset (f : timesync_frame_t) (timestamp tb : Z)
    (my_clock_rate relative_rate avg_rate : double) : Z :=
  let send_delta := d_to_u 16 (d_mul (d_mul (d_of_Z (get_lg_delta_mac_netw (sf_tb f) (sf_hw_mac_timestamp f)))
                                        (sf_clock_rate f)) (d_add (sf_avg_rate f) d_one)) in
  let recv_delta := d_to_u 16 (d_mul (d_mul (d_of_Z (get_lg_delta_mac_netw timestamp tb))
                                        my_clock_rate) (d_add relative_rate d_one)) in
  let transmission := d_to_u 16 (d_div (d_mul (d_of_Z TRANSMISSION_DELAY) (d_add d_one relative_rate))
                                   (d_add d_one avg_rate)) in
  u32 (sf_fine_offset f + send_delta + recv_delta + transmission).

(** The measured rate, filtered; a rate out of bounds is a jump of the clock. *)
Definition update_rate (now_n_coarse now_n_fine now_my_coarse now_my_fine : Z) (n : neighbour) : neighbour :=
  let delta_lg_n_fine := rtimer_interval now_n_coarse now_n_fine (last_n_coarse n) (last_lg_n_fine n) in
  let delta_hw_my_fine := rtimer_interval now_my_coarse now_my_fine (last_my_coarse n) (last_hw_my_fine n) in
  let current_rate := d_sub (d_div (d_of_Z delta_lg_n_fine) (d_of_Z delta_hw_my_fine)) d_one in
  if d_lt (d_neg GTSP_DRIFT_THRESHOLD) current_rate && d_lt current_rate GTSP_DRIFT_THRESHOLD then
    n <| relative_rate := d_add (d_mul GTSP_MOVING_ALPHA (relative_rate n))
                                (d_mul (d_sub d_one GTSP_MOVING_ALPHA) current_rate) |>
      <| n_jumped := 0 |>
  else n <| n_jumped := 1 |>.

(** The differences of two logical dates; a pair of dates just on the two sides
    of a coarse overflow counts as one coarse unit. *)
Definition clock_diffs (my_coarse my_fine n_coarse n_fine : Z) : Z * Z :=
  let coarse := rtimer_diff my_coarse n_coarse in
  if (coarse =? - 1) && (RTIMER_FINE_MAX - GTSP_COARSE_OVERFLOW_THRESHOLD <? my_fine)
     && (n_fine <? GTSP_COARSE_OVERFLOW_THRESHOLD)
  then (0, s32 (rtimer_diff RTIMER_FINE_MAX my_fine + n_fine))
  else if (coarse =? 1) && (my_fine <? GTSP_COARSE_OVERFLOW_THRESHOLD)
     && (RTIMER_FINE_MAX - GTSP_COARSE_OVERFLOW_THRESHOLD <? n_fine)
  then (0, s32 (rtimer_diff RTIMER_FINE_MAX n_fine + my_fine))
  else (coarse, rtimer_diff my_fine n_fine).

Definition gtsp_recv (n : nat) (syncframe : timesync_frame_t) (new_neighbour : bool) : N unit :=
  '(sp, now_my_fine) ← on_clock sample_locked;
  now_my_coarse ← on_clock rtimer_coarse_now;
  now_n_fine ← on_clock (lift (rtimer_stamps_to_now (sf_ta syncframe) (sf_tb syncframe)
    (sf_ta_compare syncframe) (sf_tb_compare syncframe) (sf_clock_rate syncframe)));
  when new_neighbour
    (upd_neighbour n (fun x => x <| relative_rate := d_of_Z 0 |> <| n_jumped := 0 |>
                                 <| n_synced := 0 |>)) ;;
  x ← get_neighbour n;
  timestamp ← zoom net (on_packetbuf (packetbuf_attr PACKETBUF_ATTR_TIMESTAMP));
  avg ← on_clock rtimer_avg_rate;
  let offset := total_offset syncframe timestamp (sp_tb sp) (sp_rate sp) (relative_rate x) avg in
  let '(now_n_coarse, now_n_fine) :=
    rtimer_hwdate_to_lgdate (sf_coarse_now syncframe) now_n_fine offset in
  when (negb new_neighbour)
    (upd_neighbour n (update_rate now_n_coarse now_n_fine now_my_coarse now_my_fine)) ;;
  upd_neighbour n (fun x => x <| last_my_coarse := now_my_coarse |> <| last_hw_my_fine := now_my_fine |>
                              <| last_n_coarse := now_n_coarse |> <| last_lg_n_fine := now_n_fine |>) ;;
  again ← on_clock (lift (rtimer_stamps_to_now (sp_ta sp) (sp_tb sp) (sp_ta_compare sp)
    (sp_tb_compare sp) (sp_rate sp)));
  on_clock (rtimer_update_offset now_my_coarse again) ;;
  my_offset ← on_clock rtimer_fine_offset;
  let '(now_my_coarse, now_my_fine) := rtimer_hwdate_to_lgdate now_my_coarse now_my_fine my_offset in
  let '(cd, fd) := clock_diffs now_my_coarse now_my_fine now_n_coarse now_n_fine in
  upd_neighbour n (fun x => x <| coarse_diff := cd |> <| fine_diff := fd |>).

(** ** gtsp_update_rtimer *)

(** The local variables of the first loop. *)
Record sums := mk_sums {
  gs_avg_rate : double;
  coarse_diff_count : Z;
  coarse_synced_count : Z;
  coarse_synced_offset : Z;
  fine_diff_count : Z;
  fine_synced_offset : Z;
  fine_synced_count : Z;
}.
#[export] Instance eta_sums : Eta sums := fun x =>
  mk_sums (gs_avg_rate x) (coarse_diff_count x) (coarse_synced_count x) (coarse_synced_offset x)
    (fine_diff_count x) (fine_synced_offset x) (fine_synced_count x).

(** The coarse difference shared by most neighbours. *)
Definition coarse_majority (all : list neighbour) (s : sums) : sums :=
  fold_left (fun s n =>
    let count := fold_left (fun c nn => if coarse_diff n =? coarse_diff nn then c +8 1 else c) all 0 in
    let s := s <| coarse_diff_count := count |> in
    if coarse_synced_count s <? count
    then s <| coarse_synced_count := count |> <| coarse_synced_offset := coarse_diff n |>
    else s) all s.

(** The search for the majority loops with the variable [n] of the outer loop,
    which is null afterwards, when [n->fine_diff] is read. *)
Fixpoint sum_loop (all l : list nat) (s : sums) : N sums :=
  match l with
  | [] => mret s
  | i :: l' =>
      n ← get_neighbour i;
      st ← gets my_state;
      if negb (n_state n =? state_val st) then sum_loop all l' s
      else
        let s := if coarse_diff n =? 0
                 then s <| coarse_synced_count ::= fun c => c +8 1 |>
                 else s <| coarse_diff_count ::= fun c => c +8 1 |> in
        '(i, s) ← (if coarse_synced_count s <? coarse_diff_count s then
                     blocks ← gets (fun x => pl_blocks (neighbour_memb x));
                     mret (None, coarse_majority (omap (fun j => blocks !! j) all) s)
                   else mret (Some i, s));
        i ← deref i;
        n ← get_neighbour i;
        if in_jump (fine_diff n) then
          upd_neighbour i (fun n => n <| n_synced := 1 |>) ;;
          sum_loop all l' (s <| fine_synced_offset ::= fun o => s32 (o + fine_diff n) |>
                             <| gs_avg_rate ::= fun r => d_add r (relative_rate n) |>
                             <| fine_synced_count ::= fun c => c +8 1 |>)
        else
          upd_neighbour i (fun n => n <| n_synced := 0 |>) ;;
          sum_loop all l' (s <| fine_diff_count ::= fun c => c +8 1 |>)
  end.

(** During the discovery, when most neighbours are far: the average of the
    largest group of fine differences close to that of one neighbour. *)
Fixpoint group_loop (l : list neighbour) (count offset : Z) : res (Z * Z) :=
  match l with
  | [] => Ok (count, offset)
  | n :: l' =>
      if c_true (n_synced n) then group_loop l' count offset
      else
        let '(c, o) := fold_left (fun '(c, o) nn =>
            if in_jump (rtimer_diff (fine_diff n) (fine_diff nn))
            then (c +8 1, s32 (o + fine_diff nn)) else (c, o)) l' (1, fine_diff n) in
        if count <=? c then
          if c =? 0 then Err FDiv else group_loop l' c (Z.quot o c)
        else group_loop l' count offset
  end.

Definition gtsp_update_rtimer (l : list nat) : N unit :=
  avg ← on_clock rtimer_avg_rate;
  s ← sum_loop l l (mk_sums avg 0 0 0 0 0 0);
  on_clock (rtimer_adjust_coarse_count (coarse_synced_offset s)) ;;
  let offset := Z.quot (fine_synced_offset s) (fine_synced_count s + 1) in
  st ← gets my_state;
  offset ←
    (if fine_diff_count s <? fine_synced_count s then
       on_clock (rtimer_set_avg_rate
         (d_div (gs_avg_rate s) (d_of_Z (fine_synced_count s + fine_diff_count s + 1)))) ;;
       mret offset
     else if decide (st = DISCOVERY) then
       blocks ← gets (fun x => pl_blocks (neighbour_memb x));
       match group_loop (omap (fun j => blocks !! j) l) (fine_synced_count s) offset with
       | Ok (_, o) => mret o
       | Err e => fail e
       end
     else mret offset);
  on_clock (rtimer_adjust_fine_offset offset) ;;
  for_neighbours l (fun i n =>
    let d := s32 (fine_diff n - offset) in
    upd_neighbour i (fun n => n
      <| coarse_diff ::= fun c => s32 (c - coarse_synced_offset s) |>
      <| fine_diff := d |>
      <| n_synced := if in_jump d then 1 else 0 |>)).
End gtsp.
