(* ===== verification/Cluster.v ===== *)
(** * Cluster: neighbours, timer callbacks and resets of examples/c-sync/c-sync.c

    [add_to_neighbour] files the sender of every packet and corrects the clock,
    [csync_trusted_synchronization] follows the clock of the cluster, the
    [enter_*] callbacks of the real-time timer change the protocol state, and the
    resets start a round. *)
From stdpp Require Import numbers option list.
From S2P Require Import Prelude Lists Memb CDouble Rtimer Packetbuf Announcement Announcers CSync Gtsp.

Section cluster.
Context {DF : DoubleFormat}.
Local Abbreviation N := (M node).

(** ** Hardware *)

Definition radio (on : bool) : N unit := radio_on <~ on.
Definition show_leds (new_leds : Z) : N unit := leds <~ u8 new_leds.
Definition leds_on (ledv : Z) : N unit := l ← gets leds; show_leds (Z.lor l ledv).
Definition leds_off (ledv : Z) : N unit := l ← gets leds; show_leds (Z.land l (Z.lnot ledv)).
Definition leds_init : N unit := leds <~ 0.
Definition process_poll : N unit := needspoll <~ true.
Definition llsec_restart : N unit := modify (fun s => s <| llsec_init ::= fun n => n + 1 |>).
Definition set_attr (type : nat) (val : Z) : N unit :=
  zoom net (on_packetbuf (packetbuf_set_attr type val)).

(** ** add_to_neighbour *)

(** The first neighbour of the list with the address, and accepted. *)
Fixpoint find_neighbour (l : list nat) (addr : Z) (accept : Z -> N bool) : N (option nat) :=
  match l with
  | [] => mret None
  | i :: l' =>
      n ← get_neighbour i;
      ok ← (if n_addr n =? addr then accept (n_addr n) else mret false);
      if (ok : bool) then mret (Some i) else find_neighbour l' addr accept
  end.
Definition accept_mod (addr : Z) : N bool := c ← check_mod_neighbours addr; mret (c_true c).

(** A known neighbour. *)
Definition refresh_neighbour (n : nat) (state degree : Z) (syncframe : timesync_frame_t) : N (option nat) :=
  gtsp_recv n syncframe false ;;
  st ← gets my_state;
  if decide (st = IDLE) then mret (Some n)
  else
    let state := if (state =? DISC_TO_EREV) || (state =? CONVERGENCE_PROACTIVE)
                 then state -8 1 else state in
    upd_neighbour n (fun x => x <| n_state := state |>) ;;
    when (((state_val st <? CONSENSUS_SYNCHRONIZATION) && (state =? state_val st))
          || bool_decide (st = DISCOVERY))
      (l ← gets mod_neighbour_list; gtsp_update_rtimer l) ;;
    when (state_val st <? CONNECTION_DECLARATION)
      (upd_neighbour n (fun x => x <| n_degree := degree |>)) ;;
    mret (Some n).

(** A new neighbour; only one of the topology counts. *)
Definition new_neighbour (addr state degree : Z) (syncframe : timesync_frame_t) : N (option nat) :=
  n ← neighbour_alloc;
  match n with
  | None => mret None
  | Some n =>
      upd_neighbour n (fun x => x <| n_addr := addr |>) ;;
      st ← gets my_state;
      when (state_val st <? CONNECTION_DECLARATION)
        (upd_neighbour n (fun x => x <| n_degree := degree |>)) ;;
      upd_neighbour n (fun x => x <| n_role := CM |> <| n_state := state |>) ;;
      ok ← check_mod_neighbours addr;
      gtsp_recv n syncframe true ;;
      if c_true ok then
        modify (fun s => s <| my_degree ::= fun d => d +8 1 |>) ;;
        modify (fun s => s <| mod_neighbour_list ::= seq_add n |>) ;;
        d ← gets my_degree;
        on_ann (announcement_set_degree discovery_announcement d) ;;
        mret (Some n)
      else
        modify (fun s => s <| neighbour_list ::= seq_add n |>) ;;
        mret None
  end.

Definition add_to_neighbour (addr state degree : Z) (syncframe : timesync_frame_t) : N (option nat) :=
  ml ← gets mod_neighbour_list;
  n ← find_neighbour ml addr accept_mod;
  match n with
  | Some n => refresh_neighbour n state degree syncframe
  | None =>
      nl ← gets neighbour_list;
      n ← find_neighbour nl addr (fun _ => mret true);
      match n with
      | Some n => gtsp_recv n syncframe false ;; mret None
      | None => new_neighbour addr state degree syncframe
      end
  end.

(** ** csync_trusted_synchronization *)

(** [my_cons_rate = new_rate * cons_rate], 1 when that is 0, and the new value of
    the local [cons_rate]. *)
Definition take_rate (n : neighbour) (curr_rate cons_rate : double) : N double :=
  let rate := d_mul (d_div (relative_rate n) curr_rate) cons_rate in
  (my_cons_rate <~ (if d_eq rate (d_of_Z 0) then d_of_Z 1 else rate)) ;;
  mret (d_mul cons_rate (relative_rate n)).

(** Whether the function goes on to adjust the clock, after setting the rates. *)
Definition trusted_rates (n : neighbour) (c_addr : Z) (cons_rate : double) : N bool :=
  curr_rate ← on_clock rtimer_avg_rate;
  r ← get_role;
  my_slot ← gets my_cons_slot;
  this_slot ← gets this_sync_slot;
  match r with
  | CM =>
      l ← on_CHs (gets bl_view);
      ch ← deref (head l);
      if negb (n_addr n =? ch_addr ch) then mret false
      else
        when (my_slot =? this_slot)
          (on_clock (rtimer_set_avg_rate (d_mul cons_rate (relative_rate n)))) ;;
        mret true
  | CB =>
      l ← on_CBs (gets bl_view);
      if existsb (fun ch => n_addr n =? ch_addr ch) l then mret false
      else
        when (this_slot <? my_slot)
          (rate ← take_rate n curr_rate cons_rate;
           on_clock (rtimer_set_avg_rate rate)) ;;
        mret true
  | CH =>
      l ← on_CBs (gets bl_view);
      if existsb (fun ch => negb (n_addr n =? ch_addr ch)) l then mret false
      else
        rate ← take_rate n curr_rate cons_rate;
        lc ← gets sync_LC_addr;
        a ← gets my_addr;
        if my_slot =? this_slot then on_clock (rtimer_set_avg_rate rate) ;; mret true
        else if negb (lc =? a) && (lc =? c_addr) then
          on_clock (rtimer_set_avg_rate (d_div (d_add rate curr_rate) (d_of_Z 2))) ;; mret true
        else mret false
  end.

Definition csync_trusted_synchronization (n : nat) (c_addr : Z) (cons_rate : double) : N unit :=
  x ← get_neighbour n;
  ok ← trusted_rates x c_addr cons_rate;
  when ok
    (on_clock (rtimer_adjust_fine_offset (fine_diff x)) ;;
     l ← gets mod_neighbour_list;
     for_neighbours l (fun i _ =>
       upd_neighbour i (fun nn => nn <| fine_diff ::= fun d => s32 (d - fine_diff x) |>))).

(** ** csync_print_status

    What it prints is left out; it reads the first cluster head of a common node,
    switches LEDs and picks the local centre to follow. *)
Definition csync_print_status : N unit :=
  st ← gets my_state;
  r ← get_role;
  match st with
  | ELECTION_REVELATION => leds_init ;; leds_on LEDS_GREEN
  | CONNECTION_REVELATION =>
      match r with
      | CM =>
          l ← on_CHs (gets bl_view);
          if 1 <? Z.of_nat (length l) then skip else ch ← deref (head l); skip
      | CH => leds_on LEDS_RED
      | CB => skip
      end
  | CONSENSUS_CONVERGENCE =>
      match r with CB => leds_on LEDS_BLUE | _ => skip end
  | CONSENSUS_SYNCHRONIZATION =>
      for_blocks (@on_CHs) (fun _ ch =>
        my_slot ← gets my_cons_slot;
        when ((my_slot <=? cons_slot ch) && bool_decide (r = CH)) (sync_LC_addr <~ ch_addr ch))
  | _ => skip
  end.

(** ** Callbacks of the real-time timer *)

(** The reference of the next interval is the date of the timer that expired. *)
Definition set_schedule_ref : N unit :=
  r ← on_clock (get_rt RTIMER_0);
  on_clock (modify (fun c => c <| coarse_schedule_ref := time_coarse_hw r |>
                               <| fine_schedule_ref := time_fine_hw r |>)).

Definition remove_value (a : nat) : N unit := on_ann (announcement_remove_value a).
Definition polite_cancel : N unit := zoom net polite_announcement_cancel.
Definition polite_stop : N unit := zoom net polite_announcement_stop.
Definition polite_set_interval (interval : Z) : N unit :=
  zoom net (polite_announcement_set_interval interval).
Definition broadcast_stop : N unit := zoom net broadcast_announcement_stop.

Definition enter_election_revelation : N unit :=
  broadcast_stop ;;
  remove_value discovery_announcement ;;
  set_schedule_ref ;;
  (my_state <~ ELECTION_REVELATION) ;;
  modify (fun s => s <| sync_LC_addr := my_addr s |>) ;;
  process_poll.

Definition enter_election_declaration : N unit :=
  polite_cancel ;;
  remove_value revelation_announcement ;;
  csync_update_placing ;;
  p ← gets my_placing;
  polite_set_interval (POLITE_INTERVAL * p) ;;
  set_schedule_ref ;;
  (my_state <~ ELECTION_DECLARATION) ;;
  process_poll.

Definition enter_connection_revelation : N unit :=
  polite_cancel ;;
  radio false ;;
  remove_value declaration_announcement ;;
  set_schedule_ref ;;
  (my_state <~ CONNECTION_REVELATION) ;;
  process_poll.

Definition enter_connection_declaration : N unit :=
  polite_cancel ;;
  remove_value revelation_announcement ;;
  set_attr PACKETBUF_ATTR_CSYNC_CONN_DOAES 0 ;;
  llsec_restart ;;
  set_schedule_ref ;;
  (my_state <~ CONNECTION_DECLARATION) ;;
  process_poll.

Definition enter_convergence : N unit :=
  polite_cancel ;;
  remove_value declaration_announcement ;;
  set_schedule_ref ;;
  (my_state <~ CONSENSUS_CONVERGENCE) ;;
  process_poll.

Definition enter_consensus_revelation : N unit :=
  polite_cancel ;;
  remove_value convergence_announcement ;;
  p ← gets my_placing;
  polite_set_interval (POLITE_INTERVAL * p) ;;
  radio true ;;
  set_schedule_ref ;;
  (my_state <~ CONSENSUS_REVELATION) ;;
  process_poll.

Definition enter_convergence_slot : N unit :=
  polite_cancel ;;
  slot ← gets my_cons_slot;
  if slot <? NUM_CONS_SLOTS then (convergence_complete <~ 1) ;; process_poll
  else enter_consensus_revelation.

Definition enter_consensus_synchronization : N unit :=
  polite_cancel ;;
  remove_value revelation_announcement ;;
  set_schedule_ref ;;
  (my_state <~ CONSENSUS_SYNCHRONIZATION) ;;
  process_poll.

Definition enter_byzantine_consensus : N unit :=
  modify (fun s => s <| temp_state :=
    if c_true (my_sync_border s) then BYZANTINE_CONSENSUS else my_state s |>) ;;
  process_poll.

Definition enter_idle : N unit :=
  polite_stop ;;
  remove_value synchronization_announcement ;;
  radio false ;;
  set_schedule_ref ;;
  leds_off LEDS_GREEN ;;
  c ← gets cons_ctrl_counter;
  when (NUM_CONS_CTRL_ITERATIONS <=? c + 1) (leds_off LEDS_RED ;; leds_off LEDS_BLUE) ;;
  (my_state <~ IDLE) ;;
  process_poll.

Definition enter_synchronization_slot : N unit :=
  polite_cancel ;;
  d ← gets ref_n_CHB_degree;
  if d - 1 <? NUM_CONS_SLOTS then process_poll
  else enter_idle.

Definition enter_discovery : N unit :=
  polite_stop ;;
  set_schedule_ref ;;
  process_poll.

(** The callback a timer runs. *)
Definition run_callback (c : callback_t) : N unit :=
  match c with
  | Enter_election_revelation => enter_election_revelation
  | Enter_election_declaration => enter_election_declaration
  | Enter_connection_revelation => enter_connection_revelation
  | Enter_connection_declaration => enter_connection_declaration
  | Enter_convergence => enter_convergence
  | Enter_convergence_slot => enter_convergence_slot
  | Enter_consensus_revelation => enter_consensus_revelation
  | Enter_consensus_synchronization => enter_consensus_synchronization
  | Enter_synchronization_slot => enter_synchronization_slot
  | Enter_idle => enter_idle
  | Enter_discovery => enter_discovery
  end.

(** ** Resets *)

(** [CLOCK_SECOND * 0.1] and [CLOCK_SECOND * 0.5] ticks. *)
Definition DISC_MIN_INTERVAL : Z := 12.
Definition DISC_MAX_INTERVAL : Z := 64.

(** [rtimer_coarse_schedule_ref = 0; ...; memset(rt, 0, sizeof(rt))] *)
Definition clear_timers : N unit :=
  on_clock (modify (fun c => c <| coarse_schedule_ref := 0 |> <| fine_schedule_ref := 0 |>
                               <| rt := replicate NUM_OF_RTIMERS rtimer_zero |>)).

Definition reset_c_gtsp : N unit :=
  modify (fun s => s <| neighbour_memb ::= pool_init neighbour_zero |>
                     <| neighbour_list := [] |> <| mod_neighbour_list := [] |>) ;;
  (ref_n_CHB_degree <~ 0) ;;
  (ref_n_CHB_addr <~ 0) ;;
  clear_timers ;;
  on_ann announcement_init ;;
  (synced_counter <~ 0) ;;
  modify (fun s => s <| my_addr := node_addr (net s) |>) ;;
  a ← gets my_addr;
  d ← check_mod_neighbours a;
  (my_degree <~ d) ;;
  (my_state <~ DISCOVERY) ;;
  (my_placing <~ 0) ;;
  set_role CH ;;
  (soft_reset_count <~ 0) ;;
  on_CHs (bl_memb_init chb_zero) ;;
  on_CBs (bl_memb_init chb_zero) ;;
  on_CHs bl_list_init ;;
  on_CBs bl_list_init ;;
  on_blacklist (bl_memb_init 0) ;;
  on_blacklist bl_list_init.

Definition soft_reset : N unit :=
  on_ann announcement_init ;;
  (my_state <~ DISCOVERY) ;;
  clear_timers ;;
  (synced_counter <~ 0) ;;
  (my_proactive_slot <~ 1) ;;
  (my_cons_slot <~ 1) ;;
  (my_cons_rate <~ d_of_Z 1) ;;
  (my_slot_ack <~ 0) ;;
  (this_sync_slot <~ 1) ;;
  (my_sync_border <~ 0) ;;
  (cons_ctrl_counter <~ 0) ;;
  (msg_count <~ 0) ;;
  modify (fun s => s <| soft_reset_count ::= fun c => c +8 1 |>) ;;
  (radio_cca <~ - 80) ;;
  radio true ;;
  on_ann (announcement_register discovery_announcement 0 (Some Received_discovery)) ;;
  on_ann (announcement_add_value discovery_announcement) ;;
  on_ann (announcement_register revelation_announcement 1 (Some Received_revelation)) ;;
  on_ann (announcement_register declaration_announcement 2 (Some Received_declaration)) ;;
  on_ann (announcement_register convergence_announcement 3 (Some Received_convergence)) ;;
  on_ann (announcement_register synchronization_announcement 4 (Some Received_synchronization)) ;;
  zoom net (broadcast_announcement_init LOGICAL_CHANNEL DISC_MIN_INTERVAL DISC_MIN_INTERVAL
              DISC_MAX_INTERVAL).
End cluster.
