(* ===== verification/Handlers.v ===== *)
(** * Handlers: the announcement handlers of core/net/c-sync

    One section per handler, one definition per protocol state in which the
    handler does something.  Every handler ignores weak packets, files the sender
    with [add_to_neighbour] and, except during the discovery, ignores senders it
    is not synchronised with.  [return] skips the rest of the handler. *)
From stdpp Require Import numbers option list.
From S2P Require Import Prelude Lists Memb CDouble Rtimer Packetbuf Announcement Announcers CSync Gtsp Cluster.

Section handlers.
Context {DF : DoubleFormat}.
Local Abbreviation N := (M node).
Implicit Types (v : announcement_value) (sync : timesync_frame_t).

(** [DISC_TO_EREV_INTERVAL]: five seconds. *)
Definition DISC_TO_EREV_INTERVAL : Z := RTIMER_SECOND * 5.

(** [packetbuf_attr(PACKETBUF_ATTR_RSSI) >= RSSI_THRESHOLD]: on a 16-bit machine
    the threshold is converted to unsigned. *)
Definition strong_signal : N bool :=
  rssi ← zoom net (on_packetbuf (packetbuf_attr PACKETBUF_ATTR_RSSI));
  mret (u16 RSSI_THRESHOLD <=? rssi).

Definition schedule (interval : rtimer_scheduletype_t) (coarse fine : Z) (f : callback_t) : N bool :=
  r ← on_clock (rtimer_schedule RTIMER_0 interval coarse fine (Some f));
  mret (c_true r).
Definition set_rt_state (s : rtimer_state_t) : N unit :=
  on_clock (upd_rt RTIMER_0 (fun r => r <| rt_state := s |>)).
Definition get_rt0 : N (rtimer_t callback_t) := on_clock (get_rt RTIMER_0).
Definition bump_announcement (a : nat) : N unit := zoom net (bump a).
Definition polite_init (interval : Z) : N unit :=
  zoom net (polite_announcement_init LOGICAL_CHANNEL interval PA_RESILIENCE_MAX_SEND_DUPS
              PA_REGULAR_MAX_RECV_DUPS).

(** The preamble: a sender that counts, or [None] to return. *)
Definition sender (from : Z) v sync (need_synced : bool) : N (option nat) :=
  strong ← strong_signal;
  if negb strong then mret None
  else
    n ← add_to_neighbour from (av_instr v) (av_degree v) sync;
    match n with
    | None => mret None
    | Some n =>
        x ← get_neighbour n;
        if need_synced && negb (c_true (n_synced x)) then mret None else mret (Some n)
    end.

(** The neighbour precedes this node in the election. *)
Definition precedes (n : neighbour) (my_addr my_degree : Z) : bool :=
  (my_degree <? n_degree n) || ((n_degree n =? my_degree) && (my_addr <? n_addr n)).
Definition precedes_me (n : nat) : N bool :=
  x ← get_neighbour n; a ← gets my_addr; d ← gets my_degree; mret (precedes x a d).

Definition handle (v : announcement_value) (n : nat) : N Z :=
  x ← get_neighbour n; handle_lists v x.

(** ** received_discovery_announcement.c *)

Definition copy_date (a : nat) (coarse fine : Z) : N unit :=
  on_ann (announcement_set_date_coarse a coarse) ;;
  on_ann (announcement_set_date_fine a fine).

Definition discovery_in_DISCOVERY (a : nat) v : N unit :=
  all_synced ← csync_all_synced;
  when (all_synced =? 0)
    (on_ann (announcement_set_instr a DISCOVERY) ;; (synced_counter <~ 0)) ;;
  st ← gets my_state;
  mine ← on_ann (announcement_get_instr a);
  count ← gets synced_counter;
  if (av_instr v =? state_val st) && (state_val DISCOVERY =? mine) && (MAX_RX_SYNC_DISCOVERY <=? count)
  then
    ok ← schedule RTIMER_INTERVAL_NOW 0 DISC_TO_EREV_INTERVAL Enter_election_revelation;
    when ok
      (on_ann (announcement_set_instr a DISC_TO_EREV) ;;
       r ← get_rt0;
       copy_date a (time_coarse_lg r) (time_fine_lg r))
  else when (av_instr v =? DISC_TO_EREV)
    (comp_res ← on_clock (rtimer_compare RTIMER_0 (av_date_coarse v) (av_date_fine v));
     when (comp_res =? 1)
       (ok ← schedule RTIMER_DATE (av_date_coarse v) (av_date_fine v) Enter_election_revelation;
        if (ok : bool) then
          copy_date a (av_date_coarse v) (av_date_fine v) ;;
          on_ann (announcement_set_instr a DISC_TO_EREV)
        else
          set_rt_state RTIMER_INACTIVE ;;
          on_ann (announcement_set_instr a DISCOVERY) ;;
          (synced_counter <~ 0))).

Definition received_discovery_announcement (a : nat) (from : Z) v sync : N unit :=
  n ← sender from v sync false;
  match n with
  | None => skip
  | Some n =>
      x ← get_neighbour n;
      when (c_true (n_synced x)) (modify (fun s => s <| synced_counter ::= fun c => c +8 1 |>)) ;;
      st ← gets my_state;
      match st with
      | DISCOVERY => discovery_in_DISCOVERY a v
      | _ => skip
      end
  end.

(** ** received_declaration_announcement.c *)

(** Leave the discovery: stop the beacons and open the polite announcer. *)
Definition leave_discovery : N unit :=
  broadcast_stop ;;
  remove_value discovery_announcement ;;
  polite_init 0.

Definition declaration_in_DISCOVERY v (n : nat) : N unit :=
  set_role CM ;;
  leave_discovery ;;
  if av_instr v =? state_val CONNECTION_DECLARATION then
    (my_state <~ CONNECTION_DECLARATION) ;;
    process_poll
  else when (av_instr v =? state_val ELECTION_DECLARATION)
    (polite_cancel ;;
     ok ← schedule RTIMER_DATE (av_date_coarse v) (av_date_fine v) Enter_connection_revelation;
     when ok
       (handle v n ;;
        set_rt_state RTIMER_SINGLEPASS ;;
        enter_election_declaration)).

Definition declaration_in_ELECTION_REVELATION v : N unit :=
  when (av_instr v =? state_val ELECTION_DECLARATION)
    (polite_cancel ;;
     ok ← schedule RTIMER_DATE (av_date_coarse v) (av_date_fine v) Enter_connection_revelation;
     when ok
       (set_rt_state RTIMER_SINGLEPASS ;;
        enter_election_declaration)).

Definition declaration_in_ELECTION_DECLARATION (a : nat) v (n : nat) : N unit :=
  st ← gets my_state;
  if av_instr v =? state_val st then
    p ← precedes_me n;
    when p
      (polite_cancel ;;
       listed ← handle v n;
       when (negb (c_true listed)) (bump_announcement a))
  else when (av_instr v =? state_val CONNECTION_DECLARATION)
    (polite_cancel ;;
     ok ← schedule RTIMER_DATE (av_date_coarse v) (av_date_fine v) Enter_convergence;
     when ok
       (set_rt_state RTIMER_SINGLEPASS ;;
        on_CHs bl_list_init ;;
        enter_connection_revelation)).

Definition declaration_in_CONNECTION_DECLARATION v (n : nat) : N unit :=
  st ← gets my_state;
  r ← get_role;
  when ((av_instr v =? state_val st) && bool_decide (r = CH)) (handle v n ;; skip).

Definition received_declaration_announcement (a : nat) (from : Z) v sync : N unit :=
  n ← sender from v sync true;
  match n with
  | None => skip
  | Some n =>
      st ← gets my_state;
      match st with
      | DISCOVERY => declaration_in_DISCOVERY v n
      | ELECTION_REVELATION => declaration_in_ELECTION_REVELATION v
      | ELECTION_DECLARATION => declaration_in_ELECTION_DECLARATION a v n
      | CONNECTION_DECLARATION => declaration_in_CONNECTION_DECLARATION v n
      | _ => skip
      end
  end.

(** ** received_revelation_announcement.c *)

(** Entries of the cluster heads with the address of the neighbour take the slot,
    which becomes the own one. *)
Definition take_slot (addr slot : Z) (own : bool) : N unit :=
  for_blocks (@on_CHs) (fun i ch =>
    when (ch_addr ch =? addr)
      (on_CHs (bl_upd i (fun x => x <| cons_slot := slot |>)) ;;
       when own (my_cons_slot <~ slot))).

(** [memb_alloc(temp_memb)], assignments to its fields, and [list_push] of [temp_memb].
    The result of [memb_alloc] is not tested, and the item pushed is the memory
    block structure, not [ch]: a write through a pointer to another structure. *)
Definition push_memb v : N unit :=
  ch ← on_CHs bl_alloc;
  ch ← deref ch;
  on_CHs (bl_upd ch (fun x => x <| n_CHB_addr_A := av_ref_addr v |> <| cons_slot := av_degree v |>)) ;;
  fail FWild.

Definition revelation_in_DISCOVERY v (n : nat) : N unit :=
  x ← get_neighbour n;
  if av_instr v =? state_val ELECTION_REVELATION then
    polite_cancel ;;
    p ← precedes_me n;
    when p
      (ok ← schedule RTIMER_DATE (av_date_coarse v) (av_date_fine v) Enter_connection_revelation;
       when ok
         (set_rt_state RTIMER_SINGLEPASS ;;
          enter_election_revelation))
  else if av_instr v =? state_val CONNECTION_REVELATION then
    set_role CM ;;
    ok ← schedule RTIMER_DATE (av_date_coarse v) (av_date_fine v) Enter_consensus_synchronization;
    when ok
      (set_rt_state RTIMER_SINGLEPASS ;;
       leave_discovery ;;
       enter_connection_revelation)
  else when (av_instr v =? state_val CONSENSUS_REVELATION)
    (set_role CM ;;
     ok ← schedule RTIMER_DATE (av_date_coarse v) (av_date_fine v) Enter_consensus_synchronization;
     when ok
       (set_rt_state RTIMER_SINGLEPASS ;;
        leave_discovery ;;
        len ← on_CHs bl_length;
        (if 0 <? len then take_slot (n_addr x) (av_degree v) true
         else push_memb v ;; (my_cons_slot <~ av_degree v)) ;;
        enter_consensus_revelation)).

Definition revelation_in_ELECTION_REVELATION v (n : nat) : N unit :=
  st ← gets my_state;
  when (av_instr v =? state_val st)
    (p ← precedes_me n; when p polite_cancel).

Definition revelation_in_CONNECTION_REVELATION v (n : nat) : N unit :=
  st ← gets my_state;
  r ← get_role;
  when ((av_instr v =? state_val st) && bool_decide (r = CB))
    (p ← precedes_me n; when p (handle v n ;; skip)).

Definition revelation_in_CONSENSUS_CONVERGENCE v (n : nat) : N unit :=
  when (av_instr v =? state_val CONSENSUS_REVELATION)
    (polite_cancel ;;
     ok ← schedule RTIMER_DATE (av_date_coarse v) (av_date_fine v) Enter_consensus_synchronization;
     when ok
       (set_rt_state RTIMER_SINGLEPASS ;;
        r ← get_role;
        len ← on_CBs bl_length;
        when (bool_decide (r = CH) && (len =? 0))
          (handle v n ;;
           x ← get_neighbour n;
           take_slot (n_addr x) (av_degree v) true) ;;
        (my_cons_slot <~ NUM_CONS_SLOTS + 1) ;;
        (my_slot_ack <~ 0) ;;
        enter_consensus_revelation)).

Definition revelation_in_CONSENSUS_REVELATION v (n : nat) : N unit :=
  st ← gets my_state;
  r ← get_role;
  when ((av_instr v =? state_val st) && bool_decide (r = CM))
    (x ← get_neighbour n; take_slot (n_addr x) (av_degree v) true).

Definition received_revelation_announcement (a : nat) (from : Z) v sync : N unit :=
  n ← sender from v sync true;
  match n with
  | None => skip
  | Some n =>
      st ← gets my_state;
      match st with
      | DISCOVERY => revelation_in_DISCOVERY v n
      | ELECTION_REVELATION => revelation_in_ELECTION_REVELATION v n
      | CONNECTION_REVELATION => revelation_in_CONNECTION_REVELATION v n
      | CONSENSUS_CONVERGENCE => revelation_in_CONSENSUS_CONVERGENCE v n
      | CONSENSUS_REVELATION => revelation_in_CONSENSUS_REVELATION v n
      | _ => skip
      end
  end.

(** ** received_convergence_announcement.c *)

(** A cluster head that hears of another cluster becomes a common node of it. *)
Definition join_cluster v (n : nat) : N unit :=
  r ← get_role;
  when (bool_decide (r = CH))
    (set_role CM ;;
     on_CBs bl_list_init ;;
     handle v n ;;
     skip).

Definition convergence_in_CONNECTION_DECLARATION v (n : nat) : N unit :=
  when (av_instr v =? state_val CONSENSUS_CONVERGENCE)
    (polite_cancel ;;
     ok ← schedule RTIMER_DATE (av_date_coarse v) (av_date_fine v) Enter_consensus_revelation;
     when ok
       (set_rt_state RTIMER_SINGLEPASS ;;
        join_cluster v n ;;
        enter_convergence)).

(** The role of the sender: what the entries of one list with its address say. *)
Definition sender_role (on : forall B, M (blist chb) B -> N B) (n : nat) (listed : role_t)
    (role_sender : role_t) : N role_t :=
  l ← on _ bl_items;
  (fix loop (l : list nat) (role_sender : role_t) : N role_t :=
     match l with
     | [] => mret role_sender
     | i :: l' =>
         ch ← on _ (bl_get i);
         x ← get_neighbour n;
         if ch_addr ch =? n_addr x then
           upd_neighbour n (fun x => x <| n_role := listed |>) ;;
           update_neighbour_role (n_addr x) listed ;;
           loop l' listed
         else loop l' role_sender
     end) l role_sender.

(** A cluster bridge acknowledges the slot of its cluster head, once. *)
Definition acknowledge_slot (a : nat) v (n : nat) : N unit :=
  for_blocks (@on_CHs) (fun i ch =>
    x ← get_neighbour n;
    slot ← gets my_cons_slot;
    ack ← gets my_slot_ack;
    when ((ch_addr ch =? n_addr x) && ((cons_slot ch =? 0) && (slot =? av_degree v)) && negb (c_true ack))
      ((my_slot_ack <~ 1) ;;
       on_CHs (bl_upd i (fun x => x <| cons_slot := av_degree v |>)) ;;
       on_ann (announcement_set_instr a (av_instr v)) ;;
       on_ann (announcement_set_degree a (av_degree v)) ;;
       on_ann (announcement_set_ref_addr a (n_addr x)) ;;
       bump_announcement a)).

Definition convergence_in_CONSENSUS_CONVERGENCE (a : nat) v (n : nat) : N unit :=
  st ← gets my_state;
  when ((av_instr v =? state_val st) || (av_instr v =? CONVERGENCE_PROACTIVE))
    (rs ← sender_role (@on_CHs) n CH CM;
     rs ← sender_role (@on_CBs) n CB rs;
     r ← get_role;
     if decide (rs = CM) then
       len ← on_CBs bl_length;
       when (bool_decide (r = CH) && (len =? 0)) (handle v n ;; skip)
     else
       match r with
       | CB => acknowledge_slot a v n
       | CH =>
           me ← gets my_addr;
           if av_ref_addr v =? me then (my_cons_slot <~ av_degree v) ;; (my_slot_ack <~ 1)
           else polite_cancel ;; take_slot (av_ref_addr v) (av_degree v) false
       | CM => skip
       end).

Definition convergence_in_CONSENSUS_SYNCHRONIZATION v (n : nat) : N unit :=
  when (av_instr v =? state_val CONSENSUS_CONVERGENCE)
    (polite_cancel ;;
     (my_sync_border <~ 0) ;;
     ok ← schedule RTIMER_DATE (av_date_coarse v) (av_date_fine v) Enter_consensus_revelation;
     when ok
       (set_rt_state RTIMER_SINGLEPASS ;;
        (ref_n_CHB_degree <~ NUM_CONS_SLOTS + 3) ;;
        join_cluster v n ;;
        enter_discovery)).

Definition received_convergence_announcement (a : nat) (from : Z) v sync : N unit :=
  n ← sender from v sync true;
  match n with
  | None => skip
  | Some n =>
      st ← gets my_state;
      match st with
      | CONNECTION_DECLARATION => convergence_in_CONNECTION_DECLARATION v n
      | CONSENSUS_CONVERGENCE => convergence_in_CONSENSUS_CONVERGENCE a v n
      | CONSENSUS_SYNCHRONIZATION => convergence_in_CONSENSUS_SYNCHRONIZATION v n
      | _ => skip
      end
  end.

(** ** received_synchronization_announcement.c *)

(** Pass the date and the reference of the message on with the own announcement. *)
Definition relay_date v : N unit :=
  copy_date synchronization_announcement (av_date_coarse v) (av_date_fine v) ;;
  on_ann (announcement_set_ref_addr synchronization_announcement (av_ref_addr v)).
Definition relay v : N unit :=
  on_ann (announcement_set_degree synchronization_announcement (av_degree v)) ;;
  relay_date v.
Definition follow v (n : nat) : N unit :=
  csync_trusted_synchronization n (av_ref_addr v) (av_cons_rate v).

(** [bl_new = memb_alloc(temp_memb); bl_new->addr = n->addr; list_push(...);] *)
Definition accuse (addr : Z) : N unit :=
  b ← on_blacklist bl_alloc;
  b ← deref b;
  on_blacklist (bl_upd b (fun _ => addr)) ;;
  on_blacklist (bl_push b) ;;
  (my_sync_border <~ 1) ;;
  enter_byzantine_consensus.
Definition blacklisted (addr : Z) : N bool :=
  l ← on_blacklist (gets bl_view);
  mret (existsb (fun a => a =? addr) l).

(** The clock of the neighbour is too far ahead. *)
Definition too_far (x : neighbour) : bool :=
  (BYZANTINE_FINE_DIFF <? fine_diff x) || (BYZANTINE_COARSE_DIFF <? coarse_diff x).

Definition synchronization_in_DISCOVERY v (n : nat) : N unit :=
  set_role CM ;;
  leave_discovery ;;
  ok ← schedule RTIMER_DATE (av_date_coarse v) (av_date_fine v) Enter_idle;
  when ok
    (set_rt_state RTIMER_SINGLEPASS ;;
     len ← on_CHs bl_length;
     when (0 <? len)
       (push_memb v ;;
        (my_cons_slot <~ av_degree v) ;;
        follow v n ;;
        (my_sync_border <~ 0) ;;
        relay v)).

Definition synchronization_in_CONSENSUS_REVELATION v (n : nat) : N unit :=
  when (av_instr v =? state_val CONSENSUS_SYNCHRONIZATION)
    (polite_cancel ;;
     ok ← schedule RTIMER_DATE (av_date_coarse v) (av_date_fine v) Enter_idle;
     when ok
       (set_rt_state RTIMER_SINGLEPASS ;;
        r ← get_role;
        len ← on_CBs bl_length;
        when (bool_decide (r = CH) && (len =? 0))
          (handle v n ;;
           x ← get_neighbour n;
           take_slot (n_addr x) (av_degree v) false) ;;
        enter_consensus_synchronization)).

(** A cluster bridge: follow the cluster head it listens to, check the one it
    speaks to, accuse the one that is off. *)
Definition synchronization_at_CB v (n : nat) : N unit :=
  x ← get_neighbour n;
  slot ← gets my_cons_slot;
  this ← gets this_sync_slot;
  if this <? slot then
    if (fine_diff x <? BYZANTINE_FINE_DIFF) && (coarse_diff x <? BYZANTINE_COARSE_DIFF) then
      follow v n ;; (my_sync_border <~ 1) ;; relay v
    else accuse (n_addr x)
  else if slot =? this then
    if too_far x then accuse (n_addr x)
    else polite_cancel ;; (my_sync_border <~ 1) ;; relay v
  else relay v.

Definition synchronization_at_CH v (n : nat) : N unit :=
  relay_date v ;;
  slot ← gets my_cons_slot;
  this ← gets this_sync_slot;
  border ← gets my_sync_border;
  if (this =? slot) && negb (c_true border) then
    follow v n ;;
    bump_announcement synchronization_announcement ;;
    (my_sync_border <~ 1)
  else follow v n.

Definition synchronization_at_CM v (n : nat) : N unit :=
  slot ← gets my_cons_slot;
  this ← gets this_sync_slot;
  when (this =? slot) (relay_date v ;; follow v n).

(** A neighbour asks for agreement: count the voices. *)
Definition byzantine_voice (byzantine_threshold : Z) v (n : nat) : N unit :=
  x ← get_neighbour n;
  when (too_far x)
    (slot ← gets my_cons_slot;
     this ← gets this_sync_slot;
     if slot =? this then
       modify (fun s => s <| msg_count ::= fun c => c +8 1 |>) ;;
       follow v n ;;
       relay v ;;
       (my_sync_border <~ 1) ;;
       count ← gets msg_count;
       if byzantine_threshold <? count then polite_cancel ;; (my_sync_border <~ 0)
       else (my_sync_border <~ 1) ;; enter_byzantine_consensus
     else
       follow v n ;; relay v ;; (my_sync_border <~ 1)).

Definition synchronization_in_CONSENSUS_SYNCHRONIZATION (byzantine_threshold : Z) v (n : nat) : N unit :=
  st ← gets my_state;
  x ← get_neighbour n;
  if av_instr v =? state_val st then
    out ← blacklisted (n_addr x);
    r ← get_role;
    if (out : bool) then skip
    else
      match r with
      | CB => synchronization_at_CB v n
      | CH => synchronization_at_CH v n
      | CM => synchronization_at_CM v n
      end
  else when (av_instr v =? state_val BYZANTINE_CONSENSUS)
    (out ← blacklisted (n_addr x);
     when (negb out) (byzantine_voice byzantine_threshold v n)).

Definition received_synchronization_announcement (a : nat) (from : Z) v sync : N unit :=
  degree ← gets my_degree;
  let byzantine_threshold := degree / 2 + 1 in
  me ← gets my_addr;
  strong ← strong_signal;
  if strong && (av_ref_addr v =? me) then skip
  else
    n ← sender from v sync true;
    match n with
    | None => skip
    | Some n =>
        st ← gets my_state;
        match st with
        | DISCOVERY => synchronization_in_DISCOVERY v n
        | CONSENSUS_REVELATION => synchronization_in_CONSENSUS_REVELATION v n
        | CONSENSUS_SYNCHRONIZATION =>
            synchronization_in_CONSENSUS_SYNCHRONIZATION byzantine_threshold v n
        | _ => skip
        end
    end.

(** ** The handler of an announcement, and the reception of a packet *)

Definition call_handler (h : handler_t) (a : nat) (from id : Z) v sync (last_event : annstate_t) : N unit :=
  match h with
  | Received_discovery => received_discovery_announcement a from v sync
  | Received_revelation => received_revelation_announcement a from v sync
  | Received_declaration => received_declaration_announcement a from v sync
  | Received_convergence => received_convergence_announcement a from v sync
  | Received_synchronization => received_synchronization_announcement a from v sync
  end.

Definition packet_received (no : Z) : N unit := abc_input net call_handler no.
End handlers.
