(* ===== verification/Process.v ===== *)
(** * Process: the process c_gtsp_process of examples/c-sync/c-sync.c

    A protothread: every call runs from one [PROCESS_YIELD] to the next.  The
    yields are the values of [pc]; the code from a yield to the next ones is one
    definition, composed of the pieces of the thread between loop heads.  Loops
    without a yield carry fuel, and [FHang] stands for running out of it; that
    never happens with the fuel given here ([Rounds.process_loops_end]).

    [node_event] adds what runs the rest of the program: interrupts of the
    real-time timers, callback timers, received packets, and polls. *)
From stdpp Require Import numbers option list.
From S2P Require Import Prelude Memb CDouble Rtimer Packetbuf Announcement Announcers CSync Gtsp Cluster Handlers.

(** The yields, by the state in which the process usually waits there; the line
    in c-sync.c. *)
Inductive pc :=
  | At_discovery             (* 363 *)
  | At_clustering            (* 474 *)
  | At_convergence_slot      (* 602 *)
  | At_convergence_end       (* 646 *)
  | At_revelation            (* 664 *)
  | At_synchronization_slot  (* 733 *)
  | At_idle                  (* 819 *)
  | At_idle_end.             (* 838 *)
#[export] Instance pc_eq_dec : EqDecision pc.
Proof. solve_decision. Defined.

Section process.
Context {DF : DoubleFormat}.
Local Abbreviation N := (M node).

(** ** Intervals of project-conf.h *)

Definition HF : double := d_of_Z RTIMER_SECOND.
Definition slot_interval : double := d_mul HF (d_lit 3 10).
Definition REGULAR_SLOT_INTERVAL : Z := d_to_u 32 slot_interval.
(** [CONS_CTRL_SLOT_INTERVAL * n]. *)
Definition cons_slots (n : Z) : Z := d_to_u 32 (d_mul slot_interval (d_of_Z n)).
Definition IDLE_SLOT_INTERVAL : Z := RTIMER_SECOND * 3.
Definition CLOCK_SECOND : Z := 128.
Definition POLITE_PROACTIVE_OFFSET : double :=
  d_div (d_mul (d_div slot_interval HF) (d_of_Z CLOCK_SECOND)) (d_of_Z 3).

Definition schedule_ref (interval : Z) (f : callback_t) : N bool :=
  schedule RTIMER_INTERVAL_REF 0 interval f.

(** ** Pieces shared by the states *)

Definition set_instr (a : nat) (instr : Z) : N unit := on_ann (announcement_set_instr a instr).
Definition set_degree (a : nat) (degree : Z) : N unit := on_ann (announcement_set_degree a degree).
Definition set_ref_addr (a : nat) (addr : Z) : N unit := on_ann (announcement_set_ref_addr a addr).
Definition set_cons_rate (a : nat) (rate : double) : N unit := on_ann (announcement_set_cons_rate a rate).
Definition add_value (a : nat) : N unit := on_ann (announcement_add_value a).
Definition set_my_state (a : nat) : N unit := st ← gets my_state; set_instr a (state_val st).
(** The logical date of the real-time timer. *)
Definition set_date (a : nat) : N unit :=
  r ← get_rt0; copy_date a (time_coarse_lg r) (time_fine_lg r).
Definition set_polite_placing : N unit :=
  p ← gets my_placing; polite_set_interval (POLITE_INTERVAL * p).

(** ** The clustering: lines 366-475 *)

Definition in_CONNECTION_DECLARATION : N unit :=
  ok ← schedule_ref REGULAR_SLOT_INTERVAL Enter_convergence;
  when ok
    (csync_print_status ;;
     r ← get_role;
     match r with
     | CH => radio true
     | CB =>
         let a := declaration_announcement in
         set_my_state a ;;
         d ← gets ref_n_CHB_degree;
         set_degree a d ;;
         set_date a ;;
         addr ← gets ref_n_CHB_addr;
         set_ref_addr a addr ;;
         set_cons_rate a (d_of_Z 1) ;;
         add_value a ;;
         bump_announcement a
     | CM => skip
     end).

(** A common node that hears several cluster heads becomes a bridge of the two
    first ones. *)
Definition become_bridge : N unit :=
  radio true ;;
  set_role CB ;;
  p ← csync_CHB_placing;
  modify (fun s => s <| my_placing ::= fun q => q -8 p |>) ;;
  set_polite_placing ;;
  let a := revelation_announcement in
  set_my_state a ;;
  d ← gets my_degree;
  set_degree a d ;;
  set_date a ;;
  set_cons_rate a (d_of_Z 1) ;;
  l ← on_CHs (gets bl_view);
  ch ← deref (head l);
  (ref_n_CHB_addr <~ ch_addr ch) ;;
  (ref_n_CHB_degree <~ ch_degree ch) ;;
  set_attr PACKETBUF_ATTR_CSYNC_CONN_AES_XORPLAINTEXT_A (ch_addr ch) ;;
  ch ← deref (head (tail l));
  modify (fun s => s <| ref_n_CHB_addr ::= fun x => x +16 ch_addr ch |>) ;;
  modify (fun s => s <| ref_n_CHB_degree ::= fun x => x +8 ch_degree ch |>) ;;
  set_attr PACKETBUF_ATTR_CSYNC_CONN_AES_XORPLAINTEXT_B (ch_addr ch) ;;
  set_attr PACKETBUF_ATTR_CSYNC_CONN_DOAES 1 ;;
  llsec_restart ;;
  addr ← gets ref_n_CHB_addr;
  set_ref_addr a addr ;;
  add_value a ;;
  bump_announcement a.

Definition in_CONNECTION_REVELATION : N unit :=
  ok ← schedule_ref REGULAR_SLOT_INTERVAL Enter_connection_declaration;
  when ok
    (csync_print_status ;;
     len ← on_CHs bl_length;
     r ← get_role;
     when ((1 <? len) && bool_decide (r = CM)) become_bridge) ;;
  r ← get_rt0;
  if decide (rt_func r = Some Enter_convergence) then
    set_rt_state RTIMER_SINGLEPASS ;;
    in_CONNECTION_DECLARATION
  else skip.

(** The announcement of a phase of the election. *)
Definition announce_election (a : nat) : N unit :=
  set_my_state a ;;
  d ← gets my_degree;
  set_degree a d ;;
  set_date a ;;
  addr ← gets my_addr;
  set_ref_addr a addr ;;
  set_cons_rate a (d_of_Z 1) ;;
  add_value a ;;
  bump_announcement a.

(** A case that cannot schedule its end falls through to the next one. *)
Definition in_ELECTION_DECLARATION : N unit :=
  ok ← schedule_ref REGULAR_SLOT_INTERVAL Enter_connection_revelation;
  if (ok : bool) then csync_print_status ;; announce_election declaration_announcement
  else in_CONNECTION_REVELATION.

Definition in_ELECTION_REVELATION : N unit :=
  ok ← schedule_ref REGULAR_SLOT_INTERVAL Enter_election_declaration;
  if (ok : bool) then
    polite_init 0 ;;
    csync_print_status ;;
    announce_election revelation_announcement
  else in_ELECTION_DECLARATION.

Definition clustering_switch : N unit :=
  st ← gets my_state;
  match st with
  | ELECTION_REVELATION => in_ELECTION_REVELATION
  | ELECTION_DECLARATION => in_ELECTION_DECLARATION
  | CONNECTION_REVELATION => in_CONNECTION_REVELATION
  | CONNECTION_DECLARATION => in_CONNECTION_DECLARATION
  | _ => skip
  end.

(** ** The round: from the start of a round to its first yield *)

Definition round_start : N pc :=
  soft_reset ;;
  csync_print_status ;;
  mret At_discovery.

(** ** The synchronisation: lines 669-849 *)

Definition saved_or_restored : N unit :=
  c ← gets cons_ctrl_counter;
  if 0 <? c then
    (my_state <~ CONSENSUS_SYNCHRONIZATION) ;;
    r ← get_role;
    when (0 <? role_val r) (radio true) ;;
    modify (fun s => s <| my_proactive_slot := saved_proactive_slot s |>
                       <| my_cons_slot := saved_cons_slot s |>
                       <| my_slot_ack := saved_slot_ack s |>
                       <| this_sync_slot := 1 |>
                       <| my_sync_border := saved_sync_border s |>) ;;
    for_blocks (@on_CHs) (fun i _ =>
      on_CHs (bl_upd i (fun x => x <| cons_slot ::= fun c => (NUM_CONS_SLOTS + 1) -8 c |>))) ;;
    p ← gets my_placing;
    polite_init p
  else
    modify (fun s => s <| saved_proactive_slot := my_proactive_slot s |>
                       <| saved_cons_slot := my_cons_slot s |>
                       <| saved_slot_ack := my_slot_ack s |>
                       <| saved_sync_border := my_sync_border s |>).

Definition announce_synchronization : N unit :=
  init_consensus_synchronization ;;
  csync_print_status ;;
  r ← get_role;
  match r with
  | CH => polite_set_interval 0
  | CB => set_polite_placing
  | CM => skip
  end ;;
  let a := synchronization_announcement in
  set_my_state a ;;
  slot ← gets my_cons_slot;
  set_degree a slot ;;
  set_date a ;;
  set_cons_rate a (d_of_Z 1) ;;
  addr ← gets my_addr;
  set_ref_addr a addr ;;
  add_value a ;;
  radio false.

Definition next_ref_degree : N unit :=
  modify (fun s => s <| ref_n_CHB_degree ::= fun d => d +8 1 |>).

(** [while(ref_n_CHB_degree - 1 <= NUM_CONS_SLOTS)], one turn: whether it stopped
    to wait for the start of a slot; [loop] is the rest of the loop. *)
Definition slot_turn (loop : N bool) : N bool :=
  d ← gets ref_n_CHB_degree;
  if d - 1 <=? NUM_CONS_SLOTS then
    ok ← schedule_ref (cons_slots (d - 1)) Enter_synchronization_slot;
    if (ok : bool) then
      d ← gets ref_n_CHB_degree;
      if d - 1 <? NUM_CONS_SLOTS then mret true
      else next_ref_degree ;; loop
    else next_ref_degree ;; radio true ;; loop
  else mret false.
Fixpoint slot_loop (fuel : nat) : N bool :=
  match fuel with
  | O => fail FHang
  | S fuel' => slot_turn (slot_loop fuel')
  end.
Definition SLOT_FUEL : nat := 8.

(** The slot has started. *)
Definition synchronization_slot : N unit :=
  radio true ;;
  d ← gets ref_n_CHB_degree;
  (this_sync_slot <~ d) ;;
  border ← gets my_sync_border;
  slot ← gets my_cons_slot;
  when (c_true border && (d =? slot))
    (let a := synchronization_announcement in
     set_degree a slot ;;
     rate ← gets my_cons_rate;
     set_cons_rate a rate ;;
     bump_announcement a ;;
     (my_sync_border <~ 0)) ;;
  next_ref_degree.

(** After the slots: wait for the idle phase, unless the last date was missed. *)
Definition after_slots : N (option pc) :=
  d ← gets ref_n_CHB_degree;
  mret (if d - 2 <=? NUM_CONS_SLOTS then Some At_idle else None).

Definition run_slots : N (option pc) :=
  waits ← slot_loop SLOT_FUEL;
  if (waits : bool) then mret (Some At_synchronization_slot) else after_slots.

Definition synchronization_iteration : N (option pc) :=
  saved_or_restored ;;
  ok ← schedule_ref (cons_slots NUM_CONS_SLOTS) Enter_idle;
  if (ok : bool) then announce_synchronization ;; run_slots
  else mret None.

(** [while(cons_ctrl_counter < NUM_CONS_CTRL_ITERATIONS)], one turn: where the
    process has stopped to wait; after the loop the next round starts. *)
Definition next_iteration : N unit :=
  modify (fun s => s <| cons_ctrl_counter ::= fun c => c +8 1 |>).
Definition synchronization_turn (loop : N pc) : N pc :=
  c ← gets cons_ctrl_counter;
  if c <? NUM_CONS_CTRL_ITERATIONS then
    o ← synchronization_iteration;
    match o with
    | Some p => mret p
    | None => next_iteration ;; loop
    end
  else round_start.
Fixpoint synchronization_while (fuel : nat) : N pc :=
  match fuel with
  | O => fail FHang
  | S fuel' => synchronization_turn (synchronization_while fuel')
  end.
Definition ITERATION_FUEL : nat := 4.
Definition continue_iteration (o : option pc) : N pc :=
  match o with
  | Some p => mret p
  | None => next_iteration ;; synchronization_while ITERATION_FUEL
  end.

(** The idle phase: beacons until the next round of control. *)
Definition idle : N (option pc) :=
  coarse ← on_ann (announcement_get_date_coarse synchronization_announcement);
  fine ← on_ann (announcement_get_date_fine synchronization_announcement);
  ok ← schedule RTIMER_DATE coarse (fine +32 IDLE_SLOT_INTERVAL) Enter_discovery;
  if (ok : bool) then
    csync_print_status ;;
    radio true ;;
    let a := discovery_announcement in
    set_my_state a ;;
    c ← gets cons_ctrl_counter;
    set_degree a c ;;
    set_date a ;;
    set_cons_rate a (d_of_Z 1) ;;
    addr ← gets my_addr;
    set_ref_addr a addr ;;
    add_value a ;;
    zoom net (broadcast_announcement_init LOGICAL_CHANNEL DISC_MIN_INTERVAL DISC_MIN_INTERVAL
                DISC_MAX_INTERVAL) ;;
    mret (Some At_idle_end)
  else mret None.

Definition idle_end : N unit :=
  broadcast_stop ;;
  remove_value discovery_announcement.

(** ** The convergence: lines 515-666 *)

(** A later round of control starts from the convergence.  [cons_ctrl_counter] is
    0 here in every run, as [soft_reset] has just cleared it. *)
Definition restart_convergence : N unit :=
  (my_state <~ CONSENSUS_CONVERGENCE) ;;
  r ← get_role;
  when (0 <? role_val r) (radio true) ;;
  modify (fun s => s <| my_proactive_slot := 1 |> <| my_cons_slot := 1 |> <| my_slot_ack := 0 |>
                     <| this_sync_slot := 1 |> <| my_sync_border := 0 |>) ;;
  for_blocks (@on_CHs) (fun i _ => on_CHs (bl_upd i (fun x => x <| cons_slot := 0 |>))) ;;
  p ← gets my_placing;
  polite_init p.

Definition next_cons_slot : N unit :=
  modify (fun s => s <| my_cons_slot ::= fun c => c +8 1 |>).

(** The neighbouring cluster heads that have no slot yet. *)
Definition unslotted : N Z :=
  l ← on_CHs (gets bl_view);
  mret (swrap 8 (Z.of_nat (length (filter (fun ch => cons_slot ch = 0) l)))).

(** A cluster head proposes its slot when it may. *)
Definition propose_slot (n_CH_count : Z) : N unit :=
  ack ← gets my_slot_ack;
  slot ← gets my_cons_slot;
  proactive ← gets my_proactive_slot;
  let a := convergence_announcement in
  when (negb (c_true ack) && ((n_CH_count <=? 1) || (slot =? proactive)))
    (when (1 <? n_CH_count)
       (set_instr a CONVERGENCE_PROACTIVE ;;
        p ← gets my_placing;
        polite_set_interval
          (d_to_u 32 (d_add (d_of_Z (POLITE_INTERVAL * p)) POLITE_PROACTIVE_OFFSET))) ;;
     set_degree a slot ;;
     bump_announcement a).

(** [while(my_cons_slot <= NUM_CONS_SLOTS)], one turn: whether it stopped to wait
    for the end of a slot. *)
Definition convergence_turn (loop : N bool) : N bool :=
  slot ← gets my_cons_slot;
  if slot <=? NUM_CONS_SLOTS then
    r ← get_role;
    len ← on_CHs bl_length;
    if bool_decide (r = CH) && (swrap 8 len =? 0) then radio false ;; mret false
    else
      n_CH_count ← unslotted;
      ok ← schedule_ref (cons_slots slot) Enter_convergence_slot;
      if (ok : bool) then
        r ← get_role;
        match r with
        | CB => my_slot_ack <~ 0
        | CH => propose_slot n_CH_count
        | CM => skip
        end ;;
        slot ← gets my_cons_slot;
        mret (slot <? NUM_CONS_SLOTS)
      else next_cons_slot ;; loop
  else mret false.
Fixpoint convergence_loop (fuel : nat) : N bool :=
  match fuel with
  | O => fail FHang
  | S fuel' => convergence_turn (convergence_loop fuel')
  end.
Definition CONVERGENCE_FUEL : nat := 7.

(** After the convergence: wait for its end, unless the slots ran out. *)
Definition after_convergence : N pc :=
  slot ← gets my_cons_slot;
  if slot <=? NUM_CONS_SLOTS then mret At_convergence_end
  else synchronization_while ITERATION_FUEL.

Definition run_convergence : N pc :=
  waits ← convergence_loop CONVERGENCE_FUEL;
  if (waits : bool) then mret At_convergence_slot else after_convergence.

(** The end of a slot of the convergence. *)
Definition convergence_slot_end : N pc :=
  r ← get_role;
  when (bool_decide (r = CB))
    (for_blocks (@on_CHs) (fun _ ch =>
       modify (fun s => s <| my_slot_ack ::= fun x => u8 (x * cons_slot ch) |>))) ;;
  ack ← gets my_slot_ack;
  if c_true ack then
    radio false ;;
    ok ← schedule_ref (cons_slots NUM_CONS_SLOTS) Enter_consensus_revelation;
    if (ok : bool) then after_convergence
    else next_cons_slot ;; run_convergence
  else next_cons_slot ;; run_convergence.

Definition convergence : N pc :=
  leds_on LEDS_GREEN ;;
  c ← gets cons_ctrl_counter;
  when (0 <? c) restart_convergence ;;
  ok ← schedule_ref (cons_slots NUM_CONS_SLOTS) Enter_consensus_revelation;
  if (ok : bool) then
    csync_print_status ;;
    let a := convergence_announcement in
    set_date a ;;
    set_cons_rate a (d_of_Z 1) ;;
    add_value a ;;
    r ← get_role;
    match r with
    | CH =>
        init_consensus_convergence ;;
        p ← csync_CHB_placing;
        (my_placing <~ p) ;;
        set_polite_placing
    | CB => polite_set_interval 0
    | CM => skip
    end ;;
    r ← get_role;
    if 0 <? role_val r then run_convergence else after_convergence
  else after_convergence.

(** The clustering loop; it waits after every turn. *)
Definition clustering : N pc :=
  st ← gets my_state;
  if state_val st <? CONSENSUS_CONVERGENCE then clustering_switch ;; mret At_clustering
  else convergence.

(** The cluster heads tell their common nodes when to wake up. *)
Definition consensus_revelation : N pc :=
  ok ← schedule_ref REGULAR_SLOT_INTERVAL Enter_consensus_synchronization;
  if (ok : bool) then
    csync_print_status ;;
    r ← get_role;
    when (bool_decide (r = CH))
      (let a := revelation_announcement in
       set_my_state a ;;
       slot ← gets my_cons_slot;
       set_degree a slot ;;
       set_date a ;;
       set_cons_rate a (d_of_Z 1) ;;
       add_value a ;;
       bump_announcement a) ;;
    mret At_revelation
  else synchronization_while ITERATION_FUEL.

(** ** The process *)

(** The first call. *)
Definition proc_init : N pc := reset_c_gtsp ;; round_start.

(** A call that resumes at a yield. *)
Definition proc_step (p : pc) : N pc :=
  match p with
  | At_discovery | At_clustering => clustering
  | At_convergence_slot => convergence_slot_end
  | At_convergence_end => consensus_revelation
  | At_revelation => synchronization_while ITERATION_FUEL
  | At_synchronization_slot => synchronization_slot ;; o ← run_slots; continue_iteration o
  | At_idle => o ← idle; continue_iteration o
  | At_idle_end => idle_end ;; continue_iteration None
  end.

(** ** The events that drive a node *)

Inductive event :=
  | Timer_interrupt (timer : nat)       (* fine compare interrupt *)
  | Compare_interrupt                   (* coarse compare interrupt *)
  | Overflow_interrupt
  | Ipolite_expires
  | Broadcast_interval_expires
  | Broadcast_send_expires
  | Packet (no : Z) (pb : packetbuf_st) (* the packet in the packet buffer *)
  | Packet_sent (c : conn_t)
  | Poll.

(** A node: its variables and where its process waits. *)
Definition mote : Type := node * pc.

Definition node_event (e : event) : N unit :=
  match e with
  | Timer_interrupt timer => RTIMER_HF_CALLBACK (@on_clock) timer run_callback
  | Compare_interrupt => on_clock RTIMER_LF_CALLBACK
  | Overflow_interrupt => on_clock rtimer_lf_overflow
  | Ipolite_expires => zoom net ipolite_timer
  | Broadcast_interval_expires => zoom net broadcast_send_timer
  | Broadcast_send_expires => zoom net broadcast_send_adv
  | Packet no pb => zoom net (on_packetbuf (modify (fun _ => pb))) ;; packet_received no
  | Packet_sent c => zoom net (packet_sent c)
  | Poll => skip
  end.

(** A poll runs the process when one was requested; a callback timer expires
    only while it runs. *)
Definition enabled (e : event) (s : node) : bool :=
  match e with
  | Ipolite_expires => bool_decide (is_Some (ip_t (ip (net s))))
  | Broadcast_interval_expires => bool_decide (is_Some (ba_interval_timer (ba (net s))))
  | Broadcast_send_expires => bool_decide (is_Some (ba_send_timer (ba (net s))))
  | Poll => needspoll s
  | _ => true
  end.

Inductive mote_step : mote -> event -> mote -> Prop :=
  | Event_step s p e s' :
      enabled e s = true -> e <> Poll -> node_event e s = Ok (tt, s') ->
      mote_step (s, p) e (s', p)
  | Poll_step s p s' p' :
      needspoll s = true -> proc_step p (s <| needspoll := false |>) = Ok (p', s') ->
      mote_step (s, p) Poll (s', p').
End process.
