(* ===== verification/HandleLists.v ===== *)
(** * HandleLists: what the operations on the cluster lists achieve

    [handle_lists] refines a sorted insertion into a list of four entries;
    [init_consensus_convergence] collects the neighbouring cluster heads;
    [init_consensus_synchronization] mirrors the slots and finds the first one. *)
From Stdlib Require Import Sorting.Sorted.
From stdpp Require Import numbers option sets list.
From S2P Require Import Prelude Lists Memb CDouble Rtimer Packetbuf Announcement Announcers CSync.

(** ** Lists of blocks *)

Section blists.
Context {A : Type}.
Implicit Types l : blist A.

(** The blocks on the list are distinct blocks in use. *)
Record bl_wf l : Prop := {
  wf_pool : pool_wf (bl_memb l);
  wf_nodup : NoDup (bl_list l);
  wf_used : Forall (pool_used (bl_memb l)) (bl_list l);
  wf_bits : pool_bits (bl_memb l);
}.

Definition has_free l : Prop :=
  exists i, (i < length (pl_count (bl_memb l)))%nat /\ ~ pool_used (bl_memb l) i.

Lemma pool_used_lt p i : pool_used (A := A) p i -> (i < length (pl_count p))%nat.
Proof. intros (c & Hc & _). by eapply lookup_lt_Some. Qed.

Lemma bl_get_Ok l i :
  bl_wf l -> i ∈ bl_list l -> exists x, pl_blocks (bl_memb l) !! i = Some x /\ bl_get i l = Ok (x, l).
Proof.
  intros H Hi. destruct (proj1 (Forall_forall _ _) (wf_used _ H) i Hi) as (c & Hc & _).
  apply lookup_lt_Some in Hc. rewrite (wf_pool _ H) in Hc.
  apply lookup_lt_is_Some_2 in Hc as [x Hx]. exists x. unfold bl_get. by rewrite Hx.
Qed.

(** The view of a list of allocated blocks has an entry for each. *)
Lemma view_lookup (blocks : list A) (idx : list nat) :
  Forall (fun i => i < length blocks)%nat idx ->
  forall k i x, idx !! k = Some i -> blocks !! i = Some x ->
  omap (fun i => blocks !! i) idx !! k = Some x.
Proof.
  induction 1 as [|j idx Hj _ IH]; intros k i x Hk Hx; [done|].
  apply lookup_lt_is_Some_2 in Hj as [y Hy]. cbn. rewrite Hy.
  destruct k as [|k]; simpl in *; [congruence|]. by eapply IH.
Qed.

Lemma view_length (blocks : list A) (idx : list nat) :
  Forall (fun i => i < length blocks)%nat idx ->
  length (omap (fun i => blocks !! i) idx) = length idx.
Proof.
  induction 1 as [|j idx Hj _ IH]; [done|].
  apply lookup_lt_is_Some_2 in Hj as [y Hy]. cbn. rewrite Hy. simpl. by rewrite IH.
Qed.

Lemma wf_lt l : bl_wf l -> Forall (fun i => i < length (pl_blocks (bl_memb l)))%nat (bl_list l).
Proof.
  intros H. eapply Forall_impl; [apply (wf_used _ H)|]. intros i Hi.
  rewrite <- (wf_pool _ H). by apply pool_used_lt.
Qed.

Lemma bl_view_length l : bl_wf l -> length (bl_view l) = length (bl_list l).
Proof. intros H. by apply view_length, wf_lt. Qed.

(** Writing a block that is not on the list leaves the view alone. *)
Lemma view_alter (blocks : list A) f i (idx : list nat) :
  i ∉ idx -> omap (fun j => alter f i blocks !! j) idx = omap (fun j => blocks !! j) idx.
Proof.
  intros Hi. induction idx as [|j idx IH]; [done|].
  apply not_elem_of_cons in Hi as [Hj Hi]. cbn.
  rewrite list_lookup_alter_ne by done. by rewrite IH.
Qed.

Lemma view_app (blocks : list A) (idx jdx : list nat) :
  omap (fun j => blocks !! j) (idx ++ jdx) = omap (fun j => blocks !! j) idx ++ omap (fun j => blocks !! j) jdx.
Proof. apply omap_app. Qed.

Lemma bl_view_removelast (blocks : list A) (idx : list nat) :
  Forall (fun i => i < length blocks)%nat idx ->
  omap (fun j => blocks !! j) (removelast idx) = removelast (omap (fun j => blocks !! j) idx).
Proof.
  intros H. destruct idx as [|j idx _] using rev_ind; [done|].
  apply Forall_app in H as [_ Hj]. apply Forall_cons in Hj as [Hj _].
  apply lookup_lt_is_Some_2 in Hj as [y Hy]. rewrite view_app. cbn. rewrite Hy.
  by rewrite !removelast_last.
Qed.
End blists.

Definition with_role (r : role_t) (s : node) : node := s <| my_cluster ::= fun c => c <| role := r |> |>.
Lemma with_role_same s : with_role (role (my_cluster s)) s = s.
Proof. by destruct s as [? ? ? ? ? []]. Qed.

(** The lists an operation can be asked to work on. *)
Class ListOf (on : forall B, M (blist chb) B -> M node B) := {
  lsel : node -> blist chb;
  lput : blist chb -> node -> node;
  on_run B (m : M (blist chb) B) s :
    on B m s = match m (lsel s) with Ok (a, l) => Ok (a, lput l s) | Err e => Err e end;
  lsel_put l s : lsel (lput l s) = l;
  lput_put l l' s : lput l (lput l' s) = lput l s;
  lput_sel s : lput (lsel s) s = s;
  put_role l s : role (my_cluster (lput l s)) = role (my_cluster s);
  put_addr l s : my_addr (lput l s) = my_addr s;
  put_degree l s : my_degree (lput l s) = my_degree s;
  put_state l s : my_state (lput l s) = my_state s;
  put_with_role l r s : with_role r (lput l s) = lput l (with_role r s);
  sel_with_role r s : lsel (with_role r s) = lsel s;
}.
Arguments lsel on {_}. Arguments lput on {_}.

#[export] Program Instance CHs_list : ListOf (@on_CHs) := {|
  lsel := fun s => CHs (my_cluster s);
  lput := fun l s => s <| my_cluster ::= fun c => c <| CHs := l |> |>;
|}.
Next Obligation. intros. unfold on_CHs, on_cluster, zoom. by destruct (m _) as [[]|]. Qed.
Next Obligation. done. Qed.
Next Obligation. done. Qed.
Next Obligation. intros s. by destruct s as [? ? ? ? ? []]. Qed.
Next Obligation. done. Qed.
Next Obligation. done. Qed.
Next Obligation. done. Qed.
Next Obligation. done. Qed.
Next Obligation. done. Qed.
Next Obligation. done. Qed.

#[export] Program Instance CBs_list : ListOf (@on_CBs) := {|
  lsel := fun s => CBs (my_cluster s);
  lput := fun l s => s <| my_cluster ::= fun c => c <| CBs := l |> |>;
|}.
Next Obligation. intros. unfold on_CBs, on_cluster, zoom. by destruct (m _) as [[]|]. Qed.
Next Obligation. done. Qed.
Next Obligation. done. Qed.
Next Obligation. intros s. by destruct s as [? ? ? ? ? []]. Qed.
Next Obligation. done. Qed.
Next Obligation. done. Qed.
Next Obligation. done. Qed.
Next Obligation. done. Qed.
Next Obligation. done. Qed.
Next Obligation. done. Qed.

(** ** handle_lists *)

Section handle_lists.
Context {DF : DoubleFormat}.
Implicit Types (l : blist chb) (v : announcement_value) (n : neighbour).

(** The entry [e] in the place of a neighbour of that address and degree. *)
Fixpoint place (e : chb) (addr degree : Z) (entries : list chb) : list chb :=
  match entries with
  | [] => [e]
  | ch :: entries' =>
      if ch_addr ch =? addr then entries
      else if (ch_degree ch <? degree) || ((degree =? ch_degree ch) && (ch_addr ch <? addr))
      then e :: entries
      else ch :: place e addr degree entries'
  end.

(** The best four, after the neighbour was heard. *)
Definition heard_entries (e : chb) (n : neighbour) (entries : list chb) : list chb :=
  take 4 (place e (n_addr n) (n_degree n) entries).

Definition insert_at {A} (k : nat) (x : A) (l : list A) : list A := take k l ++ x :: drop k l.

Lemma find_place_spec e entries addr degree (pos : Z) :
  0 <= pos -> pos + Z.of_nat (length entries) < 256 ->
  match find_place entries addr degree pos with
  | Same => place e addr degree entries = entries
  | Before q => exists k, (k < length entries)%nat /\ q = pos + Z.of_nat k /\
      place e addr degree entries = insert_at k e entries
  | End q => q = pos + Z.of_nat (length entries) /\
      place e addr degree entries = insert_at (length entries) e entries
  end.
Proof.
  revert pos. induction entries as [|ch entries IH]; intros pos H0 H; cbn [find_place place length] in *.
  - split; [lia|done].
  - destruct (ch_addr ch =? addr); [done|].
    destruct (_ || _); [exists 0%nat; split_and!; [lia|lia|done]|].
    rewrite uwrap_small by (split; simpl; lia).
    specialize (IH (pos + 1) ltac:(lia) ltac:(lia)).
    destruct (find_place entries addr degree (pos + 1)) as [|q|q]; [by rewrite IH| |].
    + destruct IH as (k & Hk & -> & ->). exists (S k). split_and!; [lia|lia|done].
    + destruct IH as [-> ->]. split; [lia|done].
Qed.

Lemma walk_to_spec (idx : list nat) k :
  (k < length idx)%nat -> (k < 200)%nat -> walk_to idx (Z.of_nat k + 2) = idx !! k.
Proof.
  revert k. induction idx as [|i idx IH]; intros k Hk Hk'; cbn [walk_to length] in *; [lia|].
  destruct k as [|k]; [done|]. change ((i :: idx) !! S k) with (idx !! k).
  rewrite (proj2 (Z.leb_gt _ _)) by lia. rewrite uwrap_small by (split; simpl; lia).
  rewrite <- IH by lia. f_equal. lia.
Qed.

Lemma seq_insert_at (idx : list nat) k p i :
  NoDup idx -> idx !! k = Some p -> seq_insert p i idx = insert_at (S k) i idx.
Proof.
  intros Hn Hk. apply lookup_lt_Some in Hk as Hl. apply take_drop_middle in Hk as E.
  assert (Hlen : length (take k idx) = k) by (rewrite length_take; lia).
  revert Hn Hlen. rewrite <- E at 1 3 4. clear. generalize (take k idx), (drop (S k) idx).
  intros l1 l2 Hn Hlen. rewrite seq_insert_split by (apply NoDup_app in Hn; set_solver).
  unfold insert_at. rewrite firstn_app, skipn_app, Hlen, (take_ge l1), (drop_ge l1) by lia.
  replace (S k - k)%nat with 1%nat by lia. simpl. rewrite take_0, drop_0.
  by rewrite <- app_assoc.
Qed.

Lemma view_take (blocks : list chb) (idx : list nat) k :
  Forall (fun i => i < length blocks)%nat idx ->
  omap (fun j => blocks !! j) (take k idx) = take k (omap (fun j => blocks !! j) idx) /\
  omap (fun j => blocks !! j) (drop k idx) = drop k (omap (fun j => blocks !! j) idx).
Proof.
  intros H. revert k. induction H as [|j idx Hj _ IH]; intros [|k]; try done.
  apply lookup_lt_is_Some_2 in Hj as [y Hy]. cbn. rewrite Hy. cbn.
  destruct (IH k) as [E1 E2]. rewrite <- E1, <- E2. done.
Qed.

(** The view of a list with a new entry. *)
Lemma view_insert_at (blocks : list chb) (idx : list nat) k i e :
  Forall (fun i => i < length blocks)%nat idx -> i ∉ idx -> (i < length blocks)%nat ->
  omap (fun j => alter (fun _ => e) i blocks !! j) (insert_at k i idx)
  = insert_at k e (omap (fun j => blocks !! j) idx).
Proof.
  intros Hlt Hi Hib. unfold insert_at. rewrite view_app, view_alter.
  2:{ intros Hin. apply Hi. rewrite <- (take_drop k idx). set_solver. }
  apply lookup_lt_is_Some_2 in Hib as [y Hy]. cbn. rewrite list_lookup_alter_eq, Hy. cbn.
  fold (omap (M := list) (fun j => alter (fun _ => e) i blocks !! j)).
  destruct (view_take blocks idx k Hlt) as [E1 E2]. rewrite E1. do 2 f_equal.
  rewrite <- E2. apply (view_alter blocks).
  intros Hin. apply Hi. rewrite <- (take_drop k idx). set_solver.
Qed.

Lemma bl_wf_insert l k i e :
  bl_wf l -> pool_used (bl_memb l) i -> i ∉ bl_list l ->
  let l' := mk_blist (insert_at k i (bl_list l))
              ((bl_memb l) <| pl_blocks ::= alter (fun _ => e) i |>) in
  bl_wf l' /\ bl_view l' = insert_at k e (bl_view l).
Proof.
  intros H Hu Hi l'. assert (Hp : Permutation (insert_at k i (bl_list l)) (i :: bl_list l)).
  { unfold insert_at. rewrite <- Permutation_middle. by rewrite take_drop. }
  split.
  - split; unfold l'; rsimpl; simpl.
    + unfold pool_wf. rsimpl. rewrite length_alter. apply (wf_pool _ H).
    + rewrite Hp. constructor; [done|apply (wf_nodup _ H)].
    + rewrite Hp. constructor; [done|apply (wf_used _ H)].
    + apply (wf_bits _ H).
  - apply view_insert_at; [by apply wf_lt|done|].
    rewrite <- (wf_pool _ H). by apply pool_used_lt.
Qed.

Lemma insert_entry_Ok on `{!ListOf on} v n k i s (l := lsel on s) :
  bl_wf l -> pool_used (bl_memb l) i -> i ∉ bl_list l ->
  (k <= length (bl_list l))%nat -> (length (bl_list l) < 100)%nat ->
  exists l', insert_entry on v n (1 + Z.of_nat k) (Some i) s = Ok (1, lput on l' s) /\ bl_wf l' /\
    bl_view l' = insert_at k (chb_of (role (my_cluster s)) (my_addr s) (my_degree s) v n) (bl_view l).
Proof.
  intros H Hu Hi Hk Hl. set (e := chb_of _ _ _ _ _).
  exists (mk_blist (insert_at k i (bl_list l)) ((bl_memb l) <| pl_blocks ::= alter (fun _ => e) i |>)).
  split; [|by apply bl_wf_insert].
  unfold insert_entry, mbind, M_bind, get_role, gets. rewrite on_run. cbn -[Z.add]. fold l.
  assert (E : forall m : M (blist chb) unit, forall l1,
    m (mk_blist (bl_list l) ((bl_memb l) <| pl_blocks ::= alter (fun _ => e) i |>)) = Ok (tt, l1) ->
    on _ m (lput on (l <| bl_memb ::= fun p => p <| pl_blocks ::= alter (fun _ => e) i |> |>) s)
    = Ok (tt, lput on l1 s)).
  { intros m l1 Hm. rewrite on_run, lsel_put. destruct l. unfold update in *. cbn in *.
    by rewrite Hm, lput_put. }
  destruct k as [|k].
  - rewrite (proj2 (Z.eqb_eq _ _)) by lia. erewrite E; [done|].
    unfold bl_push, modify, update. cbn -[seq_push]. unfold seq_push.
    by rewrite seq_remove_notin.
  - rewrite (proj2 (Z.eqb_neq _ _)) by lia. rewrite on_run. unfold bl_items, gets. rewrite lsel_put.
    rsimpl. replace (1 + Z.of_nat (S k)) with (Z.of_nat k + 2) by lia.
    rewrite walk_to_spec by lia.
    assert (is_Some (bl_list l !! k)) as [p Hp] by (apply lookup_lt_is_Some_2; lia).
    rewrite Hp, lput_put. erewrite E; [done|].
    unfold bl_insert, modify, update. cbn -[seq_insert]. by erewrite seq_insert_at by (done || apply H).
Qed.

(** Allocating a block for a list. *)
Lemma alloc_wf l i p :
  bl_wf l -> pool_alloc (bl_memb l) = (Some i, p) ->
  bl_wf (l <| bl_memb := p |>) /\ pool_used p i /\ i ∉ bl_list l /\
  pl_blocks p = pl_blocks (bl_memb l).
Proof.
  intros H Ha. pose proof Ha as Ha'. apply pool_alloc_Some in Ha as (Hn & Hu & Hi & Hb & Hj).
  split_and!; [|done| |done].
  - split; rsimpl.
    + unfold pool_alloc in Ha'. destruct find_free as [k|]; [|done]. injection Ha' as -> <-.
      unfold pool_wf. rsimpl. rewrite length_alter. apply (wf_pool _ H).
    + apply (wf_nodup _ H).
    + apply Forall_forall. intros j Hjl. pose proof (proj1 (Forall_forall _ _) (wf_used _ H) j Hjl).
      apply Hj; [|done]. by intros ->.
    + apply (pool_alloc_bits _ _ _ Ha' (wf_bits _ H)).
  - intros Hin. apply Hn. by apply (proj1 (Forall_forall _ _) (wf_used _ H)).
Qed.

Lemma alloc_free l : has_free l -> exists i p, pool_alloc (bl_memb l) = (Some i, p).
Proof.
  intros (i & Hi & Hn). destruct (pool_alloc (bl_memb l)) as [[j|] p] eqn:E; [eauto|].
  apply pool_alloc_None in E as [_ E]. by specialize (E i Hi).
Qed.

Lemma alloc_insert_Ok on `{!ListOf on} v n k s (l := lsel on s) :
  bl_wf l -> has_free l -> (k <= length (bl_list l))%nat -> (length (bl_list l) < 100)%nat ->
  exists l', (ch ← on _ bl_alloc; insert_entry on v n (1 + Z.of_nat k) ch) s = Ok (1, lput on l' s) /\
    bl_wf l' /\
    bl_view l' = insert_at k (chb_of (role (my_cluster s)) (my_addr s) (my_degree s) v n) (bl_view l).
Proof.
  intros H Hf Hk Hl. destruct (alloc_free l Hf) as (i & p & Ha).
  destruct (alloc_wf l i p H Ha) as (H' & Hu & Hi & Hb).
  set (l1 := l <| bl_memb := p |>) in *.
  destruct (insert_entry_Ok on v n k i (lput on l1 s)) as (l' & E & Hw & Hv);
    rewrite ?lsel_put; [done|done|done|done|done|].
  rewrite lput_put, put_role, put_addr, put_degree, lsel_put in *.
  exists l'. split_and!; [|done|].
  - rewrite (bind_Ok _ _ _ (Some i) (lput on l1 s)); [done|].
    rewrite on_run. fold l. unfold bl_alloc. by rewrite Ha.
  - rewrite Hv. unfold bl_view, l1. rsimpl. by rewrite Hb.
Qed.

(** Chopping the last entry and freeing its block. *)
Lemma chop_wf l i :
  bl_wf l -> last (bl_list l) = Some i ->
  let l1 := (l <| bl_list ::= fun q => removelast q |>) <| bl_memb ::= pool_free i |> in
  bl_wf l1 /\ has_free l1 /\ bl_view l1 = removelast (bl_view l).
Proof.
  intros H Hi l1. apply last_Some in Hi as [idx E].
  assert (El : removelast (bl_list l) = idx) by (rewrite E; apply removelast_last).
  pose proof (wf_nodup _ H) as Hn. rewrite E in Hn. apply NoDup_app in Hn as (Hn & Hd & _).
  assert (Hu : pool_used (bl_memb l) i).
  { apply (proj1 (Forall_forall _ _) (wf_used _ H)). rewrite E. set_solver. }
  destruct (pool_free_spec (bl_memb l) i (wf_bits _ H)) as (Hb & Hf & Ho).
  split_and!.
  - split; unfold l1; rsimpl; [| | |exact Hb].
    + unfold pool_wf, pool_free. rsimpl. rewrite length_alter. apply (wf_pool _ H).
    + by rewrite El.
    + rewrite El. apply Forall_forall. intros j Hj. apply Ho; [intros ->; set_solver|].
      apply (proj1 (Forall_forall _ _) (wf_used _ H)). rewrite E. set_solver.
  - exists i. split; [|exact Hf]. unfold l1, pool_free. rsimpl. rewrite length_alter.
    by apply pool_used_lt.
  - unfold bl_view, l1. rsimpl. unfold pool_free. rsimpl. apply bl_view_removelast. by apply wf_lt.
Qed.

Lemma take4_insert {A} k (x : A) (xs : list A) :
  (k < 4)%nat -> length xs = 4%nat -> take 4 (insert_at k x xs) = insert_at k x (removelast xs).
Proof.
  intros Hk Hl. destruct xs as [|a [|b [|c [|d [|]]]]]; try done.
  destruct k as [|[|[|[|]]]]; [done..|lia].
Qed.

(** The role a node takes when the list it fills was empty. *)
Definition role_after (st : state_t) (entries : list nat) (r : role_t) : role_t :=
  if decide (entries = []) then
    match st with ELECTION_DECLARATION | CONSENSUS_CONVERGENCE => CM | _ => r end
  else r.

(** [handle_list] on one list: it returns 1 with the entry in its place. *)
Definition heard_on on `{!ListOf on} v n s : Prop :=
  let l := lsel on s in
  let r := role_after (my_state s) (bl_list l) (role (my_cluster s)) in
  let e := chb_of r (my_addr s) (my_degree s) v n in
  bl_wf l -> (length (bl_list l) <= 4)%nat -> (length (bl_list l) = 4%nat \/ has_free l) ->
  exists l', handle_list on v n s = Ok (1, lput on l' (with_role r s)) /\
    bl_wf l' /\ (length (bl_list l') <= 4)%nat /\ bl_view l' = heard_entries e n (bl_view l).

Lemma handle_list_empty on `{!ListOf on} v n s :
  bl_list (lsel on s) = [] -> heard_on on v n s.
Proof.
  intros E. cbv beta delta [heard_on]. intros l r e H _ Hf. subst l. rewrite E in Hf. destruct Hf as [Hf|Hf]; [done|].
  destruct (alloc_free _ Hf) as (i & p & Ha).
  destruct (alloc_wf _ i p H Ha) as (H' & Hu & Hi & Hb).
  set (l := lsel on s) in *. set (l1 := l <| bl_memb := p |>) in *.
  destruct (bl_wf_insert l1 0 i e H' Hu Hi) as [Hw Hv].
  exists (mk_blist (insert_at 0 i (bl_list l1)) ((bl_memb l1) <| pl_blocks ::= alter (fun _ => e) i |>)).
  assert (Hlist : insert_at 0 i (bl_list l1) = [i]) by (unfold l1; rsimpl; by rewrite E).
  split_and!; [|done|rewrite Hlist; simpl; lia|].
  2:{ rewrite Hv. unfold bl_view, l1. rsimpl. by rewrite E. }
  unfold handle_list. erewrite bind_Ok; [|rewrite on_run; reflexivity]. rewrite lput_sel. fold l.
  rewrite bind_gets, E. change (Z.of_nat (length []) =? 0) with true. cbv iota.
  erewrite bind_Ok; [|rewrite on_run; fold l; unfold bl_alloc; rewrite Ha; reflexivity]. fold l1.
  assert (Hs : forall b : bool, r = (if b then CM else role (my_cluster s)) ->
    when b (set_role CM) (lput on l1 s) = Ok (tt, lput on l1 (with_role r s))).
  { intros [|] ->; unfold when.
    - rewrite <- put_with_role. done.
    - by rewrite with_role_same. }
  cbv iota beta. erewrite bind_Ok.
  2:{ apply Hs. unfold r, role_after. rewrite E, decide_True by done. by destruct (my_state s). }
  unfold get_role. rewrite !bind_gets, put_role, put_addr, put_degree.
  erewrite bind_Ok; [|rewrite on_run, lsel_put; reflexivity]. rewrite lput_put.
  erewrite bind_Ok; [|rewrite on_run, lsel_put; reflexivity]. rewrite lput_put.
  unfold mret, M_ret. do 3 f_equal. unfold l1. destruct l as [li pm]. cbn in *. subst li. done.
Qed.

Lemma handle_list_nonempty on `{!ListOf on} v n s :
  bl_list (lsel on s) <> [] -> heard_on on v n s.
Proof.
  intros E. cbv beta delta [heard_on]. intros l r e H Hl Hf. subst l. set (l := lsel on s) in *.
  assert (r = role (my_cluster s)) as Hr by (unfold r, role_after; by rewrite decide_False).
  clearbody r. subst r. rewrite with_role_same.
  unfold handle_list. erewrite bind_Ok; [|rewrite on_run; reflexivity]. rewrite lput_sel. fold l.
  rewrite bind_gets.
  assert (Hlen : length (bl_list l) <> 0%nat) by (by destruct (bl_list l)).
  rewrite (proj2 (Z.eqb_neq _ _)) by lia.
  erewrite bind_Ok; [|rewrite on_run; reflexivity]. rewrite lput_sel. fold l.
  pose proof (bl_view_length l H) as Hvl.
  pose proof (find_place_spec e (bl_view l) (n_addr n) (n_degree n) 1 ltac:(lia) ltac:(lia)) as Hp.
  assert (Hview : forall l', length (bl_view l') = length (bl_list l') ->
    bl_view l' = heard_entries e n (bl_view l) -> (length (bl_list l') <= 4)%nat).
  { intros l' <- ->. unfold heard_entries. rewrite length_take. lia. }
  assert (Hsame : forall q, place e (n_addr n) (n_degree n) (bl_view l) = q ->
    take 4 q = bl_view l -> exists l', Ok (1, s) = Ok (1, lput on l' s) /\ bl_wf l' /\
      (length (bl_list l') <= 4)%nat /\ bl_view l' = heard_entries e n (bl_view l)).
  { intros q Eq Hq. exists l. unfold l at 1. rewrite lput_sel. split_and!; [done|done|lia|].
    unfold heard_entries. by rewrite Eq, Hq. }
  assert (Hins : forall k, (k <= length (bl_list l))%nat -> (length (bl_list l) < 4)%nat ->
    place e (n_addr n) (n_degree n) (bl_view l) = insert_at k e (bl_view l) ->
    exists l', (ch ← on _ bl_alloc; insert_entry on v n (1 + Z.of_nat k) ch) s = Ok (1, lput on l' s) /\
      bl_wf l' /\ (length (bl_list l') <= 4)%nat /\ bl_view l' = heard_entries e n (bl_view l)).
  { intros k Hk Hl4 Epl. destruct Hf as [Hf|Hf]; [lia|].
    destruct (alloc_insert_Ok on v n k s H Hf Hk) as (l' & R & Hw & Hv); [fold l; lia|].
    assert (bl_view l' = heard_entries e n (bl_view l)).
    { rewrite Hv. unfold heard_entries. rewrite Epl, take_ge; [done|].
      unfold insert_at. rewrite length_app, length_take. simpl. rewrite length_drop. lia. }
    exists l'. split_and!; [done|done| |done]. apply Hview; [by apply bl_view_length|done]. }
  destruct (find_place _ _ _ _) as [|q|q].
  - eapply Hsame; [done|]. apply take_ge. lia.
  - destruct Hp as (k & Hk & -> & Ep). rewrite Hvl in Hk.
    unfold NUM_CH_MAX. destruct (Z.ltb_spec (Z.of_nat (length (bl_list l))) 4) as [Hlt|Hge].
    { apply Hins; [lia|lia|done]. }
    rewrite (proj2 (Z.eqb_eq _ _)) by lia.
    destruct (last (bl_list l)) as [i|] eqn:Ei; [|by apply last_None in Ei].
    destruct (chop_wf l i H Ei) as (Hw1 & Hf1 & Hv1). set (l1 := update _ _ _) in *.
    erewrite bind_Ok; [|rewrite on_run; reflexivity]. fold l. rewrite Ei.
    erewrite bind_Ok by reflexivity. erewrite bind_Ok; [|rewrite on_run; reflexivity].
    rewrite lput_put, lsel_put. fold l1.
    assert (Hl1 : length (bl_list l1) = 3%nat).
    { rewrite <- bl_view_length, Hv1 by done. assert (length (bl_view l) = 4%nat) as Hv4 by lia.
      destruct (bl_view l) as [|? [|? [|? [|? [|]]]]]; done. }
    destruct (alloc_insert_Ok on v n k (lput on l1 s)) as (l' & R & Hw & Hv);
      rewrite ?lsel_put; [done|done|lia|lia|].
    rewrite lsel_put, put_role, put_addr, put_degree, lput_put in *.
    assert (bl_view l' = heard_entries e n (bl_view l)).
    { rewrite Hv, Hv1. unfold heard_entries. rewrite Ep, take4_insert; [done|lia|lia]. }
    exists l'. split_and!; [done|done| |done]. apply Hview; [by apply bl_view_length|done].
  - destruct Hp as [-> Ep]. rewrite Hvl in *.
    unfold NUM_CH_MAX. destruct (Z.ltb_spec (Z.of_nat (length (bl_list l))) 4) as [Hlt|Hge].
    { apply Hins; [lia|lia|done]. }
    eapply Hsame; [done|]. unfold insert_at. rewrite take_app_le; [|rewrite length_take; lia].
    rewrite take_take. apply take_ge. lia.
Qed.

(** Entries in the order of the election: by degree, then by address. *)
Definition outranks (a b : chb) : Prop :=
  ch_degree b < ch_degree a \/ (ch_degree a = ch_degree b /\ ch_addr b < ch_addr a).
Definition ranked (entries : list chb) : Prop := StronglySorted outranks entries.

Lemma place_ranked e entries :
  ranked entries -> ranked (place e (ch_addr e) (ch_degree e) entries).
Proof.
  induction 1 as [|ch entries Hs IH Hf]; cbn [place]; [by repeat constructor|].
  destruct (Z.eqb_spec (ch_addr ch) (ch_addr e)) as [|Hne]; [by constructor|].
  destruct (_ || _) eqn:Hb.
  - assert (outranks e ch) as Hr.
    { apply orb_true_iff in Hb as [Hb%Z.ltb_lt|[Hb1%Z.eqb_eq Hb2%Z.ltb_lt]%andb_true_iff];
        [by left|by right]. }
    constructor; [by constructor|]. constructor; [done|].
    eapply Forall_impl; [exact Hf|]. unfold outranks in *. intros x. lia.
  - assert (outranks ch e) as Hr.
    { apply orb_false_iff in Hb as [Hb%Z.ltb_ge Hb2]. unfold outranks.
      apply andb_false_iff in Hb2 as [?%Z.eqb_neq|?%Z.ltb_ge]; lia. }
    constructor; [done|]. clear IH Hs Hb. revert Hf.
    induction entries as [|c entries IH]; intros Hf; cbn [place]; [constructor; [exact Hr|constructor]|].
    apply Forall_cons in Hf as [Hc Hf].
    destruct (ch_addr c =? ch_addr e); [by constructor|].
    destruct (_ || _); constructor; [done|by constructor|done|by apply IH].
Qed.

Lemma ranked_take k entries : ranked entries -> ranked (take k entries).
Proof.
  unfold ranked. intros H. revert k. induction H as [|c entries Hs IH Hf]; intros [|k]; simpl;
    try constructor; [apply IH|]. by apply Forall_take.
Qed.

(** A list that was ranked stays so, unless the node is a cluster head. *)
Definition stays_ranked on `{!ListOf on} v n s : Prop :=
  let r := role_after (my_state s) (bl_list (lsel on s)) (role (my_cluster s)) in
  forall l', bl_view l' = heard_entries (chb_of r (my_addr s) (my_degree s) v n) n (bl_view (lsel on s)) ->
    r <> CH -> ranked (bl_view (lsel on s)) -> ranked (bl_view l').

(** C25. [handle_lists] refines a bounded sorted insertion.  When the list of its
    state is well formed with at most four entries, and a block is free unless the
    list is full, it returns 1 and the list becomes the best four entries after
    the neighbour was placed; a node that filled an empty list of cluster heads
    becomes a common node, and nothing else changes.  For a node that is not a
    cluster head the list stays ranked by degree and address.  In the other
    states it returns 0 and does nothing. *)
Theorem handle_lists_refines v n s :
  match my_state s with
  | ELECTION_DECLARATION | CONSENSUS_CONVERGENCE =>
      handle_lists v n s = handle_list (@on_CHs) v n s /\
      heard_on (@on_CHs) v n s /\ stays_ranked (@on_CHs) v n s
  | CONNECTION_DECLARATION =>
      handle_lists v n s = handle_list (@on_CBs) v n s /\
      heard_on (@on_CBs) v n s /\ stays_ranked (@on_CBs) v n s
  | _ => handle_lists v n s = Ok (0, s)
  end.
Proof.
  assert (Hr : forall on (H : ListOf on), stays_ranked on v n s).
  { intros on H l' -> Hr Hs. unfold chb_of. rewrite decide_False by done.
    apply ranked_take, (place_ranked (mk_chb _ _ _ _ _) _ Hs). }
  assert (Hh : forall on (H : ListOf on), heard_on on v n s).
  { intros on H. destruct (decide (bl_list (lsel on s) = []));
      [by apply handle_list_empty|by apply handle_list_nonempty]. }
  unfold handle_lists. destruct (my_state s) eqn:E;
    (rewrite bind_gets, E; split_and?; done || apply Hr || apply Hh).
Qed.
End handle_lists.

(** A common node of two cluster heads that hears of a third one. *)
Definition lists_example : node :=
  (node_boot (DF := binary32) 44 [] (fun _ => 0) (fun _ => 1))
    <| my_addr := 44 |> <| my_degree := 2 |> <| my_state := ELECTION_DECLARATION |>
    <| my_cluster := mk_cluster CM
         (mk_blist [1%nat; 0%nat]
            (mk_pool [1; 1; 0; 0] [mk_chb 78 4 0 9 0; mk_chb 48 6 0 9 0; chb_zero; chb_zero]))
         (mk_blist [] (pool_new chb_zero 8)) (mk_blist [] (pool_new 0 2)) |>.
Definition value_example : announcement_value := mk_value 4 5 0 0 9 (d_of_Z (DF := binary32) 1).
Definition neighbour_example : neighbour := neighbour_zero <| n_addr := 69 |> <| n_degree := 5 |>.

Lemma handle_lists_refines_witness :
  exists l', handle_lists value_example neighbour_example lists_example
    = Ok (1, lput (@on_CHs) l' (with_role CM lists_example)) /\
  bl_view l' = [mk_chb 48 6 0 9 0; mk_chb 69 5 0 9 0; mk_chb 78 4 0 9 0].
Proof.
  pose proof (handle_lists_refines value_example neighbour_example lists_example) as H.
  destruct H as (E & H & _). rewrite E.
  destruct H as (l' & R & _ & _ & V); [split|simpl; lia| |].
  - done.
  - cbn. constructor; [set_solver|]. constructor; [set_solver|constructor].
  - apply Forall_forall. intros i Hi. cbn in Hi.
    destruct i as [|[|i]]; [by exists 1|by exists 1|exfalso; set_solver].
  - cbn. repeat constructor; lia.
  - right. exists 2%nat. split; [cbn; lia|]. intros (c & Hc & Hn). cbn in Hc. congruence.
  - exists l'. split; [exact R|]. rewrite V. by vm_compute.
Defined.

(** ** Loops over the blocks of a list *)

Section loops.
Context {DF : DoubleFormat}.
Implicit Types (l : blist chb) (s : node).

(** A loop whose body is an assignment that leaves the list alone is a fold over
    the view. *)
Lemma for_blocks_fold on `{!ListOf on} (body : nat -> chb -> M node unit) (g : chb -> node -> node) s :
  (forall i x s, body i x s = Ok (tt, g x s)) -> (forall x s, lsel on (g x s) = lsel on s) ->
  bl_wf (lsel on s) ->
  for_blocks on body s = Ok (tt, fold_left (fun s x => g x s) (bl_view (lsel on s)) s).
Proof.
  intros Hb Hg Hw. unfold for_blocks.
  erewrite bind_Ok; [|rewrite on_run; reflexivity]. rewrite lput_sel.
  unfold bl_view. pose proof (wf_lt _ Hw) as Hlt. set (l := lsel on s) in *.
  assert (Hl : lsel on s = l) by done. clearbody l. clear Hw. revert s Hl.
  induction Hlt as [|i idx Hi _ IH]; intros s Hl; [done|].
  apply lookup_lt_is_Some_2 in Hi as [x Hx]. cbn [forM].
  erewrite bind_Ok.
  2:{ erewrite bind_Ok; [apply Hb|]. rewrite on_run, Hl. unfold bl_get. rewrite Hx.
      by rewrite <- Hl, lput_sel. }
  rewrite IH by (by rewrite Hg). cbn. by rewrite Hx.
Qed.

(** Writing every block of a list. *)
Definition write_blocks (f : chb -> chb) (idx : list nat) (l : blist chb) : blist chb :=
  l <| bl_memb ::= fun p => p <| pl_blocks ::= fun b => fold_left (fun b i => alter f i b) idx b |> |>.

Lemma for_blocks_write on `{!ListOf on} (f : chb -> chb) s :
  bl_wf (lsel on s) ->
  for_blocks on (fun i _ => on _ (bl_upd i f)) s
  = Ok (tt, lput on (write_blocks f (bl_list (lsel on s)) (lsel on s)) s).
Proof.
  intros Hw. unfold for_blocks.
  erewrite bind_Ok; [|rewrite on_run; reflexivity]. rewrite lput_sel.
  pose proof (wf_lt _ Hw) as Hlt. clear Hw. revert Hlt. generalize (bl_list (lsel on s)) as idx.
  intros idx. revert s. induction idx as [|i idx IH]; intros s Hlt; cbn [forM].
  - assert (write_blocks f [] (lsel on s) = lsel on s) as -> by by destruct (lsel on s) as [? []].
    by rewrite lput_sel.
  - apply Forall_cons in Hlt as [Hi Hlt]. apply lookup_lt_is_Some_2 in Hi as [x Hx].
    erewrite bind_Ok.
    2:{ erewrite bind_Ok; [|rewrite on_run; unfold bl_get; rewrite Hx, lput_sel; reflexivity].
        rewrite on_run. reflexivity. }
    rewrite IH.
    + rewrite lsel_put, lput_put. done.
    + rewrite lsel_put. rsimpl. by setoid_rewrite length_alter.
Qed.

Lemma write_blocks_view f l :
  bl_wf l -> let l' := write_blocks f (bl_list l) l in
  bl_wf l' /\ bl_list l' = bl_list l /\ bl_view l' = map f (bl_view l).
Proof.
  intros Hw l'. assert (Hlen : forall idx (b : list chb),
    length (fold_left (fun b i => alter f i b) idx b) = length b).
  { induction idx as [|i idx IH]; intros b; cbn; [done|]. by rewrite IH, length_alter. }
  split_and!; [|done|].
  - split; unfold l', write_blocks; rsimpl; try apply Hw.
    unfold pool_wf. rsimpl. rewrite Hlen. apply (wf_pool _ Hw).
  - unfold bl_view, l', write_blocks. rsimpl.
    pose proof (wf_nodup _ Hw) as Hn. pose proof (wf_lt _ Hw) as Hlt.
    generalize dependent (pl_blocks (bl_memb l)). clear l' Hw. intros b.
    revert b. induction Hn as [|i idx Hi Hn IH]; intros b Hlt; [done|].
    apply Forall_cons in Hlt as [Hib Hlt]. apply lookup_lt_is_Some_2 in Hib as [x Hx]. cbn.
    assert (Hout : forall idx (b : list chb) i, i ∉ idx ->
      fold_left (fun b i => alter f i b) idx b !! i = b !! i).
    { clear. induction idx as [|j idx IH]; intros b i Hi; cbn; [done|].
      apply not_elem_of_cons in Hi as [Hne Hi]. rewrite IH by done. by rewrite list_lookup_alter_ne. }
    rewrite Hout, list_lookup_alter_eq, Hx by done. cbn. f_equal.
    fold (omap (M := list) (fun j => fold_left (fun b i => alter f i b) idx (alter f i b) !! j)).
    fold (omap (M := list) (fun j => b !! j)).
    rewrite IH, view_alter by (done || by setoid_rewrite length_alter). done.
Qed.

(** ** init_consensus_synchronization *)

Definition mirror (slot : Z) : Z := (NUM_CONS_SLOTS + 1) -8 slot.

(** One entry in the search for the first slot. *)
Definition look (x : chb) (s : node) : node :=
  if cons_slot x <? ref_n_CHB_degree s then
    s <| ref_n_CHB_addr := ch_addr x |> <| ref_n_CHB_degree := cons_slot x |> <| my_sync_border := 0 |>
  else if NUM_CONS_SLOTS <? cons_slot x then s <| my_sync_border := 0 |> else s.
Definition own_slot (x : chb) (s : node) : node :=
  if ch_addr x =? ref_n_CHB_addr s then s else s <| my_cons_slot := cons_slot x |>.

(** Who speaks first: the node itself, or the first of the entries with the
    least slot. *)
Definition speaks_first (entries : list chb) (me own addr slot : Z) : Prop :=
  (addr = me /\ slot = own /\ Forall (fun x => own <= cons_slot x) entries) \/
  (exists xs x ys, entries = xs ++ x :: ys /\ addr = ch_addr x /\ slot = cons_slot x /\ slot < own /\
     Forall (fun y => slot < cons_slot y) xs /\ Forall (fun y => slot <= cons_slot y) ys).

(** The part of the state the two searches leave alone. *)
Definition slots_of (s : node) : node :=
  s <| my_cons_slot := 0 |> <| ref_n_CHB_degree := 0 |> <| ref_n_CHB_addr := 0 |> <| my_sync_border := 0 |>.

Lemma look_fold entries s :
  let s' := fold_left (fun s x => look x s) entries s in
  speaks_first entries (ref_n_CHB_addr s) (ref_n_CHB_degree s) (ref_n_CHB_addr s') (ref_n_CHB_degree s') /\
  my_sync_border s' =
    (if forallb (fun x => (ref_n_CHB_degree s <=? cons_slot x) && (cons_slot x <=? NUM_CONS_SLOTS)) entries
     then my_sync_border s else 0) /\
  my_cons_slot s' = my_cons_slot s /\ slots_of s' = slots_of s.
Proof.
  revert s. induction entries as [|x entries IH]; intros s; cbn [fold_left forallb].
  { split_and!; [by left|done..]. }
  specialize (IH (look x s)). cbv zeta in IH |- *. set (s' := fold_left _ _ _) in *.
  destruct IH as (Hf & Hb & Hc & Hs). unfold look in *.
  destruct (Z.ltb_spec (cons_slot x) (ref_n_CHB_degree s)) as [Hx|Hx].
  - rewrite (proj2 (Z.leb_gt _ _)) by done. cbn [andb]. rsimpl_in Hb. rsimpl_in Hf.
    split_and!; [|by rewrite Hb; destruct (forallb _ _)|done|done].
    right. destruct Hf as [(Ha & Hd & Hall)|(xs & y & ys & -> & Ha & Hd & Hlt & H1 & H2)].
    + exists [], x, entries. rewrite Ha, Hd. split_and!; done.
    + exists (x :: xs), y, ys. split_and!; [done..|lia| |done]. constructor; [lia|done].
  - rewrite (proj2 (Z.leb_le _ _)) by done. cbn [andb].
    assert (Hf' : speaks_first entries (ref_n_CHB_addr s) (ref_n_CHB_degree s)
                    (ref_n_CHB_addr s') (ref_n_CHB_degree s')).
    { destruct (_ <? _); done. }
    split; [|destruct (Z.ltb_spec NUM_CONS_SLOTS (cons_slot x)) as [H5|H5]].
    + destruct Hf' as [(Ha & Hd & Hall)|(xs & y & ys & -> & Ha & Hd & Hlt & H1 & H2)].
      * left. split_and!; [done..|]. by constructor.
      * right. exists (x :: xs), y, ys. split_and!; [done..| |done]. constructor; [lia|done].
    + rewrite (proj2 (Z.leb_gt _ _)) by done. cbn [andb]. rsimpl_in Hb.
      split_and!; [by rewrite Hb; destruct (forallb _ _)|done|done].
    + rewrite (proj2 (Z.leb_le _ _)) by done. done.
Qed.

Lemma own_slot_fold entries s :
  let s' := fold_left (fun s x => own_slot x s) entries s in
  my_cons_slot s' = default (my_cons_slot s)
    (cons_slot <$> last (filter (fun x => ch_addr x <> ref_n_CHB_addr s) entries)) /\
  s' = s <| my_cons_slot := my_cons_slot s' |>.
Proof.
  revert s. induction entries as [|x entries IH]; intros s; cbn [fold_left].
  { split; [done|]. by destruct s. }
  specialize (IH (own_slot x s)). cbv zeta in IH |- *. set (s' := fold_left _ _ _) in *.
  destruct IH as [Hc Hs]. unfold own_slot in Hc, Hs. rewrite filter_cons.
  destruct (Z.eqb_spec (ch_addr x) (ref_n_CHB_addr s)) as [Hx|Hx].
  - rewrite decide_False by lia. done.
  - rewrite decide_True by done. rsimpl_in Hc. split; [|exact Hs].
    rewrite Hc, last_cons. by destruct (last _).
Qed.

(** Before a round of synchronisation [init_consensus_synchronization] turns
    the order of the convergence round: every slot [c] becomes [6 - c].  Then it
    finds who speaks first: the node itself if it is a cluster head and no entry
    has an earlier slot (slot 5 stands for the node otherwise), and else the first
    entry with the least slot.  A cluster head is at the border exactly when all
    entries speak later and within the round.  A cluster bridge takes the slot of
    the last entry that is not the first to speak. *)
Theorem init_consensus_synchronization_spec s :
  bl_wf (CHs (my_cluster s)) ->
  exists l' s',
    let r := role (my_cluster s) in
    let entries := map (fun x => x <| cons_slot ::= mirror |>) (bl_view (CHs (my_cluster s))) in
    let own := if decide (r = CH) then mirror (my_cons_slot s) else NUM_CONS_SLOTS in
    init_consensus_synchronization s = Ok (tt, s') /\
    bl_wf l' /\ bl_list l' = bl_list (CHs (my_cluster s)) /\ bl_view l' = entries /\
    speaks_first entries (my_addr s) own (ref_n_CHB_addr s') (ref_n_CHB_degree s') /\
    my_sync_border s' =
      (if forallb (fun x => (own <=? cons_slot x) && (cons_slot x <=? NUM_CONS_SLOTS)) entries
       then if decide (r = CH) then 1 else my_sync_border s else 0) /\
    my_cons_slot s' =
      (if decide (r = CB) then
         default (mirror (my_cons_slot s))
           (cons_slot <$> last (filter (fun x => ch_addr x <> ref_n_CHB_addr s') entries))
       else mirror (my_cons_slot s)) /\
    slots_of s' = slots_of (lput (@on_CHs) l' s).
Proof.
  intros Hw. set (l := CHs (my_cluster s)) in *.
  destruct (write_blocks_view (fun x => x <| cons_slot ::= mirror |>) l Hw) as (Hw' & Hl' & Hv').
  set (l' := write_blocks _ _ _) in *. set (entries := map _ _) in *.
  set (r := role (my_cluster s)).
  set (own := if decide (r = CH) then mirror (my_cons_slot s) else NUM_CONS_SLOTS).
  set (s1 := lput (@on_CHs) l' (s <| my_cons_slot ::= mirror |>)).
  set (s2 := s1 <| ref_n_CHB_degree := own |> <| ref_n_CHB_addr := my_addr s |>
                <| my_sync_border ::= fun b => if decide (r = CH) then 1 else b |>).
  set (s3 := fold_left (fun s x => look x s) entries s2).
  set (s4 := if decide (r = CB) then fold_left (fun s x => own_slot x s) entries s3 else s3).
  destruct (look_fold entries s2) as (Hf & Hb & Hc & Hs). fold s3 in Hf, Hb, Hc, Hs.
  destruct (own_slot_fold entries s3) as [Hc' Hs'].
  assert (Hcl : forall sx sy, slots_of sx = slots_of sy -> my_cluster sx = my_cluster sy).
  { intros sx sy E. by apply (f_equal my_cluster) in E. }
  assert (E3 : CHs (my_cluster s3) = l') by (by rewrite (Hcl _ _ Hs)).
  exists l', s4. cbv zeta. split_and!; [|done|done|done| | | |].
  - unfold init_consensus_synchronization. rewrite bind_modify.
    erewrite bind_Ok by (apply for_blocks_write; exact Hw). fold l'.
    unfold get_role. rewrite bind_gets, !bind_modify.
    erewrite (bind_Ok _ _ _ tt s2).
    2:{ change (role (my_cluster _)) with r. unfold s2, own.
        destruct (decide (r = CH)); [by rewrite bool_decide_eq_true_2|].
        by rewrite bool_decide_eq_false_2. }
    erewrite (bind_Ok _ _ _ tt s3).
    2:{ rewrite (for_blocks_fold (@on_CHs) _ look); [| | |exact Hw'].
        - change (lsel (@on_CHs) s2) with l'. by rewrite Hv'.
        - intros _ x t. rewrite bind_gets. unfold look.
          destruct (_ <? _); [done|]. by destruct (_ <? _).
        - intros x t. unfold look. destruct (_ <? _); [done|]. by destruct (_ <? _). }
    change (role (my_cluster _)) with r. unfold s4.
    destruct (decide (r = CB)) as [Hr|Hr]; [rewrite bool_decide_eq_true_2 by done|
      by rewrite bool_decide_eq_false_2 by done].
    cbn [when]. rewrite (for_blocks_fold (@on_CHs) _ own_slot).
    + change (lsel (@on_CHs) s3) with (CHs (my_cluster s3)). by rewrite E3, Hv'.
    + intros _ x t. rewrite bind_gets. unfold own_slot. by destruct (_ =? _).
    + intros x t. unfold own_slot. by destruct (_ =? _).
    + change (lsel (@on_CHs) s3) with (CHs (my_cluster s3)). by rewrite E3.
  - unfold s4. destruct (decide (r = CB)); [|exact Hf]. rewrite Hs'. exact Hf.
  - unfold s4. destruct (decide (r = CB)); [rewrite Hs'; rsimpl|]; rewrite Hb; done.
  - unfold s4. destruct (decide (r = CB)); [|exact Hc].
    apply (f_equal ref_n_CHB_addr) in Hs'. rewrite Hs', Hc'. rsimpl. by rewrite Hc.
  - transitivity (slots_of s3); [|by rewrite Hs].
    unfold s4. destruct (decide (r = CB)); [|done]. by rewrite Hs'.
Qed.
End loops.

(** A cluster head in slot 2 between cluster heads in slots 1 and 4. *)
Definition slots_example : node :=
  lists_example <| my_cons_slot := 2 |> <| my_cluster ::= fun c => c <| role := CH |>
    <| CHs := mk_blist [1%nat; 0%nat]
         (mk_pool [1; 1; 0; 0] [mk_chb 78 4 4 9 0; mk_chb 48 6 1 9 0; chb_zero; chb_zero]) |> |>.

Lemma init_consensus_synchronization_spec_witness :
  exists l' s', init_consensus_synchronization slots_example = Ok (tt, s') /\
    bl_view l' = [mk_chb 48 6 5 9 0; mk_chb 78 4 2 9 0] /\
    speaks_first (bl_view l') 44 4 (ref_n_CHB_addr s') (ref_n_CHB_degree s').
Proof.
  destruct (init_consensus_synchronization_spec slots_example) as (l' & s' & R & _ & _ & V & F & _).
  - split; [done| | |].
    + cbn. constructor; [set_solver|]. constructor; [set_solver|constructor].
    + apply Forall_forall. intros i Hi. cbn in Hi.
      destruct i as [|[|i]]; [by exists 1|by exists 1|exfalso; set_solver].
    + cbn. repeat constructor; lia.
  - exists l', s'. split; [exact R|]. rewrite V. split; [by vm_compute|exact F].
Defined.

(** ** init_consensus_convergence *)

Section convergence.
Context {DF : DoubleFormat}.
Implicit Types (s : node).

(** Note the bridge [b] in the first entry of its cluster head. *)
Fixpoint second_bridge (b : chb) (entries : list chb) : option (list chb) :=
  match entries with
  | [] => None
  | x :: entries' =>
      if n_CHB_addr_A b =? ch_addr x then Some ((x <| n_CHB_addr_B := ch_addr b |>) :: entries')
      else cons x <$> second_bridge b entries'
  end.

(** The neighbouring cluster heads the bridges lead to, and whether there was
    room for all. *)
Fixpoint collect (bridges entries : list chb) : list chb * bool :=
  match bridges with
  | [] => (entries, true)
  | b :: bridges' =>
      match second_bridge b entries with
      | Some entries' => collect bridges' entries'
      | None =>
          if (length entries <? 4)%nat
          then collect bridges' (mk_chb (n_CHB_addr_A b) (ch_degree b) 0 (ch_addr b) 0 :: entries)
          else (entries, false)
      end
  end.

(** All blocks in use are on the list. *)
Record bl_exact (l : blist chb) : Prop := {
  ex_wf : bl_wf l;
  ex_four : length (pl_count (bl_memb l)) = 4%nat;
  ex_used i : pool_used (bl_memb l) i -> i ∈ bl_list l;
}.

Lemma exact_bound (l : blist chb) : bl_exact l -> (length (bl_list l) <= 4)%nat.
Proof.
  intros H. assert (bl_list l ⊆+ seq 0 4) as Hs%submseteq_length; [|by rewrite length_seq in Hs].
  apply NoDup_submseteq; [apply (ex_wf _ H)|]. intros i Hi. apply elem_of_seq.
  rewrite <- (ex_four _ H). split; [lia|]. apply pool_used_lt.
  by apply (proj1 (Forall_forall _ _) (wf_used _ (ex_wf _ H))).
Qed.

Lemma exact_free (l : blist chb) :
  bl_exact l -> (length (bl_list l) < 4)%nat <-> has_free l.
Proof.
  intros H. split.
  - intros Hl. destruct (decide (Exists (fun i => i ∉ bl_list l) (seq 0 4))) as [He|He].
    + apply Exists_exists in He as (i & Hi & Hn). apply elem_of_seq in Hi.
      exists i. rewrite (ex_four _ H). split; [lia|]. intros Hu. by apply Hn, (ex_used _ H).
    + apply not_Exists_Forall in He; [|apply _].
      assert (seq 0 4 ⊆+ bl_list l) as Hs%submseteq_length.
      { apply NoDup_submseteq; [apply NoDup_seq|]. intros i Hi.
        apply (proj1 (Forall_forall _ _) He) in Hi. by apply dec_stable. }
      rewrite length_seq in Hs. lia.
  - intros (i & Hi & Hn). rewrite (ex_four _ H) in Hi.
    assert (bl_list l ⊆+ filter (fun j => j <> i) (seq 0 4)) as Hs%submseteq_length.
    { apply NoDup_submseteq; [apply (ex_wf _ H)|]. intros j Hj. apply list_elem_of_filter.
      assert (Hju : pool_used (bl_memb l) j).
      { by apply (proj1 (Forall_forall _ _) (wf_used _ (ex_wf _ H))). }
      split; [by intros ->|]. apply elem_of_seq. apply pool_used_lt in Hju.
      rewrite (ex_four _ H) in Hju. lia. }
    assert (length (filter (fun j => j <> i) (seq 0 4)) = 3%nat) as E.
    { destruct i as [|[|[|[|i]]]]; [done..|lia]. }
    lia.
Qed.

Lemma find_addr_spec (idx : list nat) (blocks : list chb) b s :
  pl_blocks (bl_memb (CHs (my_cluster s))) = blocks ->
  Forall (fun i => i < length blocks)%nat idx -> NoDup idx ->
  exists o, find_addr (@on_CHs) idx (n_CHB_addr_A b) s = Ok (o, s) /\
    match o with
    | Some i => i ∈ idx /\ second_bridge b (omap (fun j => blocks !! j) idx) =
        Some (omap (fun j => alter (fun x => x <| n_CHB_addr_B := ch_addr b |>) i blocks !! j) idx)
    | None => second_bridge b (omap (fun j => blocks !! j) idx) = None
    end.
Proof.
  intros Hb Hlt. induction Hlt as [|i idx Hi Hlt IH]; intros Hn; [by exists None|].
  apply NoDup_cons in Hn as [Hin Hn]. specialize (IH Hn) as (o & E & Ho).
  apply lookup_lt_is_Some_2 in Hi as [x Hx]. cbn [find_addr].
  erewrite bind_Ok.
  2:{ rewrite (on_run (on := @on_CHs)). cbn [lsel lput CHs_list]. unfold bl_get. rewrite Hb, Hx.
      change (update _ _ s) with (lput (@on_CHs) (lsel (@on_CHs) s) s). by rewrite lput_sel. }
  assert (Hc : forall (g : nat -> option chb) y, g i = Some y -> omap g (i :: idx) = y :: omap g idx).
  { intros g y Hg. cbn. by rewrite Hg. }
  rewrite (Hc _ x) by done. cbn [second_bridge].
  destruct (n_CHB_addr_A b =? ch_addr x) eqn:Ea.
  - exists (Some i). split; [done|]. split; [set_solver|].
    rewrite (Hc _ (x <| n_CHB_addr_B := ch_addr b |>)) by (by rewrite list_lookup_alter_eq, Hx).
    do 2 f_equal. symmetry. by apply (view_alter blocks).
  - exists o. split; [done|]. destruct o as [j|]; [|by rewrite Ho].
    destruct Ho as [Hj Ho]. split; [set_solver|].
    rewrite (Hc _ x) by (rewrite list_lookup_alter_ne; [done|by intros ->]). by rewrite Ho.
Qed.

(** Updating a block on the list, and taking a new one. *)
Lemma exact_update (l : blist chb) i f :
  bl_exact l -> bl_exact (l <| bl_memb ::= fun p => p <| pl_blocks ::= alter f i |> |>).
Proof.
  intros H. pose proof (ex_wf _ H) as Hw. split; [|apply H|apply H]. split; rsimpl; try apply Hw.
  unfold pool_wf. rsimpl. rewrite length_alter. apply (wf_pool _ Hw).
Qed.

Lemma exact_insert (l : blist chb) i p e :
  bl_exact l -> pool_alloc (bl_memb l) = (Some i, p) ->
  let l' := mk_blist (i :: bl_list l) (p <| pl_blocks ::= alter (fun _ => e) i |>) in
  bl_exact l' /\ bl_view l' = e :: bl_view l.
Proof.
  intros H Ha. destruct (alloc_wf l i p (ex_wf _ H) Ha) as (Hw & Hu & Hi & Hb).
  destruct (bl_wf_insert (l <| bl_memb := p |>) 0 i e Hw Hu Hi) as [Hw' Hv].
  change (insert_at 0 i (bl_list (l <| bl_memb := p |>))) with (i :: bl_list l) in *. rsimpl.
  apply pool_alloc_Some in Ha as Ha'. destruct Ha' as (_ & _ & _ & _ & Hj).
  split; [split; [exact Hw'| |]|].
  - rsimpl. unfold pool_alloc in Ha. destruct find_free; [|done]. injection Ha as -> <-.
    cbn [bl_memb]. rsimpl. rewrite length_alter. apply (ex_four _ H).
  - intros j Hju. cbn [bl_memb bl_list] in *. destruct (decide (j = i)) as [->|Hne]; [set_solver|].
    apply elem_of_cons. right. apply (ex_used _ H). by apply (Hj j Hne).
  - rewrite Hv. unfold bl_view, insert_at. rsimpl. by rewrite Hb.
Qed.

Lemma convergence_entries_spec idx s :
  bl_exact (CHs (my_cluster s)) ->
  Forall (fun i => i < length (pl_blocks (bl_memb (CBs (my_cluster s)))))%nat idx ->
  let bridges := omap (fun j => pl_blocks (bl_memb (CBs (my_cluster s))) !! j) idx in
  let c := collect bridges (bl_view (CHs (my_cluster s))) in
  exists l', convergence_entries idx s = Ok (snd c, lput (@on_CHs) l' s) /\
    bl_exact l' /\ bl_view l' = fst c.
Proof.
  intros H Hlt. revert s H Hlt. induction idx as [|i idx IH]; intros s H Hlt.
  { exists (CHs (my_cluster s)). split_and!; [|done|done].
    change (CHs (my_cluster s)) with (lsel (@on_CHs) s). by rewrite lput_sel. }
  apply Forall_cons in Hlt as [Hi Hlt]. apply lookup_lt_is_Some_2 in Hi as [b Hb].
  cbv zeta.
  assert (omap (fun j => pl_blocks (bl_memb (CBs (my_cluster s))) !! j) (i :: idx)
          = b :: omap (fun j => pl_blocks (bl_memb (CBs (my_cluster s))) !! j) idx) as ->.
  { cbn. by rewrite Hb. }
  cbn [convergence_entries collect].
  erewrite bind_Ok.
  2:{ rewrite (on_run (on := @on_CBs)). cbn [lsel lput CBs_list]. unfold bl_get. rewrite Hb.
      change (update _ _ s) with (lput (@on_CBs) (lsel (@on_CBs) s) s). by rewrite lput_sel. }
  erewrite bind_Ok; [|rewrite (on_run (on := @on_CHs)); reflexivity]. rewrite lput_sel.
  change (lsel (@on_CHs) s) with (CHs (my_cluster s)).
  pose proof (ex_wf _ H) as Hw.
  destruct (find_addr_spec (bl_list (CHs (my_cluster s))) _ b s eq_refl (wf_lt _ Hw) (wf_nodup _ Hw))
    as (o & Eo & Ho).
  rewrite (bind_Ok _ _ _ _ _ Eo). destruct o as [k|].
  - destruct Ho as [Hk Ho].
    set (l1 := (CHs (my_cluster s)) <| bl_memb ::= fun p => p <| pl_blocks ::=
                 alter (fun x => x <| n_CHB_addr_B := ch_addr b |>) k |> |>).
    assert (second_bridge b (bl_view (CHs (my_cluster s))) = Some (bl_view l1)) as -> by exact Ho.
    erewrite bind_Ok; [|rewrite (on_run (on := @on_CHs)); reflexivity].
    destruct (IH (lput (@on_CHs) l1 s)) as (l' & E & Hx & Hv); [by apply exact_update|done|].
    exists l'. rewrite lput_put in E. done.
  - assert (second_bridge b (bl_view (CHs (my_cluster s))) = None) as -> by exact Ho.
    rewrite (bl_view_length _ Hw).
    destruct (Nat.ltb_spec (length (bl_list (CHs (my_cluster s)))) 4) as [Hl4|Hl4].
    + apply (proj1 (exact_free _ H)), alloc_free in Hl4 as (k & p & Ha).
      set (e := mk_chb (n_CHB_addr_A b) (ch_degree b) 0 (ch_addr b) 0).
      destruct (exact_insert _ k p e H Ha) as [Hx1 Hv1]. set (l1 := mk_blist _ _) in *.
      erewrite bind_Ok.
      2:{ rewrite (on_run (on := @on_CHs)). cbn [lsel CHs_list]. unfold bl_alloc. by rewrite Ha. }
      cbv iota beta. erewrite bind_Ok; [|rewrite on_run, lsel_put; reflexivity]. rewrite lput_put.
      erewrite bind_Ok; [|rewrite on_run, lsel_put; reflexivity]. rewrite lput_put.
      destruct (IH (lput (@on_CHs) l1 s)) as (l' & E & Hx & Hv); [exact Hx1|exact Hlt|].
      exists l'. rewrite lput_put in E. change (CHs (my_cluster (lput (@on_CHs) l1 s))) with l1 in *.
      rewrite Hv1 in E, Hv. split_and!; [|done|done].
      etransitivity; [|exact E]. do 2 f_equal. unfold l1. destruct (alloc_wf _ k p Hw Ha) as (_ & _ & Hk & _).
      unfold bl_upd, bl_push, modify, update. cbn -[seq_push]. unfold seq_push.
      by rewrite seq_remove_notin.
    + exists (CHs (my_cluster s)).
      erewrite bind_Ok.
      2:{ rewrite (on_run (on := @on_CHs)). cbn [lsel CHs_list]. unfold bl_alloc.
          destruct (pool_alloc (bl_memb (CHs (my_cluster s)))) as [[k|] p] eqn:Ha.
          - exfalso. apply pool_alloc_Some in Ha as (Hn & _ & Hk & _).
            assert (has_free (CHs (my_cluster s))) as Hf by (by exists k).
            apply (exact_free _ H) in Hf. lia.
          - apply pool_alloc_None in Ha as [-> _]. reflexivity. }
      cbn [fst snd]. split_and!; [|done|done]. unfold mret, M_ret. do 2 f_equal.
      by destruct (my_cluster s) as [? [] ? ?].
Qed.

Lemma second_bridge_addrs b entries :
  match second_bridge b entries with
  | Some es => map ch_addr es = map ch_addr entries /\ n_CHB_addr_A b ∈ map ch_addr entries
  | None => n_CHB_addr_A b ∉ map ch_addr entries
  end.
Proof.
  induction entries as [|x entries IH]; cbn [second_bridge map]; [set_solver|].
  destruct (Z.eqb_spec (n_CHB_addr_A b) (ch_addr x)) as [E|E]; [split; [done|set_solver]|].
  destruct (second_bridge b entries) as [es|]; cbn; [|set_solver].
  destruct IH as [-> Hin]. split; [done|set_solver].
Qed.

Lemma collect_addrs bridges entries :
  NoDup (map ch_addr entries) -> (length entries <= 4)%nat ->
  let c := collect bridges entries in
  NoDup (map ch_addr (fst c)) /\ (length (fst c) <= 4)%nat /\
  (if snd c then forall a, a ∈ map ch_addr (fst c) <->
                           a ∈ map ch_addr entries \/ a ∈ map n_CHB_addr_A bridges
   else length (fst c) = 4%nat).
Proof.
  revert entries. induction bridges as [|b bridges IH]; intros entries Hn Hl; cbn [collect].
  { split_and!; [done|done|]. cbn. set_solver. }
  pose proof (second_bridge_addrs b entries) as Hb.
  destruct (second_bridge b entries) as [es|] eqn:Es.
  - destruct Hb as [Ha Hin]. destruct (IH es) as (H1 & H2 & H3).
    { by rewrite Ha. }
    { by rewrite <- (length_map ch_addr es), Ha, length_map. }
    split_and!; [done|done|]. destruct (snd _); [|done]. intros a. rewrite H3, Ha. set_solver.
  - destruct (Nat.ltb_spec (length entries) 4) as [Hl'|Hl']; [|cbn; split_and!; [done|done|lia]].
    destruct (IH (mk_chb (n_CHB_addr_A b) (ch_degree b) 0 (ch_addr b) 0 :: entries)) as (H1 & H2 & H3).
    { cbn. by constructor. }
    { cbn. lia. }
    split_and!; [done|done|]. destruct (snd _); [|done]. intros a. rewrite H3. set_solver.
Qed.

(** [init_consensus_convergence] lists the neighbouring clusters of a cluster
    head.  It starts from an empty list; every cluster head some bridge leads to
    gets one entry with the first bridge to it, and with the last other bridge to
    it if there is one.  If there are more than four, it stops with the list full
    and leaves the slot and the announcement alone; otherwise the entries are
    exactly the cluster heads at the other end of the bridges, the proactive slot
    depends on their number, and the announcement carries the state. *)
Theorem init_consensus_convergence_spec s x :
  bl_wf (CBs (my_cluster s)) ->
  length (pl_count (bl_memb (CHs (my_cluster s)))) = 4%nat ->
  length (pl_blocks (bl_memb (CHs (my_cluster s)))) = 4%nat ->
  an_vars (ann (net s)) !! convergence_announcement = Some x ->
  exists l',
    let '(entries, room) := collect (bl_view (CBs (my_cluster s))) [] in
    let n := length entries in
    init_consensus_convergence s = Ok (tt,
      if room then
        (lput (@on_CHs) l' s)
          <| my_proactive_slot := if (n <=? 1)%nat then 0 else if (n =? 2)%nat then 1 else 3 |>
          <| net ::= fun t => t <| ann ::= fun t => t <| an_vars ::= alter (fun x => x
               <| a_value ::= fun v => v <| av_instr := state_val (my_state s) |> |>)
               convergence_announcement |> |> |>
      else lput (@on_CHs) l' s) /\
    bl_wf l' /\ bl_view l' = entries /\ NoDup (map ch_addr entries) /\
    (if room then forall a, a ∈ map ch_addr entries <-> a ∈ map n_CHB_addr_A (bl_view (CBs (my_cluster s)))
     else n = 4%nat).
Proof.
  intros Hw Hc Hb Ha. set (l0 := mk_blist [] (pool_init chb_zero (bl_memb (CHs (my_cluster s))))).
  assert (H0 : bl_exact l0).
  { assert (Hno : forall i, ~ pool_used (bl_memb l0) i).
    { intros i (c & Hi & Hn). cbn in Hi. by apply lookup_replicate in Hi as [-> _]. }
    split; [split| |]; cbn.
    - unfold pool_wf. cbn. rewrite !length_replicate. by rewrite Hc, Hb.
    - constructor.
    - constructor.
    - apply Forall_replicate. lia.
    - by rewrite length_replicate.
    - intros i Hi. by destruct (Hno i). }
  destruct (convergence_entries_spec (bl_list (CBs (my_cluster s))) (lput (@on_CHs) l0 s))
    as (l' & E & Hx & Hv); [exact H0|by apply wf_lt|].
  change (omap _ _) with (bl_view (CBs (my_cluster s))) in E, Hv.
  change (bl_view (CHs _)) with (@nil chb) in E, Hv.
  pose proof (collect_addrs (bl_view (CBs (my_cluster s))) [] ltac:(constructor) ltac:(cbn; lia))
    as (H1 & H2 & H3).
  destruct (collect _ _) as [entries room]. cbn [fst snd] in *. rewrite lput_put in E.
  exists l'. split_and!; [|apply Hx|done|done|].
  2:{ destruct room; [|done]. intros a. rewrite H3. set_solver. }
  pose proof (bl_view_length l' (ex_wf _ Hx)) as Hlen. rewrite Hv in Hlen.
  unfold init_consensus_convergence.
  erewrite bind_Ok; [|rewrite (on_run (on := @on_CHs)); reflexivity].
  rewrite (bind_Ok _ _ _ tt (lput (@on_CHs) l0 s)).
  2:{ rewrite on_run, lsel_put. cbn [bl_list_init modify]. by rewrite lput_put. }
  erewrite bind_Ok; [|rewrite (on_run (on := @on_CBs)); reflexivity]. rewrite lput_sel.
  change (bl_list (lsel (@on_CBs) _)) with (bl_list (CBs (my_cluster s))).
  rewrite (bind_Ok _ _ _ _ _ E). destruct room; [|done]. cbn [when].
  erewrite bind_Ok; [|rewrite on_run, lsel_put; reflexivity]. rewrite lput_put, <- Hlen.
  rewrite bind_modify, bind_gets. unfold on_ann, zoom, announcement_set_instr, upd_an.
  change (an_vars (ann (net _))) with (an_vars (ann (net s))). rewrite Ha.
  do 2 f_equal.
  assert (u8 (state_val (my_state s)) = state_val (my_state s)) as Hu by by destruct (my_state s).
  match goal with
  | |- context [my_state (update my_proactive_slot ?h ?t)] =>
      change (my_state (update my_proactive_slot h t)) with (my_state s)
  end.
  rewrite Hu.
  replace (Z.of_nat (length entries) <=? 1) with (length entries <=? 1)%nat
    by (destruct (Nat.leb_spec (length entries) 1), (Z.leb_spec (Z.of_nat (length entries)) 1); lia).
  replace (Z.of_nat (length entries) =? 2) with (length entries =? 2)%nat
    by (destruct (Nat.eqb_spec (length entries) 2), (Z.eqb_spec (Z.of_nat (length entries)) 2); lia).
  done.
Qed.
End convergence.

(** A cluster head with three bridges to two clusters. *)
Definition bridges_example : node :=
  lists_example <| my_state := CONSENSUS_CONVERGENCE |> <| my_cluster ::= fun c => c <| role := CH |>
    <| CBs := mk_blist [0%nat; 1%nat; 2%nat]
         (mk_pool [1; 1; 1; 0; 0; 0; 0; 0]
            ([mk_chb 44 3 0 78 0; mk_chb 45 2 0 69 0; mk_chb 72 1 0 78 0] ++ replicate 5 chb_zero)) |> |>.

Lemma init_consensus_convergence_spec_witness :
  exists l' s', init_consensus_convergence bridges_example = Ok (tt, s') /\
    bl_view l' = [mk_chb 69 2 0 45 0; mk_chb 78 3 0 44 72] /\ my_proactive_slot s' = 1.
Proof.
  destruct (init_consensus_convergence_spec bridges_example (announcement_boot (DF := binary32)))
    as [l' H].
  - split; [done| | |].
    + cbn. repeat (constructor; [set_solver|]). constructor.
    + apply Forall_forall. intros i Hi. cbn in Hi.
      destruct i as [|[|[|i]]]; [by exists 1|by exists 1|by exists 1|exfalso; set_solver].
    + cbn. repeat constructor; lia.
  - done.
  - done.
  - done.
  - change (collect _ _) with ([mk_chb 69 2 0 45 0; mk_chb 78 3 0 44 72], true) in H.
    destruct H as (E & _ & V & _). exists l'. eexists. split; [exact E|]. split; [exact V|]. done.
Defined.

(** ** The topology and the placing *)

Section placing.
Context {DF : DoubleFormat}.

Definition edges (t : list (Z * list Z)) : list (Z * Z) :=
  flat_map (fun '(a, bs) => map (pair a) bs) t.

(** The tables have one row for a node. *)
Lemma topology_lookup_edges t a b :
  NoDup (map fst t) -> topology_lookup t a b = b2z (bool_decide ((a, b) ∈ edges t)).
Proof.
  induction t as [|[a' bs] t IH]; intros Hn; cbn [topology_lookup]; [done|].
  cbn in Hn. apply NoDup_cons in Hn as [Ha Hn]. cbn [edges flat_map].
  destruct (Z.eqb_spec a a') as [<-|Hne].
  - f_equal. apply eq_true_iff_eq. rewrite existsb_exists, bool_decide_eq_true, elem_of_app.
    setoid_rewrite <- list_elem_of_In. split.
    + intros (c & Hc & <-%Z.eqb_eq). left. apply list_elem_of_fmap. by exists b.
    + intros [(c & [= ->] & Hc)%list_elem_of_fmap|Hin]; [exists c; by rewrite Z.eqb_refl|].
      exfalso. apply Ha. clear -Hin. induction t as [|[d ds] t IH]; [by apply not_elem_of_nil in Hin|].
      cbn in Hin |- *. apply elem_of_app in Hin as [(c & [= <- _] & _)%list_elem_of_fmap|Hin]; set_solver.
  - rewrite IH by done. f_equal. apply bool_decide_ext. rewrite elem_of_app. split; [by right|].
    intros [(c & [= -> _] & _)%list_elem_of_fmap|Hin]; done.
Qed.

(** The pairs of nodes where only the first takes the second for a neighbour. *)
Definition one_sided (t : list (Z * list Z)) : list (Z * Z) :=
  filter (fun '(a, b) => (b, a) ∉ edges t) (edges t).

Lemma one_sided_spec t a b :
  NoDup (map fst t) ->
  (a, b) ∈ one_sided t <-> topology_lookup t a b = 1 /\ topology_lookup t b a = 0.
Proof.
  intros Hn. unfold one_sided. rewrite list_elem_of_filter, !topology_lookup_edges by done.
  destruct (bool_decide_reflect ((a, b) ∈ edges t)), (bool_decide_reflect ((b, a) ∈ edges t));
    cbn; intuition congruence.
Qed.

Lemma one_sided_nil t a b :
  NoDup (map fst t) -> one_sided t = [] -> topology_lookup t a b = topology_lookup t b a.
Proof.
  intros Hn H0. pose proof (one_sided_spec t a b Hn) as H1. pose proof (one_sided_spec t b a Hn) as H2.
  rewrite H0, elem_of_nil in H1, H2. rewrite !topology_lookup_edges in * by done.
  destruct (bool_decide ((a, b) ∈ edges t)), (bool_decide ((b, a) ∈ edges t)); cbn in *; tauto.
Qed.

(** The one-sided pairs of the first topology. *)
Definition asymmetric_pairs : list (Z * Z) :=
  [(69, 71); (65, 62); (51, 57); (56, 51); (56, 52); (17, 23)].

(** The neighbour relation of the test bed ([MOD_TYPE] 1) is not symmetric: in
    exactly these pairs the first node takes the second for a neighbour and the
    second does not take the first for one.  The topologies 2 and 3 are
    symmetric. *)
Theorem check_mod_asymmetric a b :
  ((check_mod a b = 1 /\ check_mod b a = 0) <->
   (a, b) ∈ asymmetric_pairs) /\
  topology_lookup mod_topology_2 a b = topology_lookup mod_topology_2 b a /\
  topology_lookup mod_topology_3 a b = topology_lookup mod_topology_3 b a.
Proof.
  split_and!.
  - unfold check_mod. rewrite <- one_sided_spec by (by apply (bool_decide_unpack _); vm_compute).
    assert (one_sided mod_topology_1 = asymmetric_pairs) as -> by (by vm_compute).
    done.
  - apply one_sided_nil; [by apply (bool_decide_unpack _); vm_compute|by vm_compute].
  - apply one_sided_nil; [by apply (bool_decide_unpack _); vm_compute|by vm_compute].
Qed.

(** The part of the placing that a neighbour adds: how much larger its degree is,
    or 1 if only its address is. *)
Definition ahead (addr degree : Z) (n : neighbour) : Z :=
  if degree <? n_degree n then n_degree n - degree
  else if (n_degree n =? degree) && (addr <? n_addr n) then 1 else 0.

Definition place_step (n : neighbour) (s : node) : node :=
  if my_degree s <? n_degree n then s <| my_placing ::= fun p => p +8 (n_degree n - my_degree s) |>
  else if (n_degree n =? my_degree s) && (my_addr s <? n_addr n)
  then s <| my_placing ::= fun p => p +8 1 |>
  else s.

Lemma place_step_ahead n s :
  0 <= my_placing s < 256 ->
  place_step n s = s <| my_placing := u8 (my_placing s + ahead (my_addr s) (my_degree s) n) |>.
Proof.
  intros Hp. unfold place_step, ahead. destruct (_ <? _); [done|]. destruct (_ && _); [done|].
  rewrite Z.add_0_r, uwrap_small by exact Hp. by destruct s.
Qed.

Lemma update_placing_fold l s :
  Forall (fun i => is_Some (pl_blocks (neighbour_memb s) !! i)) l -> 0 <= my_placing s < 256 ->
  for_neighbours l (fun _ n => modify (place_step n)) s
  = Ok (tt, s <| my_placing := u8 (my_placing s + fold_right Z.add 0
      (map (ahead (my_addr s) (my_degree s)) (omap (fun i => pl_blocks (neighbour_memb s) !! i) l))) |>).
Proof.
  intros Hl. revert s Hl. induction l as [|i l IH]; intros s Hl Hp.
  { unfold for_neighbours. cbn [forM fold_right map omap list_omap].
    rewrite Z.add_0_r, uwrap_small by exact Hp. by destruct s. }
  apply Forall_cons in Hl as [[x Hx] Hl].
  assert (omap (fun i => pl_blocks (neighbour_memb s) !! i) (i :: l)
    = x :: omap (fun i => pl_blocks (neighbour_memb s) !! i) l) as -> by (cbn; by rewrite Hx).
  unfold for_neighbours in *. cbn [forM].
  rewrite (bind_Ok _ _ _ tt (place_step x s)).
  2:{ erewrite bind_Ok; [reflexivity|]. unfold get_neighbour. by rewrite Hx. }
  rewrite (place_step_ahead x s Hp), IH; [|done|apply u8_range].
  do 2 f_equal. rsimpl. cbn [map fold_right].
  rewrite Z.add_assoc, <- (uwrap_add_l 8 (my_placing s + _)). by destruct s.
Qed.

(** The place of a node in the order of announcements: [csync_update_placing]
    sums up, modulo 256, what its neighbours are ahead of it, and leaves
    everything else alone. *)
Theorem csync_update_placing_spec s :
  Forall (fun i => is_Some (pl_blocks (neighbour_memb s) !! i)) (mod_neighbour_list s) ->
  csync_update_placing s = Ok (tt, s <| my_placing := u8 (fold_right Z.add 0
    (map (ahead (my_addr s) (my_degree s))
       (omap (fun i => pl_blocks (neighbour_memb s) !! i) (mod_neighbour_list s)))) |>).
Proof.
  intros Hl. unfold csync_update_placing. rewrite bind_modify, bind_gets. rsimpl.
  etransitivity; [apply update_placing_fold; [done|rsimpl; lia]|]. rsimpl. by destruct s.
Qed.
End placing.

Lemma csync_update_placing_spec_witness :
  let s := lists_example <| mod_neighbour_list := [1%nat; 0%nat] |>
    <| neighbour_memb := mk_pool [1; 1]
         [neighbour_zero <| n_addr := 48 |> <| n_degree := 6 |>;
          neighbour_zero <| n_addr := 78 |> <| n_degree := 2 |>] |> in
  csync_update_placing s = Ok (tt, s <| my_placing := 5 |>).
Proof.
  intros s. rewrite (csync_update_placing_spec s); [reflexivity|]. repeat constructor; eauto.
Defined.
