(* ===== verification/Travel.v ===== *)
(** * Travel: what reaches the other side

    Theorems about the announcers: a packet built from the announcement table is
    understood by the receiver; what the length check of the receiver misses; the
    life of the packet the polite announcer holds back. *)
From stdpp Require Import numbers option sets list.
From S2P Require Import Prelude Lists Memb CDouble Rtimer Packetbuf Announcement Announcers CSync.

(** ** Bytes *)

Section bytes.
Context {DF : DoubleFormat}.

(** Values that fit their fields. *)
Record value_ok (v : announcement_value) : Prop := {
  vo_instr : 0 <= av_instr v < 256;
  vo_degree : 0 <= av_degree v < 256;
  vo_coarse : 0 <= av_date_coarse v < 2 ^ 32;
  vo_fine : 0 <= av_date_fine v < 2 ^ 32;
  vo_addr : 0 <= av_ref_addr v < 2 ^ 16;
  vo_rate : d_repr (av_cons_rate v);
}.
Definition entry_ok (e : Z * announcement_value) : Prop := 0 <= fst e < 2 ^ 16 /\ value_ok (snd e).

Record frame_ok (f : timesync_frame_t) : Prop := {
  fo_coarse : 0 <= sf_coarse_now f < 2 ^ 32;
  fo_offset : 0 <= sf_fine_offset f < 2 ^ 32;
  fo_rate : d_repr (sf_clock_rate f);
  fo_avg : d_repr (sf_avg_rate f);
  fo_ta : 0 <= sf_ta f < 2 ^ 16;
  fo_tb : 0 <= sf_tb f < 2 ^ 16;
  fo_ta_compare : 0 <= sf_ta_compare f < 2 ^ 16;
  fo_tb_compare : 0 <= sf_tb_compare f < 2 ^ 16;
  fo_stamp : 0 <= sf_hw_mac_timestamp f < 2 ^ 16;
}.

(** Reading a field laid out after others. *)
Lemma take_field {A} n (x r : list A) : length x = n -> take n (x ++ r) = x.
Proof. intros <-. apply take_app_length. Qed.
Lemma drop_field {A} n m (x r : list A) : length x = n -> drop (n + m) (x ++ r) = drop m r.
Proof. intros <-. by rewrite <- drop_drop, drop_app_length. Qed.

Lemma value_bytes_length v : value_ok v -> length (value_bytes v) = (12 + df_size)%nat.
Proof.
  intros []. unfold value_bytes. rewrite !length_app, !le_bytes_length.
  destruct vo_rate0 as [-> _]. lia.
Qed.

Lemma data_bytes_length e :
  entry_ok e -> Z.of_nat (length (data_bytes (fst e) (snd e))) = sizeof_announcement_data.
Proof.
  intros [_ H]. unfold data_bytes, sizeof_announcement_data.
  rewrite length_app, le_bytes_length, value_bytes_length by done. lia.
Qed.

Lemma timesync_bytes_length f :
  frame_ok f -> Z.of_nat (length (timesync_bytes f)) = sizeof_timesync_frame.
Proof.
  intros []. unfold timesync_bytes, sizeof_timesync_frame. rewrite !length_app, !le_bytes_length.
  destruct fo_rate0 as [-> _], fo_avg0 as [-> _]. lia.
Qed.

Lemma value_roundtrip v : value_ok v -> value_of_bytes (value_bytes v) = v.
Proof.
  intros []. unfold value_of_bytes, value_bytes.
  rewrite (drop_field 1 0), (drop_field 1 1), (drop_field 1 5), (drop_field 1 9), (drop_field 1 11)
    by apply le_bytes_length.
  rewrite (drop_field 1 0 (le_bytes 1 (av_degree v))), (drop_field 1 4), (drop_field 1 8),
    (drop_field 1 10) by apply le_bytes_length.
  rewrite (drop_field 4 0 (le_bytes 4 (av_date_coarse v))), (drop_field 4 4), (drop_field 4 6)
    by apply le_bytes_length.
  rewrite (drop_field 4 0 (le_bytes 4 (av_date_fine v))), (drop_field 4 2) by apply le_bytes_length.
  rewrite (drop_field 2 0 (le_bytes 2 (av_ref_addr v))) by apply le_bytes_length. rewrite !drop_0.
  destruct vo_rate0 as [Hl Hr]. rewrite (take_ge (df_bytes _)) by lia.
  rewrite !take_field by apply le_bytes_length. rewrite Hr.
  rewrite !le_int_bytes by (simpl; lia). by destruct v.
Qed.

Lemma data_roundtrip e : entry_ok e -> data_of_bytes (data_bytes (fst e) (snd e)) = e.
Proof.
  intros [Hi Hv]. unfold data_of_bytes, data_bytes.
  rewrite take_field, (drop_field 2 0), drop_0 by apply le_bytes_length.
  rewrite le_int_bytes by (simpl; lia). rewrite value_roundtrip by done. by destruct e.
Qed.

Lemma timesync_roundtrip f : frame_ok f -> timesync_of_bytes (timesync_bytes f) = f.
Proof.
  intros []. destruct fo_rate0 as [Hl1 Hr1], fo_avg0 as [Hl2 Hr2].
  unfold timesync_of_bytes, timesync_bytes.
  set (tail := le_bytes 2 (sf_ta f) ++ _).
  replace (8 + 2 * df_size)%nat with (4 + (4 + (df_size + (df_size + 0))))%nat by lia.
  replace (8 + df_size)%nat with (4 + (4 + (df_size + 0)))%nat by lia.
  rewrite (drop_field 4 0), (drop_field 4 4), !(drop_field 4) by apply le_bytes_length.
  rewrite (drop_field 4 0 (le_bytes 4 (sf_fine_offset f))) by apply le_bytes_length.
  rewrite !(drop_field df_size _ (df_bytes (sf_clock_rate f))) by done.
  rewrite !(drop_field df_size _ (df_bytes (sf_avg_rate f))) by done. rewrite !drop_0.
  rewrite (take_field df_size (df_bytes (sf_clock_rate f))), (take_field df_size (df_bytes (sf_avg_rate f))) by done.
  unfold tail.
  rewrite (drop_field 2 0 (le_bytes 2 (sf_ta f))), (drop_field 2 2 (le_bytes 2 (sf_ta f))),
    (drop_field 2 4 (le_bytes 2 (sf_ta f))), (drop_field 2 6 (le_bytes 2 (sf_ta f))) by apply le_bytes_length.
  rewrite (drop_field 2 0 (le_bytes 2 (sf_tb f))), (drop_field 2 2 (le_bytes 2 (sf_tb f))),
    (drop_field 2 4 (le_bytes 2 (sf_tb f))) by apply le_bytes_length.
  rewrite (drop_field 2 0 (le_bytes 2 (sf_ta_compare f))), (drop_field 2 2 (le_bytes 2 (sf_ta_compare f)))
    by apply le_bytes_length.
  rewrite (drop_field 2 0 (le_bytes 2 (sf_tb_compare f))) by apply le_bytes_length. rewrite !drop_0.
  rewrite (take_ge (le_bytes 2 (sf_hw_mac_timestamp f))) by (rewrite le_bytes_length; lia).
  rewrite !take_field by apply le_bytes_length. rewrite Hr1, Hr2.
  rewrite !le_int_bytes by (simpl; lia). by destruct f.
Qed.

(** The message with these announcements. *)
Definition message (es : list (Z * announcement_value)) : list Z :=
  le_bytes 2 (Z.of_nat (length es)) ++ flat_map (fun e => data_bytes (fst e) (snd e)) es.

Lemma entries_length es :
  Forall entry_ok es -> Z.of_nat (length (flat_map (fun e => data_bytes (fst e) (snd e)) es))
    = sizeof_announcement_data * Z.of_nat (length es).
Proof.
  induction 1 as [|e es He _ IH]; cbn [flat_map length]; [lia|].
  rewrite length_app, Nat2Z.inj_add, data_bytes_length, IH by done. lia.
Qed.
Lemma message_length es :
  Forall entry_ok es ->
  Z.of_nat (length (message es)) = 2 + sizeof_announcement_data * Z.of_nat (length es).
Proof.
  intros H. unfold message. rewrite length_app, le_bytes_length, Nat2Z.inj_add, entries_length by done.
  lia.
Qed.
End bytes.

(** ** Building a message *)

Section building.
Context {DF : DoubleFormat} {F CB : Type}.
Local Abbreviation St := (net_st F CB).
Implicit Types (st : St).

Definition pbuf st : packetbuf_st := qu_packetbuf (queue st).
Definition with_pbuf (p : packetbuf_st) st : St :=
  st <| queue ::= fun q => q <| qu_packetbuf := p |> |>.

Lemma on_packetbuf_run {A} (m : M packetbuf_st A) st :
  on_packetbuf m st =
    match m (pbuf st) with Ok (a, p) => Ok (a, with_pbuf p st) | Err e => Err e end.
Proof. unfold on_packetbuf, zoom, pbuf. by destruct (m _) as [[]|]. Qed.
Lemma pbuf_with p st : pbuf (with_pbuf p st) = p.
Proof. done. Qed.
Lemma with_with p q st : with_pbuf p (with_pbuf q st) = with_pbuf p st.
Proof. done. Qed.
Lemma with_same st : with_pbuf (pbuf st) st = st.
Proof. by destruct st as [? ? [] ? ? ? ? ? ? ? ? ?]. Qed.
Lemma on_packetbuf_ok {A} (m : M packetbuf_st A) st a p :
  m (pbuf st) = Ok (a, p) -> on_packetbuf m st = Ok (a, with_pbuf p st).
Proof. intros E. by rewrite on_packetbuf_run, E. Qed.

(** The announcements with a value, in the order of the table. *)
Definition published (vars : list (announcement CB)) (l : list nat) : list (Z * announcement_value) :=
  omap (fun a => x ← vars !! a; if c_true (an_has_value x) then Some (an_id x, a_value x) else None) l.

(** The packet buffer starts with the bytes, and then there is room. *)
Definition starts_with (p : packetbuf_st) (bs : list Z) : Prop :=
  bufptr p = 0 /\ hdrlen p = 0 /\ exists rest, packetbuf p = bs ++ rest /\
    length (packetbuf p) = Z.to_nat PACKETBUF_SIZE.

Lemma dataptr_start p bs : starts_with p bs -> packetbuf_dataptr p = Ok (0, p).
Proof. intros (H1 & H2 & _). unfold packetbuf_dataptr, packetbuf_hdrlen, gets. by rewrite H1, H2. Qed.

Lemma load_start p bs cs :
  starts_with p (bs ++ cs) -> pb_load 0 (length bs) p = Ok (bs, p).
Proof.
  intros (_ & _ & rest & E & Hl). rewrite pb_load_ok; [|lia|].
  - rewrite E, drop_0, <- app_assoc, take_app_length. done.
  - rewrite E, !length_app. lia.
Qed.

Lemma store_end p bs cs :
  starts_with p bs -> Z.of_nat (length bs + length cs) <= PACKETBUF_SIZE ->
  exists p', pb_store (Z.of_nat (length bs)) cs p = Ok (tt, p') /\ starts_with p' (bs ++ cs).
Proof.
  intros (H1 & H2 & rest & E & Hl) Hr. unfold PACKETBUF_SIZE in *. eexists. split.
  - apply pb_store_ok; lia.
  - split; [done|]. split; [done|]. rsimpl. rewrite Nat2Z.id, E, take_app_length.
    exists (drop (length bs + length cs) (bs ++ rest)). split; [by rewrite app_assoc|].
    rewrite E, length_app in Hl. rewrite !length_app, length_drop, length_app.
    unfold PACKETBUF_SIZE. lia.
Qed.

Lemma store_start p bs bs' cs :
  starts_with p (bs ++ cs) -> length bs' = length bs ->
  exists p', pb_store 0 bs' p = Ok (tt, p') /\ starts_with p' (bs' ++ cs).
Proof.
  intros (H1 & H2 & rest & E & Hl) Hbs. eexists. split.
  - apply pb_store_ok; [lia|]. rewrite E, !length_app. lia.
  - split; [done|]. split; [done|]. rsimpl. rewrite E in *. exists rest. rewrite Hbs.
    change (Z.to_nat 0) with 0%nat. rewrite take_0. cbn [Nat.add app].
    rewrite <- (app_assoc bs cs rest), drop_app_length. split; [by rewrite <- app_assoc|].
    rewrite !length_app in Hl |- *. lia.
Qed.

(** One turn of the loop. *)
Lemma write_announcement st es e :
  starts_with (pbuf st) (message es) -> Forall entry_ok es -> entry_ok e ->
  2 + sizeof_announcement_data * Z.of_nat (S (length es)) <= PACKETBUF_SIZE ->
  exists p', starts_with p' (message (es ++ [e])) /\
    (adata ← on_packetbuf packetbuf_dataptr;
     num ← on_packetbuf (pb_load adata 2);
     on_packetbuf (pb_store (adata + ANNOUNCEMENT_MSG_HEADERLEN + sizeof_announcement_data * le_int num)
                     (data_bytes (fst e) (snd e))) ;;
     on_packetbuf (pb_store adata (le_bytes 2 (le_int num + 1)))) st = Ok (tt, with_pbuf p' st).
Proof.
  intros Hs Hes He Hfit. pose proof (message_length es Hes) as Hml.
  pose proof (data_bytes_length e He) as Hdl.
  assert (Hn : Z.of_nat (length es) < 128).
  { unfold sizeof_announcement_data, PACKETBUF_SIZE in Hfit. lia. }
  destruct (store_end _ _ (data_bytes (fst e) (snd e)) Hs) as (p1 & E1 & Hs1); [lia|].
  unfold message in Hs1. rewrite <- app_assoc in Hs1.
  destruct (store_start p1 _ (le_bytes 2 (Z.of_nat (length es) + 1)) _ Hs1) as (p2 & E2 & Hs2);
    [by rewrite !le_bytes_length|].
  exists p2. split.
  { unfold message. rewrite length_app, flat_map_app, Nat2Z.inj_add. cbn [flat_map length].
    by rewrite app_nil_r. }
  erewrite bind_Ok by (eapply on_packetbuf_ok, dataptr_start, Hs). rewrite with_same.
  erewrite bind_Ok.
  2:{ eapply on_packetbuf_ok. pose proof (load_start (pbuf st) _ _ Hs) as El.
      rewrite le_bytes_length in El. exact El. }
  rewrite with_same. rewrite le_int_bytes by (simpl; lia).
  replace (0 + ANNOUNCEMENT_MSG_HEADERLEN + sizeof_announcement_data * Z.of_nat (length es))
    with (Z.of_nat (length (message es))) by (rewrite Hml; unfold ANNOUNCEMENT_MSG_HEADERLEN; lia).
  erewrite bind_Ok by (eapply on_packetbuf_ok, E1).
  erewrite on_packetbuf_ok by (rewrite pbuf_with; exact E2). by rewrite with_with.
Qed.

(** The announcements [write_announcements] takes, and those
    [write_announcements_prefix] takes. *)
Definition entries_ok (vars : list (announcement CB)) (l : list nat) : Prop :=
  Forall (fun a => (a < length vars)%nat) l /\ Forall entry_ok (published vars l).
Fixpoint valued_prefix (vars : list (announcement CB)) (l : list nat) : list nat :=
  match l with
  | [] => []
  | a :: l' =>
      match vars !! a with
      | Some x => if c_true (an_has_value x) then a :: valued_prefix vars l' else []
      | None => []
      end
  end.

Lemma get_an_zoom st a x :
  an_vars (ann st) !! a = Some x -> zoom ann (get_an a) st = Ok (x, st).
Proof. intros Hx. unfold zoom, get_an. rewrite Hx. by destruct st. Qed.

Lemma published_cons (vars : list (announcement CB)) a l x :
  vars !! a = Some x ->
  published vars (a :: l) =
    (if c_true (an_has_value x) then [(an_id x, a_value x)] else []) ++ published vars l.
Proof. intros Hx. unfold published. cbn. rewrite Hx. cbn. by destruct (c_true _). Qed.

Lemma write_announcements_ok l st es :
  let vars := an_vars (ann st) in
  starts_with (pbuf st) (message es) -> Forall entry_ok es -> entries_ok vars l ->
  2 + sizeof_announcement_data * Z.of_nat (length es + length (published vars l)) <= PACKETBUF_SIZE ->
  exists p', write_announcements l st = Ok (tt, with_pbuf p' st) /\
    starts_with p' (message (es ++ published vars l)).
Proof.
  intros vars Hs Hes [Hl Hok] Hfit. revert st vars es Hs Hes Hl Hok Hfit.
  induction l as [|a l IH]; intros st vars es Hs Hes Hl Hok Hfit.
  { exists (pbuf st). cbn. by rewrite with_same, app_nil_r. }
  apply Forall_cons in Hl as [Ha Hl]. apply lookup_lt_is_Some_2 in Ha as [x Hx].
  rewrite (published_cons _ _ _ _ Hx) in Hok, Hfit |- *. cbn [write_announcements].
  erewrite bind_Ok by (by apply get_an_zoom). unfold when.
  destruct (c_true (an_has_value x)).
  - apply Forall_app in Hok as [He Hok]. apply Forall_cons in He as [He _].
    assert (Hsz : 0 <= sizeof_announcement_data) by (unfold sizeof_announcement_data; lia).
    rewrite length_app in Hfit. cbn [length] in Hfit.
    destruct (write_announcement st es _ Hs Hes He) as (p1 & Hs1 & E1); [nia|].
    rewrite (bind_Ok _ _ _ _ _ E1).
    destruct (IH (with_pbuf p1 st) (es ++ [(an_id x, a_value x)])) as (p' & E & Hs'); [done| |done|done| |].
    { apply Forall_app. split; [done|]. by constructor. }
    { rewrite length_app. cbn [length]. etransitivity; [|exact Hfit].
      change (an_vars (ann (with_pbuf p1 st))) with vars. apply Z.eq_le_incl. do 3 f_equal. lia. }
    exists p'. rewrite E, with_with. split; [done|].
    change (an_vars (ann (with_pbuf p1 st))) with vars in Hs'. by rewrite <- app_assoc in Hs'.
  - rewrite (bind_Ok _ _ _ tt st) by done. by apply IH.
Qed.

Lemma write_announcements_prefix_eq l st :
  let vars := an_vars (ann st) in
  Forall (fun a => (a < length vars)%nat) l ->
  write_announcements_prefix l st = write_announcements (valued_prefix vars l) st.
Proof.
  intros vars Hl. revert st vars Hl. induction l as [|a l IH]; intros st vars Hl; [done|].
  apply Forall_cons in Hl as [Ha Hl]. apply lookup_lt_is_Some_2 in Ha as [x Hx].
  cbn [write_announcements_prefix valued_prefix]. rewrite Hx.
  erewrite bind_Ok by (by apply get_an_zoom). unfold when at 1.
  destruct (c_true (an_has_value x)) eqn:Ec; [|done].
  cbn [write_announcements]. unfold mbind, M_bind. rewrite (get_an_zoom _ _ _ Hx). unfold when. rewrite Ec.
  destruct (on_packetbuf packetbuf_dataptr st) as [[d s1]|] eqn:E1; [|done].
  destruct (on_packetbuf (pb_load d 2) s1) as [[n s2]|] eqn:E2; [|done].
  destruct (on_packetbuf (pb_store _ (data_bytes _ _)) s2) as [[[] s3]|] eqn:E3; [|done].
  destruct (on_packetbuf (pb_store d _) s3) as [[[] s4]|] eqn:E4; [|done]. cbn.
  assert (Ha4 : ann s4 = ann st).
  { rewrite !on_packetbuf_run in *. repeat case_match; simplify_eq. done. }
  unfold vars. rewrite <- Ha4. apply IH. by rewrite Ha4.
Qed.

(** ** Sending *)

Lemma payload_start p bs :
  starts_with p bs -> buflen p = Z.of_nat (length bs) -> pb_payload p = bs.
Proof.
  intros (H1 & H2 & rest & E & _) Hb. unfold pb_payload.
  rewrite H1, H2, E, Hb, Nat2Z.id. change (Z.to_nat (0 + 0)) with 0%nat.
  by rewrite drop_0, take_app_length.
Qed.

(** The first part of both senders: an empty message. *)
Lemma start_message st :
  length (packetbuf (pbuf st)) = Z.to_nat PACKETBUF_SIZE ->
  exists p, starts_with p (message []) /\ forall B (k : Z -> M St B),
    (on_packetbuf packetbuf_clear ;;
     adata ← on_packetbuf packetbuf_dataptr;
     on_packetbuf (pb_store adata (le_bytes 2 0)) ;;
     k adata) st = k 0 (with_pbuf p st).
Proof.
  intros Hl. unfold PACKETBUF_SIZE in Hl.
  set (p0 := (pbuf st) <| bufptr := 0 |> <| buflen := 0 |> <| hdrlen := 0 |>
       <| packetbuf_attrs := replicate PACKETBUF_NUM_ATTRS 0 |>
       <| packetbuf_addrs := replicate PACKETBUF_NUM_ADDRS 0 |>).
  destruct (store_end p0 [] (le_bytes 2 0)) as (p & E & Hs).
  { split; [done|]. split; [done|]. by exists (packetbuf (pbuf st)). }
  { by vm_compute. }
  exists p. split; [exact Hs|]. intros B k.
  rewrite (bind_Ok _ _ _ tt (with_pbuf p0 st)) by done.
  rewrite (bind_Ok _ _ _ 0 (with_pbuf p0 st)) by done.
  erewrite bind_Ok by (eapply on_packetbuf_ok; rewrite pbuf_with; exact E).
  by rewrite with_with.
Qed.

Lemma datalength_eq es :
  Forall entry_ok es -> Z.of_nat (length (message es)) <= PACKETBUF_SIZE ->
  announcement_datalength (Z.of_nat (length es)) = Z.of_nat (length (message es)).
Proof.
  intros Hes Hl. unfold announcement_datalength, PACKETBUF_SIZE in *. rewrite message_length in * by done.
  apply uwrap_small. unfold ANNOUNCEMENT_MSG_HEADERLEN. split; [|simpl; lia].
  unfold sizeof_announcement_data. lia.
Qed.

(** Stamping the message. *)
Lemma stamp_message bs st f c :
  starts_with (pbuf st) bs -> Z.of_nat (length bs) + sizeof_timesync_frame <= PACKETBUF_SIZE ->
  rtimer_sync_send (clock st) = Ok (f, c) -> frame_ok f ->
  exists p', sync_send (Z.of_nat (length bs)) st = Ok (tt, with_pbuf p' (st <| clock := c |>)) /\
    starts_with p' (bs ++ timesync_bytes f) /\ buflen p' = buflen (pbuf st).
Proof.
  intros Hs Hfit Hf Hok. pose proof (timesync_bytes_length f Hok) as Hfl.
  destruct (store_end _ _ (timesync_bytes f) Hs) as (p' & E & Hs'); [lia|].
  exists p'. split_and!; [|done|].
  - unfold sync_send. erewrite bind_Ok by (unfold zoom; rewrite Hf; reflexivity).
    by erewrite on_packetbuf_ok by exact E.
  - unfold pb_store in E. destruct (_ && _); [|done]. injection E as <-. done.
Qed.

Lemma send_complete conn st :
  c_true (chameleon st 0%nat) = true ->
  exists st', (forall B (k : Z -> M St B),
      (on_packetbuf (packetbuf_set_attr PACKETBUF_ATTR_PACKET_TYPE PACKETBUF_ATTR_PACKET_TYPE_TIMESTAMP) ;;
       r ← broadcast_send conn; k r) st = k 1 st') /\
    exists attrs addrs, sent st' = mk_sent conn (pb_payload (pbuf st)) attrs addrs :: sent st.
Proof.
  intros Hc. eexists. split.
  - intros B k. erewrite bind_Ok by (by apply on_packetbuf_ok).
    unfold broadcast_send, abc_send. erewrite bind_Ok; [reflexivity|]. rewrite bind_gets.
    erewrite bind_Ok by (by apply on_packetbuf_ok).
    unfold rime_output. change (chameleon (with_pbuf _ _)) with (chameleon st). rewrite Hc. reflexivity.
  - eexists _, _. reflexivity.
Qed.

(** What can be sent: announcements that fit in a packet. *)
Definition sendable st (l : list nat) : Prop :=
  length (packetbuf (pbuf st)) = Z.to_nat PACKETBUF_SIZE /\ entries_ok (an_vars (ann st)) l /\
  2 + sizeof_announcement_data * Z.of_nat (length (published (an_vars (ann st)) l))
    + sizeof_timesync_frame <= PACKETBUF_SIZE.

Lemma build_message st l (write : list nat -> M St unit) :
  sendable st l ->
  (forall s, ann s = ann st -> write (announcements (ann st)) s = write_announcements l s) ->
  let es := published (an_vars (ann st)) l in
  exists p, starts_with p (message es) /\ forall B (k : Z -> Z -> M St B),
    (on_packetbuf packetbuf_clear ;;
     adata ← on_packetbuf packetbuf_dataptr;
     on_packetbuf (pb_store adata (le_bytes 2 0)) ;;
     l ← zoom ann announcement_list;
     write l ;;
     num ← on_packetbuf (pb_load adata 2);
     dataptr ← on_packetbuf packetbuf_dataptr;
     k (le_int num) dataptr) st
    = k (Z.of_nat (length es)) 0 (with_pbuf p st).
Proof.
  intros (Hl & Hok & Hfit) Hw es. fold es in Hfit.
  assert (Hts : 0 <= sizeof_timesync_frame) by (unfold sizeof_timesync_frame; lia).
  destruct (start_message st Hl) as (p0 & Hs0 & E0).
  destruct (write_announcements_ok l (with_pbuf p0 st) []) as (p1 & E1 & Hs1);
    [done|constructor|done|cbn [length Nat.add]; change (an_vars (ann (with_pbuf p0 st))) with (an_vars (ann st)); fold es; lia|].
  rewrite with_with in E1. cbn [app] in Hs1.
  change (published (an_vars (ann (with_pbuf p0 st))) l) with es in Hs1.
  exists p1. split; [done|]. intros B k. rewrite E0.
  rewrite (bind_Ok _ _ _ (announcements (ann st)) (with_pbuf p0 st)).
  2:{ by destruct st. }
  rewrite (bind_Ok _ _ _ tt (with_pbuf p1 st)).
  2:{ rewrite Hw by done. exact E1. }
  assert (Hn : Z.of_nat (length es) < 128).
  { unfold sizeof_announcement_data, PACKETBUF_SIZE in *. lia. }
  erewrite bind_Ok.
  2:{ eapply on_packetbuf_ok. rewrite pbuf_with.
      pose proof (load_start p1 _ _ Hs1) as El. rewrite le_bytes_length in El. exact El. }
  rewrite with_with, le_int_bytes by (simpl; lia).
  erewrite bind_Ok by (eapply on_packetbuf_ok; rewrite pbuf_with; apply (dataptr_start _ _ Hs1)).
  by rewrite with_with.
Qed.

Lemma sendable_fits st l :
  sendable st l ->
  let es := published (an_vars (ann st)) l in
  Forall entry_ok es /\ announcement_datalength (Z.of_nat (length es)) = Z.of_nat (length (message es)) /\
  Z.of_nat (length (message es)) + sizeof_timesync_frame <= PACKETBUF_SIZE /\
  u16 (Z.of_nat (length (message es)) + sizeof_timesync_frame)
    = Z.of_nat (length (message es)) + sizeof_timesync_frame.
Proof.
  intros (Hl & [_ Hok] & Hfit) es. fold es in Hok, Hfit.
  pose proof (message_length es Hok) as Hml.
  assert (Hts : 0 <= sizeof_timesync_frame) by (unfold sizeof_timesync_frame; lia).
  split_and!; [done|apply datalength_eq; [done|lia]|lia|].
  assert (0 <= Z.of_nat (length (message es)) + sizeof_timesync_frame <= 128) as Hr
    by (unfold PACKETBUF_SIZE in *; lia).
  apply uwrap_small. split; [lia|]. change (2 ^ 16) with 65536. lia.
Qed.

(** The own clock can be read, into a frame that fits. *)
Definition stamps st (f : timesync_frame_t) (c : rtimer_st F) : Prop :=
  rtimer_sync_send (clock st) = Ok (f, c) /\ frame_ok f.

Lemma broadcast_sends st f c (l := valued_prefix (an_vars (ann st)) (announcements (ann st))) :
  sendable st l -> Forall (fun a => (a < length (an_vars (ann st)))%nat) (announcements (ann st)) ->
  stamps st f c -> published (an_vars (ann st)) l <> [] -> c_true (chameleon st 0%nat) = true ->
  exists st' attrs addrs, broadcast_send_adv st = Ok (tt, st') /\
    sent st' = mk_sent CONN_BROADCAST (message (published (an_vars (ann st)) l) ++ timesync_bytes f)
                 attrs addrs :: sent st.
Proof.
  intros Hsend Hl [Hf Hok] Hne Hc. set (es := published _ _) in *.
  destruct (sendable_fits _ _ Hsend) as (Hes & Hdl & Hfit & Hu). fold es in Hes, Hdl, Hfit, Hu.
  unfold broadcast_send_adv, upd_ba. rewrite bind_modify. set (st0 := update ba _ st).
  destruct (build_message st0 l write_announcements_prefix Hsend) as (p & Hs & E).
  { intros s Ha. change (announcements (ann st0)) with (announcements (ann st)).
    rewrite write_announcements_prefix_eq; rewrite Ha; done. }
  change (published _ l) with es in E, Hs.
  destruct (stamp_message (message es) (with_pbuf p st0) f c Hs Hfit Hf Hok) as (p' & Est & Hs' & _).
  set (p'' := p' <| buflen := Z.of_nat (length (message es)) + sizeof_timesync_frame |>).
  set (st1 := st0 <| clock := c |>).
  destruct (send_complete CONN_BROADCAST (with_pbuf p'' st1) Hc)
    as (st' & Esend & attrs & addrs & Hsent).
  exists st', attrs, addrs. split.
  -     etransitivity; [apply (E unit (fun num dataptr =>
      sync_send (dataptr + announcement_datalength num) ;;
      on_packetbuf (packetbuf_set_datalen (announcement_datalength num + sizeof_timesync_frame)) ;;
      when (0 <? num)
        (on_packetbuf (packetbuf_set_attr PACKETBUF_ATTR_PACKET_TYPE PACKETBUF_ATTR_PACKET_TYPE_TIMESTAMP) ;;
         broadcast_send CONN_BROADCAST ;; skip)))|].
    cbv beta. rewrite Hdl, Z.add_0_l. rewrite (bind_Ok _ _ _ _ _ Est).
    erewrite bind_Ok by (eapply on_packetbuf_ok; reflexivity).
    rewrite with_with, pbuf_with, Hu. change (p' <| buflen := _ |>) with p''.
    assert (0 <? Z.of_nat (length es) = true) as -> by (apply Z.ltb_lt; destruct es; [done|simpl; lia]).
    exact (Esend unit (fun _ => skip)).
  - rewrite Hsent. do 2 f_equal. rewrite pbuf_with. apply payload_start; [exact Hs'|].
    unfold p''. rsimpl. rewrite length_app, Nat2Z.inj_add, (timesync_bytes_length f Hok). done.
Qed.

(** The queue buffer held back, if any, can be freed. *)
Definition queue_held st : Prop :=
  match ip_q (ip st) with Some q => is_Some (pl_blocks (bufmem (queue st)) !! q) | None => True end.

(** The first part of [ipolite_send] leaves the message and the clock alone. *)
Lemma ipolite_prepare st hdrsize :
  queue_held st ->
  exists st', pbuf st' = pbuf st /\ clock st' = clock st /\ chameleon st' = chameleon st /\
    sent st' = sent st /\
    forall syncframe, ipolite_send 0 hdrsize syncframe st =
      (r ← stamp_and_send CONN_POLITE syncframe; mret (if c_true r then 1 else 0)) st'.
Proof.
  intros Hq. unfold queue_held in Hq. unfold ipolite_send.
  destruct (ip_q (ip st)) as [q|] eqn:Eq.
  - destruct Hq as [r Hr]. eexists. split_and!; [..|intros syncframe].
    5:{ rewrite bind_gets, Eq. erewrite bind_Ok.
        2:{ unfold ipolite_free_q. erewrite bind_Ok.
            2:{ erewrite bind_Ok; [reflexivity|]. unfold zoom, queuebuf_free, queuebuf_load_to_ram.
                unfold mbind, M_bind. rewrite Hr. reflexivity. }
            reflexivity. }
        unfold upd_ip. rewrite bind_modify. reflexivity. }
    all: done.
  - eexists. split_and!; [..|intros syncframe].
    5:{ rewrite bind_gets, Eq. rewrite (bind_Ok _ _ _ tt st) by done. unfold upd_ip.
        rewrite bind_modify. reflexivity. }
    all: done.
Qed.

Lemma polite_sends st f c :
  sendable st (announcements (ann st)) -> queue_held st -> stamps st f c ->
  published (an_vars (ann st)) (announcements (ann st)) <> [] -> c_true (chameleon st 0%nat) = true ->
  exists st' attrs addrs, polite_send_adv 0 st = Ok (tt, st') /\
    sent st' = mk_sent CONN_POLITE
      (message (published (an_vars (ann st)) (announcements (ann st))) ++ timesync_bytes f) attrs addrs
      :: sent st.
Proof.
  intros Hsend Hq [Hf Hok] Hne Hc. set (es := published _ _) in *.
  destruct (sendable_fits _ _ Hsend) as (Hes & Hdl & Hfit & Hu). fold es in Hes, Hdl, Hfit, Hu.
  destruct (build_message st _ write_announcements Hsend ltac:(done)) as (p & Hs & E).
  fold es in E, Hs.
  set (len := Z.of_nat (length (message es)) + sizeof_timesync_frame) in *.
  set (p1 := p <| buflen := len |>). set (st1 := with_pbuf p1 st).
  destruct (ipolite_prepare st1 len Hq) as (st2 & Hp2 & Hc2 & Hch2 & Hsent2 & E2).
  change (pbuf st1) with p1 in Hp2. change (sent st1) with (sent st) in Hsent2.
  destruct (stamp_message (message es) st2 f c) as (p' & Est & Hs' & Hbl);
    [rewrite Hp2; exact Hs|exact Hfit|by rewrite Hc2|done|].
  set (st3 := with_pbuf p' (st2 <| clock := c |>)).
  assert (Hc3 : c_true (chameleon st3 0%nat) = true).
  { change (chameleon st3) with (chameleon st2). rewrite Hch2. exact Hc. }
  destruct (send_complete CONN_POLITE st3 Hc3) as (st' & Esend & attrs & addrs & Hsent).
  exists st', attrs, addrs. split.
  - etransitivity; [apply (E unit (fun num dataptr =>
      on_packetbuf (packetbuf_set_datalen (announcement_datalength num + sizeof_timesync_frame)) ;;
      when (0 <? num)
        (hdrsize ← on_packetbuf packetbuf_datalen;
         ipolite_send 0 hdrsize (dataptr + announcement_datalength num) ;; skip)))|].
    cbv beta. rewrite Hdl, Z.add_0_l.
    erewrite bind_Ok by (eapply on_packetbuf_ok; reflexivity). rewrite with_with, pbuf_with. fold len. rewrite Hu.
    change (with_pbuf _ st) with st1.
    assert (0 <? Z.of_nat (length es) = true) as -> by (apply Z.ltb_lt; destruct es; [done|simpl; lia]).
    unfold when. erewrite bind_Ok by (eapply on_packetbuf_ok; reflexivity). rewrite with_same.
    change (buflen (pbuf st1)) with len. unfold mbind at 1, M_bind at 1. rewrite E2.
    unfold stamp_and_send. unfold mbind at 1 2, M_bind at 1 2. rewrite Est. fold st3.
    pose proof (Esend Z (fun r => mret r)) as Es. unfold mbind, M_bind in Es |- *.
    destruct (on_packetbuf (packetbuf_set_attr _ _) st3) as [[[] s4]|]; [|done].
    destruct (broadcast_send CONN_POLITE s4) as [[r s5]|]; [|done]. by injection Es as -> ->.
  - rewrite Hsent. change (sent st3) with (sent st2). rewrite Hsent2. do 2 f_equal.
    change (pbuf st3) with p'. apply payload_start; [exact Hs'|].
    rewrite Hbl, Hp2, length_app, Nat2Z.inj_add, (timesync_bytes_length f Hok). done.
Qed.
End building.

(** ** Receiving *)

Section receiving.
Context {DF : DoubleFormat} {F CB S : Type} (f : S -> net_st F CB) `{!Update f}.
Context (call : CB -> nat -> Z -> Z -> announcement_value -> timesync_frame_t -> annstate_t -> M S unit).
(** Updating the network does not disturb it, and handlers leave the packet
    buffer alone. *)
Context (f_update : forall t s, f (s <| f := t |>) = t) (update_f : forall s, s <| f := f s |> = s).
Context (call_packetbuf : forall cb a from id v sync e,
  post (same (fun s => pbuf (f s))) (call cb a from id v sync e)).

Lemma on_net_ok {A} (m : M (net_st F CB) A) s a :
  m (f s) = Ok (a, f s) -> on_net f m s = Ok (a, s).
Proof. intros E. unfold on_net, zoom. by rewrite E, update_f. Qed.

Lemma on_net_load i n s bs :
  pb_load i n (pbuf (f s)) = Ok (bs, pbuf (f s)) -> on_net f (on_packetbuf (pb_load i n)) s = Ok (bs, s).
Proof. intros E. apply on_net_ok. by rewrite on_packetbuf_run, E, with_same. Qed.

Lemma heard_packetbuf from id v sync e :
  post (same (fun s => pbuf (f s))) (heard f call from id v sync e).
Proof.
  assert (Hrun : forall A (m : M (announcement_st CB observer_t) A),
    post (same (fun s => pbuf (f s))) (on_net f (zoom ann m))).
  { intros A m s a s'. unfold on_net, zoom. destruct (m _) as [[x t]|]; [|done].
    intros [= _ <-]. unfold same. rewrite f_update. done. }
  unfold heard, announcement_heard. post_auto; first [apply Hrun | apply call_packetbuf].
Qed.

Lemma receive_loop_spec es (p : packetbuf_st) ptr from sync last_event s pre rest :
  post (same (fun s => pbuf (f s))) last_event -> Forall entry_ok es ->
  packetbuf p = pre ++ flat_map (fun e => data_bytes (fst e) (snd e)) es ++ rest ->
  ptr = Z.of_nat (length pre) -> pbuf (f s) = p ->
  receive_loop f call (length es) ptr from sync last_event s =
    forM es (fun e => ev ← last_event; heard f call from (fst e) (snd e) sync ev) s.
Proof.
  intros Hev Hes. revert pre ptr s. induction Hes as [|e es He _ IH]; intros pre ptr s Hp -> Hs; [done|].
  cbn [receive_loop forM length flat_map] in *. pose proof (data_bytes_length e He) as Hl.
  rewrite <- app_assoc in Hp.
  rewrite (bind_Ok _ _ _ (data_bytes (fst e) (snd e)) s).
  2:{ apply on_net_load. rewrite Hs. rewrite pb_load_ok; [|lia|rewrite Hp, !length_app; lia].
      rewrite Hp, Nat2Z.id, drop_app_length, <- Hl, Nat2Z.id, take_app_length. done. }
  rewrite data_roundtrip by done. destruct e as [id v]. cbn [fst snd] in *.
  unfold mbind, M_bind. destruct (last_event s) as [[ev s1]|] eqn:E1; [|done].
  destruct (heard f call from id v sync ev s1) as [[[] s2]|] eqn:E2; [|done].
  apply (IH (pre ++ data_bytes id v)).
  - by rewrite <- app_assoc.
  - rewrite length_app. lia.
  - apply heard_packetbuf in E2. apply Hev in E1. unfold same in E1, E2. congruence.
Qed.

(** A packet with the message and a clock reading is handed over entry by entry. *)
Lemma adv_packet_received_spec es fr from last_event s :
  post (same (fun s => pbuf (f s))) last_event -> Forall entry_ok es -> frame_ok fr ->
  pb_wf (pbuf (f s)) -> pb_payload (pbuf (f s)) = message es ++ timesync_bytes fr ->
  adv_packet_received f call last_event from s =
    forM es (fun e => ev ← last_event; heard f call from (fst e) (snd e) fr ev) s.
Proof.
  intros Hev Hes Hfr Hw Hpay. set (p := pbuf (f s)) in *.
  pose proof (message_length es Hes) as Hml. pose proof (timesync_bytes_length fr Hfr) as Htl.
  pose proof (pb_payload_length p Hw) as Hbl. rewrite Hpay, length_app in Hbl.
  assert (Hh : (bufptr p +8 hdrlen p) = bufptr p + hdrlen p) by (by apply hdrlen_u8).
  set (pre := take (Z.to_nat (bufptr p + hdrlen p)) (packetbuf p)).
  assert (Hpre : Z.of_nat (length pre) = bufptr p + hdrlen p).
  { unfold pre. rewrite length_take. destruct Hw. unfold PACKETBUF_SIZE in *. lia. }
  set (rest := drop (Z.to_nat (buflen p)) (drop (Z.to_nat (bufptr p + hdrlen p)) (packetbuf p))).
  assert (Hp : packetbuf p = pre ++ le_bytes 2 (Z.of_nat (length es)) ++
    flat_map (fun e => data_bytes (fst e) (snd e)) es ++ timesync_bytes fr ++ rest).
  { transitivity (pre ++ pb_payload p ++ rest); [unfold pre, pb_payload, rest; by rewrite !take_drop|].
    rewrite Hpay. unfold message. by rewrite <- !app_assoc. }
  assert (Hsz : Z.of_nat (length (message es)) + sizeof_timesync_frame <= 128).
  { destruct Hw. unfold PACKETBUF_SIZE in *. lia. }
  assert (Hnn : 0 <= sizeof_timesync_frame) by (unfold sizeof_timesync_frame; lia).
  assert (Hn : Z.of_nat (length es) < 128) by (unfold sizeof_announcement_data in *; nia).
  assert (Hload : forall (k : nat) bs r, packetbuf p = pre ++ r ->
    r = take k r ++ bs ++ drop (k + length bs) r -> (k <= length r)%nat ->
    on_net f (on_packetbuf (pb_load (bufptr p + hdrlen p + Z.of_nat k) (length bs))) s = Ok (bs, s)).
  { intros k bs r Epr Er Hk. apply on_net_load. fold p. rewrite pb_load_ok; [|lia|].
    - rewrite <- Hpre, <- Nat2Z.inj_add, Nat2Z.id, Epr, <- drop_drop, drop_app_length, Er.
      rewrite drop_app_length' by (rewrite length_take; lia). by rewrite take_app_length.
    - rewrite Epr, length_app, Er, !length_app, length_take. lia. }
  unfold adv_packet_received.
  erewrite bind_Ok.
  2:{ apply on_net_ok. rewrite on_packetbuf_run. unfold packetbuf_dataptr, packetbuf_hdrlen, gets.
      rewrite with_same. fold p. rewrite Hh. reflexivity. }
  erewrite bind_Ok.
  2:{ pose proof (Hload 0%nat (le_bytes 2 (Z.of_nat (length es))) _ Hp) as Hl0.
      rewrite Z.add_0_r in Hl0. apply Hl0; [|lia]. cbn [Nat.add].
      rewrite take_0, le_bytes_length. cbn [app]. done. }
  rewrite le_int_bytes by (simpl; lia). rewrite datalength_eq by (done || unfold PACKETBUF_SIZE; lia).
  erewrite bind_Ok.
  2:{ rewrite <- Htl, Nat2Z.id. eapply (Hload _ _ (message es ++ timesync_bytes fr ++ rest)).
      - rewrite Hp. unfold message. by rewrite <- app_assoc.
      - rewrite take_app_length, <- drop_drop, drop_app_length. do 2 f_equal. by rewrite drop_app_length.
      - rewrite length_app. lia. }
  rewrite timesync_roundtrip by done.
  erewrite bind_Ok.
  2:{ apply on_net_ok. rewrite on_packetbuf_run. unfold packetbuf_datalen, gets. by rewrite with_same. }
  fold p. assert (u16 (Z.of_nat (length (message es)) + sizeof_timesync_frame)
    = Z.of_nat (length (message es)) + sizeof_timesync_frame) as Hu.
  { apply uwrap_small. change (2 ^ 16) with 65536. unfold in_u. change (2 ^ 16) with 65536. lia. }
  rewrite (proj2 (Z.ltb_ge _ _)) by lia. rewrite Nat2Z.id.
  eapply (receive_loop_spec es p _ from fr last_event s
    (pre ++ le_bytes 2 (Z.of_nat (length es))) (timesync_bytes fr ++ rest)); [done|done| | |done].
  - rewrite Hp. by rewrite <- !app_assoc.
  - rewrite length_app, le_bytes_length. unfold ANNOUNCEMENT_MSG_HEADERLEN. lia.
Qed.

(** What each back-end sends, and the part of the table it looks at. *)
Definition sends (conn : conn_t) : M (net_st F CB) unit :=
  match conn with CONN_POLITE => polite_send_adv 0 | CONN_BROADCAST => broadcast_send_adv end.
Definition sent_part (conn : conn_t) (st : net_st F CB) : list nat :=
  match conn with
  | CONN_POLITE => announcements (ann st)
  | CONN_BROADCAST => valued_prefix (an_vars (ann st)) (announcements (ann st))
  end.

End receiving.

(** Two announcements, with good readings of the clock, and a receiver that
    remembers the values it hears. *)
Definition travel_reads : list reg_read := concat (replicate 8
  [ mk_reg_read 104 8192 104 9000 4096; mk_reg_read 104 8192 101 9000 4096 ]).
Definition travel_example : net_st callback_t handler_t :=
  (net_boot (DF := binary32) 44 travel_reads (fun _ => 0) (fun _ => 1))
    <| ann := mk_announcement_st [1%nat; 0%nat] None
         [mk_announcement 0 1 (mk_value 0 3 0 77 44 (d_of_Z (DF := binary32) 1)) None;
          mk_announcement 1 1 (mk_value 2 3 5 70000 44 (d_of_Z (DF := binary32) 1)) None] |>.

Lemma travel_values_ok :
  Forall (entry_ok (DF := binary32))
    [(1, mk_value 2 3 5 70000 44 (d_of_Z (DF := binary32) 1)); (0, mk_value 0 3 0 77 44 (d_of_Z (DF := binary32) 1))].
Proof. repeat constructor; simpl; (lia || by vm_compute). Qed.


(** ** What the receiver's length check misses *)

Section overrun.
Context {DF : DoubleFormat} {F CB S : Type} (f : S -> net_st F CB) `{!Update f}.
Context (call : CB -> nat -> Z -> Z -> announcement_value -> timesync_frame_t -> annstate_t -> M S unit).
Context (update_f : forall s, s <| f := f s |> = s).

(** In the states of [I] handlers return, and leave the packet buffer alone. *)
Definition hears_all (I : S -> Prop) (p : packetbuf_st) : Prop := forall from id v sync e s,
  I s -> pbuf (f s) = p ->
  exists s', heard f call from id v sync e s = Ok (tt, s') /\ I s' /\ pbuf (f s') = p.

Lemma receive_loop_overrun I p n ptr from sync s :
  hears_all I p -> length (packetbuf p) = Z.to_nat PACKETBUF_SIZE -> I s -> pbuf (f s) = p ->
  0 <= ptr <= PACKETBUF_SIZE -> PACKETBUF_SIZE < ptr + sizeof_announcement_data * Z.of_nat n ->
  receive_loop f call n ptr from sync (mret PENDING) s = Err FWild.
Proof.
  intros Hh Hl. unfold PACKETBUF_SIZE in *. revert ptr s.
  assert (Hsz : 0 <= sizeof_announcement_data) by (unfold sizeof_announcement_data; lia).
  induction n as [|n IH]; intros ptr s HI Hs Hptr Hn; [lia|]. cbn [receive_loop].
  destruct (decide (ptr + sizeof_announcement_data <= 128)) as [Hle|Hgt].
  - erewrite bind_Ok.
    2:{ apply on_net_load; [exact update_f|]. rewrite Hs. apply pb_load_ok; lia. }
    destruct (data_of_bytes _) as [id v]. rewrite (bind_Ok _ _ _ PENDING s) by done.
    destruct (Hh from id v sync PENDING s HI Hs) as (s' & E & HI' & Hs'). rewrite (bind_Ok _ _ _ _ _ E).
    apply IH; [done|done|lia|]. rewrite Nat2Z.inj_succ in Hn. lia.
  - apply bind_Err. unfold on_net, zoom at 1. rewrite on_packetbuf_run, Hs. unfold pb_load.
    rewrite (proj2 (Z.leb_gt (ptr + _) _)) by lia. by rewrite andb_false_r.
Qed.

(** C37. The check of the receiver does not keep it inside the packet.  The length
    it computes from the number of announcements is reduced modulo 2^16; whenever
    the reduced length passes the check but the announcements themselves do not fit
    in the packet buffer, the receiver reads past the end of the buffer. *)
Theorem adv_packet_received_overruns I num from s (p := pbuf (f s)) :
  pb_wf p -> I s -> hears_all I p -> 0 <= num < 2 ^ 16 ->
  take 2 (pb_payload p) = le_bytes 2 num ->
  (announcement_datalength num +16 sizeof_timesync_frame) <= buflen p ->
  bufptr p + hdrlen p + announcement_datalength num + sizeof_timesync_frame <= PACKETBUF_SIZE ->
  PACKETBUF_SIZE < bufptr p + hdrlen p + 2 + sizeof_announcement_data * num ->
  adv_packet_received f call (mret PENDING) from s = Err FWild.
Proof.
  intros Hw HI Hh Hn Hnum Hcheck Hframe Hover. assert (Hh' : (bufptr p +8 hdrlen p) = bufptr p + hdrlen p)
    by (by apply hdrlen_u8).
  assert (Hwf := Hw). destruct Hw as [Hsize Hhdr Hptr Hbl Htot]. unfold PACKETBUF_SIZE in *.
  assert (Hts : 18 <= sizeof_timesync_frame) by (unfold sizeof_timesync_frame; lia).
  assert (Hdl : 0 <= announcement_datalength num) by (apply u16_range).
  unfold adv_packet_received.
  erewrite bind_Ok.
  2:{ apply on_net_ok; [exact update_f|]. rewrite on_packetbuf_run.
      unfold packetbuf_dataptr, packetbuf_hdrlen, gets. rewrite with_same. fold p. rewrite Hh'. reflexivity. }
  assert (Hb2 : 2 <= buflen p).
  { pose proof (pb_payload_length p Hwf) as Hpl. apply (f_equal length) in Hnum.
    rewrite le_bytes_length, length_take in Hnum. lia. }
  erewrite bind_Ok.
  2:{ apply on_net_load; [exact update_f|]. fold p. apply pb_load_ok; lia. }
  assert (take 2 (drop (Z.to_nat (bufptr p + hdrlen p)) (packetbuf p)) = le_bytes 2 num) as ->.
  { rewrite <- Hnum. unfold pb_payload. rewrite take_take. f_equal. lia. }
  rewrite le_int_bytes by (simpl in *; lia).
  erewrite bind_Ok.
  2:{ apply on_net_load; [exact update_f|]. fold p. apply pb_load_ok; lia. }
  erewrite bind_Ok.
  2:{ apply on_net_ok; [exact update_f|]. rewrite on_packetbuf_run. unfold packetbuf_datalen, gets.
      by rewrite with_same. }
  fold p. rewrite (proj2 (Z.ltb_ge _ _)) by lia.
  apply (receive_loop_overrun I p); [done|done|done|done|unfold PACKETBUF_SIZE, ANNOUNCEMENT_MSG_HEADERLEN; lia|].
  unfold PACKETBUF_SIZE, ANNOUNCEMENT_MSG_HEADERLEN. rewrite Z2Nat.id by lia. lia.
Qed.
End overrun.

(** A packet of 30 bytes that claims 3641 announcements. *)
Definition overrun_example : node :=
  let s := node_boot (DF := binary32) 44 [] (fun _ => 0) (fun _ => 1) in
  s <| net ::= with_pbuf (mk_packetbuf ([57; 14] ++ replicate 126 0) 30 0 0
         (replicate PACKETBUF_NUM_ATTRS 0) (replicate PACKETBUF_NUM_ADDRS 0)) |>.

Lemma adv_packet_received_overruns_witness :
  adv_packet_received (DF := binary32) net (fun _ _ _ _ _ _ _ => skip) (mret PENDING) 78 overrun_example
  = Err FWild.
Proof.
  apply (adv_packet_received_overruns (DF := binary32)) with
    (num := 3641) (I := fun s => announcements (ann (net s)) = []).
  - intros s. by destruct s as [[]].
  - split; vm_compute; congruence || done.
  - done.
  - intros from id v sync e s Hs Hp. exists s. split; [|done].
    unfold heard, announcement_heard, mbind, M_bind, on_net, zoom, announcement_list, gets.
    cbv beta iota. rewrite Hs. destruct s as [[? [] ? ? ? ? ? ? ? ? ? ?]]. cbn in *. by subst.
  - done.
  - done.
  - by vm_compute.
  - by vm_compute.
  - by vm_compute.
Defined.

(** ** The packet the polite announcer holds back *)

Section holding.
Context {DF : DoubleFormat} {F CB : Type}.
Local Abbreviation St := (net_st F CB).
Implicit Types (st : St).

(** A packet held back is in a queue buffer in use, and it is held back exactly
    while the timer runs. *)
Record held_wf st : Prop := {
  held_bits : pool_bits (bufmem (queue st));
  held_blocks : pool_wf (bufmem (queue st));
  held_used q : ip_q (ip st) = Some q -> pool_used (bufmem (queue st)) q;
}.
Definition hold_wf st : Prop :=
  held_wf st /\ (is_Some (ip_t (ip st)) <-> is_Some (ip_q (ip st))).

(** A queue buffer of someone else. *)
Definition others st (b : nat) : Prop := pool_used (bufmem (queue st)) b /\ ip_q (ip st) <> Some b.

Inductive ip_call :=
  | IpSend (interval hdrsize syncframe : Z)
  | IpCancel
  | IpClose
  | IpTimer
  | IpRecv.
Definition ip_exec (c : ip_call) : M St Z :=
  match c with
  | IpSend interval hdrsize syncframe => ipolite_send interval hdrsize syncframe
  | IpCancel => ipolite_cancel ;; mret 0
  | IpClose => ipolite_close ;; mret 0
  | IpTimer => ipolite_timer ;; mret 0
  | IpRecv =>
      q ← gets (fun st => ip_q (ip st));
      match q with Some q => ipolite_recv_dup q | None => skip end ;; mret 0
  end.

(** The part of the state the invariant is about. *)
Definition hold_view st := (ip_t (ip st), ip_q (ip st), bufmem (queue st)).
Lemma hold_wf_view st st' :
  hold_view st' = hold_view st -> hold_wf st -> hold_wf st' /\ forall b, others st' b <-> others st b.
Proof.
  intros [= E1 E2 E3] [[] ?]. unfold hold_wf, others. rewrite E1, E2, E3.
  split_and!; [split; rewrite ?E2, ?E3; done|done|done].
Qed.

(** Operations that leave that part alone. *)
Local Abbreviation keeps := (post (same hold_view)).
Lemma keeps_packetbuf {A} (m : M packetbuf_st A) : keeps (on_packetbuf (F := F) (CB := CB) m).
Proof. intros st a st'. rewrite on_packetbuf_run. destruct (m _) as [[]|]; [|done]. by intros [= _ <-]. Qed.
Lemma keeps_clock {A} (m : M (rtimer_st F) A) : keeps (zoom (clock (CB := CB)) m).
Proof. intros st a st'. unfold zoom. destruct (m _) as [[]|]; [|done]. by intros [= _ <-]. Qed.
Lemma keeps_upd_pa g : keeps (upd_pa (F := F) (CB := CB) g).
Proof. apply post_modify. done. Qed.
Lemma keeps_rime_output c : keeps (rime_output (F := F) (CB := CB) c).
Proof. intros st a st'. unfold rime_output. by destruct (c_true _); intros [= _ <-]. Qed.
Lemma keeps_stamp_and_send c i : keeps (stamp_and_send (F := F) (CB := CB) c i).
Proof.
  unfold stamp_and_send, sync_send, broadcast_send, abc_send.
  post_auto; first [apply keeps_packetbuf|apply keeps_clock|apply keeps_rime_output].
Qed.
Lemma keeps_to_packetbuf q : keeps (zoom (queue (F := F) (CB := CB)) (queuebuf_to_packetbuf q)).
Proof.
  assert (H : post (same bufmem) (queuebuf_to_packetbuf q)).
  { assert (Hz : forall A (m : M packetbuf_st A), post (same bufmem) (zoom qu_packetbuf m)).
    { intros A m st a st'. unfold zoom. destruct (m _) as [[]|]; [|done]. by intros [= _ <-]. }
    unfold queuebuf_to_packetbuf. repeat (apply post_bind; [exact _| |intros]); try apply Hz.
    - intros st a st'. unfold queuebuf_load_to_ram. case_match; [|done]. by intros [= _ <-].
    - intros st a' st'. unfold ram_block. case_match; [|done]. by intros [= _ <-]. }
  intros st a st'. unfold zoom. destruct (queuebuf_to_packetbuf q (queue st)) as [[x t]|] eqn:E; [|done].
  intros [= _ <-]. apply H in E. unfold same, hold_view in *. rsimpl. by rewrite E.
Qed.

(** Freeing the packet held back. *)
Lemma free_q_wf q st :
  held_wf st -> ip_q (ip st) = Some q ->
  exists st', ipolite_free_q q st = Ok (tt, st') /\ held_wf st' /\ ip_q (ip st') = None /\
    (forall b, others st' b <-> others st b) /\
    st' <| queue := queue st |> <| ip := ip st |> = st /\ ip_t (ip st') = ip_t (ip st) /\
    pbuf st' = pbuf st.
Proof.
  intros [] Hq. pose proof (held_used0 q Hq) as Hu. destruct Hu as (c & Hc & Hn).
  destruct (lookup_lt_is_Some_2 (pl_blocks (bufmem (queue st))) q) as [r Hr].
  { rewrite <- held_blocks0. by eapply lookup_lt_Some. }
  destruct (pool_free_spec (bufmem (queue st)) q held_bits0) as (Hb & Hf & Ho).
  eexists. split; [|split_and!].
  - unfold ipolite_free_q. erewrite bind_Ok; [reflexivity|].
    unfold zoom, queuebuf_free, queuebuf_load_to_ram, mbind, M_bind. rewrite Hr. reflexivity.
  - split; rsimpl; [exact Hb| |done].
    unfold pool_wf, pool_free. rsimpl. rewrite length_alter. exact held_blocks0.
  - done.
  - intros b. unfold others. rsimpl. rewrite Hq. destruct (decide (b = q)) as [->|Hne].
    + split; [by intros [? _]|]. intros [_ ?]. done.
    + rewrite (Ho b Hne). split; intros [? ?]; (split; [done|congruence]).
  - by destruct st.
  - done.
  - done.
Qed.

(** Queueing the packet buffer. *)
Lemma new_q_wf st o st' :
  pool_bits (bufmem (queue st)) -> pool_wf (bufmem (queue st)) ->
  zoom queue queuebuf_new_from_packetbuf st = Ok (o, st') ->
  pool_bits (bufmem (queue st')) /\ pool_wf (bufmem (queue st')) /\ ip st' = ip st /\
  match o with
  | Some b => ~ pool_used (bufmem (queue st)) b /\ pool_used (bufmem (queue st')) b /\
      forall j, j <> b -> pool_used (bufmem (queue st')) j <-> pool_used (bufmem (queue st)) j
  | None => forall j, pool_used (bufmem (queue st')) j <-> pool_used (bufmem (queue st)) j
  end.
Proof.
  intros Hb Hw. unfold zoom. destruct (queuebuf_new_from_packetbuf (queue st)) as [[o' t]|] eqn:E; [|done].
  intros [= -> <-]. rsimpl. unfold queuebuf_new_from_packetbuf in E.
  apply bind_inv in E as (ob & s1 & E1 & E). unfold bufmem_alloc in E1.
  destruct (pool_alloc (bufmem (queue st))) as [i p1] eqn:Ea. injection E1 as <- <-.
  pose proof (pool_alloc_bits _ _ _ Ea Hb) as Hb1.
  destruct i as [b|].
  2:{ apply pool_alloc_None in Ea as [-> _]. injection E as <- <-. rsimpl. by split_and!. }
  assert (Hw1 : pool_wf p1).
  { apply pool_alloc_Some in Ea as Ha'. destruct Ha' as (_ & _ & _ & Hbl & _). unfold pool_wf in *.
    rewrite Hbl, <- Hw. unfold pool_alloc in Ea. destruct find_free; [|done]. injection Ea as -> <-.
    rsimpl. apply length_alter. }
  apply pool_alloc_Some in Ea as (Hn & Hu & Hi & Hbl & Ho).
  apply bind_inv in E as (orr & s2 & E2 & E). unfold buframmem_alloc in E2. rsimpl.
  destruct (pool_alloc (buframmem (queue st))) as [i2 p2]. injection E2 as <- <-.
  rewrite bind_modify in E. destruct i2 as [r|].
  - apply bind_inv in E as ([] & s3 & E3 & E). injection E as <- <-.
    assert (Hs3 : bufmem s3 = p1 <| pl_blocks ::= <[b := default 0%nat (Some r)]> |>).
    { unfold store_packet in E3. apply bind_inv in E3 as ([data len] & s4 & E4 & E3).
      apply bind_inv in E3 as ([attrs addrs] & s5 & E5 & E3). injection E3 as <-. rsimpl.
      unfold zoom in E4, E5. repeat case_match; simplify_eq. done. }
    rewrite Hs3. split_and!; [exact Hb1| |done|done|exact Hu|exact Ho].
    unfold pool_wf in *. rsimpl. by rewrite length_insert.
  - rewrite bind_modify in E. injection E as <- <-. rsimpl.
    set (p := p1 <| pl_blocks ::= _ |>).
    destruct (pool_free_spec p b Hb1) as (Hb2 & Hf & Ho2). split_and!; [exact Hb2| |done|].
    + unfold pool_wf, pool_free, p in *. rsimpl. by rewrite length_alter, length_insert.
    + intros j. destruct (decide (j = b)) as [->|Hne]; [by split|].
      rewrite (Ho2 j Hne). by apply Ho.
Qed.

(** Dropping the packet held back, the timer being stopped. *)
Lemma stop_ok st :
  held_wf st -> ip_t (ip st) = None ->
  exists st', (q ← gets (fun st => ip_q (ip st));
               match q with Some q => ipolite_free_q q | None => skip end) st = Ok (tt, st') /\
    hold_wf st' /\ ip_q (ip st') = None /\ forall b, others st' b <-> others st b.
Proof.
  intros H Ht. rewrite bind_gets. destruct (ip_q (ip st)) as [q|] eqn:Eq.
  - destruct (free_q_wf q st H Eq) as (st' & E & Hw & Hq & Ho & _ & Ht' & _).
    exists st'. split_and!; [done| |done|done]. split; [done|]. rewrite Ht', Ht, Hq. by split; intros [? ?].
  - exists st. split_and!; [done| |done|done]. split; [done|]. rewrite Ht, Eq. by split; intros [? ?].
Qed.

Lemma send_wf interval hdrsize syncframe st r st' :
  hold_wf st -> ipolite_send interval hdrsize syncframe st = Ok (r, st') ->
  hold_wf st' /\ forall b, others st' b <-> others st b.
Proof.
  intros H E. unfold ipolite_send in E.
  rewrite bind_gets in E. apply bind_inv in E as ([] & st1 & E1 & E).
  assert (H1 : hold_wf st1 /\ ip_q (ip st1) = None /\ forall b, others st1 b <-> others st b).
  { destruct (ip_q (ip st)) as [q|] eqn:Eq.
    - destruct (free_q_wf q st (proj1 H) Eq) as (st2 & E2 & Hw & Hq & Ho & _).
      rewrite (bind_Ok _ _ _ _ _ E2) in E1. injection E1 as <-. split_and!; [|done|done].
      split; [destruct Hw; by split|]. rsimpl. rewrite Hq. by split; intros [? ?].
    - injection E1 as <-. by rewrite Eq. }
  destruct H1 as (H1 & Hq1 & Ho1). unfold upd_ip in E. rewrite bind_modify in E.
  set (st2 := update ip _ st1) in E.
  destruct (hold_wf_view st1 st2 eq_refl H1) as [H2 Ho2].
  destruct (interval =? 0).
  - apply bind_inv in E as (x & st3 & E3 & E). injection E as _ <-.
    apply keeps_stamp_and_send in E3. destruct (hold_wf_view _ _ E3 H2) as [H3 Ho3].
    split; [done|]. intros b. by rewrite Ho3, Ho2, Ho1.
  - apply bind_inv in E as (o & st3 & E3 & E). rewrite bind_modify in E.
    destruct (new_q_wf st2 o st3) as (Hb & Hw & Hip & Ho); [apply H2|apply H2|exact E3|].
    assert (Hq2 : ip_q (ip st2) = None) by done.
    destruct o as [q|].
    + rewrite bind_modify in E. apply bind_inv in E as (x & st4 & E4 & E). injection E4 as <- <-.
      rewrite bind_modify in E. injection E as _ <-. destruct Ho as (Hn & Hu & Ho). split.
      * split; [split; rsimpl; [done|done|by intros ? [= <-]]|]. rsimpl. split; by intros _.
      * intros b. rewrite <- Ho1. unfold others. rsimpl. rewrite Hq1.
        destruct (decide (b = q)) as [->|Hne]; [by split; intros [? ?]|].
        rewrite (Ho b Hne). split; intros [? ?]; (split; [done|congruence]).
    + injection E as _ <-. split.
      * split; [by split|]. rsimpl. rewrite Hip. destruct H2 as [_ Ht]. rewrite Hq2 in Ht. exact Ht.
      * intros b. rewrite <- Ho1. unfold others. rsimpl. rewrite Hq1. by rewrite Ho.
Qed.

Lemma timer_wf st st' :
  hold_wf st -> ipolite_timer st = Ok (tt, st') -> hold_wf st' /\ forall b, others st' b <-> others st b.
Proof.
  intros [H Ht] E. unfold ipolite_timer, upd_ip in E. rewrite bind_modify, bind_gets in E.
  set (st1 := update ip _ st) in E. change (ip_q (ip st1)) with (ip_q (ip st)) in E.
  destruct (ip_q (ip st)) as [q|] eqn:Eq.
  - apply bind_inv in E as ([] & st2 & E2 & E). apply bind_inv in E as ([] & st3 & E3 & E).
    rewrite bind_gets in E. apply bind_inv in E as (x & st4 & E4 & E). injection E as <-.
    apply keeps_to_packetbuf in E2. unfold same, hold_view in E2.
    injection E2 as Et2 Eq2 Em2. rsimpl. rewrite Eq in Eq2.
    destruct (free_q_wf q st2) as (st3' & E3' & Hw & Hq & Ho & _ & Ht3 & _); [|done|].
    { destruct H. split; rewrite ?Em2; [done|done|]. intros q'. rewrite Eq2. intros [= <-]. by apply held_used0. }
    rewrite E3' in E3. injection E3 as <-. apply keeps_stamp_and_send in E4.
    destruct (hold_wf_view _ _ E4) as [H4 Ho4].
    { split; [done|]. rewrite Ht3, Et2, Hq. by split; intros [? ?]. }
    split; [done|]. intros b. rewrite Ho4, Ho. unfold others. by rewrite Eq2, Em2, Eq.
  - injection E as <-. split; [|done]. split; [by destruct H; split|]. unfold st1. rsimpl. rewrite Eq.
    by split; intros [? ?].
Qed.

Lemma recv_wf st st' :
  hold_wf st ->
  (q ← gets (fun st => ip_q (ip st));
   match q with Some q => ipolite_recv_dup q | None => skip end) st = Ok (tt, st') ->
  hold_wf st' /\ forall b, others st' b <-> others st b.
Proof.
  intros H E. rewrite bind_gets in E. destruct (ip_q (ip st)) as [q|] eqn:Eq; [|by injection E as <-].
  assert (Hz : forall A (m : M queue_st A), post (same bufmem) m -> post (same hold_view) (zoom (queue (F := F) (CB := CB)) m)).
  { intros A m Hm s a s'. unfold zoom. destruct (m (queue s)) as [[x t]|] eqn:Em; [|done].
    intros [= _ <-]. apply Hm in Em. unfold same, hold_view in *. rsimpl. by rewrite Em. }
  assert (Hl : post (same bufmem) (queuebuf_datalen q) /\ post (same bufmem) (queuebuf_dataptr q)).
  { assert (Hr : forall b, post (same bufmem) (queuebuf_load_to_ram b)).
    { intros b s a s'. unfold queuebuf_load_to_ram. case_match; [|done]. by intros [= _ <-]. }
    assert (Hd : forall b, post (same bufmem) (ram_block b)).
    { intros b s a s'. unfold ram_block. case_match; [|done]. by intros [= _ <-]. }
    split; (apply post_bind; [exact _|apply Hr|]); intros r; (apply post_bind; [exact _|apply Hd|]);
      intros d; apply post_ret, _. }
  unfold ipolite_recv_dup in E.
  apply bind_inv in E as (len & s1 & E1 & E). apply keeps_packetbuf in E1.
  apply bind_inv in E as (qlen & s2 & E2 & E). apply (Hz _ _ (proj1 Hl)) in E2.
  destruct (negb _).
  { injection E as <-. apply hold_wf_view; [|done]. unfold same in *. congruence. }
  rewrite bind_gets in E.
  apply bind_inv in E as (d & s3 & E3 & E). apply keeps_packetbuf in E3.
  apply bind_inv in E as (mine & s4 & E4 & E). apply keeps_packetbuf in E4.
  apply bind_inv in E as (qdata & s5 & E5 & E). apply (Hz _ _ (proj2 Hl)) in E5.
  unfold same in *. assert (Hv : hold_view s5 = hold_view st) by congruence. clear E1 E2 E3 E4 E5.
  unfold when in E. destruct (bool_decide _); [|injection E as <-; by apply hold_wf_view].
  unfold upd_ip in E. rewrite bind_modify, bind_gets in E. set (s6 := update ip _ s5) in E.
  destruct (hold_wf_view st s6) as [H6 Ho6]; [exact Hv|done|].
  destruct (ip_maxdups (ip s6) <=? ip_dups (ip s6)); [|injection E as <-; done].
  assert (Eq6 : ip_q (ip s5) = Some q) by (injection Hv as _ Hv2 _; congruence).
  destruct (free_q_wf q s6 (proj1 H6) Eq6) as (s7 & E7 & Hw7 & Hq7 & Ho7 & _).
  rewrite (bind_Ok _ _ _ _ _ E7), bind_modify in E. injection E as <-.
  split; [|intros b; by rewrite <- Ho6, <- Ho7].
  split; [by destruct Hw7; split|]. rsimpl. rewrite Hq7. by split; intros [? ?].
Qed.

(** C38. The polite announcer holds back at most one packet, and loses no queue
    buffer: every call keeps the timer running exactly while a packet is held back
    in a queue buffer in use, and leaves the queue buffers of others in use or
    free as they were.  Cancelling and closing always return, with nothing held
    back. *)
Theorem ipolite_holds_one c st :
  hold_wf st ->
  (forall r st', ip_exec c st = Ok (r, st') ->
     hold_wf st' /\ forall b, others st' b <-> others st b) /\
  match c with
  | IpCancel | IpClose => exists st', ip_exec c st = Ok (0, st') /\ ip_q (ip st') = None
  | _ => True
  end.
Proof.
  intros H. destruct c as [interval hdrsize syncframe| | | |]; cbn [ip_exec].
  - split; [|done]. intros r st' E. by eapply send_wf.
  - destruct (stop_ok (st <| ip ::= fun c => c <| ip_t := None |> |>)) as (st' & E & Hw & Hq & Ho);
      [by destruct H as [[] _]; split|done|].
    assert (E' : (ipolite_cancel ;; mret 0) st = Ok (0, st')).
    { erewrite bind_Ok; [reflexivity|]. unfold ipolite_cancel, upd_ip. rewrite bind_modify. exact E. }
    split; [|by exists st']. intros r st1. rewrite E'. by intros [= <- <-].
  - destruct (stop_ok (st <| channel_list ::= seq_remove CONN_POLITE |>
        <| ip ::= fun c => c <| ip_t := None |> |>)) as (st' & E & Hw & Hq & Ho);
      [by destruct H as [[] _]; split|done|].
    assert (E' : (ipolite_close ;; mret 0) st = Ok (0, st')).
    { erewrite bind_Ok; [reflexivity|]. unfold ipolite_close, upd_ip, broadcast_close, channel_close.
      rewrite !bind_modify. exact E. }
    split; [|by exists st']. intros r st1. rewrite E'. by intros [= <- <-].
  - split; [|done]. intros r st' E. apply bind_inv in E as ([] & st1 & E & [= <- <-]).
    by eapply timer_wf.
  - split; [|done]. intros r st' E. rewrite bind_gets in E.
    apply bind_inv in E as ([] & st1 & E & [= <- <-]). eapply recv_wf; [done|exact E].
Qed.
End holding.

(** A packet held back, and another queue buffer in use. *)
Definition hold_example : net_st callback_t handler_t :=
  travel_example <| ip := mk_ipolite (Some 12) (Some 1%nat) 50 19 20 38 |>
    <| pa := mk_polite 8 PENDING 0 10 |>
    <| queue ::= fun q => q
      <| bufmem := mk_pool [1; 1; 0; 0; 0; 0; 0; 0] [0; 1; 0; 0; 0; 0; 0; 0]%nat |>
      <| buframmem := mk_pool [1; 1; 0; 0; 0; 0; 0; 0]
           ([queuebuf_data_zero; mk_queuebuf_data (replicate 128 7) 64 (replicate 29 0) (replicate 4 0)]
              ++ replicate 6 queuebuf_data_zero) |>
      <| qu_packetbuf := mk_packetbuf (replicate 100 7 ++ replicate 28 9) 64 2 40 (replicate 29 0) (replicate 4 0) |> |>.

Lemma hold_example_wf : hold_wf hold_example.
Proof.
  split; [split|by split; intros _; eexists].
  - unfold pool_bits. cbn. repeat constructor; lia.
  - done.
  - intros q [= <-]. by exists 1.
Qed.

Lemma ipolite_holds_one_witness :
  exists st', ip_exec (DF := binary32) IpCancel hold_example = Ok (0, st') /\ hold_wf st' /\
    ip_q (ip st') = None /\ others st' 0.
Proof.
  destruct (ipolite_holds_one (DF := binary32) IpCancel hold_example hold_example_wf) as [Hr (st' & E & Hq)].
  destruct (Hr _ _ E) as [Hw Ho]. exists st'. split_and!; [done|done|done|].
  apply Ho. split; [by exists 1|done].
Defined.

(** ** Copies heard while a packet is held back *)

Section suppression.
Context {DF : DoubleFormat} {F CB : Type}.
Implicit Types (st : net_st F CB).

(** The packet received is a copy of the one held back: as long, and the same
    before the clock reading. *)
Definition is_copy st (d : queuebuf_data) : bool :=
  let p := pbuf st in
  let n := Z.to_nat (Z.min (ip_hdrsize (ip st)) (buflen p - sizeof_timesync_frame)) in
  (buflen p =? qd_len d) && bool_decide (take n (pb_payload p) = take n (qd_data d)).

(** Suppression.  While a packet is held back, a copy of it is counted, and
    the copy that makes the count reach the limit drops the packet: the queue
    buffer is freed, the timer stopped, and the announcer sees the event.  A packet
    that is no copy changes nothing. *)
Theorem ipolite_recv_dup_spec q r d st :
  hold_wf st -> ip_q (ip st) = Some q -> pl_blocks (bufmem (queue st)) !! q = Some r ->
  pl_blocks (buframmem (queue st)) !! r = Some d -> pb_wf (pbuf st) ->
  sizeof_timesync_frame <= qd_len d -> 0 <= ip_hdrsize (ip st) ->
  exists st', ipolite_recv_dup q st = Ok (tt, st') /\
    if is_copy st d then
      let dups := ip_dups (ip st) +8 1 in
      if ip_maxdups (ip st) <=? dups then
        hold_wf st' /\ ip_q (ip st') = None /\ ip_t (ip st') = None /\ pa_last_event (pa st') = DROPPED /\
        ann st' = ann st /\ sent st' = sent st
      else st' = st <| ip ::= fun c => c <| ip_dups := dups |> |>
    else st' = st.
Proof.
  intros Hw Hq Hr Hd Hp Hts Hh. set (p := pbuf st) in *.
  assert (Hqz : forall A (m : M queue_st A) a, m (queue st) = Ok (a, queue st) ->
    zoom queue m st = Ok (a, st)).
  { intros A m a E. unfold zoom. rewrite E. by destruct st. }
  unfold ipolite_recv_dup, is_copy. fold p.
  rewrite (bind_Ok _ _ _ (buflen p) st).
  2:{ erewrite on_packetbuf_ok by reflexivity. by rewrite with_same. }
  erewrite bind_Ok.
  2:{ apply Hqz. unfold queuebuf_datalen, queuebuf_load_to_ram, ram_block, mbind, M_bind.
      rewrite Hr. rewrite Hd. reflexivity. }
  destruct (Z.eqb_spec (buflen p) (qd_len d)) as [El|El]; cbn [negb andb]; [|by exists st].
  rewrite bind_gets.
  assert (Hdp : (bufptr p +8 hdrlen p) = bufptr p + hdrlen p) by (by apply hdrlen_u8).
  rewrite (bind_Ok _ _ _ (bufptr p + hdrlen p) st).
  2:{ erewrite on_packetbuf_ok by reflexivity. rewrite with_same. fold p. by rewrite Hdp. }
  assert (Hsz : 0 <= sizeof_timesync_frame) by (unfold sizeof_timesync_frame; lia).
  assert (Hb : buflen p <= 128) by (destruct Hp; unfold PACKETBUF_SIZE in *; lia).
  assert (u16 (buflen p - sizeof_timesync_frame) = buflen p - sizeof_timesync_frame) as ->.
  { apply uwrap_small. unfold in_u. change (2 ^ 16) with 65536. lia. }
  set (n := Z.to_nat (Z.min (ip_hdrsize (ip st)) (buflen p - sizeof_timesync_frame))).
  assert (Hn : (n <= Z.to_nat (buflen p))%nat) by (unfold n; lia).
  rewrite (bind_Ok _ _ _ (take n (pb_payload p)) st).
  2:{ rewrite (on_packetbuf_ok _ _ (take n (pb_payload p)) p); [unfold p; by rewrite with_same|].
      fold p. rewrite pb_load_ok; [|destruct Hp; lia|destruct Hp; unfold PACKETBUF_SIZE in *; lia].
      unfold pb_payload. rewrite take_take. do 3 f_equal. lia. }
  erewrite bind_Ok.
  2:{ apply Hqz. unfold queuebuf_dataptr, queuebuf_load_to_ram, ram_block, mbind, M_bind.
      rewrite Hr. rewrite Hd. reflexivity. }
  destruct (bool_decide _); [|by exists st]. unfold when, upd_ip. rewrite bind_modify, bind_gets.
  set (st1 := update ip _ st). change (ip_maxdups (ip st1)) with (ip_maxdups (ip st)).
  change (ip_dups (ip st1)) with (ip_dups (ip st) +8 1).
  destruct (hold_wf_view st st1 eq_refl Hw) as [Hw1 Ho1].
  destruct (ip_maxdups (ip st) <=? (ip_dups (ip st) +8 1)); [|by exists st1].
  destruct (free_q_wf q st1 (proj1 Hw1) Hq) as (st2 & E2 & Hw2 & Hq2 & Ho2 & Hs2 & Ht2 & Hp2).
  rewrite (bind_Ok _ _ _ _ _ E2), bind_modify. eexists. split; [reflexivity|].
  split_and!; [|done|done|done| |].
  - split; [by destruct Hw2; split|]. rsimpl. rewrite Hq2. by split; intros [? ?].
  - by apply (f_equal ann) in Hs2.
  - by apply (f_equal sent) in Hs2.
Qed.
End suppression.

Lemma ipolite_recv_dup_spec_witness :
  exists st', ipolite_recv_dup (DF := binary32) 1 hold_example = Ok (tt, st') /\
    ip_q (ip st') = None /\ pa_last_event (pa st') = DROPPED.
Proof.
  destruct (ipolite_recv_dup_spec (DF := binary32) 1 1
    (mk_queuebuf_data (replicate 128 7) 64 (replicate 29 0) (replicate 4 0)) hold_example)
    as (st' & E & H).
  - exact hold_example_wf.
  - done.
  - done.
  - done.
  - split; vm_compute; congruence || done.
  - by vm_compute.
  - by vm_compute.
  - change (is_copy _ _) with true in H. cbv zeta iota in H.
    change (_ <=? _) with true in H. destruct H as (_ & Hq & _ & He & _). by exists st'.
Defined.

(** ** Cancelling *)

Section cancelling.
Context {DF : DoubleFormat} {F CB : Type}.
Implicit Types (st : net_st F CB).

(** [polite_announcement_cancel] does not end an announcement that is being
    repeated.  It sets the count of copies sent to 255 so that no further copy is
    due, but when the layers below report a copy sent earlier, the count is
    incremented to 0, and the announcement is sent again. *)
Theorem cancelled_is_sent_again st fr c :
  hold_wf st -> sendable st (announcements (ann st)) -> stamps st fr c ->
  published (an_vars (ann st)) (announcements (ann st)) <> [] -> c_true (chameleon st 0%nat) = true ->
  pa_interval (pa st) = 0 -> 0 < pa_max_send_dups (pa st) ->
  exists st' attrs addrs,
    (polite_announcement_cancel ;; packet_sent CONN_POLITE) st = Ok (tt, st') /\
    sent st' = mk_sent CONN_POLITE
      (message (published (an_vars (ann st)) (announcements (ann st))) ++ timesync_bytes fr) attrs addrs
      :: sent st.
Proof.
  intros Hw Hs Hst Hne Hc Hi Hm.
  set (st1 := st <| pa ::= fun c => c <| pa_last_event := PENDING |> <| pa_send_dups := 255 |> |>
                 <| ip ::= fun c => c <| ip_t := None |> |>).
  assert (exists st2, polite_announcement_cancel st = Ok (tt, st2) /\ hold_wf st2 /\
    ip_q (ip st2) = None /\ st2 <| queue := queue st |> <| ip := ip st1 |> = st1 /\ pbuf st2 = pbuf st)
    as (st2 & E2 & Hw2 & Hq2 & Hv2 & Hp2).
  { unfold polite_announcement_cancel, ipolite_cancel, upd_pa, upd_ip.
    rewrite !bind_modify, bind_gets. fold st1. change (ip_q (ip st1)) with (ip_q (ip st)).
    destruct (ip_q (ip st)) as [q|] eqn:Eq.
    - destruct (free_q_wf q st1) as (st2 & E2 & Hw2 & Hq2 & Ho2 & Hv2 & Ht2 & Hp2);
        [by destruct Hw as [[] _]; split|done|].
      exists st2. split_and!; [done| |done|done|by rewrite Hp2].
      split; [done|]. rewrite Ht2, Hq2. by split; intros [? ?].
    - exists st1. split_and!; [done| |done|by destruct st|done].
      split; [by destruct Hw as [[] _]; split|]. change (ip_q (ip st1)) with (ip_q (ip st)).
      rewrite Eq. by split; intros [? ?]. }
  assert (Hpa : pa st2 = pa st1) by (by apply (f_equal pa) in Hv2).
  assert (Ha : ann st2 = ann st) by (by apply (f_equal ann) in Hv2).
  assert (Hcl : clock st2 = clock st) by (by apply (f_equal clock) in Hv2).
  assert (Hch : chameleon st2 = chameleon st) by (by apply (f_equal chameleon) in Hv2).
  assert (Hse : sent st2 = sent st) by (by apply (f_equal sent) in Hv2).
  set (st3 := st2 <| pa ::= fun c => c <| pa_send_dups := 0 |> |>).
  destruct (polite_sends st3 fr c) as (st' & attrs & addrs & E & Hsent);
    [|unfold queue_held; change (ip_q (ip st3)) with (ip_q (ip st2)); by rewrite Hq2| | | |].
  - unfold sendable, st3. rsimpl. rewrite Ha. unfold pbuf in *. rsimpl. by rewrite Hp2.
  - split; [|apply Hst]. unfold st3. rsimpl. rewrite Hcl. apply Hst.
  - unfold st3. rsimpl. by rewrite Ha.
  - unfold st3. rsimpl. by rewrite Hch.
  - exists st', attrs, addrs. split.
    + rewrite (bind_Ok _ _ _ _ _ E2). cbn [packet_sent]. unfold polite_adv_packet_sent, upd_pa.
      rewrite bind_modify, bind_gets.
      assert (st2 <| pa ::= fun c => c <| pa_send_dups ::= fun n => n +8 1 |> |> = st3) as ->.
      { unfold st3. unfold update. rewrite Hpa. done. }
      change (pa_send_dups (pa st3)) with 0. unfold st3 at 1 2. rsimpl. rewrite Hpa.
      change (pa_max_send_dups (pa st1)) with (pa_max_send_dups (pa st)).
      change (pa_interval (pa st1)) with (pa_interval (pa st)).
      rewrite (proj2 (Z.ltb_lt _ _) Hm), Hi. exact E.
    + rewrite Hsent. unfold st3. rsimpl. by rewrite Ha, Hse.
Qed.
End cancelling.

Lemma cancelled_is_sent_again_witness :
  exists st' payload attrs addrs,
    (polite_announcement_cancel ;; packet_sent (DF := binary32) CONN_POLITE)
      (hold_example <| pa := mk_polite 0 PENDING 3 10 |>) = Ok (tt, st') /\
    sent st' = [mk_sent CONN_POLITE payload attrs addrs].
Proof.
  set (st := hold_example <| pa := _ |>).
  destruct (rtimer_sync_send (DF := binary32) (clock travel_example)) as [[fr c]|] eqn:Ef; [|done].
  destruct (cancelled_is_sent_again (DF := binary32) st fr c) as (st' & attrs & addrs & E & Hs).
  - apply (hold_wf_view hold_example); [done|exact hold_example_wf].
  - split; [done|]. split; [split; [by repeat constructor|exact travel_values_ok]|by vm_compute].
  - split; [exact Ef|]. vm_compute in Ef. injection Ef as <- _. split; simpl; (lia || by vm_compute).
  - done.
  - done.
  - done.
  - done.
  - exists st'. eexists _, attrs, addrs. split; [exact E|exact Hs].
Defined.
