(* ===== verification/GtspFacts.v ===== *)
(** * GtspFacts: when gtsp_update_rtimer follows the neighbours

    The search for the majority of the coarse differences never gives a result: a
    node that has more neighbours at another coarse count than at its own reads
    through a null pointer.  Otherwise the node moves by the average of the fine
    differences of the close neighbours, and the table of neighbours follows. *)
From stdpp Require Import numbers option sets list.
From S2P Require Import Prelude Memb CDouble Rtimer Packetbuf Announcement Announcers CSync Gtsp.

Section gtsp_facts.
Context {DF : DoubleFormat}.
Implicit Types (s : node) (n : neighbour) (g : sums).

Definition blocks s : list neighbour := pl_blocks (neighbour_memb s).
Definition view s (l : list nat) : list neighbour := omap (fun i => blocks s !! i) l.
Definition listed s (l : list nat) : Prop := NoDup l /\ Forall (fun i => i < length (blocks s))%nat l.

(** ** The first loop *)

(** The neighbours in the state of the node count. *)
Definition peer (st : state_t) n : bool := n_state n =? state_val st.
Definition near n : bool := in_jump (fine_diff n).

Definition count_coarse n g : sums :=
  if coarse_diff n =? 0 then g <| coarse_synced_count ::= fun c => c +8 1 |>
  else g <| coarse_diff_count ::= fun c => c +8 1 |>.
Definition count_fine n g : sums :=
  if near n then g <| fine_synced_offset ::= fun o => s32 (o + fine_diff n) |>
                   <| gs_avg_rate ::= fun r => d_add r (relative_rate n) |>
                   <| fine_synced_count ::= fun c => c +8 1 |>
  else g <| fine_diff_count ::= fun c => c +8 1 |>.

Fixpoint tally (st : state_t) (ns : list neighbour) g : option sums :=
  match ns with
  | [] => Some g
  | n :: ns' =>
      if peer st n then
        let g1 := count_coarse n g in
        if coarse_synced_count g1 <? coarse_diff_count g1 then None
        else tally st ns' (count_fine n g1)
      else tally st ns' g
  end.

(** The loop also marks the neighbours it has looked at. *)
Definition mark (st : state_t) n : neighbour :=
  if peer st n then n <| n_synced := if near n then 1 else 0 |> else n.
Definition alter_all (f : neighbour -> neighbour) (l : list nat) s : node :=
  s <| neighbour_memb ::= fun p => p <| pl_blocks ::= fun b => fold_left (fun b i => alter f i b) l b |> |>.

Lemma alter_all_nil f s : alter_all f [] s = s.
Proof. unfold alter_all, update. cbn. by destruct s as [? ? ? ? ? ? ? ? ? ? ? ? ? ? ? ? ? ? []]. Qed.

Lemma listed_lookup s i l : listed s (i :: l) -> exists n, blocks s !! i = Some n /\ i ∉ l /\ listed s l.
Proof.
  intros [Hn Hl]. apply NoDup_cons in Hn as [Hi Hn]. apply Forall_cons in Hl as [Hil Hl].
  apply lookup_lt_is_Some_2 in Hil as [n Hx]. by exists n.
Qed.

Lemma view_cons s i l n : blocks s !! i = Some n -> view s (i :: l) = n :: view s l.
Proof. intros H. unfold view. cbn. by rewrite H. Qed.

Lemma view_alter_out s f i l :
  i ∉ l -> view (s <| neighbour_memb ::= fun p => p <| pl_blocks ::= alter f i |> |>) l = view s l.
Proof.
  intros Hi. unfold view, blocks. rsimpl. induction l as [|j l IH]; [done|].
  apply not_elem_of_cons in Hi as [Hne Hi]. cbn. rewrite list_lookup_alter_ne by done. by rewrite IH.
Qed.

Lemma listed_alter s f i l :
  listed s l -> listed (s <| neighbour_memb ::= fun p => p <| pl_blocks ::= alter f i |> |>) l.
Proof. intros [Hn Hl]. split; [done|]. unfold blocks. rsimpl. by setoid_rewrite length_alter. Qed.

Lemma sum_loop_spec all l g s :
  listed s l ->
  sum_loop all l g s =
    match tally (my_state s) (view s l) g with
    | Some g' => Ok (g', alter_all (mark (my_state s)) l s)
    | None => Err FNull
    end.
Proof.
  revert g s. induction l as [|i l IH]; intros g s Hl.
  { cbn. by rewrite alter_all_nil. }
  destruct (listed_lookup _ _ _ Hl) as (n & Hx & Hi & Hl').
  rewrite (view_cons _ _ _ _ Hx). cbn [sum_loop tally].
  assert (Hget : forall s', blocks s' !! i = Some n -> get_neighbour i s' = Ok (n, s')).
  { intros s' H. unfold get_neighbour. unfold blocks in H. by rewrite H. }
  rewrite (bind_Ok _ _ _ _ _ (Hget s Hx)), bind_gets.
  fold (peer (my_state s) n). destruct (peer (my_state s) n) eqn:Ep; cbn [negb].
  2:{ rewrite IH by done. destruct (tally _ _ _); [|done]. do 2 f_equal.
      unfold alter_all, update. cbn [fold_left]. do 4 f_equal. unfold blocks in Hx.
      rewrite (alter_insert _ _ _ _ Hx). unfold mark. rewrite Ep. by rewrite list_insert_id. }
  fold (count_coarse n g). set (g1 := count_coarse n g).
  destruct (coarse_synced_count g1 <? coarse_diff_count g1); [done|].
  rewrite (bind_Ok _ _ _ (Some i, g1) s) by done. cbv beta iota.
  rewrite (bind_Ok _ _ _ i s) by done. rewrite (bind_Ok _ _ _ _ _ (Hget s Hx)).
  assert (Hmark : forall v, (if near n then 1 else 0) = v ->
    alter_all (mark (my_state s)) (i :: l) s =
    alter_all (mark (my_state s)) l
      (s <| neighbour_memb ::= fun p => p <| pl_blocks ::= alter (fun n => n <| n_synced := v |>) i |> |>)).
  { intros v <-. unfold alter_all, update. cbn [fold_left]. do 4 f_equal. unfold blocks in Hx.
    rewrite !(alter_insert _ _ _ _ Hx). unfold mark. by rewrite Ep. }
  unfold count_fine, upd_neighbour. fold (near n). destruct (near n); cbv iota;
    (rewrite bind_modify, IH by (by apply listed_alter));
    rewrite (view_alter_out _ _ _ _ Hi); (destruct (tally _ _ _); [|done]);
    by rewrite (Hmark _ eq_refl).
Qed.

(** Some time in the loop, more peers had another coarse count than the own one. *)
Definition ahead (st : state_t) (ns : list neighbour) (c d : Z) : Prop :=
  exists k, let ps := take k (filter (fun n => peer st n = true) ns) in
    c + Z.of_nat (length (filter (fun n => coarse_diff n = 0) ps))
    < d + Z.of_nat (length (filter (fun n => coarse_diff n <> 0) ps)).
Definition outvoted (st : state_t) (ns : list neighbour) : Prop := ahead st ns 0 0.

Lemma tally_ahead st ns g :
  0 <= coarse_diff_count g <= coarse_synced_count g ->
  coarse_synced_count g + Z.of_nat (length ns) < 256 ->
  tally st ns g = None <-> ahead st ns (coarse_synced_count g) (coarse_diff_count g).
Proof.
  revert g. induction ns as [|n ns IH]; intros g Hg Hl; cbn [tally length] in *.
  { split; [done|]. intros (k & Hk). destruct k; cbn in Hk; lia. }
  unfold ahead. destruct (peer st n) eqn:Ep.
  2:{ rewrite filter_cons_False by (by rewrite Ep). apply IH; lia. }
  rewrite filter_cons_True by (by rewrite Ep). set (g1 := count_coarse n g).
  assert (Hg1 : forall ps,
    coarse_synced_count g + Z.of_nat (length (filter (fun n => coarse_diff n = 0) (n :: ps)))
    = coarse_synced_count g1 + Z.of_nat (length (filter (fun n => coarse_diff n = 0) ps)) /\
    coarse_diff_count g + Z.of_nat (length (filter (fun n => coarse_diff n <> 0) (n :: ps)))
    = coarse_diff_count g1 + Z.of_nat (length (filter (fun n => coarse_diff n <> 0) ps))).
  { intros ps. unfold g1, count_coarse. rewrite !filter_cons.
    destruct (Z.eqb_spec (coarse_diff n) 0) as [E|E].
    - rewrite decide_True, decide_False by lia. rsimpl. cbn [length].
      rewrite uwrap_small by (split; simpl; lia). lia.
    - rewrite decide_False, decide_True by lia. rsimpl. cbn [length].
      rewrite uwrap_small by (split; simpl; lia). lia. }
  destruct (Z.ltb_spec (coarse_synced_count g1) (coarse_diff_count g1)) as [Hlt|Hge].
  - split; [intros _|done]. exists 1%nat. cbn [take]. rewrite take_0.
    destruct (Hg1 []) as [-> ->]. cbn. lia.
  - assert (Hc : coarse_synced_count (count_fine n g1) = coarse_synced_count g1 /\
                 coarse_diff_count (count_fine n g1) = coarse_diff_count g1).
    { unfold count_fine. by destruct (near n). }
    destruct Hc as [Hc1 Hc2].
    assert (Hb : 0 <= coarse_diff_count g1 /\
      coarse_synced_count g1 + Z.of_nat (length ns) < 256).
    { clear -Hg Hl. unfold g1, count_coarse.
      destruct (coarse_diff n =? 0); rsimpl; rewrite ?uwrap_small by (split; simpl; lia); lia. }
    rewrite IH by (rewrite ?Hc1, ?Hc2; lia). rewrite Hc1, Hc2. unfold ahead. split.
    + intros [k Hk]. exists (S k). cbn [take]. destruct (Hg1 (take k (filter (fun n => peer st n = true) ns))) as [-> ->].
      exact Hk.
    + intros [[|k] Hk].
      * rewrite take_0 in Hk. cbn in Hk. lia.
      * exists k. cbn [take] in Hk.
        destruct (Hg1 (take k (filter (fun n => peer st n = true) ns))) as [E3 E4]. rewrite E3, E4 in Hk. exact Hk.
Qed.

Definition sums_zero (rate : double) : sums := mk_sums rate 0 0 0 0 0 0.

(** A node never moves its coarse count to that of its neighbours.  If at some
    point of the loop over the neighbours in its state more of them have another
    coarse count than have the own one, the program reads through a null pointer. *)
Theorem gtsp_outvoted_faults l s :
  listed s l -> (length l < 256)%nat -> outvoted (my_state s) (view s l) ->
  gtsp_update_rtimer l s = Err FNull.
Proof.
  intros Hl Hlen Ho. unfold gtsp_update_rtimer.
  rewrite (bind_Ok _ _ _ (avg_rate (clock (net s))) s).
  2:{ unfold on_clock, zoom, rtimer_avg_rate, gets. by destruct s as [[]]. }
  apply bind_Err. rewrite sum_loop_spec by done. fold (sums_zero (avg_rate (clock (net s)))).
  assert (Hv : (length (view s l) <= length l)%nat).
  { unfold view. clear. induction l as [|i l IH]; [done|]. cbn. destruct (_ !! i); cbn; lia. }
  rewrite (proj2 (tally_ahead (my_state s) (view s l) (sums_zero (avg_rate (clock (net s)))) ltac:(cbn; lia) ltac:(cbn; lia)) Ho).
  done.
Qed.

(** ** The normal case *)

Definition close_peers (st : state_t) (ns : list neighbour) : list neighbour :=
  filter (fun n => peer st n = true /\ near n = true) ns.
Definition far_peers (st : state_t) (ns : list neighbour) : list neighbour :=
  filter (fun n => peer st n = true /\ near n = false) ns.
Definition sum_fine (ns : list neighbour) : Z := fold_right Z.add 0 (map fine_diff ns).
Definition sum_rate (rate : double) (ns : list neighbour) : double :=
  fold_left (fun r n => d_add r (relative_rate n)) ns rate.

Lemma near_bound n : near n = true -> - 100 < fine_diff n < 100.
Proof.
  unfold near, in_jump, GTSP_JUMP_THRESHOLD. intros [H1%Z.ltb_lt H2%Z.ltb_lt]%andb_true_iff. lia.
Qed.

Lemma tally_fine st ns g g' :
  tally st ns g = Some g' ->
  0 <= fine_synced_count g -> 0 <= fine_diff_count g ->
  fine_synced_count g + Z.of_nat (length ns) < 256 -> fine_diff_count g + Z.of_nat (length ns) < 256 ->
  Z.abs (fine_synced_offset g) <= 100 * fine_synced_count g ->
  coarse_synced_offset g' = coarse_synced_offset g /\
  fine_synced_count g' = fine_synced_count g + Z.of_nat (length (close_peers st ns)) /\
  fine_diff_count g' = fine_diff_count g + Z.of_nat (length (far_peers st ns)) /\
  fine_synced_offset g' = fine_synced_offset g + sum_fine (close_peers st ns) /\
  gs_avg_rate g' = sum_rate (gs_avg_rate g) (close_peers st ns).
Proof.
  revert g. induction ns as [|n ns IH]; intros g E H1 H2 H3 H4 H5; cbn [tally length] in *.
  { injection E as <-. cbn. split_and!; (done || lia). }
  unfold close_peers, far_peers. rewrite !filter_cons.
  destruct (peer st n) eqn:Ep.
  2:{ rewrite !decide_False by (by intros [? _]). apply IH; [done|lia..]. }
  set (g1 := count_coarse n g) in *.
  destruct (coarse_synced_count g1 <? coarse_diff_count g1); [done|].
  assert (Hg1 : fine_synced_count g1 = fine_synced_count g /\ fine_diff_count g1 = fine_diff_count g /\
    fine_synced_offset g1 = fine_synced_offset g /\ gs_avg_rate g1 = gs_avg_rate g /\
    coarse_synced_offset g1 = coarse_synced_offset g).
  { unfold g1, count_coarse. by destruct (_ =? 0). }
  destruct Hg1 as (E1 & E2 & E3 & E4 & E5). unfold count_fine in E.
  destruct (near n) eqn:En.
  - rewrite decide_True, decide_False by (intuition congruence).
    pose proof (near_bound n En) as Hb.
    set (g2 := g1 <| fine_synced_offset ::= _ |> <| gs_avg_rate ::= _ |> <| fine_synced_count ::= _ |>) in *.
    assert (C1 : fine_synced_count g2 = fine_synced_count g + 1).
    { unfold g2. rsimpl. rewrite E1. apply uwrap_small. split; simpl; lia. }
    assert (C2 : fine_synced_offset g2 = fine_synced_offset g + fine_diff n).
    { unfold g2. rsimpl. rewrite E3. apply swrap_small; [done|]. split; simpl; lia. }
    destruct (IH g2 E) as (I1 & I2 & I3 & I4 & I5);
      [lia| unfold g2; rsimpl; lia|lia|unfold g2; rsimpl; lia|lia|].
    rewrite I1, I2, I3, I4, I5. unfold g2. rsimpl. rewrite E1, E2, E3, E4, E5. fold g2.
    assert (fine_synced_offset g2 = s32 (fine_synced_offset g + fine_diff n)) as C3.
    { unfold g2. rsimpl. by rewrite E3. }
    rewrite <- C3, C2. unfold close_peers, far_peers, sum_fine, sum_rate. cbn [map fold_right fold_left length].
    rewrite uwrap_small by (split; simpl; lia). split_and!; (done || lia).
  - rewrite decide_False, decide_True by (intuition congruence).
    set (g2 := g1 <| fine_diff_count ::= _ |>) in *.
    assert (C1 : fine_diff_count g2 = fine_diff_count g + 1).
    { unfold g2. rsimpl. rewrite E2. apply uwrap_small. split; simpl; lia. }
    destruct (IH g2 E) as (I1 & I2 & I3 & I4 & I5);
      [unfold g2; rsimpl; lia|lia|unfold g2; rsimpl; lia|lia|unfold g2; rsimpl; lia|].
    rewrite I1, I2, I3, I4, I5, C1. unfold g2. rsimpl. rewrite E1, E3, E4, E5.
    unfold close_peers, far_peers. cbn [length]. split_and!; (done || lia).
Qed.

(** The size of the group of one neighbour. *)
Lemma group_count (n : neighbour) l c o :
  1 <= c -> c + Z.of_nat (length l) < 256 ->
  let '(c', o') := fold_left (fun '(c, o) nn =>
      if in_jump (rtimer_diff (fine_diff n) (fine_diff nn))
      then (c +8 1, s32 (o + fine_diff nn)) else (c, o)) l (c, o) in 1 <= c'.
Proof.
  revert c o. induction l as [|nn l IH]; intros c o H1 H2; cbn [fold_left length] in *; [done|].
  destruct (in_jump _).
  - apply IH; rewrite uwrap_small by (split; simpl; lia); lia.
  - apply IH; lia.
Qed.

Lemma group_loop_returns l count offset :
  Z.of_nat (length l) < 255 -> exists r, group_loop l count offset = Ok r.
Proof.
  revert count offset. induction l as [|n l IH]; intros count offset Hl; cbn [group_loop length] in *; [eauto|].
  destruct (c_true (n_synced n)); [apply IH; lia|].
  pose proof (group_count n l 1 (fine_diff n) ltac:(lia) ltac:(lia)) as Hc.
  destruct (fold_left _ l (1, fine_diff n)) as [c o].
  destruct (count <=? c); [|apply IH; lia].
  destruct (Z.eqb_spec c 0); [lia|]. apply IH. lia.
Qed.

(** The offset the node moves by. *)
Definition agreed_offset (st : state_t) (ns : list neighbour) : res Z :=
  let closest := close_peers st ns in
  let off := Z.quot (sum_fine closest) (Z.of_nat (length closest) + 1) in
  if (length (far_peers st ns) <? length closest)%nat then Ok off
  else if decide (st = DISCOVERY) then
    match group_loop (map (mark st) ns) (Z.of_nat (length closest)) off with
    | Ok (_, o) => Ok o
    | Err e => Err e
    end
  else Ok off.

(** What becomes of a neighbour when the node has moved. *)
Definition shift (offset : Z) n : neighbour :=
  let d := s32 (fine_diff n - offset) in
  n <| coarse_diff ::= fun c => s32 (c - 0) |> <| fine_diff := d |>
    <| n_synced := if in_jump d then 1 else 0 |>.

Lemma for_neighbours_alter f (h : neighbour -> neighbour -> neighbour) l s :
  (forall n, h n n = f n) -> listed s l ->
  for_neighbours l (fun i n => upd_neighbour i (h n)) s = Ok (tt, alter_all f l s).
Proof.
  intros Hh. revert s. induction l as [|i l IH]; intros s Hl; [cbn; by rewrite alter_all_nil|].
  destruct (listed_lookup _ _ _ Hl) as (n & Hx & Hi & Hl'). unfold for_neighbours in *. cbn [forM].
  erewrite bind_Ok.
  2:{ erewrite bind_Ok by (unfold get_neighbour; unfold blocks in Hx; rewrite Hx; reflexivity). reflexivity. }
  rewrite IH by (by apply listed_alter). do 2 f_equal. unfold alter_all, update. cbn [fold_left].
  do 4 f_equal. unfold blocks in Hx. rewrite !(alter_insert _ _ _ _ Hx). by rewrite Hh.
Qed.

Lemma length_alter_all (f : neighbour -> neighbour) (l : list nat) (b : list neighbour) :
  length (fold_left (fun b i => alter f i b) l b) = length b.
Proof. revert b. induction l as [|i l IH]; intros b; [done|]. cbn [fold_left]. by rewrite IH, length_alter. Qed.

Lemma blocks_alter_all f l s i n :
  NoDup l -> blocks s !! i = Some n -> blocks (alter_all f l s) !! i = Some (if decide (i ∈ l) then f n else n).
Proof.
  unfold blocks, alter_all. rsimpl. generalize (pl_blocks (neighbour_memb s)). clear.
  intros b Hn. revert b n. induction Hn as [|j l Hj Hn IH]; intros b n Hb; cbn [fold_left].
  { rewrite decide_False; [done|]. intros H. inversion H. }
  destruct (decide (i = j)) as [->|Hne].
  - rewrite (decide_True (P := j ∈ j :: l)) by set_solver.
    rewrite (IH (alter f j b) (f n)) by (by rewrite list_lookup_alter_eq, Hb).
    by rewrite decide_False.
  - erewrite IH by (by rewrite list_lookup_alter_ne). f_equal.
    destruct (decide (i ∈ l)); [rewrite decide_True by set_solver|rewrite decide_False by set_solver]; done.
Qed.

Lemma omap_step {A B} (f : A -> option B) x l :
  omap f (x :: l) = match f x with Some y => y :: omap f l | None => omap f l end.
Proof. done. Qed.

Lemma view_alter_all f l s : listed s l -> view (alter_all f l s) l = map f (view s l).
Proof.
  intros [Hn Hl]. unfold view.
  assert (Hsub : forall l', (forall i, i ∈ l' -> i ∈ l) ->
    omap (fun i => blocks (alter_all f l s) !! i) l' = map f (omap (fun i => blocks s !! i) l')).
  { induction l' as [|i l' IH]; intros Hs; [done|].
    assert (Hi : i ∈ l) by (apply Hs; set_solver).
    destruct (lookup_lt_is_Some_2 (blocks s) i) as [n Hx].
    { by apply (proj1 (Forall_forall _ _) Hl). }
    rewrite !omap_step, (blocks_alter_all f l s i n Hn Hx), Hx, decide_True by done. cbn [map].
    f_equal. apply IH. set_solver. }
  by apply Hsub.
Qed.

Lemma alter_all_twice f h l s : listed s l -> (forall n, f (h n) = f n) ->
  alter_all f l (alter_all h l s) = alter_all f l s.
Proof.
  intros [Hn Hl] Hfh. unfold alter_all, update. cbn.
  assert (Hb : forall b : list neighbour,
    fold_left (fun b i => alter f i b) l (fold_left (fun b i => alter h i b) l b)
    = fold_left (fun b i => alter f i b) l b).
  { clear -Hn Hfh. intros b.
    assert (Hlook : forall (g : neighbour -> neighbour) (b : list neighbour) i,
      fold_left (fun b i => alter g i b) l b !! i = (fun n => if decide (i ∈ l) then g n else n) <$> b !! i).
    { clear -Hn. intros g b i. revert b. induction Hn as [|j l Hj Hn IH]; intros b; cbn [fold_left].
      - destruct (b !! i); [|done]. cbn. by rewrite decide_False by set_solver.
      - rewrite IH. destruct (decide (i = j)) as [->|Hne].
        + rewrite list_lookup_alter_eq. destruct (b !! j); [|done]. cbn.
          rewrite decide_False, decide_True by set_solver. done.
        + rewrite list_lookup_alter_ne by done. destruct (b !! i); [|done]. cbn. f_equal.
          destruct (decide (i ∈ l)); [rewrite decide_True by set_solver|rewrite decide_False by set_solver]; done. }
    apply list_eq. intros i. rewrite !Hlook. destruct (b !! i); [|done]. cbn.
    destruct (decide (i ∈ l)); [by rewrite Hfh|done]. }
  by rewrite Hb.
Qed.
Lemma tally_spec rate st ns g' :
  (length ns < 256)%nat -> tally st ns (sums_zero rate) = Some g' ->
  coarse_synced_offset g' = 0 /\
  fine_synced_count g' = Z.of_nat (length (close_peers st ns)) /\
  fine_diff_count g' = Z.of_nat (length (far_peers st ns)) /\
  fine_synced_offset g' = sum_fine (close_peers st ns) /\
  gs_avg_rate g' = sum_rate rate (close_peers st ns).
Proof. intros Hl E. apply (tally_fine st ns _ _ E); cbn; lia. Qed.

Lemma length_view s l : (length (view s l) <= length l)%nat.
Proof. unfold view. induction l as [|i l IH]; [done|]. rewrite omap_step. destruct (_ !! i); cbn [length]; lia. Qed.

Lemma agreed_offset_returns st ns : (length ns < 255)%nat -> exists offset, agreed_offset st ns = Ok offset.
Proof.
  intros Hl. unfold agreed_offset. destruct (_ <? _)%nat; [eauto|]. destruct (decide _); [|eauto].
  destruct (group_loop_returns (map (mark st) ns) (Z.of_nat (length (close_peers st ns)))
    (Z.quot (sum_fine (close_peers st ns)) (Z.of_nat (length (close_peers st ns)) + 1))) as [[? o] ->].
  { rewrite length_map. lia. }
  eauto.
Qed.

(** The rate the node takes: the average of its own and those of the close peers,
    over all the peers. *)
Definition agreed_rate (st : state_t) (ns : list neighbour) (rate : double) : double :=
  let closest := close_peers st ns in
  let far := far_peers st ns in
  if (length far <? length closest)%nat then
    d_div (sum_rate rate closest) (d_of_Z (Z.of_nat (length closest + length far) + 1))
  else rate.

(** The choice of the offset, as [gtsp_update_rtimer] makes it. *)
Lemma offset_choice l s g offset (c := clock (net s)) (st := my_state s) (ns := view s l) :
  (length ns < 255)%nat -> listed s l ->
  tally st ns (sums_zero (avg_rate c)) = Some g -> agreed_offset st ns = Ok offset ->
  let s1 := alter_all (mark st) l s in
  let offset0 := Z.quot (fine_synced_offset g) (fine_synced_count g + 1) in
  (if fine_diff_count g <? fine_synced_count g then
     on_clock (rtimer_set_avg_rate
       (d_div (gs_avg_rate g) (d_of_Z (fine_synced_count g + fine_diff_count g + 1)))) ;;
     mret offset0
   else if decide (st = DISCOVERY) then
     blocks ← gets (fun x => pl_blocks (neighbour_memb x));
     match group_loop (omap (fun j => blocks !! j) l) (fine_synced_count g) offset0 with
     | Ok (_, o) => mret o
     | Err e => fail e
     end
   else mret offset0) s1
  = Ok (offset, s1 <| net ::= fun x => x <| clock ::= fun c => c <| avg_rate ::= agreed_rate st ns |> |> |>).
Proof.
  intros Hns Hl Et Hoff s1 offset0.
  destruct (tally_spec _ st ns g ltac:(lia) Et) as (E1 & E2 & E3 & E4 & E5).
  assert (Hsame : forall x : node, x <| net ::= fun y => y <| clock ::= fun c => c <| avg_rate ::= fun r => r |> |> |> = x).
  { by intros [[[]]]. }
  unfold agreed_offset in Hoff. cbv zeta in Hoff. unfold agreed_rate, offset0 in *. rewrite E2, E3, E4, E5 in *.
  replace (Z.of_nat (length (far_peers st ns)) <? Z.of_nat (length (close_peers st ns)))
    with (length (far_peers st ns) <? length (close_peers st ns))%nat
    by (apply eq_true_iff_eq; rewrite Nat.ltb_lt, Z.ltb_lt; lia).
  destruct (_ <? _)%nat.
  - injection Hoff as <-. rewrite Nat2Z.inj_add. done.
  - destruct (decide (st = DISCOVERY)).
    + rewrite bind_gets. unfold ns in Hoff. rewrite <- (view_alter_all (mark st) l s Hl) in Hoff. fold ns in Hoff.
      unfold view, blocks in Hoff. unfold s1.
      destruct (group_loop _ _ _) as [[? o]|]; [|done]. injection Hoff as ->.
      unfold mret, M_ret. f_equal. f_equal. symmetry. apply Hsame.
    + injection Hoff as <-. unfold mret, M_ret. f_equal. f_equal. symmetry. apply Hsame.
Qed.

(** C23. [gtsp_update_rtimer] always settles on an offset unless the node is
    outvoted: the average of the fine differences of the close peers and the own
    clock or, during the discovery and when the far peers are not fewer, that of
    the largest group.  Its effect is exactly to take the average rate, to move
    the fine clock by the offset, and to move every difference of the table by the
    same offset; the coarse count stays. *)
Theorem gtsp_update_rtimer_spec l s :
  let st := my_state s in let ns := view s l in let c := clock (net s) in
  listed s l -> (length l < 255)%nat -> ~ outvoted st ns ->
  scheduler_state c = FREE -> 0 <= coarse_count c < 2 ^ 32 ->
  exists offset, agreed_offset st ns = Ok offset /\
  gtsp_update_rtimer l s =
    match rtimer_adjust_fine_offset offset (c <| avg_rate ::= agreed_rate st ns |>) with
    | Ok (_, c') => Ok (tt, alter_all (shift offset) l (s <| net ::= fun x => x <| clock := c' |> |>))
    | Err e => Err e
    end.
Proof.
  intros st ns c Hl Hlen Ho Hfree Hc.
  assert (Hns : (length ns < 255)%nat) by (pose proof (length_view s l); unfold ns; lia).
  destruct (agreed_offset_returns st ns Hns) as [offset Hoff]. exists offset. split; [done|].
  unfold gtsp_update_rtimer.
  rewrite (bind_Ok _ _ _ (avg_rate c) s).
  2:{ unfold on_clock, zoom, rtimer_avg_rate, gets. subst c. by destruct s as [[]]. }
  destruct (tally st ns (sums_zero (avg_rate c))) as [g|] eqn:Et.
  2:{ exfalso. apply Ho. apply (tally_ahead st ns (sums_zero (avg_rate c))); cbn; (done || lia). }
  destruct (tally_spec (avg_rate c) st ns g ltac:(lia) Et) as (E1 & E2 & E3 & E4 & E5).
  rewrite (bind_Ok _ _ _ g (alter_all (mark st) l s)).
  2:{ rewrite sum_loop_spec by done. fold st ns. fold (sums_zero (avg_rate c)). by rewrite Et. }
  rewrite E1. set (s1 := alter_all (mark st) l s).
  rewrite (bind_Ok _ _ s1 tt s1).
  2:{ unfold on_clock, zoom. change (net s1) with (net s). fold c.
      unfold rtimer_adjust_coarse_count. erewrite bind_Ok by (unfold wait_free; by rewrite Hfree).
      unfold modify. do 2 f_equal. subst s1 c. unfold update.
      destruct s as [[[]]]; cbn in *. by rewrite Z.sub_0_r, uwrap_small. }
  rewrite bind_gets. change (my_state s1) with st.
  erewrite bind_Ok by (apply (offset_choice l s g offset); done). fold st ns s1.
  set (s2 := s1 <| net ::= _ |>).
  assert (Hs2 : clock (net s2) = c <| avg_rate ::= agreed_rate st ns |>) by done.
  destruct (rtimer_adjust_fine_offset offset _) as [[[] c']|e] eqn:Ea.
  - erewrite bind_Ok.
    2:{ unfold on_clock, zoom. rewrite Hs2, Ea. reflexivity. }
    set (s3 := s2 <| net := _ |>).
    assert (Hl3 : listed s3 l).
    { split; [apply Hl|]. change (blocks s3) with (blocks s1). unfold s1, blocks, alter_all. rsimpl.
      rewrite length_alter_all. apply Hl. }
    etransitivity; [apply (for_neighbours_alter (shift offset)); [|exact Hl3]|].
    { intros n. reflexivity. }
    do 2 f_equal.
    change s3 with (alter_all (mark st) l (s <| net ::= fun x => x <| clock := c' |> |>)).
    apply alter_all_twice; [exact Hl|]. intros n. unfold shift, mark. by destruct (peer st n).
  - apply bind_Err. unfold on_clock, zoom. by rewrite Hs2, Ea.
Qed.
End gtsp_facts.

(** A node in discovery with two neighbours. *)
Definition gtsp_example (c0 c1 f0 f1 : Z) : node :=
  let n c f := neighbour_zero <| n_state := state_val DISCOVERY |> <| coarse_diff := c |> <| fine_diff := f |> in
  (node_boot (DF := binary32) 7 [] (fun _ => 0) (fun _ => 0))
    <| my_state := DISCOVERY |>
    <| neighbour_memb ::= fun p => p <| pl_blocks := n c0 f0 :: n c1 f1 :: drop 2 (pl_blocks p) |> |>.

Lemma gtsp_example_listed c0 c1 f0 f1 : listed (gtsp_example c0 c1 f0 f1) [0; 1]%nat.
Proof.
  split.
  - apply NoDup_cons. split; [set_solver|]. apply NoDup_singleton.
  - apply Forall_cons. split; [|apply Forall_cons; split; [|by apply Forall_nil]]; cbn; lia.
Qed.

Lemma gtsp_outvoted_faults_witness :
  let s := gtsp_example 1 1 5 7 in
  gtsp_update_rtimer (DF := binary32) [0; 1]%nat s = Err FNull.
Proof.
  intros s. apply (gtsp_outvoted_faults (DF := binary32)).
  - apply gtsp_example_listed.
  - cbn; lia.
  - exists 1%nat. vm_compute. reflexivity.
Defined.

Lemma gtsp_update_rtimer_spec_witness :
  let s := gtsp_example 0 0 50 40 in
  exists s', gtsp_update_rtimer (DF := binary32) [0; 1]%nat s = Ok (tt, s') /\
    map fine_diff (view s' [0; 1]%nat) = [20; 10].
Proof.
  intros s.
  destruct (gtsp_update_rtimer_spec (DF := binary32) [0; 1]%nat s) as (offset & E1 & E2).
  - apply gtsp_example_listed.
  - cbn; lia.
  - intros [k Hk]. destruct k as [|[|[|k]]]; vm_compute in Hk; discriminate.
  - reflexivity.
  - vm_compute. split; [discriminate|reflexivity].
  - assert (offset = 30) as -> by (vm_compute in E1; by injection E1).
    rewrite E2. destruct (rtimer_adjust_fine_offset 30 _) as [[[] c']|] eqn:Ea.
    + eexists. split; [reflexivity|]. vm_compute. reflexivity.
    + exfalso. vm_compute in Ea. discriminate.
Defined.
