(* ===== verification/Measure.v ===== *)
(** * Measure: what gtsp_recv learns from a packet

    [gtsp_recv] reads the own clock and the clock in the packet at the same
    moment and files the difference of the two logical dates with the sender's
    entry.  The theorem gives the whole effect of the call and relates the filed
    difference to the dates: it is exact, except when the sender has just begun a
    coarse unit that the own clock is about to begin, where its sign is wrong. *)
From stdpp Require Import numbers option list.
From S2P Require Import Prelude Memb CDouble Rtimer Packetbuf Announcement Announcers CSync Gtsp GtspFacts.

Section measure.
Context {DF : DoubleFormat}.

(** A node with another clock and another table of neighbours. *)
Definition node_at (s : node) (c : rtimer_st callback_t) (l : list neighbour) : node :=
  s <| net ::= fun t => t <| clock := c |> |>
    <| neighbour_memb ::= fun p => p <| pl_blocks := l |> |>.

Lemma node_at_start s : s = node_at s (clock (net s)) (blocks s).
Proof.
  unfold node_at, blocks, update. destruct s; cbn.
  f_equal; match goal with |- ?x = _ => by destruct x end.
Qed.
Lemma on_clock_at {A} (m : M (rtimer_st callback_t) A) s c l a c' :
  m c = Ok (a, c') -> on_clock m (node_at s c l) = Ok (a, node_at s c' l).
Proof.
  intros E. unfold on_clock, zoom, node_at. rsimpl. by rewrite E.
Qed.
Lemma get_neighbour_at s c l i x :
  l !! i = Some x -> get_neighbour i (node_at s c l) = Ok (x, node_at s c l).
Proof. intros E. unfold get_neighbour, node_at. rsimpl. by rewrite E. Qed.
Lemma upd_neighbour_at s c l i f x :
  l !! i = Some x -> upd_neighbour i f (node_at s c l) = Ok (tt, node_at s c (<[i := f x]> l)).
Proof.
  intros E. rewrite <- (alter_insert f l i x E). done.
Qed.
Definition heard_at (s : node) : Z :=
  packetbuf_attrs (qu_packetbuf (queue (net s))) !!! PACKETBUF_ATTR_TIMESTAMP.
Lemma timestamp_at s c l :
  zoom net (on_packetbuf (packetbuf_attr PACKETBUF_ATTR_TIMESTAMP)) (node_at s c l) =
    Ok (heard_at s, node_at s c l).
Proof. unfold zoom, on_packetbuf, node_at, heard_at. destruct s as [t]. destruct t as [? ? q]. by destruct q. Qed.

(** The fine time of a sample is that of its stamps. *)
Definition stamp_now (sp : stamps) : res Z :=
  rtimer_stamps_to_now (sp_ta sp) (sp_tb sp) (sp_ta_compare sp) (sp_tb_compare sp) (sp_rate sp).

Lemma sample_once_stamps {F} (c : rtimer_st F) sp now c' :
  sample_once c = Ok ((sp, now), c') -> stamp_now sp = Ok now.
Proof.
  intros E. unfold sample_once in E. apply bind_inv in E as (rate & c1 & _ & E).
  apply bind_inv in E as (r & c2 & _ & E). cbv zeta in E. rewrite bind_modify in E.
  apply bind_inv in E as (v & c3 & E1 & E). injection E as <- <- _.
  unfold lift in E1. unfold stamp_now. cbn. destruct (rtimer_stamps_to_now _ _ _ _ _); [by injection E1 as <- _|done].
Qed.
Lemma sample_locked_stamps {F} (c : rtimer_st F) sp now c' :
  sample_locked c = Ok ((sp, now), c') -> stamp_now sp = Ok now.
Proof.
  unfold sample_locked. generalize (length (reads c)). intros n. revert c. induction n as [|n IH]; intros c E; [done|].
  cbn [sample_locked_loop] in E. apply bind_inv in E as ([sp1 now1] & c1 & E1 & E).
  destruct (now1 =? 0); [by eapply IH|]. injection E as <- <- <-.
  unfold sample_locked_once in E1. apply bind_inv in E1 as (? & c2 & _ & E1).
  apply bind_inv in E1 as (? & c3 & _ & E1). rewrite bind_modify in E1. by eapply sample_once_stamps.
Qed.

(** The sender is one coarse unit ahead, the two dates just around its start. *)
Definition just_ahead (my_coarse my_fine n_coarse n_fine : Z) : bool :=
  (rtimer_diff my_coarse n_coarse =? - 1) &&
  (RTIMER_FINE_MAX - GTSP_COARSE_OVERFLOW_THRESHOLD <? my_fine) &&
  (n_fine <? GTSP_COARSE_OVERFLOW_THRESHOLD).

Lemma clock_diffs_ticks mc mf nc nf :
  0 <= mf <= RTIMER_FINE_MAX -> 0 <= nf <= RTIMER_FINE_MAX ->
  let '(cd, fd) := clock_diffs mc mf nc nf in
  ticks RTIMER_FINE_MAX cd fd =
    (if just_ahead mc mf nc nf then -1 else 1) * (ticks RTIMER_FINE_MAX (rtimer_diff mc nc) (mf - nf)).
Proof.
  intros Hm Hn. unfold clock_diffs, just_ahead, ticks. set (cd := rtimer_diff mc nc).
  assert (E : RTIMER_FINE_MAX = 67108863) by reflexivity. unfold GTSP_COARSE_OVERFLOW_THRESHOLD in *.
  assert (Hd : forall a b, 0 <= a <= RTIMER_FINE_MAX -> 0 <= b <= RTIMER_FINE_MAX -> rtimer_diff a b = a - b).
  { intros a b Ha Hb. unfold rtimer_diff. rewrite E in *. uwrap_lia. }
  rewrite !Hd by lia. rewrite E in *.
  destruct (Z.eqb_spec cd (-1)), (Z.eqb_spec cd 1), (Z.ltb_spec (67108863 - 1000) mf), (Z.ltb_spec nf 1000),
    (Z.ltb_spec mf 1000), (Z.ltb_spec (67108863 - 1000) nf); cbn [andb]; try uwrap_lia.
Qed.

(** The dates and what the entry keeps of them. *)
Definition sender_date (f : timesync_frame_t) (now_n : Z) (s : node) (sp : stamps) (rate avg : double) : Z * Z :=
  rtimer_hwdate_to_lgdate (sf_coarse_now f) now_n
    (total_offset f (heard_at s) (sp_tb sp) (sp_rate sp) rate avg).

(** C24. What [gtsp_recv] does with a packet from the neighbour [i], once the own
    clock has been sampled: the entry gets the hardware date of the sample and
    the logical date of the sender, a known neighbour's rate is filtered and a new
    one's starts at zero, the own offset is brought up to the date, and nothing
    else of the node changes.  The differences filed are, in ticks, the own
    logical date minus the sender's; only when the sender is just ahead of the
    start of a coarse unit, and the own clock just behind it, the opposite. *)
Theorem gtsp_recv_spec s i f (new : bool) x sp now_my c1 now_n :
  blocks s !! i = Some x ->
  sample_locked (clock (net s)) = Ok ((sp, now_my), c1) ->
  rtimer_stamps_to_now (sf_ta f) (sf_tb f) (sf_ta_compare f) (sf_tb_compare f) (sf_clock_rate f) = Ok now_n ->
  let rate := if new then d_of_Z 0 else relative_rate x in
  let '(nc, nf) := sender_date f now_n s sp rate (avg_rate c1) in
  exists c2 x',
    rtimer_update_offset (coarse_count c1) now_my c1 = Ok (tt, c2) /\
    gtsp_recv i f new s = Ok (tt, node_at s c2 (<[i := x']> (blocks s))) /\
    last_my_coarse x' = coarse_count c1 /\ last_hw_my_fine x' = now_my /\
    last_n_coarse x' = nc /\ last_lg_n_fine x' = nf /\
    relative_rate x' = (if new then d_of_Z 0
                        else relative_rate (update_rate nc nf (coarse_count c1) now_my x)) /\
    n_addr x' = n_addr x /\ n_degree x' = n_degree x /\ n_role x' = n_role x /\ n_state x' = n_state x /\
    let '(mc, mf) := rtimer_hwdate_to_lgdate (coarse_count c1) now_my (fine_offset c2) in
    (0 <= mf <= RTIMER_FINE_MAX -> 0 <= nf <= RTIMER_FINE_MAX ->
     ticks RTIMER_FINE_MAX (coarse_diff x') (fine_diff x') =
       (if just_ahead mc mf nc nf then -1 else 1) *
       ticks RTIMER_FINE_MAX (rtimer_diff mc nc) (mf - nf)).
Proof.
  intros Hx Hs Hn rate. destruct (sender_date _ _ _ _ _ _) as [nc nf] eqn:Ed.
  destruct (rtimer_update_offset (coarse_count c1) now_my c1) as [[[] c2]|] eqn:Eu; [|done].
  destruct (rtimer_hwdate_to_lgdate (coarse_count c1) now_my (fine_offset c2)) as [mc mf] eqn:Em.
  destruct (clock_diffs mc mf nc nf) as [cd fd] eqn:Ec.
  set (x1 := if new then x <| relative_rate := d_of_Z 0 |> <| n_jumped := 0 |> <| n_synced := 0 |> else x).
  set (x2 := if new then x1 else update_rate nc nf (coarse_count c1) now_my x1).
  set (x3 := x2 <| last_my_coarse := coarse_count c1 |> <| last_hw_my_fine := now_my |>
                <| last_n_coarse := nc |> <| last_lg_n_fine := nf |>).
  set (x4 := x3 <| coarse_diff := cd |> <| fine_diff := fd |>).
  exists c2, x4. split; [done|]. split; [|split; [done|split; [done|split; [done|split; [done|]]]]].
  - set (l := blocks s) in *. assert (Hi : (i < length l)%nat) by (by eapply lookup_lt_Some).
    rewrite (node_at_start s) at 1. fold l. unfold gtsp_recv.
    erewrite bind_Ok by (apply on_clock_at; exact Hs). cbv beta iota.
    erewrite bind_Ok by (apply on_clock_at; reflexivity).
    erewrite bind_Ok by (apply on_clock_at; unfold lift; rewrite Hn; reflexivity).
    erewrite (bind_Ok _ _ _ tt (node_at s c1 (<[i := x1]> l))).
    2:{ unfold x1. destruct new; cbn [when]; [exact (upd_neighbour_at s c1 l i _ x Hx)|].
        by rewrite list_insert_id. }
    erewrite bind_Ok by (apply get_neighbour_at; by apply list_lookup_insert_eq).
    erewrite bind_Ok by apply timestamp_at.
    erewrite bind_Ok by (apply on_clock_at; reflexivity).
    assert (Er : relative_rate x1 = rate) by (unfold x1, rate; by destruct new).
    rewrite Er. unfold sender_date in Ed. rewrite Ed.
    erewrite (bind_Ok _ _ _ tt (node_at s c1 (<[i := x2]> l))).
    2:{ unfold x2. destruct new; cbn [when negb]; [done|].
        rewrite (upd_neighbour_at _ _ _ _ _ x1) by (by apply list_lookup_insert_eq).
        by rewrite list_insert_insert_eq. }
    erewrite bind_Ok by (apply upd_neighbour_at; by apply list_lookup_insert_eq).
    rewrite list_insert_insert_eq. fold x3.
    pose proof (sample_locked_stamps _ _ _ _ Hs) as Hst. unfold stamp_now in Hst.
    erewrite bind_Ok by (apply on_clock_at; unfold lift; rewrite Hst; reflexivity).
    erewrite bind_Ok by (apply on_clock_at; exact Eu).
    erewrite bind_Ok by (apply on_clock_at; reflexivity).
    rewrite Em, Ec. rewrite (upd_neighbour_at _ _ _ _ _ x3) by (by apply list_lookup_insert_eq).
    by rewrite list_insert_insert_eq.
  - assert (Hk : n_addr x2 = n_addr x /\ n_degree x2 = n_degree x /\ n_role x2 = n_role x /\ n_state x2 = n_state x).
    { unfold x2, x1, update_rate. destruct new; [done|]. by case_match. }
    split; [unfold x4, x3, x2, x1; by destruct new|]. destruct Hk as (K1 & K2 & K3 & K4).
    do 4 (split; [done|]). rewrite Em. intros Hm Hnf.
    pose proof (clock_diffs_ticks mc mf nc nf Hm Hnf) as Hd. by rewrite Ec in Hd.
Qed.
End measure.

(** A node at the very end of its first coarse unit that hears a neighbour which
    has just begun the next one. *)
Definition stamped (ts : Z) (p : packetbuf_st) : packetbuf_st :=
  p <| packetbuf_attrs ::= <[PACKETBUF_ATTR_TIMESTAMP := ts]> |>.
Definition late_example : node :=
  (gtsp_example 0 0 0 0) <| net ::= fun t => t
    <| clock := clock_boot (DF := binary32) (replicate 4 (mk_reg_read 2 8192 65535 9300 4096)) |>
    <| queue ::= fun q => q <| qu_packetbuf ::= stamped 9296 |> |> |>.
Definition early_frame : timesync_frame_t :=
  mk_timesync 1 RTIMER_FINE_MAX (d_of_Z (DF := binary32) 1) (d_of_Z (DF := binary32) 0)
    0 8200 0 8192 8203.

Lemma gtsp_recv_spec_witness :
  exists s' x', gtsp_recv (DF := binary32) 0 early_frame true late_example = Ok (tt, s') /\
    blocks s' !! 0%nat = Some x' /\ last_n_coarse x' = 2 /\ last_lg_n_fine x' = 18 /\
    ticks RTIMER_FINE_MAX (coarse_diff x') (fine_diff x') = - ticks RTIMER_FINE_MAX (-1) (67107924 - 18).
Proof.
  destruct (sample_locked (DF := binary32) (clock (net late_example))) as [[[sp now_my] c1]|] eqn:Es;
    [|vm_compute in Es; discriminate].
  assert (Hx : exists x, blocks late_example !! 0%nat = Some x) by (eexists; vm_compute; reflexivity).
  destruct Hx as [x Hx].
  pose proof (gtsp_recv_spec (DF := binary32) late_example 0 early_frame true x sp now_my c1 8 Hx Es
    ltac:(vm_compute; reflexivity)) as H.
  vm_compute in Es. injection Es as <- <- <-. cbv zeta in H.
  destruct (sender_date _ _ _ _ _ _) as [nc nf] eqn:Ed. vm_compute in Ed. injection Ed as <- <-.
  destruct H as (c2 & x' & Eu & E & _ & _ & E3 & E4 & _ & _ & _ & _ & _ & Hd).
  eexists _, x'. split; [exact E|]. split.
  { unfold node_at, blocks. rsimpl. apply list_lookup_insert_eq. by eapply lookup_lt_Some. }
  split; [exact E3|]. split; [exact E4|].
  vm_compute in Eu. injection Eu as <-.
  match type of Hd with context [rtimer_hwdate_to_lgdate ?a ?b ?c] =>
    destruct (rtimer_hwdate_to_lgdate a b c) as [mc mf] eqn:Em end.
  vm_compute in Em. injection Em as <- <-. rewrite Hd; [vm_compute; reflexivity|..];
    vm_compute; split; discriminate.
Defined.
