(* ===== verification/Frames.v ===== *)
(** * Frames: what the parts of the program leave alone

    Lemmas on the protocol state [my_state] and on the real-time timers: most of
    the program changes neither, and adjusting the clock never puts a timer in
    single-pass mode. *)
From stdpp Require Import numbers option list.
From S2P Require Import Prelude Memb CDouble Rtimer Packetbuf Announcement Announcers CSync Gtsp Cluster Handlers.

Lemma post_zoom {S T A} (f : S -> T) `{!Update f} (RS : S -> S -> Prop) (RT : T -> T -> Prop) (m : M T A) :
  (forall s t, RT (f s) t -> RS s (s <| f := t |>)) -> post RT m -> post RS (zoom f m).
Proof.
  intros H Hm s a s'. unfold zoom. destruct (m (f s)) as [[x t]|] eqn:E; [|done].
  intros [= <- <-]. apply H. by eapply Hm.
Qed.
Lemma post_zoom_any {S T A E} (f : S -> T) `{!Update f} (g : S -> E) (m : M T A) :
  (forall s t, g (s <| f := t |>) = g s) -> post (same g) (zoom f m).
Proof. intros H. apply (post_zoom f _ (fun _ _ => True)); [intros; apply H|done]. Qed.

(** ** The timers *)

Section timers.
Context {DF : DoubleFormat} {F : Type}.
Implicit Types st : rtimer_st F.

Definition single st : Prop := exists r, rt st !! RTIMER_0 = Some r /\ rt_state r = RTIMER_SINGLEPASS.
Definition not_single st : Prop := ~ single st.

Lemma not_single_alter i (f : rtimer_t F -> rtimer_t F) st st' :
  (forall r, rt_state (f r) = RTIMER_SINGLEPASS -> rt_state r = RTIMER_SINGLEPASS) ->
  rt st' = alter f i (rt st) -> not_single st -> not_single st'.
Proof.
  intros Hf E Hn (r & Hr & Hs). apply Hn. rewrite E in Hr. destruct (decide (i = RTIMER_0)) as [->|Hne].
  - rewrite list_lookup_alter_eq in Hr. destruct (rt st !! RTIMER_0) as [r0|] eqn:E0; [|done].
    injection Hr as <-. exists r0. auto.
  - rewrite list_lookup_alter_ne in Hr by done. by exists r.
Qed.

Lemma schedule_rt timer interval tc tf func st v st' :
  rtimer_schedule timer interval tc tf func st = Ok (v, st') ->
  rt st' = rt st \/ exists g, rt st' = alter g timer (rt st) /\
    forall r, rt_state (g r) = RTIMER_SINGLEPASS -> rt_state r = RTIMER_SINGLEPASS.
Proof.
  intros E. pose proof E as E0. unfold rtimer_schedule in E.
  destruct (Nat.ltb_spec timer NUM_OF_RTIMERS) as [Ht|Ht]; [|injection E as <- <-; by left].
  cbn [negb] in E. destruct ((tc =? 0) && (tf =? 0)) eqn:Ez; [injection E as <- <-; by left|].
  apply bind_inv in E as (r & s1 & E1 & E). unfold get_rt in E1.
  destruct (rt st !! timer) as [r'|] eqn:Er; [|done]. injection E1 as <- <-.
  case_decide as Hs.
  - unfold upd_rt in E. rewrite bind_modify in E. injection E as <- <-. right.
    exists (fun r => r <| rt_state := RTIMER_SCHEDULED |>). split; [done|]. by intros r.
  - assert (Hz : ~ (tc = 0 /\ tf = 0)) by (intros [-> ->]; done).
    destruct (rtimer_schedule_wp timer interval tc tf func st r' Ht Hz Er Hs v st' E0) as (_ & _ & H).
    right. destruct H; eexists; (split; [eassumption|]); [by intros []|by intros r].
Qed.

Lemma schedule_not_single timer interval tc tf func :
  post (inv not_single) (rtimer_schedule (F := F) timer interval tc tf func).
Proof.
  intros st v st' E Hn. destruct (schedule_rt _ _ _ _ _ _ _ _ E) as [E1|(g & E1 & Hg)].
  - unfold not_single, single in *. by rewrite E1.
  - by eapply not_single_alter.
Qed.

Lemma post_rt {A} (m : M (rtimer_st F) A) : post (same rt) m -> post (inv not_single) m.
Proof. intros H s a s' E. apply H in E. unfold inv, not_single, single. by rewrite E. Qed.
Lemma core_rt {A} (m : M (rtimer_st F) A) : post (same core_view) m -> post (same rt) m.
Proof. intros H s a s' E. apply H in E. unfold same, core_view in *. congruence. Qed.

Lemma sample_locked_core : post (same core_view) (sample_locked (F := F)).
Proof.
  intros s a s' E. unfold sample_locked in E. revert E. generalize (length (reads s)). intros n. revert s.
  assert (H : post (same core_view) (sample_locked_loop (F := F) n)); [|intros s E; by eapply H].
  induction n as [|n IH]; cbn [sample_locked_loop]; [apply post_fail|].
  unfold sample_locked_once. post_auto;
    first [apply wait_free_core|by apply post_assign|apply sample_once_core].
Qed.

Lemma adjust_fine_not_single diff : post (inv not_single) (rtimer_adjust_fine_offset (F := F) diff).
Proof.
  unfold rtimer_adjust_fine_offset, reschedule.
  post_auto; first
    [ apply post_rt, core_rt, wait_free_core | apply post_rt, get_rt_same | apply schedule_not_single
    | apply post_modify; intros st Hs; unfold normalise_offset; repeat case_match; exact Hs ].
Qed.
Lemma adjust_coarse_not_single diff : post (inv not_single) (rtimer_adjust_coarse_count (F := F) diff).
Proof.
  apply post_rt. unfold rtimer_adjust_coarse_count.
  post_auto; [apply core_rt, wait_free_core|by apply post_modify].
Qed.
End timers.

(** ** The network without the clock *)

Section network.
Context {DF : DoubleFormat} {F CB : Type}.
Local Abbreviation N := (M (net_st F CB)).
Local Abbreviation clocked := (post (same (clock (F := F) (CB := CB)))).

Lemma clocked_packetbuf {A} (m : M packetbuf_st A) : clocked (on_packetbuf m).
Proof. unfold on_packetbuf. by apply post_zoom_any. Qed.
Lemma clocked_queue {A} (m : M queue_st A) : clocked (zoom queue m).
Proof. by apply post_zoom_any. Qed.
Lemma clocked_ann {A} (m : M (announcement_st CB observer_t) A) : clocked (zoom ann m).
Proof. by apply post_zoom_any. Qed.
Lemma clocked_random : clocked random_rand.
Proof. by intros s a s' [= _ <-]. Qed.
Hint Resolve clocked_packetbuf clocked_queue clocked_ann clocked_random : post.
Local Ltac clocked_auto := repeat first [progress post_auto | by apply post_modify].

Lemma clocked_cancel : clocked ipolite_cancel.
Proof. unfold ipolite_cancel, ipolite_free_q, upd_ip. clocked_auto. Qed.
Lemma clocked_close : clocked ipolite_close.
Proof. unfold ipolite_close, ipolite_free_q, upd_ip, broadcast_close, channel_close. clocked_auto. Qed.
Hint Resolve clocked_cancel clocked_close : post.
Lemma clocked_polite_cancel : clocked polite_announcement_cancel.
Proof. unfold polite_announcement_cancel, upd_pa. clocked_auto. Qed.
Lemma clocked_polite_stop : clocked polite_announcement_stop.
Proof. unfold polite_announcement_stop. clocked_auto. Qed.
Lemma clocked_polite_init no i a b : clocked (polite_announcement_init no i a b).
Proof.
  unfold polite_announcement_init, ipolite_open, broadcast_open, channel_open, upd_ip, upd_pa. clocked_auto.
Qed.
Lemma clocked_polite_set_interval i : clocked (polite_announcement_set_interval i).
Proof. by apply post_modify. Qed.
Lemma clocked_broadcast_stop : clocked broadcast_announcement_stop.
Proof. unfold broadcast_announcement_stop, upd_ba, broadcast_close, channel_close. clocked_auto. Qed.
End network.
#[export] Hint Resolve clocked_polite_cancel clocked_polite_stop clocked_polite_init
  clocked_polite_set_interval clocked_broadcast_stop clocked_packetbuf : post.

(** ** The node *)

Section node.
Context {DF : DoubleFormat}.
Implicit Types s : node.

(** Neither the protocol state nor the timers change. *)
Definition tame : node -> node -> Prop := same (fun s => (my_state s, rt (clock (net s)))).
(** The protocol state stays, and no timer becomes single-pass. *)
Definition calm s s' : Prop := my_state s' = my_state s /\ inv not_single (clock (net s)) (clock (net s')).

#[export] Instance tame_preorder : PreOrder tame.
Proof. unfold tame. exact _. Qed.
#[export] Instance calm_preorder : PreOrder calm.
Proof.
  split; [by intros s|]. intros s1 s2 s3 [H1 H2] [H3 H4]. split; [congruence|]. by etransitivity.
Qed.
Lemma tame_calm {A} (m : M node A) : post tame m -> post calm m.
Proof.
  intros H s a s' E. apply H in E. unfold tame, same in E. injection E as E1 E2. split; [done|].
  unfold inv, not_single, single. by rewrite E2.
Qed.

Lemma tame_cluster {A} (m : M cluster_t A) : post tame (on_cluster m).
Proof. by apply post_zoom_any. Qed.
Lemma tame_CHs {A} (m : M (blist chb) A) : post tame (on_CHs m).
Proof. apply tame_cluster. Qed.
Lemma tame_CBs {A} (m : M (blist chb) A) : post tame (on_CBs m).
Proof. apply tame_cluster. Qed.
Lemma tame_blacklist {A} (m : M (blist Z) A) : post tame (on_blacklist m).
Proof. apply tame_cluster. Qed.
Lemma tame_net {A} (m : M (net_st callback_t handler_t) A) :
  post (same (clock (F := callback_t) (CB := handler_t))) m -> post tame (zoom net m).
Proof. 
  apply post_zoom. intros s t H. unfold tame, same in *.
  change ((my_state s, rt (clock t)) = (my_state s, rt (clock (net s)))). by rewrite H.
Qed.
Lemma tame_ann {A} (m : M (announcement_st handler_t observer_t) A) : post tame (on_ann m).
Proof. apply tame_net. by apply post_zoom_any. Qed.
Lemma tame_get_neighbour i : post tame (get_neighbour i).
Proof. intros s a s'. unfold get_neighbour. destruct (_ !! i); [|done]. by intros [= _ <-]. Qed.
Lemma tame_upd_neighbour i f : post tame (upd_neighbour i f).
Proof. by apply post_modify. Qed.
Lemma tame_alloc : post tame neighbour_alloc.
Proof. intros s a s'. unfold neighbour_alloc. destruct (pool_alloc _). by intros [= _ <-]. Qed.
Lemma tame_get_rt0 : post tame get_rt0.
Proof.
  unfold get_rt0, on_clock. intros s a s'. unfold zoom, get_rt. destruct (_ !! _); [|done]. by intros [= _ <-].
Qed.
Lemma calm_clock {A} (m : M (rtimer_st callback_t) A) : post (inv not_single) m -> post calm (on_clock m).
Proof.
  unfold on_clock. intros H. apply (post_zoom net _ (fun t t' => inv not_single (clock t) (clock t'))).
  - by intros s t Ht.
  - by apply (post_zoom clock _ (inv not_single)).
Qed.
Lemma calm_clock_rt {A} (m : M (rtimer_st callback_t) A) : post (same rt) m -> post calm (on_clock m).
Proof. intros H. by apply calm_clock, post_rt. Qed.
End node.
#[export] Hint Resolve tame_cluster tame_CHs tame_CBs tame_blacklist tame_net tame_ann tame_get_neighbour
  tame_upd_neighbour tame_alloc tame_get_rt0 : post.

Ltac tame_step := first
  [ progress post_auto | by apply post_modify
  | apply post_modify; intros; unfold tame, same; repeat case_match; reflexivity ].
Ltac tame_auto := repeat tame_step.

Section tame.
Context {DF : DoubleFormat}.
Implicit Types s : node.

Lemma tame_for_blocks {A} (on : forall B, M (blist A) B -> M node B) body :
  (forall B (m : M (blist A) B), post tame (on B m)) -> (forall i x, post tame (body i x)) ->
  post tame (for_blocks on body).
Proof. intros H1 H2. unfold for_blocks. tame_auto; auto. Qed.
Lemma tame_for_neighbours l body : (forall i x, post tame (body i x)) -> post tame (for_neighbours l body).
Proof. intros H. unfold for_neighbours. tame_auto; auto. Qed.

Lemma tame_handle_list (on : forall B, M (blist chb) B -> M node B) v n :
  (forall B (m : M (blist chb) B), post tame (on B m)) -> post tame (handle_list on v n).
Proof.
  intros H. unfold handle_list, insert_entry, get_role, set_role. tame_auto; auto.
Qed.
Lemma tame_handle_lists v n : post tame (handle_lists v n).
Proof. unfold handle_lists. tame_auto; by apply tame_handle_list; intros; auto with post. Qed.
Lemma tame_take_slot addr slot own : post tame (take_slot addr slot own).
Proof. unfold take_slot. apply tame_for_blocks; [auto with post|]. intros. tame_auto. Qed.
Lemma tame_update_placing : post tame csync_update_placing.
Proof. unfold csync_update_placing. tame_auto. apply tame_for_neighbours. intros. tame_auto. Qed.
Lemma tame_poll : post tame process_poll.
Proof. by apply post_modify. Qed.
Lemma tame_set_schedule_ref : post tame set_schedule_ref.
Proof.
  unfold set_schedule_ref. intros s a s' E. apply bind_inv in E as (r & s1 & E1 & E2).
  unfold on_clock, zoom, get_rt, modify in *. destruct (_ !! _) in E1; [|done]. injection E1 as _ <-.
  by injection E2 as _ <-.
Qed.
End tame.
#[export] Hint Resolve tame_handle_lists tame_take_slot tame_update_placing tame_poll
  tame_set_schedule_ref : post.

Ltac calm_step := first
  [ tame_step | apply tame_calm; solve [tame_auto] ].
Ltac calm_auto := repeat calm_step.

Section calm.
Context {DF : DoubleFormat}.
Implicit Types s : node.

Lemma calm_assign f : (forall s, my_state (f s) = my_state s /\ rt (clock (net (f s))) = rt (clock (net s))) ->
  post calm (modify f).
Proof.
  intros H. apply post_modify. intros s. destruct (H s) as [H1 H2]. split; [done|].
  unfold inv, not_single, single. by rewrite H2.
Qed.

(** What reads or tunes the clock. *)
Lemma calm_gets_clock {A} (f : rtimer_st callback_t -> A) : post calm (on_clock (gets f)).
Proof. apply calm_clock_rt. by apply post_gets; exact _. Qed.
Lemma calm_modify_clock f : (forall c, rt (f c) = rt c) -> post calm (on_clock (modify f)).
Proof. intros H. apply calm_clock_rt, post_modify, H. Qed.
Lemma calm_lift {A} (x : res A) : post calm (on_clock (lift x)).
Proof. apply calm_clock_rt, core_rt, lift_core. Qed.
Lemma calm_sample : post calm (on_clock sample_locked).
Proof. apply calm_clock_rt, core_rt, sample_locked_core. Qed.
Lemma calm_adjust_fine d : post calm (on_clock (rtimer_adjust_fine_offset d)).
Proof. apply calm_clock, adjust_fine_not_single. Qed.
Lemma calm_adjust_coarse d : post calm (on_clock (rtimer_adjust_coarse_count d)).
Proof. apply calm_clock, adjust_coarse_not_single. Qed.
Lemma calm_avg_rate : post calm (on_clock rtimer_avg_rate).
Proof. apply calm_gets_clock. Qed.
Lemma calm_set_avg_rate r : post calm (on_clock (rtimer_set_avg_rate r)).
Proof. by apply calm_modify_clock. Qed.
Lemma calm_packetbuf {A} (m : M packetbuf_st A) : post calm (zoom net (on_packetbuf m)).
Proof. apply tame_calm. tame_auto. Qed.
Hint Resolve calm_gets_clock calm_lift calm_sample calm_adjust_fine calm_adjust_coarse calm_avg_rate
  calm_set_avg_rate calm_packetbuf : post.

Lemma calm_gtsp_recv n sync b : post calm (gtsp_recv n sync b).
Proof.
  unfold gtsp_recv, rtimer_coarse_now, rtimer_fine_offset, rtimer_update_offset.
  calm_auto; by apply calm_modify_clock.
Qed.
Lemma calm_sum_loop all l g : post calm (sum_loop all l g).
Proof. revert g. induction l as [|i l IH]; intros g; cbn [sum_loop]; calm_auto; apply IH. Qed.
Hint Resolve calm_gtsp_recv calm_sum_loop : post.
Lemma calm_for_neighbours l body : (forall i x, post tame (body i x)) -> post calm (for_neighbours l body).
Proof. intros H. by apply tame_calm, tame_for_neighbours. Qed.
Lemma calm_gtsp_update l : post calm (gtsp_update_rtimer l).
Proof.
  unfold gtsp_update_rtimer. calm_auto; apply calm_for_neighbours; intros; tame_auto.
Qed.
Hint Resolve calm_gtsp_update : post.

Lemma calm_find_neighbour l addr accept :
  (forall a, post tame (accept a)) -> post tame (find_neighbour l addr accept).
Proof. intros H. induction l as [|i l IH]; cbn [find_neighbour]; tame_auto; auto. Qed.
Lemma tame_accept a : post tame (accept_mod a).
Proof. unfold accept_mod, check_mod_neighbours. tame_auto. Qed.
Lemma calm_add_to_neighbour addr state degree sync : post calm (add_to_neighbour addr state degree sync).
Proof.
  unfold add_to_neighbour, refresh_neighbour, new_neighbour, check_mod_neighbours.
  calm_auto; first [apply tame_calm, calm_find_neighbour; intros; first [apply tame_accept|tame_auto]].
Qed.
Hint Resolve calm_add_to_neighbour : post.
Lemma calm_sender from v sync b : post calm (sender from v sync b).
Proof. unfold sender, strong_signal. calm_auto. Qed.

Lemma calm_follow v n : post calm (follow v n).
Proof.
  unfold follow, csync_trusted_synchronization, trusted_rates, take_rate, get_role.
  calm_auto; apply calm_for_neighbours; intros; tame_auto.
Qed.
End calm.
#[export] Hint Resolve calm_sender calm_follow calm_packetbuf : post.

(** ** Sending *)

Section sending.
Context {DF : DoubleFormat} {F CB : Type}.
Local Abbreviation N := (M (net_st F CB)).
Definition timers (t : net_st F CB) := rt (clock t).
Local Abbreviation timed := (post (same timers)).

Lemma clocked_timed {A} (m : N A) : post (same (clock (F := F) (CB := CB))) m -> timed m.
Proof. intros H s a s' E. apply H in E. unfold same, timers in *. by rewrite E. Qed.
Lemma timed_sync_send i : timed (sync_send i).
Proof.
  assert (H : post (same rt) (rtimer_sync_send (F := F))).
  { unfold rtimer_sync_send, rtimer_coarse_now, rtimer_avg_rate, rtimer_fine_offset, rtimer_update_offset.
    post_auto; first [apply core_rt, sample_locked_core|by apply post_modify]. }
  unfold sync_send. post_auto.
  - apply (post_zoom clock _ (same rt)); [|exact H]. intros s t E. exact E.
  - apply clocked_timed. auto with post.
Qed.
Lemma timed_rime_output c : timed (rime_output c).
Proof. intros st a st'. unfold rime_output. by destruct (c_true _); intros [= _ <-]. Qed.
Hint Resolve timed_sync_send timed_rime_output clocked_queue clocked_ann clocked_random : post.
Local Ltac timed_auto := repeat first
  [ progress post_auto | by apply post_modify | apply clocked_timed; solve [auto with post] ].

Lemma timed_stamp_and_send c i : timed (stamp_and_send c i).
Proof. unfold stamp_and_send, broadcast_send, abc_send. timed_auto. Qed.
Hint Resolve timed_stamp_and_send : post.
Lemma timed_ipolite_send i h f : timed (ipolite_send i h f).
Proof. unfold ipolite_send, ipolite_free_q, upd_ip. timed_auto. Qed.
Hint Resolve timed_ipolite_send : post.
Lemma timed_write l : timed (write_announcements l).
Proof. induction l as [|a l IH]; cbn [write_announcements]; timed_auto. Qed.
Hint Resolve timed_write : post.
Lemma timed_polite_send_adv i : timed (polite_send_adv i).
Proof. unfold polite_send_adv. timed_auto. Qed.
Hint Resolve timed_polite_send_adv : post.
Lemma timed_bump a : timed (bump a).
Proof.
  unfold bump, announcement_bump, observer, observer_pa_run, observer_ba_run,
    broadcast_announcement_continue, set_timers, upd_pa, upd_ba.
  timed_auto.
Qed.
End sending.

Section bump.
Context {DF : DoubleFormat}.

Lemma tame_bump a : post tame (bump_announcement a).
Proof.
  unfold bump_announcement. eapply post_zoom; [|apply timed_bump].
  intros s t H. unfold tame, same, timers in *.
  change ((my_state s, rt (clock t)) = (my_state s, rt (clock (net s)))). by rewrite H.
Qed.
Lemma tame_relay v : post tame (relay v).
Proof. unfold relay, relay_date, copy_date. tame_auto. Qed.
End bump.
#[export] Hint Resolve tame_bump tame_relay : post.
