(* ===== verification/Phases.v ===== *)
(** * Phases: how a node moves through the protocol

    [my_state] changes in the callbacks of the real-time timer and in the
    announcement handlers only.  The first part gives the moves of the handlers:
    a node follows a neighbour that announces a later phase, with its timer armed
    for the end of that phase; the second part that of the callbacks. *)
From stdpp Require Import numbers option list.
From S2P Require Import Prelude Memb CDouble Rtimer Packetbuf Announcement Announcers CSync Gtsp Cluster Handlers Frames.

(** Where a handler may take a node in state [X] when the announcement carries
    [instr], and the callback that ends the new phase. *)
Definition handler_target (h : handler_t) (instr : Z) (X : state_t) : option (option callback_t * state_t) :=
  match h, X with
  | Received_declaration, DISCOVERY =>
      if instr =? state_val CONNECTION_DECLARATION then Some (None, CONNECTION_DECLARATION)
      else if instr =? state_val ELECTION_DECLARATION
      then Some (Some Enter_connection_revelation, ELECTION_DECLARATION) else None
  | Received_declaration, ELECTION_REVELATION =>
      if instr =? state_val ELECTION_DECLARATION
      then Some (Some Enter_connection_revelation, ELECTION_DECLARATION) else None
  | Received_declaration, ELECTION_DECLARATION =>
      if instr =? state_val CONNECTION_DECLARATION
      then Some (Some Enter_convergence, CONNECTION_REVELATION) else None
  | Received_revelation, DISCOVERY =>
      if instr =? state_val ELECTION_REVELATION
      then Some (Some Enter_connection_revelation, ELECTION_REVELATION)
      else if instr =? state_val CONNECTION_REVELATION
      then Some (Some Enter_consensus_synchronization, CONNECTION_REVELATION)
      else if instr =? state_val CONSENSUS_REVELATION
      then Some (Some Enter_consensus_synchronization, CONSENSUS_REVELATION) else None
  | Received_revelation, CONSENSUS_CONVERGENCE =>
      if instr =? state_val CONSENSUS_REVELATION
      then Some (Some Enter_consensus_synchronization, CONSENSUS_REVELATION) else None
  | Received_convergence, CONNECTION_DECLARATION =>
      if instr =? state_val CONSENSUS_CONVERGENCE
      then Some (Some Enter_consensus_revelation, CONSENSUS_CONVERGENCE) else None
  | Received_synchronization, CONSENSUS_REVELATION =>
      if instr =? state_val CONSENSUS_SYNCHRONIZATION
      then Some (Some Enter_idle, CONSENSUS_SYNCHRONIZATION) else None
  | _, _ => None
  end.

Lemma handler_target_later h instr X c Y :
  handler_target h instr X = Some (c, Y) -> state_val X < state_val Y.
Proof. destruct h, X; cbn; repeat case_match; intros [= <- <-]; done. Qed.

Section phases.
Context {DF : DoubleFormat}.
Implicit Types (s : node) (v : announcement_value).

Definition rt0 s : option (rtimer_t callback_t) := rt (clock (net s)) !! RTIMER_0.

(** The timer follows the neighbour: it waits in single-pass mode and, unless it
    already did before, runs [c] at the date announced. *)
Definition armed v (c : callback_t) s s' : Prop :=
  exists r, rt0 s' = Some r /\ rt_state r = RTIMER_SINGLEPASS /\
    (not_single (clock (net s)) ->
     rt_func r = Some c /\ time_coarse_lg r = av_date_coarse v /\ time_fine_lg r = av_date_fine v).

Definition step_to (h : handler_t) v (X : state_t) s s' : Prop :=
  my_state s' = my_state s \/
  exists c, handler_target h (av_instr v) X = Some (c, my_state s') /\ needspoll s' = true /\
    match c with Some c => armed v c s s' | None => True end.

(** ** Entering a phase *)

Definition enters {A} (Y : state_t) (m : M node A) : Prop := forall s a s',
  m s = Ok (a, s') -> my_state s' = Y /\ needspoll s' = true /\ rt0 s' = rt0 s.

Lemma enters_bind {A B} Y (m : M node A) (k : A -> M node B) :
  post tame m -> (forall a, enters Y (k a)) -> enters Y (m ≫= k).
Proof.
  intros Hm Hk s b s' E. apply bind_inv in E as (a & s1 & E1 & E).
  destruct (Hk _ _ _ _ E) as (H1 & H2 & H3). apply Hm in E1. split_and!; [done..|].
  unfold tame, same in E1. injection E1 as _ E1. unfold rt0 in *. congruence.
Qed.
Lemma enters_end Y : enters Y ((my_state <~ Y) ;; process_poll).
Proof. by intros s a s' [= _ <-]. Qed.

Lemma enters_election_revelation : enters ELECTION_REVELATION enter_election_revelation.
Proof.
  unfold enter_election_revelation, broadcast_stop, remove_value.
  repeat (apply enters_bind; [solve [tame_auto]|intros]). by intros st x st' [= _ <-].
Qed.
Local Ltac enters_auto := repeat first [apply enters_end | apply enters_bind; [solve [tame_auto]|intros]].
Lemma enters_election_declaration : enters ELECTION_DECLARATION enter_election_declaration.
Proof.
  unfold enter_election_declaration, polite_cancel, remove_value, polite_set_interval. enters_auto.
Qed.
Lemma enters_connection_revelation : enters CONNECTION_REVELATION enter_connection_revelation.
Proof. unfold enter_connection_revelation, polite_cancel, remove_value, radio. enters_auto. Qed.
Lemma enters_convergence : enters CONSENSUS_CONVERGENCE enter_convergence.
Proof. unfold enter_convergence, polite_cancel, remove_value. enters_auto. Qed.
Lemma enters_consensus_revelation : enters CONSENSUS_REVELATION enter_consensus_revelation.
Proof.
  unfold enter_consensus_revelation, polite_cancel, remove_value, polite_set_interval, radio. enters_auto.
Qed.
Lemma enters_consensus_synchronization : enters CONSENSUS_SYNCHRONIZATION enter_consensus_synchronization.
Proof. unfold enter_consensus_synchronization, polite_cancel, remove_value. enters_auto. Qed.

(** ** Arming the timer and entering *)

Definition arms {A} (Y : state_t) (m : M node A) : Prop := forall s a s' r,
  rt0 s = Some r -> m s = Ok (a, s') ->
  my_state s' = Y /\ needspoll s' = true /\ rt0 s' = Some (r <| rt_state := RTIMER_SINGLEPASS |>).

Lemma arms_bind {A B} Y (m : M node A) (k : A -> M node B) :
  post tame m -> (forall a, arms Y (k a)) -> arms Y (m ≫= k).
Proof.
  intros Hm Hk s b s' r Hr E. apply bind_inv in E as (a & s1 & E1 & E). apply Hm in E1.
  unfold tame, same in E1. injection E1 as _ E1.
  apply (Hk a s1 b s' r); [unfold rt0 in *; congruence|done].
Qed.
Lemma arms_end {B} Y (m : M node B) : enters Y m -> arms Y (set_rt_state RTIMER_SINGLEPASS ;; m).
Proof.
  intros Hm s b s' r Hr E. apply bind_inv in E as ([] & s1 & E1 & E).
  destruct (Hm _ _ _ E) as (H1 & H2 & H3). split_and!; [done..|]. rewrite H3.
  unfold set_rt_state, on_clock, zoom, upd_rt, modify in E1. injection E1 as <-.
  unfold rt0 in *. rsimpl. by rewrite list_lookup_alter_eq, Hr.
Qed.

Lemma schedule_date_ok d1 d2 c s s1 :
  schedule RTIMER_DATE d1 d2 c s = Ok (true, s1) ->
  my_state s1 = my_state s /\ exists r, rt0 s1 = Some r /\
    (not_single (clock (net s)) ->
     rt_func r = Some c /\ time_coarse_lg r = d1 /\ time_fine_lg r = d2).
Proof.
  unfold schedule. intros E. apply bind_inv in E as (v & s2 & E & Ev).
  injection Ev as Ev <-. unfold on_clock, zoom in E.
  destruct (rtimer_schedule _ _ _ _ _ _) as [[v' st]|] eqn:Es; [|done]. injection E as -> <-.
  split; [done|]. unfold rt0. rsimpl. pose proof Es as Es0. unfold rtimer_schedule in Es.
  cbn [RTIMER_0 NUM_OF_RTIMERS Nat.ltb Nat.leb negb] in Es.
  destruct ((d1 =? 0) && (d2 =? 0)) eqn:Ez; [by injection Es as <- <-|].
  apply bind_inv in Es as (r & st1 & E1 & Es). unfold get_rt in E1.
  destruct (rt (clock (net s)) !! RTIMER_0) as [r'|] eqn:Er; [|done]. injection E1 as <- <-.
  case_decide as Hs.
  - unfold upd_rt in Es. rewrite bind_modify in Es. injection Es as <- <-. rsimpl.
    rewrite list_lookup_alter_eq, Er. eexists. split; [done|]. intros Hn. exfalso. apply Hn. by exists r'.
  - assert (Hz : ~ (d1 = 0 /\ d2 = 0)) by (intros [-> ->]; done).
    destruct (rtimer_schedule_wp RTIMER_0 RTIMER_DATE d1 d2 (Some c) _ r' ltac:(unfold RTIMER_0, NUM_OF_RTIMERS; lia) Hz Er Hs _ st Es0)
      as (_ & _ & H).
    destruct H as [|st' cl fl cm fm q _ Hd _ Hrt]; [done|]. rewrite Hrt, list_lookup_alter_eq, Er.
    eexists. split; [done|]. intros _. injection (Hd eq_refl) as -> ->. done.
Qed.

(** ** Moves of computations *)

Definition advances {A} h v X (m : M node A) : Prop :=
  forall s a s', m s = Ok (a, s') -> step_to h v X s s'.

Lemma advances_stay {A} h v X (m : M node A) : post (same my_state) m -> advances h v X m.
Proof. intros Hm s a s' E. left. by apply Hm in E. Qed.

Lemma step_to_calm h v X s s1 s' : calm s s1 -> step_to h v X s1 s' -> step_to h v X s s'.
Proof.
  intros [E Hn] [H|(c & H1 & H2 & H3)]; [left; congruence|right]. exists c. split_and!; [done..|].
  destruct c as [c|]; [|done]. destruct H3 as (r & H3 & H4 & H5). exists r. split_and!; [done..|auto].
Qed.
Lemma advances_bind {A B} h v X (m : M node A) (k : A -> M node B) :
  post calm m -> (forall a, advances h v X (k a)) -> advances h v X (m ≫= k).
Proof.
  intros Hm Hk s b s' E. apply bind_inv in E as (a & s1 & E1 & E).
  eapply step_to_calm; [by eapply Hm|by eapply Hk].
Qed.
Lemma advances_when h v X b (m : M node unit) : (b = true -> advances h v X m) -> advances h v X (when b m).
Proof. intros H. destruct b; [by apply H|]. apply advances_stay, post_skip. exact _. Qed.

(** Schedule the end of the phase at the date announced, then enter the phase. *)
Lemma advances_schedule h v X c Y (m : M node unit) :
  handler_target h (av_instr v) X = Some (Some c, Y) -> arms Y m ->
  advances h v X (ok ← schedule RTIMER_DATE (av_date_coarse v) (av_date_fine v) c; when ok m).
Proof.
  intros Ht Hm s [] s' E. apply bind_inv in E as (ok & s1 & E1 & E). destruct ok.
  - apply schedule_date_ok in E1 as (H1 & r & H2 & H3). destruct (Hm _ _ _ _ H2 E) as (H4 & H5 & H6).
    right. exists (Some c). rewrite H4. split_and!; [done..|]. eexists. split_and!; [exact H6|done|exact H3].
  - injection E as <-. left. unfold schedule in E1. apply bind_inv in E1 as (z & s2 & E1 & E2).
    injection E2 as _ <-. unfold on_clock, zoom in E1. destruct (rtimer_schedule _ _ _ _ _ _) as [[]|]; [|done].
    by injection E1 as _ <-.
Qed.
(** ** The parts of the handlers that stay in the phase *)

Lemma calm_stays {A} (m : M node A) : post calm m -> post (same my_state) m.
Proof. intros H s a s' E. by apply H in E as [E _]. Qed.
Lemma calm_packetbuf_strong : post calm strong_signal.
Proof. unfold strong_signal. calm_auto. Qed.
Lemma calm_schedule i d1 d2 c : post calm (schedule i d1 d2 c).
Proof. unfold schedule. post_auto. apply calm_clock, schedule_not_single. Qed.
Lemma calm_compare i d1 d2 : post calm (on_clock (rtimer_compare i d1 d2)).
Proof. apply calm_clock_rt. unfold rtimer_compare. post_auto. apply get_rt_same. Qed.
Lemma stays_set_rt_state x : post (same my_state) (set_rt_state x).
Proof. unfold set_rt_state, on_clock. by repeat apply post_zoom_any. Qed.
Lemma tame_push v : post tame (push_memb v).
Proof. unfold push_memb. tame_auto. Qed.
Hint Resolve calm_schedule calm_compare stays_set_rt_state tame_push : post.
Local Ltac stays_step := first
  [ progress post_auto | by apply post_modify | apply calm_stays; solve [calm_auto]
  | apply post_modify; intros; unfold same; repeat case_match; reflexivity ].
Local Ltac stays_auto := repeat stays_step.

Lemma tame_leave : post tame leave_discovery.
Proof. unfold leave_discovery, broadcast_stop, remove_value, polite_init. tame_auto. Qed.
Lemma tame_handle v n : post tame (handle v n).
Proof. unfold handle. tame_auto. Qed.
Hint Resolve tame_leave tame_handle : post.

Lemma stays_all_synced : post (same my_state) csync_all_synced.
Proof.
  unfold csync_all_synced. apply post_bind; [exact _|by apply post_gets; exact _|]. intros l.
  induction l as [|i l IH]; stays_auto.
Qed.
Hint Resolve stays_all_synced : post.
Lemma stays_discovery a v : post (same my_state) (discovery_in_DISCOVERY a v).
Proof. unfold discovery_in_DISCOVERY, copy_date. stays_auto. Qed.

Lemma stays_accuse a : post (same my_state) (accuse a).
Proof. unfold accuse, enter_byzantine_consensus. stays_auto. Qed.
Hint Resolve stays_accuse : post.
Lemma stays_synchronization t v n : post (same my_state) (synchronization_in_CONSENSUS_SYNCHRONIZATION t v n).
Proof.
  unfold synchronization_in_CONSENSUS_SYNCHRONIZATION, synchronization_at_CB, synchronization_at_CH,
    synchronization_at_CM, byzantine_voice, blacklisted, get_role, relay_date, copy_date, polite_cancel,
    enter_byzantine_consensus.
  stays_auto.
Qed.
Lemma stays_sync_discovery v n : post (same my_state) (synchronization_in_DISCOVERY v n).
Proof. unfold synchronization_in_DISCOVERY, set_role. stays_auto. Qed.

(** ** The parts that move *)

Lemma arms_enters_bind {B} Y (m1 : M node B) (m : M node unit) :
  post tame m1 -> enters Y m -> arms Y (set_rt_state RTIMER_SINGLEPASS ;; m1 ;; m).
Proof. intros H1 Hm. apply arms_end, enters_bind; auto. Qed.

Local Ltac target_auto :=
  cbn [handler_target]; repeat match goal with H : (_ =? _) = _ |- _ => rewrite H end; reflexivity.
Local Ltac advance_step := first
  [ eapply advances_schedule; [solve [target_auto]|]
  | apply advances_bind; [solve [calm_auto]|intros]
  | apply advances_when; intros
  | apply advances_stay; solve [stays_auto] ].
Local Ltac advance_auto := repeat advance_step.

Lemma advances_declaration_discovery v n :
  advances Received_declaration v DISCOVERY (declaration_in_DISCOVERY v n).
Proof.
  unfold declaration_in_DISCOVERY, set_role, polite_cancel. advance_auto.
  destruct (av_instr v =? state_val CONNECTION_DECLARATION) eqn:E1.
  - intros st x st' [= _ <-]. right. exists None. split; [target_auto|done].
  - advance_auto. apply arms_bind; [solve [tame_auto]|intros _]. apply arms_end, enters_election_declaration.
Qed.
Lemma advances_declaration_erev v :
  advances Received_declaration v ELECTION_REVELATION (declaration_in_ELECTION_REVELATION v).
Proof.
  unfold declaration_in_ELECTION_REVELATION, polite_cancel. advance_auto.
  apply arms_end, enters_election_declaration.
Qed.
Lemma advances_declaration_edec a v n s x s' :
  my_state s = ELECTION_DECLARATION -> declaration_in_ELECTION_DECLARATION a v n s = Ok (x, s') ->
  step_to Received_declaration v ELECTION_DECLARATION s s'.
Proof.
  intros Hs. unfold declaration_in_ELECTION_DECLARATION. rewrite bind_gets, Hs.
  destruct (av_instr v =? state_val ELECTION_DECLARATION) eqn:E1.
  - apply advances_stay. unfold precedes_me, polite_cancel. stays_auto.
  - assert (H : advances Received_declaration v ELECTION_DECLARATION
      (when (av_instr v =? state_val CONNECTION_DECLARATION)
        (polite_cancel ;;
         ok ← schedule RTIMER_DATE (av_date_coarse v) (av_date_fine v) Enter_convergence;
         when ok (set_rt_state RTIMER_SINGLEPASS ;; on_CHs bl_list_init ;; enter_connection_revelation))));
      [|apply H].
    unfold polite_cancel. advance_auto.
    apply arms_enters_bind; [solve [tame_auto]|apply enters_connection_revelation].
Qed.
Lemma advances_revelation_discovery v n :
  advances Received_revelation v DISCOVERY (revelation_in_DISCOVERY v n).
Proof.
  unfold revelation_in_DISCOVERY, set_role, polite_cancel, precedes_me. advance_auto.
  destruct (av_instr v =? state_val ELECTION_REVELATION) eqn:E1; advance_auto.
  { apply arms_end, enters_election_revelation. }
  destruct (av_instr v =? state_val CONNECTION_REVELATION) eqn:E2; advance_auto.
  - apply arms_enters_bind; [solve [tame_auto]|apply enters_connection_revelation].
  - apply arms_end. apply enters_bind; [solve [tame_auto]|intros _].
    apply enters_bind; [solve [tame_auto]|intros len].
    apply enters_bind; [solve [tame_auto]|intros _]. apply enters_consensus_revelation.
Qed.
Lemma advances_revelation_convergence v n :
  advances Received_revelation v CONSENSUS_CONVERGENCE (revelation_in_CONSENSUS_CONVERGENCE v n).
Proof.
  unfold revelation_in_CONSENSUS_CONVERGENCE, polite_cancel, get_role. advance_auto.
  apply arms_end. enters_auto.
Qed.
Lemma advances_convergence v n :
  advances Received_convergence v CONNECTION_DECLARATION (convergence_in_CONNECTION_DECLARATION v n).
Proof.
  unfold convergence_in_CONNECTION_DECLARATION, join_cluster, polite_cancel, get_role, set_role. advance_auto.
  apply arms_enters_bind; [solve [tame_auto]|apply enters_convergence].
Qed.
Lemma advances_synchronization v n :
  advances Received_synchronization v CONSENSUS_REVELATION (synchronization_in_CONSENSUS_REVELATION v n).
Proof.
  unfold synchronization_in_CONSENSUS_REVELATION, polite_cancel, get_role. advance_auto.
  apply arms_end. enters_auto.
Qed.

(** ** The handlers *)

(** A handler goes on from the preamble, in the same phase. *)
Lemma handler_sender h v (pre : M node (option nat)) (k : nat -> M node unit) s s' :
  post calm pre ->
  (forall n s1, my_state s1 = my_state s -> k n s1 = Ok (tt, s') -> step_to h v (my_state s) s1 s') ->
  (n ← pre; match n with None => skip | Some n => k n end) s = Ok (tt, s') ->
  step_to h v (my_state s) s s'.
Proof.
  intros Hp Hk E. apply bind_inv in E as (o & s1 & E1 & E). apply Hp in E1 as Hc.
  apply (step_to_calm _ _ _ _ s1 _ Hc). destruct o as [n|].
  - apply (Hk n); [apply Hc|done].
  - injection E as <-. by left.
Qed.

Lemma stays_sender_role (on : forall B, M (blist chb) B -> M node B) n l r :
  (forall B (m : M (blist chb) B), post tame (on B m)) -> post (same my_state) (sender_role on n l r).
Proof.
  intros Hon. unfold sender_role, update_neighbour_role, check_mod_neighbours.
  apply post_bind; [exact _|apply calm_stays, tame_calm, Hon|]. intros ids.
  revert r. induction ids as [|i ids IH]; intros r; stays_auto; try apply IH; try (apply calm_stays, tame_calm, Hon).
  apply calm_stays, calm_for_neighbours. intros. tame_auto.
Qed.
Lemma stays_convergence a v n : post (same my_state) (convergence_in_CONSENSUS_CONVERGENCE a v n).
Proof.
  unfold convergence_in_CONSENSUS_CONVERGENCE, acknowledge_slot, get_role, polite_cancel.
  stays_auto; try (apply stays_sender_role; intros; auto with post).
  apply calm_stays, tame_calm, tame_for_blocks; intros; tame_auto.
Qed.
Lemma stays_convergence_synchronization v n :
  post (same my_state) (convergence_in_CONSENSUS_SYNCHRONIZATION v n).
Proof.
  unfold convergence_in_CONSENSUS_SYNCHRONIZATION, join_cluster, enter_discovery, polite_cancel,
    polite_stop, get_role, set_role.
  stays_auto.
Qed.

Local Ltac stays_case H := left; revert H; lazymatch goal with |- ?m ?s1 = _ -> my_state ?s' = _ =>
  let P := fresh in assert (P : post (same my_state) m);
  [|let H' := fresh in intros H'; apply P in H'; exact H'] end.

Lemma discovery_moves a from v sync s s' :
  received_discovery_announcement a from v sync s = Ok (tt, s') ->
  step_to Received_discovery v (my_state s) s s'.
Proof.
  intros E. eapply handler_sender; [apply calm_sender| |exact E]. intros n s1 H1 H. cbv beta in H.
  pose proof stays_discovery. stays_case H. stays_auto; auto.
Qed.
Lemma declaration_moves a from v sync s s' :
  received_declaration_announcement a from v sync s = Ok (tt, s') ->
  step_to Received_declaration v (my_state s) s s'.
Proof.
  intros E. eapply handler_sender; [apply calm_sender| |exact E]. intros n s1 H1 H. cbv beta in H.
  rewrite bind_gets, H1 in H. destruct (my_state s) eqn:Es; try (by injection H as <-; left).
  - by apply advances_declaration_discovery in H.
  - by apply advances_declaration_erev in H.
  - by apply advances_declaration_edec in H.
  - stays_case H. unfold declaration_in_CONNECTION_DECLARATION, get_role. stays_auto.
Qed.
Lemma revelation_moves a from v sync s s' :
  received_revelation_announcement a from v sync s = Ok (tt, s') ->
  step_to Received_revelation v (my_state s) s s'.
Proof.
  intros E. eapply handler_sender; [apply calm_sender| |exact E]. intros n s1 H1 H. cbv beta in H.
  rewrite bind_gets, H1 in H. destruct (my_state s) eqn:Es; try (by injection H as <-; left).
  - by apply advances_revelation_discovery in H.
  - stays_case H. unfold revelation_in_ELECTION_REVELATION, precedes_me, polite_cancel. stays_auto.
  - stays_case H. unfold revelation_in_CONNECTION_REVELATION, get_role, precedes_me. stays_auto.
  - by apply advances_revelation_convergence in H.
  - stays_case H. unfold revelation_in_CONSENSUS_REVELATION, get_role. stays_auto.
Qed.
Lemma convergence_moves a from v sync s s' :
  received_convergence_announcement a from v sync s = Ok (tt, s') ->
  step_to Received_convergence v (my_state s) s s'.
Proof.
  intros E. eapply handler_sender; [apply calm_sender| |exact E]. intros n s1 H1 H. cbv beta in H.
  rewrite bind_gets, H1 in H. destruct (my_state s) eqn:Es; try (by injection H as <-; left).
  - by apply advances_convergence in H.
  - left. by apply stays_convergence in H.
  - left. by apply stays_convergence_synchronization in H.
Qed.
Lemma synchronization_moves a from v sync s s' :
  received_synchronization_announcement a from v sync s = Ok (tt, s') ->
  step_to Received_synchronization v (my_state s) s s'.
Proof.
  unfold received_synchronization_announcement. rewrite !bind_gets. cbv zeta.
  intros E. apply bind_inv in E as (st & s1 & E1 & E).
  assert (Hc : calm s s1) by (revert E1; apply calm_packetbuf_strong).
  destruct (st && _); [injection E as <-; left; apply Hc|].
  apply (step_to_calm _ _ _ _ s1 _ Hc). rewrite <- (proj1 Hc).
  eapply handler_sender; [apply calm_sender| |exact E]. intros n s2 H1 H. cbv beta in H.
  rewrite bind_gets, H1 in H. destruct (my_state s1) eqn:Es; try (by injection H as <-; left).
  - left. by apply stays_sync_discovery in H.
  - by apply advances_synchronization in H.
  - left. by apply stays_synchronization in H.
Qed.

Lemma handler_steps h a from id v sync e s s' :
  call_handler h a from id v sync e s = Ok (tt, s') ->
  step_to h v (my_state s) s s' /\ state_val (my_state s) <= state_val (my_state s').
Proof.
  intros E. assert (H : step_to h v (my_state s) s s').
  2:{ split; [done|]. destruct H as [->|(c & H & _)]; [lia|]. apply handler_target_later in H. lia. }
  destruct h.
  - exact (discovery_moves a from v sync s s' E).
  - exact (revelation_moves a from v sync s s' E).
  - exact (declaration_moves a from v sync s s' E).
  - exact (convergence_moves a from v sync s s' E).
  - exact (synchronization_moves a from v sync s s' E).
Qed.

End phases.

(** Node 70 in the election, with the synchronised neighbour 69, which declares
    itself cluster head until the date (100, 5). *)
Definition phases_reads : list reg_read := replicate 40 (mk_reg_read 104 8192 101 9000 4096).
Definition phases_frame : timesync_frame_t :=
  match rtimer_sync_send (DF := binary32) (clock_boot (DF := binary32) phases_reads) with
  | Ok (f, _) => f
  | Err _ => mk_timesync 0 0 (d_of_Z (DF := binary32) 1) (d_of_Z (DF := binary32) 1) 0 0 0 0 0
  end.
Definition phases_value (instr : Z) : announcement_value :=
  mk_value instr 3 100 5 69 (d_of_Z (DF := binary32) 1).
Definition phases_example : node :=
  (node_boot (DF := binary32) 70 phases_reads (fun _ => 0) (fun _ => 1))
    <| my_addr := 70 |> <| my_degree := 2 |> <| my_state := ELECTION_REVELATION |>
    <| net ::= fun t => t <| queue ::= fun q => q <| qu_packetbuf ::= fun p =>
         p <| packetbuf_attrs ::= <[PACKETBUF_ATTR_RSSI := 65500]> |> |> |> |>
    <| mod_neighbour_list := [0%nat] |>
    <| neighbour_memb ::= fun p => mk_pool (<[0%nat := 1]> (pl_count p)) (<[0%nat :=
         neighbour_zero <| n_addr := 69 |> <| n_degree := 3 |> <| n_synced := 1 |>
           <| relative_rate := d_of_Z (DF := binary32) 0 |>]> (pl_blocks p)) |>.

