(* ===== verification/Callbacks.v ===== *)
(** * Callbacks: what the real-time timer does to a node

    The callbacks of the timer return whenever the tables of the node are well
    formed; they enter the phase they are named after, leave no packet behind and
    poll the process. *)
From stdpp Require Import numbers option list.
From S2P Require Import Prelude Lists Memb CDouble Rtimer Packetbuf Announcement Announcers CSync Gtsp Cluster Handlers HandleLists Travel Frames Phases.

Section callbacks.
Context {DF : DoubleFormat}.
Implicit Types s : node.

(** The tables a callback goes through. *)
Record callback_ready s : Prop := {
  cr_hold : hold_wf (net s);
  cr_timer : is_Some (rt0 s);
  cr_announcements : length (an_vars (ann (net s))) = 5%nat;
  cr_listed : Forall (fun i => is_Some (pl_blocks (neighbour_memb s) !! i)) (mod_neighbour_list s);
}.

(** The packet held back. *)
Definition held s : option nat := ip_q (ip (net s)).

(** The phase a callback leads to. *)
Definition callback_target (c : callback_t) s : state_t :=
  match c with
  | Enter_election_revelation => ELECTION_REVELATION
  | Enter_election_declaration => ELECTION_DECLARATION
  | Enter_connection_revelation => CONNECTION_REVELATION
  | Enter_connection_declaration => CONNECTION_DECLARATION
  | Enter_convergence => CONSENSUS_CONVERGENCE
  | Enter_convergence_slot =>
      if my_cons_slot s <? NUM_CONS_SLOTS then my_state s else CONSENSUS_REVELATION
  | Enter_consensus_revelation => CONSENSUS_REVELATION
  | Enter_consensus_synchronization => CONSENSUS_SYNCHRONIZATION
  | Enter_synchronization_slot =>
      if ref_n_CHB_degree s - 1 <? NUM_CONS_SLOTS then my_state s else IDLE
  | Enter_idle => IDLE
  | Enter_discovery => my_state s
  end.

(** Total runs. *)
Definition does {A} (m : M node A) s (Q : node -> Prop) : Prop := exists a s', m s = Ok (a, s') /\ Q s'.
Lemma does_bind {A B} (m : M node A) (k : A -> M node B) s Q R :
  does m s R -> (forall a s', R s' -> does (k a) s' Q) -> does (m ≫= k) s Q.
Proof.
  intros (a & s' & E & H) Hk. destruct (Hk a s' H) as (b & s2 & E2 & H2).
  exists b, s2. by rewrite (bind_Ok _ _ _ _ _ E).
Qed.
Lemma does_run {A B} (m : M node A) (k : A -> M node B) s a s1 Q :
  m s = Ok (a, s1) -> does (k a) s1 Q -> does (m ≫= k) s Q.
Proof. intros E H. unfold does. by rewrite (bind_Ok _ _ _ _ _ E). Qed.
Lemma does_modify f s (Q : node -> Prop) : Q (f s) -> does (modify f) s Q.
Proof. intros H. by exists tt, (f s). Qed.
Lemma does_mono {A} (m : M node A) s (Q R : node -> Prop) : does m s Q -> (forall s', Q s' -> R s') -> does m s R.
Proof. intros (a & s' & E & H) HR. exists a, s'. auto. Qed.

(** Only the network changes, and it stays in order. *)
Definition quiet s s' : Prop := callback_ready s' /\ s' <| net := net s |> = s.
Lemma quiet_net s t : callback_ready s -> hold_wf t -> rt (clock t) = rt (clock (net s)) ->
  length (an_vars (ann t)) = 5%nat -> quiet s (s <| net := t |>).
Proof.
  intros [H1 H2 H3 H4] Ht Hr Ha. split; [split; [done| |done|exact H4]|by destruct s].
  unfold rt0 in *. rsimpl. by rewrite Hr.
Qed.

Lemma same_ann_cancel : post (same ann) (polite_announcement_cancel (F := callback_t) (CB := handler_t)).
Proof.
  unfold polite_announcement_cancel, upd_pa, ipolite_cancel, ipolite_free_q, upd_ip.
  repeat first [progress post_auto|by apply post_modify|by apply post_zoom_any].
Qed.
Lemma same_ann_close : post (same ann) (polite_announcement_stop (F := callback_t) (CB := handler_t)).
Proof.
  unfold polite_announcement_stop, ipolite_cancel, ipolite_close, ipolite_free_q, upd_ip, broadcast_close,
    channel_close.
  repeat first [progress post_auto|by apply post_modify|by apply post_zoom_any].
Qed.

Lemma hold_wf_held (t : net_st callback_t handler_t) : hold_wf t -> held_wf t.
Proof. by intros [H _]. Qed.
Lemma held_wf_ip (t : net_st callback_t handler_t) f :
  ip_q (f (ip t)) = ip_q (ip t) -> held_wf t -> held_wf (t <| ip ::= f |>).
Proof. intros E []. split; [done|done|]. intros q. rsimpl. rewrite E. auto. Qed.

Lemma zoom_does (m : M (net_st callback_t handler_t) unit) s t :
  m (net s) = Ok (tt, t) -> zoom net m s = Ok (tt, s <| net := t |>).
Proof. intros E. unfold zoom. by rewrite E. Qed.

Lemma cancel_does s : callback_ready s -> does polite_cancel s (fun s' => quiet s s' /\ held s' = None).
Proof.
  intros H. pose proof (cr_hold s H) as Hw. set (t0 := (net s) <| pa ::= fun c => c <| pa_last_event := PENDING |> <| pa_send_dups := 255 |> |>).
  destruct (stop_ok (t0 <| ip ::= fun c => c <| ip_t := None |> |>)) as (t & E & Hw' & Hq & _).
  { apply held_wf_ip; [done|]. destruct Hw as [[] _]. by split. } { done. }
  assert (E' : polite_announcement_cancel (net s) = Ok (tt, t)).
  { unfold polite_announcement_cancel, upd_pa, ipolite_cancel, upd_ip. rewrite !bind_modify. exact E. }
  exists tt, (s <| net := t |>). split; [by apply zoom_does|]. split; [|exact Hq].
  apply quiet_net; [done|done| |].
  - apply clocked_polite_cancel in E'. unfold same in E'. by rewrite E'.
  - apply same_ann_cancel in E'. unfold same in E'. by rewrite E', (cr_announcements s H).
Qed.

Lemma stop_does s : callback_ready s -> does polite_stop s (fun s' => quiet s s' /\ held s' = None).
Proof.
  intros H. pose proof (cr_hold s H) as Hw.
  destruct (stop_ok ((net s) <| ip ::= fun c => c <| ip_t := None |> |>)) as (t & E & Hw' & Hq & _).
  { by apply held_wf_ip, hold_wf_held. } { done. }
  destruct (stop_ok (t <| channel_list ::= seq_remove CONN_POLITE |> <| ip ::= fun c => c <| ip_t := None |> |>))
    as (t' & E2 & Hw2 & Hq2 & _).
  { apply held_wf_ip; [done|]. destruct Hw' as [[] _]. by split. } { done. }
  assert (E' : polite_announcement_stop (net s) = Ok (tt, t')).
  { unfold polite_announcement_stop. erewrite bind_Ok; [|unfold ipolite_cancel, upd_ip; rewrite bind_modify; exact E].
    unfold ipolite_close, upd_ip, broadcast_close, channel_close. rewrite !bind_modify. exact E2. }
  exists tt, (s <| net := t' |>). split; [by apply zoom_does|]. split; [|exact Hq2].
  apply quiet_net; [done|done| |].
  - apply clocked_polite_stop in E'. unfold same in E'. by rewrite E'.
  - apply same_ann_close in E'. unfold same in E'. by rewrite E', (cr_announcements s H).
Qed.

(** ** Steps that always return *)

(** What the callbacks decide on. *)
Definition data s := (my_state s, my_cons_slot s, ref_n_CHB_degree s).
Definition steady s s' : Prop := callback_ready s' /\ held s' = held s /\ data s' = data s.
Definition safe {A} (m : M node A) : Prop := forall s, callback_ready s -> does m s (steady s).
(** The end of a callback that leads to [Y] and holds the packet [h]. *)
Definition lands (Y : state_t) (h : option nat) s' : Prop :=
  callback_ready s' /\ held s' = h /\ my_state s' = Y /\ needspoll s' = true.

Lemma safe_bind {A B} (m : M node A) (k : A -> M node B) s Q : safe m -> callback_ready s ->
  (forall a s1, callback_ready s1 -> held s1 = held s -> data s1 = data s -> does (k a) s1 Q) ->
  does (m ≫= k) s Q.
Proof. intros Hm H Hk. apply (does_bind _ _ _ _ _ (Hm s H)). intros a s1 (H1 & H2 & H3). auto. Qed.
Lemma safe_modify f : (forall s, net (f s) = net s /\ neighbour_memb (f s) = neighbour_memb s
    /\ mod_neighbour_list (f s) = mod_neighbour_list s /\ data (f s) = data s) -> safe (modify f).
Proof.
  intros Hf s [H1 H2 H3 H4]. destruct (Hf s) as (E1 & E2 & E3 & E4). apply does_modify.
  split; [split; unfold rt0 in *; rewrite ?E1, ?E2, ?E3; assumption|]. split; [|exact E4].
  unfold held. by rewrite E1.
Qed.
Lemma safe_gets {A} (f : node -> A) : safe (gets f).
Proof. intros s H. exists (f s), s. by split. Qed.
Lemma safe_gets_bind {A B} (f : node -> A) (k : A -> M node B) s Q : does (k (f s)) s Q -> does (gets f ≫= k) s Q.
Proof. intros H. unfold does. by rewrite bind_gets. Qed.

(** A step on the network. *)
Lemma safe_net (m : M (net_st callback_t handler_t) unit) :
  (forall t, exists t', m t = Ok (tt, t') /\ hold_view t' = hold_view t /\ rt (clock t') = rt (clock t)
    /\ length (an_vars (ann t')) = length (an_vars (ann t))) -> safe (zoom net m).
Proof.
  intros Hm s H. destruct (Hm (net s)) as (t & E & E1 & E2 & E3).
  exists tt, (s <| net := t |>). split; [by apply zoom_does|].
  destruct (hold_wf_view _ _ E1 (cr_hold s H)) as [Hw _].
  destruct (quiet_net s t H Hw E2) as [Hr _]; [by rewrite E3, (cr_announcements s H)|].
  split; [exact Hr|]. split; [|reflexivity]. by injection E1 as _ E1 _.
Qed.

Lemma safe_radio b : safe (radio b).
Proof. apply safe_modify. by intros. Qed.
Lemma safe_set_interval i : safe (polite_set_interval i).
Proof. apply safe_net. intros t. eexists. split; [reflexivity|]. by destruct t. Qed.
Lemma safe_set_attr n v : safe (set_attr n v).
Proof. apply safe_net. intros t. eexists. split; [reflexivity|]. by destruct t. Qed.
Lemma safe_broadcast_stop : safe broadcast_stop.
Proof. apply safe_net. intros t. eexists. split; [reflexivity|]. by destruct t. Qed.
Lemma safe_llsec : safe llsec_restart.
Proof. apply safe_modify. by intros. Qed.
Lemma safe_leds_off l : safe (leds_off l).
Proof.
  intros s H. apply safe_gets_bind. apply (safe_modify (fun s => s <| leds := _ |>)); [by intros|done].
Qed.
Lemma safe_schedule_ref : safe set_schedule_ref.
Proof.
  intros s H. destruct (cr_timer s H) as [r Hr]. unfold set_schedule_ref.
  apply (does_run _ _ s r s).
  { unfold on_clock, zoom, get_rt, rt0 in *. rewrite Hr. by destruct s as [[]]. }
  clear Hr. revert s H. apply safe_net. intros t. eexists. split; [reflexivity|].
  by destruct t as [[]].
Qed.
Lemma safe_remove_value a : (a < 5)%nat -> safe (remove_value a).
Proof.
  intros Ha s H. pose proof (cr_announcements s H) as Hn.
  destruct (an_vars (ann (net s)) !! a) as [x|] eqn:Ex.
  2:{ apply lookup_ge_None in Ex. lia. }
  set (t := (net s) <| ann ::= fun st => st <| an_vars ::= alter (fun x => x <| an_has_value := 0 |>) a |> |>).
  exists tt, (s <| net := t |>). split.
  { apply zoom_does. unfold zoom, announcement_remove_value, upd_an, get_an.
    unfold mbind, M_bind. rewrite Ex. reflexivity. }
  split; [|done]. apply quiet_net; [exact H| |done|].
  - destruct (hold_wf_view (net s) t eq_refl (cr_hold s H)) as [Hw _]. exact Hw.
  - etransitivity; [apply length_alter|exact Hn].
Qed.
Lemma safe_update_placing : safe csync_update_placing.
Proof.
  intros s H. eexists tt, _. split.
  - unfold csync_update_placing. rewrite bind_modify, bind_gets. apply update_placing_fold; [|rsimpl; lia].
    rsimpl. exact (cr_listed s H).
  - destruct H. by split.
Qed.

Lemma cancel_lands {B} (k : unit -> M node B) s Y : callback_ready s ->
  (forall s1, callback_ready s1 -> held s1 = None -> data s1 = data s -> does (k tt) s1 (lands Y None)) ->
  does (polite_cancel ≫= k) s (lands Y None).
Proof.
  intros H Hk. apply (does_bind _ _ _ _ _ (cancel_does s H)). intros [] s1 [[Hr Hs] Hh].
  apply Hk; [done..|]. by rewrite <- Hs.
Qed.
Lemma stop_lands {B} (k : unit -> M node B) s Y : callback_ready s ->
  (forall s1, callback_ready s1 -> held s1 = None -> data s1 = data s -> does (k tt) s1 (lands Y None)) ->
  does (polite_stop ≫= k) s (lands Y None).
Proof.
  intros H Hk. apply (does_bind _ _ _ _ _ (stop_does s H)). intros [] s1 [[Hr Hs] Hh].
  apply Hk; [done..|]. by rewrite <- Hs.
Qed.
Lemma lands_end s Y : callback_ready s -> does ((my_state <~ Y) ;; process_poll) s (lands Y (held s)).
Proof. intros []. eexists tt, _. split; [reflexivity|]. by split. Qed.
Lemma lands_poll s : callback_ready s -> does process_poll s (lands (my_state s) (held s)).
Proof. intros []. eexists tt, _. split; [reflexivity|]. by split. Qed.

Lemma safe_lands {A B} (m : M node A) (k : A -> M node B) s Y h : safe m -> callback_ready s ->
  held s = h -> (forall a s1, callback_ready s1 -> held s1 = h -> data s1 = data s -> does (k a) s1 (lands Y h)) ->
  does (m ≫= k) s (lands Y h).
Proof. intros Hm H <- Hk. by apply (safe_bind _ _ _ _ Hm H). Qed.
Hint Resolve safe_radio safe_set_interval safe_set_attr safe_broadcast_stop safe_llsec safe_leds_off
  safe_schedule_ref safe_update_placing safe_gets : post.
Hint Extern 1 (safe (remove_value _)) => apply safe_remove_value; vm_compute; lia : post.
Hint Extern 1 (safe (modify _)) => apply safe_modify; by intros : post.

Local Ltac run_step := first
  [ match goal with Hh : held ?s = ?h |- does _ ?s (lands _ ?h) => rewrite <- Hh; by apply lands_end end
  | apply cancel_lands; [done|intros]
  | apply stop_lands; [done|intros]
  | apply safe_lands; [solve [auto with post]|done|done|intros] ].
Local Ltac run_auto := repeat run_step.

(** The packet a callback leaves behind. *)
Definition callback_held (c : callback_t) s : option nat :=
  match c with Enter_election_revelation => held s | _ => None end.

Lemma consensus_revelation_lands s : callback_ready s ->
  does enter_consensus_revelation s (lands CONSENSUS_REVELATION None).
Proof. intros H. unfold enter_consensus_revelation. run_auto. Qed.
Lemma when_lands b (m : M node unit) {B} (k : unit -> M node B) s Y h : safe m -> callback_ready s ->
  held s = h -> (forall s1, callback_ready s1 -> held s1 = h -> data s1 = data s -> does (k tt) s1 (lands Y h)) ->
  does (when b m ≫= k) s (lands Y h).
Proof.
  intros Hm H Hh Hk. apply (safe_lands _ _ _ _ _); [|done|done|intros []; auto].
  destruct b; [exact Hm|]. intros s1 H1. exists tt, s1. by split.
Qed.
Lemma safe_two (m1 m2 : M node unit) : safe m1 -> safe m2 -> safe (m1 ;; m2).
Proof.
  intros H1 H2 s H. apply (safe_bind _ _ _ _ H1 H). intros [] s1 Hr E1 E2.
  apply (does_mono _ _ _ _ (H2 s1 Hr)). intros s2 (? & ? & ?). split; [done|]. split; congruence.
Qed.
Lemma idle_lands s : callback_ready s -> does enter_idle s (lands IDLE None).
Proof.
  intros H. unfold enter_idle. run_auto. apply when_lands; [|done|done|intros; run_auto].
  apply safe_two; auto with post.
Qed.

Lemma run_callback_lands c s : callback_ready s ->
  does (run_callback c) s (lands (callback_target c s) (callback_held c s)).
Proof.
  intros H. destruct c; cbn [run_callback callback_target callback_held].
  - unfold enter_election_revelation. generalize (eq_refl (held s)). generalize (held s) at 2 3.
    intros h Hh. run_auto. destruct H6. eexists tt, _. split; [reflexivity|]. by split.
  - unfold enter_election_declaration. run_auto.
  - unfold enter_connection_revelation. run_auto.
  - unfold enter_connection_declaration. run_auto.
  - unfold enter_convergence. run_auto.
  - unfold enter_convergence_slot. apply cancel_lands; [done|]. intros s1 H1 H2 [= E1 E2 E3].
    apply safe_gets_bind. rewrite E2. destruct (_ <? _); [|by apply consensus_revelation_lands].
    rewrite <- E1. destruct H1. eexists tt, _. split; [reflexivity|]. by split.
  - by apply consensus_revelation_lands.
  - unfold enter_consensus_synchronization. run_auto.
  - unfold enter_synchronization_slot. apply cancel_lands; [done|]. intros s1 H1 H2 [= E1 E2 E3].
    apply safe_gets_bind. rewrite E3. destruct (_ <? _); [|by apply idle_lands].
    rewrite <- E1, <- H2. by apply lands_poll.
  - by apply idle_lands.
  - unfold enter_discovery. run_auto. match goal with H1 : callback_ready ?s2 |- does _ ?s2 _ =>
      replace (my_state s) with (my_state s2) by (unfold data in *; congruence); destruct H1 end.
    eexists tt, _. split; [reflexivity|]. by split.
Qed.

End callbacks.

(** The node of [phases_example] with a packet held back. *)
Definition callbacks_example : node := phases_example
  <| net ::= fun t => t <| ann ::= fun a => a <| announcements := [1%nat; 2%nat] |> |>
    <| ip := ip hold_example |>
    <| queue ::= fun q => q <| bufmem := bufmem (queue hold_example) |> |> |>.
