(* ===== verification/Rounds.v ===== *)
(** * Rounds: the process of a node

    The loops of the process without a yield end on their own; the process goes
    from one yield to the next ones of a table; it changes the protocol state only
    where a round restarts; where it waits for the timer, the timer is armed,
    except after a missed slot. *)
From stdpp Require Import numbers option sets list.
From S2P Require Import Prelude Memb CDouble Rtimer Packetbuf Announcement Announcers CSync Gtsp Cluster Handlers Frames Phases Process.

Section rounds.
Context {DF : DoubleFormat}.
Implicit Types s : node.

(** What the process decides on. *)
Definition phase s := (my_state s, cons_ctrl_counter s).
Definition ctl s := (phase s, my_cons_slot s, ref_n_CHB_degree s).
Local Abbreviation still := (post (same ctl)).
Local Abbreviation level := (post (same phase)).

Lemma still_level {A} (m : M node A) : still m -> level m.
Proof. intros H s a s' E. apply H in E. unfold same, ctl in *. congruence. Qed.
Lemma still_net {A} (m : M (net_st callback_t handler_t) A) : still (zoom net m).
Proof. by apply post_zoom_any. Qed.
Lemma still_clock {A} (m : M (rtimer_st callback_t) A) : still (on_clock m).
Proof. apply still_net. Qed.
Lemma still_ann {A} (m : M (announcement_st handler_t observer_t) A) : still (on_ann m).
Proof. apply still_net. Qed.
Lemma still_cluster {A} (m : M cluster_t A) : still (on_cluster m).
Proof. by apply post_zoom_any. Qed.
Lemma still_CHs {A} (m : M (blist chb) A) : still (on_CHs m).
Proof. apply still_cluster. Qed.
Lemma still_CBs {A} (m : M (blist chb) A) : still (on_CBs m).
Proof. apply still_cluster. Qed.
Hint Resolve still_net still_clock still_ann still_cluster still_CHs still_CBs : post.
Lemma still_schedule i d1 d2 c : still (schedule i d1 d2 c).
Proof. unfold schedule. post_auto. Qed.
Lemma still_get_rt0 : still get_rt0.
Proof. apply still_clock. Qed.
Lemma still_bump a : still (bump_announcement a).
Proof. apply still_net. Qed.
Hint Resolve still_schedule still_get_rt0 still_bump : post.

(** ** The loops *)

(** A loop whose turns lower a measure never uses up its fuel. *)
Lemma turns_enough {A} (turn : M node A -> M node A) (P : node -> Prop) (m : node -> nat) :
  (forall k1 k2 s, P s -> (forall s', P s' -> (m s' < m s)%nat -> k1 s' = k2 s') -> turn k1 s = turn k2 s) ->
  forall n1 n2 out1 out2 s, P s -> (m s < n1)%nat -> (m s < n2)%nat ->
    Nat.iter n1 turn out1 s = Nat.iter n2 turn out2 s.
Proof.
  intros Ht n1. induction n1 as [|n1 IH]; intros n2 out1 out2 s Hs H1 H2; [lia|].
  destruct n2 as [|n2]; [lia|]. apply Ht; [done|]. intros s' Hs' Hm. apply IH; [done|lia|lia].
Qed.
(** Two runs from the same computation on. *)
Lemma bind_ext {A B} (m : M node A) (k1 k2 : A -> M node B) s :
  (forall a s1, m s = Ok (a, s1) -> k1 a s1 = k2 a s1) -> (m ≫= k1) s = (m ≫= k2) s.
Proof. intros H. unfold mbind, M_bind. destruct (m s) as [[a s1]|]; [by apply H|done]. Qed.

Lemma u8_next z : 0 <= z <= 254 -> u8 (z + 1) = z + 1.
Proof. intros H. apply uwrap_small. unfold in_u. lia. Qed.

Definition slots_left s : nat := Z.to_nat (7 - ref_n_CHB_degree s).
Lemma slot_turn_ext k1 k2 s : 0 <= ref_n_CHB_degree s ->
  (forall s', 0 <= ref_n_CHB_degree s' -> (slots_left s' < slots_left s)%nat -> k1 s' = k2 s') ->
  slot_turn k1 s = slot_turn k2 s.
Proof.
  unfold slots_left. intros Hs Hk. unfold slot_turn. rewrite !bind_gets. unfold NUM_CONS_SLOTS.
  destruct (_ <=? 5) eqn:Ed; [|done].
  apply Z.leb_le in Ed. apply bind_ext. intros ok s1 E. apply still_schedule in E.
  assert (Hd : ref_n_CHB_degree s1 = ref_n_CHB_degree s) by (unfold same, ctl in E; congruence).
  destruct ok.
  - rewrite !bind_gets. destruct (_ <? 5) eqn:E5; [done|].
    unfold next_ref_degree. rewrite !bind_modify. apply Hk; rsimpl; rewrite Hd, u8_next; lia.
  - unfold next_ref_degree, radio. rewrite !bind_modify. apply Hk; rsimpl; rewrite Hd, u8_next; lia.
Qed.

Lemma still_unslotted : still unslotted.
Proof. unfold unslotted. post_auto. Qed.
Lemma still_radio b : still (radio b).
Proof. by apply post_modify. Qed.
Hint Resolve still_unslotted still_radio : post.
Definition cons_slots_left s : nat := Z.to_nat (6 - my_cons_slot s).
Lemma convergence_turn_ext k1 k2 s : 0 <= my_cons_slot s ->
  (forall s', 0 <= my_cons_slot s' -> (cons_slots_left s' < cons_slots_left s)%nat -> k1 s' = k2 s') ->
  convergence_turn k1 s = convergence_turn k2 s.
Proof.
  unfold cons_slots_left. intros Hs Hk. unfold convergence_turn. rewrite !bind_gets.
  destruct (my_cons_slot s <=? NUM_CONS_SLOTS) eqn:Ed; [|done].
  apply Z.leb_le in Ed. unfold NUM_CONS_SLOTS in Ed.
  unfold get_role. rewrite !bind_gets. apply bind_ext. intros len s1 E1. destruct (_ && _); [done|].
  apply bind_ext. intros c s2 E2. apply bind_ext. intros [] s3 E3; [done|].
  assert (Hd : my_cons_slot s3 = my_cons_slot s).
  { apply still_schedule in E3. apply still_unslotted in E2. apply still_CHs in E1.
    unfold same, ctl in *. congruence. }
  unfold next_cons_slot. rewrite !bind_modify. apply Hk; rsimpl; rewrite Hd, u8_next; lia.
Qed.

(** *** The turns of the synchronisation leave the counter alone *)

Local Abbreviation counting := (post (same cons_ctrl_counter)).
Lemma still_counting {A} (m : M node A) : still m -> counting m.
Proof. intros H s a s' E. apply H in E. unfold same, ctl, phase in *. congruence. Qed.
Lemma still_for_blocks {A} (on : forall B, M (blist A) B -> M node B) body :
  (forall B (m : M (blist A) B), still (on B m)) -> (forall i x, still (body i x)) ->
  still (for_blocks on body).
Proof. intros H1 H2. unfold for_blocks. post_auto; auto. Qed.
Lemma still_print_status : still csync_print_status.
Proof.
  unfold csync_print_status, leds_init, leds_on, show_leds, get_role.
  repeat first [progress post_auto|by apply post_modify]. apply still_for_blocks; auto with post.
  intros. repeat first [progress post_auto|by apply post_modify].
Qed.
Hint Resolve still_print_status : post.
Local Ltac count_auto := repeat first
  [ progress post_auto | by apply post_modify | apply still_counting; solve [auto with post] ].
Lemma counting_for_blocks {A} (on : forall B, M (blist A) B -> M node B) body :
  (forall B (m : M (blist A) B), still (on B m)) -> (forall i x, counting (body i x)) ->
  counting (for_blocks on body).
Proof. intros H1 H2. unfold for_blocks. post_auto; auto; by apply still_counting. Qed.
Hint Extern 2 (counting (for_blocks _ _)) => apply counting_for_blocks; [auto with post|intros; count_auto] : post.
Lemma counting_init_synchronization : counting init_consensus_synchronization.
Proof. unfold init_consensus_synchronization, get_role. count_auto. Qed.
Hint Resolve counting_init_synchronization : post.
Lemma counting_announce : counting announce_synchronization.
Proof.
  unfold announce_synchronization, get_role, polite_set_interval, set_polite_placing, set_my_state, set_degree,
    set_date, set_cons_rate, set_ref_addr, add_value, copy_date, set_instr. count_auto.
Qed.
Lemma counting_saved_or_restored : counting saved_or_restored.
Proof. unfold saved_or_restored, get_role, polite_init. count_auto. Qed.
Lemma counting_slot_loop n : counting (slot_loop n).
Proof.
  induction n as [|n IH]; cbn [slot_loop]; [apply post_fail|].
  unfold slot_turn, schedule_ref, next_ref_degree. count_auto.
Qed.
Hint Resolve counting_announce counting_saved_or_restored counting_slot_loop : post.
Lemma counting_iteration : counting synchronization_iteration.
Proof. unfold synchronization_iteration, run_slots, after_slots, schedule_ref. count_auto. Qed.

Definition iterations_left s : nat := Z.to_nat (3 - cons_ctrl_counter s).
Lemma synchronization_turn_ext k1 k2 s : 0 <= cons_ctrl_counter s ->
  (forall s', 0 <= cons_ctrl_counter s' -> (iterations_left s' < iterations_left s)%nat -> k1 s' = k2 s') ->
  synchronization_turn k1 s = synchronization_turn k2 s.
Proof.
  unfold iterations_left. intros Hs Hk. unfold synchronization_turn. rewrite !bind_gets.
  destruct (_ <? NUM_CONS_CTRL_ITERATIONS) eqn:Ed; [|done].
  apply Z.ltb_lt in Ed. unfold NUM_CONS_CTRL_ITERATIONS in Ed.
  apply bind_ext. intros [p|] s1 E1; [done|]. apply counting_iteration in E1. unfold same in E1.
  unfold next_iteration. rewrite !bind_modify. apply Hk; rsimpl; rewrite E1, u8_next; lia.
Qed.

Lemma iter_slot n : slot_loop n = Nat.iter n slot_turn (fail FHang).
Proof. induction n as [|n IH]; [done|]. cbn. by rewrite IH. Qed.
Lemma iter_convergence n : convergence_loop n = Nat.iter n convergence_turn (fail FHang).
Proof. induction n as [|n IH]; [done|]. cbn. by rewrite IH. Qed.
Lemma iter_synchronization n : synchronization_while n = Nat.iter n synchronization_turn (fail FHang).
Proof. induction n as [|n IH]; [done|]. cbn. by rewrite IH. Qed.

Definition counters_unsigned s : Prop :=
  0 <= ref_n_CHB_degree s /\ 0 <= my_cons_slot s /\ 0 <= cons_ctrl_counter s.

(** The three loops of the process that need not yield end: whatever stands
    for the turns after the fuel given, and with any more fuel, they have the same
    result from every state whose counters are those of unsigned bytes.  So they
    never turn more than eight, seven and four times. *)
Theorem process_loops_end s : counters_unsigned s ->
  (forall n out, (SLOT_FUEL <= n)%nat -> Nat.iter n slot_turn out s = slot_loop SLOT_FUEL s) /\
  (forall n out, (CONVERGENCE_FUEL <= n)%nat ->
     Nat.iter n convergence_turn out s = convergence_loop CONVERGENCE_FUEL s) /\
  (forall n out, (ITERATION_FUEL <= n)%nat ->
     Nat.iter n synchronization_turn out s = synchronization_while ITERATION_FUEL s).
Proof.
  intros (H1 & H2 & H3). rewrite iter_slot, iter_convergence, iter_synchronization.
  unfold SLOT_FUEL, CONVERGENCE_FUEL, ITERATION_FUEL. split_and!; intros n out Hn.
  - by apply (turns_enough _ _ _ slot_turn_ext); [|unfold slots_left; lia..].
  - by apply (turns_enough _ _ _ convergence_turn_ext); [|unfold cons_slots_left; lia..].
  - by apply (turns_enough _ _ _ synchronization_turn_ext); [|unfold iterations_left; lia..].
Qed.

(** ** The yields *)

(** The real-time timer is set. *)
Definition waits_timer s : Prop := exists r, rt0 s = Some r /\ rt_state r = RTIMER_SCHEDULED.

Lemma schedule_sets i d1 d2 c s :
  wp (schedule i d1 d2 c) (fun ok s' => my_state s' = my_state s /\ (ok = true -> waits_timer s')) s.
Proof.
  intros ok s1 E. split; [apply still_schedule in E; unfold same, ctl, phase in E; congruence|].
  intros ->. unfold schedule in E. apply bind_inv in E as (v & s2 & E & Ev). injection Ev as Ev <-.
  unfold on_clock, zoom in E. destruct (rtimer_schedule _ _ _ _ _ _) as [[v' st]|] eqn:Es; [|done].
  injection E as -> <-. unfold waits_timer, rt0. rsimpl. pose proof Es as Es0. unfold rtimer_schedule in Es.
  cbn [RTIMER_0 NUM_OF_RTIMERS Nat.ltb Nat.leb negb] in Es.
  destruct ((d1 =? 0) && (d2 =? 0)) eqn:Ez; [by injection Es as <- <-|].
  apply bind_inv in Es as (r & st1 & E1 & Es). unfold get_rt in E1.
  destruct (rt (clock (net s)) !! RTIMER_0) as [r'|] eqn:Er; [|done]. injection E1 as <- <-.
  case_decide as Hs.
  - unfold upd_rt in Es. rewrite bind_modify in Es. injection Es as <- <-. rsimpl.
    rewrite list_lookup_alter_eq, Er. by eexists.
  - assert (Hz : ~ (d1 = 0 /\ d2 = 0)) by (intros [-> ->]; done).
    destruct (rtimer_schedule_wp RTIMER_0 i d1 d2 (Some c) _ r' ltac:(unfold RTIMER_0, NUM_OF_RTIMERS; lia) Hz Er Hs _ st Es0)
      as (_ & _ & H).
    destruct H as [|st' cl fl cm fm q _ Hd _ Hrt]; [done|]. rewrite Hrt, list_lookup_alter_eq, Er.
    by eexists.
Qed.

(** The state is that of [s], or [X] after a restart. *)
Definition in_or s (X : state_t) s' : Prop := my_state s' = my_state s \/ my_state s' = X.

(** What holds when the process waits again. *)
Definition yields s (p' : pc) s' : Prop :=
  match p' with
  | At_discovery => my_state s' = DISCOVERY /\ cons_ctrl_counter s' = 0
  | At_clustering => phase s' = phase s
  | At_convergence_end => my_state s' = my_state s
  | At_convergence_slot | At_revelation | At_idle_end => waits_timer s' /\ my_state s' = my_state s
  | At_synchronization_slot => waits_timer s' /\ in_or s CONSENSUS_SYNCHRONIZATION s'
  | At_idle => in_or s CONSENSUS_SYNCHRONIZATION s'
  end.

(** The places where the process may wait next. *)
Definition next_pcs (p : pc) : list pc :=
  match p with
  | At_discovery | At_clustering =>
      [At_clustering; At_convergence_slot; At_convergence_end; At_synchronization_slot; At_idle; At_discovery]
  | At_convergence_slot =>
      [At_convergence_slot; At_convergence_end; At_synchronization_slot; At_idle; At_discovery]
  | At_convergence_end => [At_revelation; At_synchronization_slot; At_idle; At_discovery]
  | At_revelation | At_synchronization_slot | At_idle_end => [At_synchronization_slot; At_idle; At_discovery]
  | At_idle => [At_idle_end; At_synchronization_slot; At_idle; At_discovery]
  end.

(** From [p0], in state [s], the process goes on to wait at [p]. *)
Definition goes s (p0 p : pc) s' : Prop := yields s p s' /\ p ∈ next_pcs p0.
Lemma goes_after s p0 p1 p s' :
  (forall p, p ∈ next_pcs p1 -> p ∈ next_pcs p0) -> goes s p1 p s' -> goes s p0 p s'.
Proof. intros H [? ?]. split; auto. Qed.
Lemma goes_from s s1 p0 p s' : p0 <> At_discovery -> p0 <> At_clustering -> my_state s1 = my_state s ->
  goes s1 p0 p s' -> goes s p0 p s'.
Proof.
  unfold goes, yields, in_or. intros H1 H2 <- [H Hp]. split; [|done]. destruct p; try done.
  exfalso. destruct p0; try done; cbn [next_pcs] in Hp; set_solver.
Qed.

Lemma tame_state {A} (m : M node A) : post tame m -> post (same my_state) m.
Proof. intros H s a s' E. apply H in E. unfold tame, same in *. congruence. Qed.
Lemma level_state {A} (m : M node A) : level m -> post (same my_state) m.
Proof. intros H s a s' E. apply H in E. unfold phase, same in *. congruence. Qed.
Lemma tame_waits s s' : tame s s' -> waits_timer s -> waits_timer s'.
Proof. unfold tame, same, waits_timer, rt0. intros [= _ ->]. done. Qed.

Lemma slot_loop_waits n s :
  wp (slot_loop n) (fun b s' => my_state s' = my_state s /\ (b = true -> waits_timer s')) s.
Proof.
  revert s. induction n as [|n IH]; intros s; [by intros b s'|]. cbn [slot_loop]. unfold slot_turn.
  wp_step; wp_step. destruct (_ <=? _); [|by wp_step].
  wp_step. eapply wp_mono; [apply schedule_sets|]. intros ok s1 [H1 H2]. cbv beta.
  assert (Hk : forall s2, my_state s2 = my_state s1 ->
    wp (slot_loop n) (fun b s' => my_state s' = my_state s /\ (b = true -> waits_timer s')) s2).
  { intros s2 Hf. eapply wp_mono; [apply IH|]. intros b s' [E ?]. split; [congruence|done]. }
  destruct ok.
  - do 2 wp_step. destruct (_ <? _); [wp_step; by auto|]. unfold next_ref_degree. do 2 wp_step. by apply Hk.
  - unfold next_ref_degree, radio. do 4 wp_step. by apply Hk.
Qed.

Lemma run_slots_yields s :
  wp run_slots (fun o s' => my_state s' = my_state s /\
    match o with Some At_synchronization_slot => waits_timer s' | Some At_idle | None => True | _ => False end) s.
Proof.
  unfold run_slots. wp_step. eapply wp_mono; [apply slot_loop_waits|]. intros b s1 [H1 H2]. cbv beta.
  destruct b; [wp_step; auto|]. unfold after_slots. do 3 wp_step. by destruct (_ <=? _).
Qed.

Lemma tame_for_CHs body : (forall i x, post tame (body i x)) -> post tame (for_blocks (@on_CHs) body).
Proof. apply tame_for_blocks. auto with post. Qed.
Hint Extern 2 (post tame (for_blocks _ _)) => apply tame_for_CHs; intros; tame_auto : post.
Lemma tame_init_synchronization : post tame init_consensus_synchronization.
Proof. unfold init_consensus_synchronization, get_role. tame_auto. Qed.
Lemma tame_print_status : post tame csync_print_status.
Proof. unfold csync_print_status, leds_init, leds_on, show_leds, get_role. tame_auto. Qed.
Hint Resolve tame_init_synchronization tame_print_status : post.
Lemma tame_announce : post tame announce_synchronization.
Proof.
  unfold announce_synchronization, get_role, polite_set_interval, set_polite_placing, set_my_state, set_degree,
    set_date, set_cons_rate, set_ref_addr, add_value, copy_date, set_instr, radio. tame_auto.
Qed.

(** Entering a turn of the synchronisation. *)
Lemma saved_or_restored_state s :
  wp saved_or_restored (fun _ s' => in_or s CONSENSUS_SYNCHRONIZATION s') s.
Proof.
  unfold saved_or_restored. do 2 wp_step. destruct (_ <? _); [|wp_step; by left].
  do 2 wp_step. intros x s' E. right. revert E. set (s1 := s <| my_state := _ |>).
  change CONSENSUS_SYNCHRONIZATION with (my_state s1).
  assert (H : forall (m : M node unit), post (same my_state) m -> m s1 = Ok (x, s') -> my_state s' = my_state s1).
  { intros m Hm E. by apply Hm in E. }
  apply H. unfold get_role, radio, polite_init.
  repeat first [progress post_auto|by apply post_modify|apply tame_state; solve [auto with post]].
Qed.

(** Where a turn of the synchronisation ends. *)
Definition sync_yields s (o : option pc) s' : Prop :=
  in_or s CONSENSUS_SYNCHRONIZATION s' /\
  match o with Some At_synchronization_slot => waits_timer s' | Some At_idle | None => True | _ => False end.
Lemma iteration_yields s : wp synchronization_iteration (sync_yields s) s.
Proof.
  unfold synchronization_iteration. wp_step. eapply wp_mono; [apply saved_or_restored_state|].
  intros [] s1 H1. cbv beta. wp_step. eapply wp_mono; [apply schedule_sets|]. intros ok s2 [H2 _]. cbv beta.
  assert (Hs : in_or s CONSENSUS_SYNCHRONIZATION s2) by (unfold in_or in *; by rewrite H2).
  destruct ok; [|by wp_step]. wp_step. eapply wp_post; [apply tame_announce|]. intros [] s3 _ H3. cbv beta.
  eapply wp_mono; [apply run_slots_yields|]. intros o s4 [H4 Ho]. split; [|done].
  unfold in_or, tame, same in *. injection H3 as H3 _. by rewrite H4, H3.
Qed.

(** After an assignment, the variable stays. *)
Lemma wp_assigned_to {A E} (f : node -> E) (m : M node A) s X : f s = X -> post (same f) m ->
  wp m (fun _ s' => f s' = X) s.
Proof. intros <- Hm a s' Es. by apply Hm in Es. Qed.
Lemma wp_assigned {A} (m : M node A) s X : my_state s = X -> post (same my_state) m ->
  wp m (fun _ s' => my_state s' = X) s.
Proof. apply wp_assigned_to. Qed.
Lemma wp_conj {A} (m : M node A) (Q1 Q2 : A -> node -> Prop) s :
  wp m Q1 s -> wp m Q2 s -> wp m (fun a s' => Q1 a s' /\ Q2 a s') s.
Proof. intros H1 H2 a s' E. auto. Qed.
Local Ltac state_auto := repeat first
  [ progress post_auto | by apply post_modify | apply tame_state; solve [auto with post]
  | apply level_state, still_level; solve [auto with post] ].
Lemma soft_reset_state s : wp soft_reset (fun _ s' => my_state s' = DISCOVERY /\ cons_ctrl_counter s' = 0) s.
Proof.
  apply wp_conj; unfold soft_reset.
  - wp_step. intros x s1 _. do 2 wp_step. apply wp_assigned; [done|]. unfold clear_timers, radio. state_auto.
  - do 10 (wp_step; let st := fresh in intros ? st _). do 2 wp_step.
    intros x st E. eapply (wp_assigned_to cons_ctrl_counter); [..|exact E]; [done|]. unfold radio. count_auto.
Qed.
Lemma round_start_yields s : wp round_start (goes s At_revelation) s.
Proof.
  unfold round_start. wp_step. eapply wp_mono; [apply soft_reset_state|]. intros [] s1 H. cbv beta.
  intros p s' E. apply bind_inv in E as ([] & s2 & E & [= <- <-]). apply still_print_status in E.
  split; [|set_solver]. unfold yields, ctl, phase, same in *. intuition congruence.
Qed.
Lemma restarted s s1 p s' : in_or s CONSENSUS_SYNCHRONIZATION s1 ->
  goes s1 At_revelation p s' -> goes s At_revelation p s'.
Proof.
  unfold goes, yields, in_or. intros H1 [H Hp]. split; [|done]. destruct p; try done; try set_solver.
  all: intuition congruence.
Qed.
Lemma synchronization_yields n s : wp (synchronization_while n) (goes s At_revelation) s.
Proof.
  revert s. induction n as [|n IH]; intros s; [by intros p s'|]. cbn [synchronization_while].
  unfold synchronization_turn. do 2 wp_step. destruct (_ <? _); [|apply round_start_yields].
  wp_step. eapply wp_mono; [apply iteration_yields|]. intros o s1 [H1 Ho]. cbv beta.
  destruct o as [p|].
  { wp_step. destruct p; try (exfalso; exact Ho); (split; [by auto|set_solver]). } unfold next_iteration. do 2 wp_step.
  eapply wp_mono; [apply IH|]. intros p s'. by apply restarted.
Qed.

(** *** The convergence *)

Lemma tame_set_polite_placing : post tame set_polite_placing.
Proof. unfold set_polite_placing, polite_set_interval. tame_auto. Qed.
Hint Resolve tame_set_polite_placing : post.
Lemma tame_propose c : post tame (propose_slot c).
Proof. unfold propose_slot, set_instr, set_degree, polite_set_interval. tame_auto. Qed.
Hint Resolve tame_propose : post.
Lemma tame_unslotted : post tame unslotted.
Proof. unfold unslotted. tame_auto. Qed.

(** A part that keeps the state and the timers, before the rest. *)
Lemma wp_tame {A} (m : M node A) (Q : A -> node -> Prop) s :
  post tame m -> (forall a s', tame s s' -> Q a s') -> wp m Q s.
Proof. intros H HQ. eapply wp_post; [exact H|]. intros a s' _. apply HQ. Qed.

Lemma convergence_loop_waits n s :
  wp (convergence_loop n) (fun b s' => my_state s' = my_state s /\ (b = true -> waits_timer s')) s.
Proof.
  revert s. induction n as [|n IH]; intros s; [by intros b s'|]. cbn [convergence_loop].
  unfold convergence_turn, get_role. do 2 wp_step. destruct (_ <=? _); [|by wp_step].
  do 3 wp_step. apply wp_tame; [auto with post|]. intros len s1 [= H1 _]. destruct (_ && _).
  { unfold radio. by do 3 wp_step. }
  wp_step. apply wp_tame; [apply tame_unslotted|]. intros c s2 [= H2 _].
  wp_step. eapply wp_mono; [apply schedule_sets|]. intros ok s3 [H3 Hw]. cbv beta. destruct ok.
  - do 3 wp_step. apply wp_tame; [destruct (role _); tame_auto|]. intros [] s4 H4. do 3 wp_step.
    split; [|intros _; by eapply tame_waits; [|apply Hw]].
    unfold tame, same in H4. congruence.
  - unfold next_cons_slot. do 2 wp_step. eapply wp_mono; [apply IH|]. rsimpl. intros b s' [E ?].
    split; [congruence|done].
Qed.

Definition leads s := goes s At_convergence_slot.
Lemma leads_from s s1 p s' : my_state s1 = my_state s -> leads s1 p s' -> leads s p s'.
Proof. by apply goes_from. Qed.
Lemma after_convergence_leads s : wp after_convergence (leads s) s.
Proof.
  unfold after_convergence. do 2 wp_step. destruct (_ <=? _); [wp_step; split; [done|set_solver]|].
  eapply wp_mono; [apply synchronization_yields|]. intros p s'. apply goes_after. set_solver.
Qed.
Lemma run_convergence_leads s : wp run_convergence (leads s) s.
Proof.
  unfold run_convergence. wp_step. eapply wp_mono; [apply convergence_loop_waits|]. intros b s1 [H1 H2].
  cbv beta. destruct b; [wp_step; split; [by split; [apply H2|]|set_solver]|].
  eapply wp_mono; [apply after_convergence_leads|]. intros p s'. by apply leads_from.
Qed.
Lemma convergence_slot_end_leads s : wp convergence_slot_end (leads s) s.
Proof.
  unfold convergence_slot_end, get_role, radio, next_cons_slot. do 3 wp_step.
  apply wp_tame; [apply post_when; [exact _|]; apply tame_for_CHs; intros; tame_auto|]. intros [] s1 [= H1 _]. do 2 wp_step.
  destruct (c_true _).
  - do 3 wp_step. eapply wp_mono; [apply schedule_sets|]. intros ok s2 [H2 _]. cbv beta. destruct ok.
    + eapply wp_mono; [apply after_convergence_leads|]. intros p s'. apply leads_from. rewrite H2. exact H1.
    + do 2 wp_step. eapply wp_mono; [apply run_convergence_leads|]. intros p s'. apply leads_from.
      transitivity (my_state s2); [done|]. rewrite H2. exact H1.
  - do 2 wp_step. eapply wp_mono; [apply run_convergence_leads|]. intros p s'. by apply leads_from.
Qed.
Lemma tame_convergence_entries l : post tame (convergence_entries l).
Proof.
  induction l as [|i l IH]; cbn [convergence_entries]; tame_auto.
  generalize a0. intros l0. induction l0; cbn [find_addr]; tame_auto.
Qed.
Hint Resolve tame_convergence_entries : post.
Lemma tame_init_convergence : post tame init_consensus_convergence.
Proof. unfold init_consensus_convergence. tame_auto. Qed.
Lemma tame_CHB_placing : post tame csync_CHB_placing.
Proof. unfold csync_CHB_placing, get_role. tame_auto. Qed.
Hint Resolve tame_init_convergence tame_CHB_placing : post.
(** Through the parts that keep the state and the timers. *)
Local Ltac tame_through := cbv beta zeta; lazymatch goal with
  | |- wp (mbind _ _) _ _ =>
      apply wp_bind; first
        [ apply wp_gets
        | let x := fresh "x" in let st := fresh "st" in let H := fresh "Ht" in
          apply wp_tame; [solve [tame_auto]|intros x st H] ];
      tame_through
  | _ => idtac
  end.
Local Ltac tame_chain := repeat match goal with
  | H : tame ?a ?b |- tame _ ?b => first [exact H | transitivity a; [|exact H]] end.
Lemma convergence_leads s : cons_ctrl_counter s = 0 -> wp convergence (leads s) s.
Proof.
  intros Hc. unfold convergence, leds_on, show_leds, get_role, set_date, set_cons_rate, add_value,
    polite_set_interval, copy_date. do 6 wp_step. rsimpl. rewrite Hc.
  change (0 <? 0) with false. cbn [when]. do 3 wp_step. eapply wp_mono; [apply schedule_sets|].
  intros ok s1 [H1 _]. cbv beta. destruct ok.
  2:{ eapply wp_mono; [apply after_convergence_leads|]. intros p s'. apply leads_from. exact H1. }
  tame_through. assert (E : my_state st3 = my_state s).
  { unfold tame, same in *. rsimpl_in H1. congruence. }
  destruct (_ <? _); (eapply wp_mono; [|intros p s'; apply leads_from, E]).
  - apply run_convergence_leads.
  - apply after_convergence_leads.
Qed.

(** *** The clustering *)

Lemma still_CHB_placing : still csync_CHB_placing.
Proof. unfold csync_CHB_placing, get_role. post_auto. Qed.
Hint Resolve still_CHB_placing : post.
Local Ltac level_auto := repeat first
  [ progress post_auto | by apply post_modify | apply still_level; solve [auto with post] ].
Lemma level_clustering_switch : level clustering_switch.
Proof.
  unfold clustering_switch, in_ELECTION_REVELATION, in_ELECTION_DECLARATION, in_CONNECTION_REVELATION,
    in_CONNECTION_DECLARATION, become_bridge, announce_election, schedule_ref, set_my_state, set_degree, set_date,
    set_cons_rate, set_ref_addr, add_value, copy_date, set_instr, radio, set_attr, set_polite_placing,
    polite_set_interval, set_rt_state, get_role, set_role, polite_init, llsec_restart.
  level_auto.
Qed.
Lemma clustering_yields s : cons_ctrl_counter s = 0 -> wp clustering (goes s At_clustering) s.
Proof.
  intros Hc. unfold clustering. do 2 wp_step. destruct (_ <? _).
  - wp_step. eapply wp_post; [apply level_clustering_switch|]. intros [] s1 _ H. wp_step. split; [done|set_solver].
  - eapply wp_mono; [by apply convergence_leads|]. intros p s'. apply goes_after. set_solver.
Qed.

(** *** The other yields *)

Lemma consensus_revelation_yields s : wp consensus_revelation (goes s At_convergence_end) s.
Proof.
  unfold consensus_revelation, schedule_ref, get_role, set_my_state, set_degree, set_date, set_cons_rate, add_value,
    copy_date, set_instr.
  wp_step. eapply wp_mono; [apply schedule_sets|]. intros ok s1 [H1 Hw]. cbv beta. destruct ok.
  - tame_through. wp_step.
    match goal with |- goes _ _ _ ?st => assert (Ht' : tame s1 st) by tame_chain end.
    split; [|set_solver]. split; [by eapply tame_waits; [|apply Hw]|]. unfold tame, same in Ht'. congruence.
  - eapply wp_mono; [apply synchronization_yields|]. intros p s' H.
    apply (goes_after _ _ At_revelation); [set_solver|]. by apply (goes_from s s1).
Qed.
Lemma continue_yields s s1 o :
  sync_yields s o s1 -> wp (continue_iteration o) (goes s At_revelation) s1.
Proof.
  intros [H1 Ho]. destruct o as [p|]; cbn [continue_iteration].
  - wp_step. destruct p; try (exfalso; exact Ho); (split; [by auto|set_solver]).
  - unfold next_iteration. do 2 wp_step. eapply wp_mono; [apply synchronization_yields|].
    intros p s'. by apply restarted.
Qed.
Lemma tame_synchronization_slot : post tame synchronization_slot.
Proof.
  unfold synchronization_slot, radio, set_degree, set_cons_rate, next_ref_degree. tame_auto.
Qed.
Lemma tame_broadcast_init a b c d : post tame (zoom net (broadcast_announcement_init a b c d)).
Proof.
  apply tame_net. unfold broadcast_announcement_init, broadcast_open, channel_open, upd_ba, set_timers.
  repeat first [progress post_auto|by apply post_modify|by apply post_zoom_any|apply clocked_random].
Qed.
Hint Resolve tame_broadcast_init : post.
Lemma idle_yields s :
  wp idle (fun o s' => match o with None => my_state s' = my_state s | Some p => p = At_idle_end /\ yields s p s' end) s.
Proof.
  unfold idle, get_role, set_my_state, set_degree, set_date, set_cons_rate, add_value, set_ref_addr,
    copy_date, set_instr, radio.
  do 2 (wp_step; apply wp_tame; [tame_auto|intros ? ? ?]).
  wp_step. eapply wp_mono; [apply schedule_sets|]. intros ok s1 [H1 Hw]. cbv beta.
  assert (E1 : my_state s1 = my_state s) by (unfold tame, same in *; congruence). destruct ok.
  - tame_through. wp_step. split; [done|].
    match goal with |- yields _ _ ?st => assert (Ht' : tame s1 st) by tame_chain end.
    split; [by eapply tame_waits; [|apply Hw]|]. unfold tame, same in Ht'. congruence.
  - by wp_step.
Qed.

Lemma proc_step_goes p s : (p = At_discovery \/ p = At_clustering -> cons_ctrl_counter s = 0) ->
  wp (proc_step p) (goes s p) s.
Proof.
  intros Hc. destruct p; cbn [proc_step].
  - apply clustering_yields; auto.
  - apply clustering_yields; auto.
  - apply convergence_slot_end_leads.
  - apply consensus_revelation_yields.
  - apply synchronization_yields.
  - wp_step. apply wp_tame; [apply tame_synchronization_slot|]. intros [] s1 [= H1 _].
    wp_step. eapply wp_mono; [apply run_slots_yields|]. intros o s2 [H2 Ho]. apply continue_yields.
    split; [|done]. left. congruence.
  - wp_step. eapply wp_mono; [apply idle_yields|]. intros [p|] s1 H.
    + destruct H as [-> H]. cbn [continue_iteration]. wp_step. split; [done|set_solver].
    + eapply wp_mono; [by apply continue_yields; split; [left|]|]. intros p s'. apply goes_after. set_solver.
  - wp_step. apply wp_tame; [unfold idle_end, broadcast_stop, remove_value; tame_auto|].
    intros [] s1 [= H1 _]. apply continue_yields. split; [by left|done].
Qed.


(** ** A missed slot *)

(** The loop over the slots leaves the counter at seven at most. *)
Lemma slot_loop_ends n s : 0 <= ref_n_CHB_degree s <= 7 ->
  wp (slot_loop n) (fun b s' => b = false -> ref_n_CHB_degree s' = 7) s.
Proof.
  revert s. induction n as [|n IH]; intros s Hs; [by intros b s'|]. cbn [slot_loop].
  unfold slot_turn, schedule_ref, next_ref_degree, radio, NUM_CONS_SLOTS. do 2 wp_step.
  destruct (_ <=? 5) eqn:Ed; [|wp_step; apply Z.leb_gt in Ed; lia]. apply Z.leb_le in Ed.
  wp_step. eapply wp_post; [apply still_schedule|]. intros ok s1 _ E.
  assert (Hd : ref_n_CHB_degree s1 = ref_n_CHB_degree s) by (unfold same, ctl in E; congruence).
  destruct ok.
  - do 2 wp_step. destruct (_ <? 5) eqn:E5; [by wp_step|]. do 2 wp_step. apply IH. rsimpl.
    rewrite Hd, u8_next; lia.
  - do 4 wp_step. apply IH. rsimpl. rewrite Hd, u8_next; lia.
Qed.

(** A schedule that fails leaves the state of the timer. *)
Lemma missed_keeps_state interval c s s1 r : rt0 s = Some r -> rt_state r <> RTIMER_SINGLEPASS ->
  schedule_ref interval c s = Ok (false, s1) -> exists r', rt0 s1 = Some r' /\ rt_state r' = rt_state r.
Proof.
  intros Hr Hns E. unfold schedule_ref, schedule in E. apply bind_inv in E as (v & s2 & E & Ev).
  injection Ev as Ev <-.
  unfold on_clock, zoom in E. destruct (rtimer_schedule _ _ _ _ _ _) as [[v' st]|] eqn:Es; [|done].
  injection E as -> <-. unfold rt0 in *. rsimpl.
  destruct (decide (0 = 0 /\ interval = 0)) as [[_ Hz]|Hz].
  { rewrite Hz in Es. injection Es as _ <-. by exists r. }
  destruct (rtimer_schedule_wp RTIMER_0 RTIMER_INTERVAL_REF 0 interval (Some c)
    _ r ltac:(unfold RTIMER_0, NUM_OF_RTIMERS; lia) Hz Hr Hns _ st Es) as (_ & _ & H).
  destruct H as [st' Hrt _|]; [|done]. rewrite Hrt, list_lookup_alter_eq, Hr. by eexists.
Qed.

(** Missed slots do not end the synchronisation: the process waits in every
    case.  When the last slot is missed it waits for the idle phase with the timer
    not set, so that only a packet can wake it up. *)
Theorem missed_slot_waits s :
  (forall o s', 0 <= ref_n_CHB_degree s <= 7 -> run_slots s = Ok (o, s') -> o <> None) /\
  (forall s1 r, ref_n_CHB_degree s = 6 -> rt0 s = Some r -> rt_state r <> RTIMER_SINGLEPASS ->
     schedule_ref (cons_slots 5) Enter_synchronization_slot s = Ok (false, s1) ->
     run_slots s = Ok (Some At_idle, s1 <| ref_n_CHB_degree := 7 |> <| radio_on := true |>) /\
     (waits_timer s1 <-> waits_timer s)).
Proof.
  split.
  - intros o s' Hs E. unfold run_slots in E. apply bind_inv in E as (b & s1 & E1 & E).
    apply (slot_loop_ends SLOT_FUEL s Hs) in E1. destruct b; [by injection E as <- _|].
    unfold after_slots in E. rewrite bind_gets, E1 in E by done. by injection E as <- _.
  - intros s1 r Hd Hr Hns E.
    assert (Hd1 : ref_n_CHB_degree s1 = 6) by (apply still_schedule in E; unfold same, ctl in E; congruence).
    split.
    + unfold run_slots, SLOT_FUEL. cbn [slot_loop]. erewrite bind_Ok.
      2:{ unfold slot_turn at 1. rewrite bind_gets, Hd. change (6 - 1 <=? NUM_CONS_SLOTS) with true.
          cbv beta iota. change (6 - 1) with 5. erewrite bind_Ok; [|exact E].
          unfold next_ref_degree, radio. rewrite !bind_modify. unfold slot_turn at 1. rewrite bind_gets. rsimpl.
          rewrite Hd1. reflexivity. }
      unfold after_slots. rewrite bind_gets. rsimpl. rewrite Hd1.
      change (s1 <| ref_n_CHB_degree ::= fun d => d +8 1 |>)
        with (s1 <| ref_n_CHB_degree := ref_n_CHB_degree s1 +8 1 |>). by rewrite Hd1.
    + destruct (missed_keeps_state _ _ _ _ _ Hr Hns E) as (r' & Hr' & Hs'). unfold waits_timer.
      rewrite Hr, Hr'. split; intros (x & [= <-] & Hx); eexists; (split; [done|congruence]).
Qed.
End rounds.

(** A node in its last synchronisation slot, long after the end of the slot. *)
Definition late_example : node :=
  phases_example <| my_state := CONSENSUS_SYNCHRONIZATION |> <| ref_n_CHB_degree := 6 |>
    <| net ::= fun t => t <| clock ::= fun c => c <| coarse_count := 20 |> |> |>.

Lemma process_loops_end_witness :
  Nat.iter 20 (slot_turn (DF := binary32)) (mret true) late_example
  = slot_loop (DF := binary32) SLOT_FUEL late_example.
Proof.
  destruct (process_loops_end (DF := binary32) late_example) as (H & _ & _); [by vm_compute|].
  apply H. unfold SLOT_FUEL. lia.
Defined.


Lemma missed_slot_waits_witness :
  exists s', run_slots (DF := binary32) late_example = Ok (Some At_idle, s') /\ ~ waits_timer s'.
Proof.
  assert (Hm : match schedule_ref (DF := binary32) (cons_slots (DF := binary32) 5) Enter_synchronization_slot
      late_example with Ok (b, s') => b = false | Err _ => False end) by (vm_compute; reflexivity).
  destruct (schedule_ref (DF := binary32) (cons_slots (DF := binary32) 5) Enter_synchronization_slot late_example)
    as [[b s1]|] eqn:E; [|exact (False_ind _ Hm)].
  subst b.
  destruct (missed_slot_waits (DF := binary32) late_example) as [_ H].
  destruct (H s1 rtimer_zero) as [H1 H2];
    [vm_compute; reflexivity|vm_compute; reflexivity|discriminate|exact E|].
  exists (s1 <| ref_n_CHB_degree := 7 |> <| radio_on := true |>). split; [exact H1|].
  intros Hw. destruct (proj1 H2 Hw) as (r & Hr & Hs). vm_compute in Hr. injection Hr as <-. discriminate Hs.
Defined.
