(* ===== verification/Motes.v ===== *)
(** * Motes: a node among its events

    Received packets move a node forward only; the counter of the rounds of
    control stays within its bounds in every run of a node. *)
From stdpp Require Import numbers option sets list.
From S2P Require Import Prelude Memb CDouble Rtimer Packetbuf Announcement Announcers CSync Gtsp Cluster Handlers Travel Frames Phases Process Rounds.

Section motes.
Context {DF : DoubleFormat}.
Implicit Types s : node.

(** ** What a packet does is what the handlers do *)

Section packet.
Context (R : node -> node -> Prop) `{!PreOrder R}.
Hypothesis Hnet : forall A (m : M (net_st callback_t handler_t) A), post R (zoom net m).
Hypothesis Hhandler : forall h a from id v sync e, post R (call_handler h a from id v sync e).
Hint Resolve Hnet Hhandler : post.

Lemma heard_post from id v sync e : post R (heard net call_handler from id v sync e).
Proof. unfold heard, announcement_heard, on_net. post_auto. Qed.
Hint Resolve heard_post : post.
Lemma receive_loop_post n ptr from sync e :
  post R e -> post R (receive_loop net call_handler n ptr from sync e).
Proof.
  intros He. revert ptr. induction n as [|n IH]; intros ptr; cbn [receive_loop]; [apply post_skip; exact _|].
  unfold on_net. post_auto.
Qed.
Lemma adv_post e from : post R e -> post R (adv_packet_received net call_handler e from).
Proof. intros He. unfold adv_packet_received, on_net. post_auto. by apply receive_loop_post. Qed.
Lemma packet_post no : post R (packet_received no).
Proof.
  unfold packet_received, abc_input, broadcast_adv_packet_received, ipolite_recv, polite_adv_packet_received, on_net.
  post_auto; apply adv_post; post_auto.
Qed.
End packet.

(** ** Packets move a node forward *)

(** The phase of the node is the same or a later one. *)
Definition forward s s' : Prop := state_val (my_state s) <= state_val (my_state s').
#[local] Instance forward_preorder : PreOrder forward.
Proof. split; [intros s; unfold forward; lia|]. intros s1 s2 s3. unfold forward. lia. Qed.
Lemma stays_forward {A} (m : M node A) : post (same my_state) m -> post forward m.
Proof. intros H s a s' E. apply H in E. unfold forward. rewrite E. lia. Qed.
Lemma net_forward {A} (m : M (net_st callback_t handler_t) A) : post forward (zoom net m).
Proof. apply stays_forward. by apply post_zoom_any. Qed.
Hint Resolve net_forward : post.
Lemma handler_forward h a from id v sync e : post forward (call_handler h a from id v sync e).
Proof. intros s [] s' E. by apply handler_steps in E as [_ E]. Qed.
(** C4. A received packet never takes a node back to an earlier phase. *)
Theorem packet_never_goes_back no s s' :
  packet_received no s = Ok (tt, s') -> forward s s'.
Proof. by apply (packet_post forward (@net_forward) handler_forward). Qed.

(** ** The counter of the rounds *)

Local Abbreviation counting := (post (same cons_ctrl_counter)).
Lemma counting_net {A} (m : M (net_st callback_t handler_t) A) : counting (zoom net m).
Proof. by apply post_zoom_any. Qed.
Lemma counting_cluster {A} (m : M cluster_t A) : counting (on_cluster m).
Proof. by apply post_zoom_any. Qed.
Lemma counting_get_neighbour i : counting (get_neighbour i).
Proof. intros s a s'. unfold get_neighbour. destruct (_ !! _); [|done]. by intros [= _ <-]. Qed.
Lemma counting_alloc : counting neighbour_alloc.
Proof. intros s a s'. unfold neighbour_alloc. destruct (pool_alloc _). by intros [= _ <-]. Qed.
Hint Resolve counting_net counting_cluster counting_get_neighbour counting_alloc : post.
Local Ltac count_step := first [ progress post_auto | by apply post_modify
  | progress unfold on_clock, on_ann, on_CHs, on_CBs, on_blacklist, get_rt0, bump_announcement, for_blocks, for_neighbours, set_role, get_role, upd_neighbour
  | apply post_modify; intros; unfold same; repeat case_match; reflexivity ].
Local Ltac count_auto := repeat count_step.
Lemma counting_find l a acc : (forall x, counting (acc x)) -> counting (find_neighbour l a acc).
Proof. intros H. induction l; cbn [find_neighbour]; count_auto. Qed.
Lemma counting_gtsp_recv n sync b : counting (gtsp_recv n sync b).
Proof. unfold gtsp_recv. count_auto. Qed.
Lemma counting_sum_loop all l g : counting (sum_loop all l g).
Proof. revert g. induction l as [|i l IH]; intros g; cbn [sum_loop]; count_auto. Qed.
Hint Resolve counting_gtsp_recv counting_sum_loop : post.
Lemma counting_gtsp_update l : counting (gtsp_update_rtimer l).
Proof. unfold gtsp_update_rtimer. count_auto. Qed.
Hint Resolve counting_gtsp_update : post.
Lemma counting_add from st d sync : counting (add_to_neighbour from st d sync).
Proof.
  unfold add_to_neighbour, refresh_neighbour, new_neighbour, check_mod_neighbours. count_auto;
    apply counting_find; intros; unfold accept_mod, check_mod_neighbours; count_auto.
Qed.
Hint Resolve counting_add : post.
Lemma counting_sender from v sync b : counting (sender from v sync b).
Proof. unfold sender, strong_signal. count_auto. Qed.
Lemma counting_follow v n : counting (follow v n).
Proof. unfold follow, csync_trusted_synchronization, trusted_rates, take_rate. count_auto. Qed.
Lemma counting_all_synced : counting csync_all_synced.
Proof.
  unfold csync_all_synced. apply post_bind; [exact _|by apply post_gets; exact _|]. intros l.
  induction l as [|i l IH]; count_auto.
Qed.
Lemma counting_handle v n : counting (handle v n).
Proof. unfold handle, handle_lists, handle_list, insert_entry. count_auto. Qed.
Lemma counting_take_slot addr slot own : counting (take_slot addr slot own).
Proof. unfold take_slot. count_auto. Qed.
Hint Resolve counting_sender counting_follow counting_all_synced counting_handle counting_take_slot : post.
Lemma counting_sender_role on n l r : (forall B (m : M (blist chb) B), counting (on B m)) -> counting (sender_role on n l r).
Proof.
  intros Hon. unfold sender_role, update_neighbour_role, check_mod_neighbours.
  apply post_bind; [exact _|auto|]. intros ids.
  revert r. induction ids as [|i ids IH]; intros r; count_auto.
Qed.
Lemma counting_callback c : counting (run_callback c).
Proof.
  destruct c; cbn [run_callback]; unfold enter_election_revelation, enter_election_declaration,
    enter_connection_revelation, enter_connection_declaration, enter_convergence, enter_convergence_slot,
    enter_consensus_revelation, enter_consensus_synchronization, enter_synchronization_slot, enter_idle,
    enter_discovery, set_schedule_ref, remove_value, polite_cancel, polite_stop, polite_set_interval, broadcast_stop,
    radio, leds_off, show_leds, process_poll, llsec_restart, set_attr, csync_update_placing; count_auto.
Qed.
Hint Extern 2 (counting enter_election_revelation) => exact (counting_callback Enter_election_revelation) : post.
Hint Extern 2 (counting enter_election_declaration) => exact (counting_callback Enter_election_declaration) : post.
Hint Extern 2 (counting enter_connection_revelation) => exact (counting_callback Enter_connection_revelation) : post.
Hint Extern 2 (counting enter_convergence) => exact (counting_callback Enter_convergence) : post.
Hint Extern 2 (counting enter_consensus_revelation) => exact (counting_callback Enter_consensus_revelation) : post.
Hint Extern 2 (counting enter_consensus_synchronization) =>
  exact (counting_callback Enter_consensus_synchronization) : post.
Hint Extern 2 (counting enter_discovery) => exact (counting_callback Enter_discovery) : post.
Lemma counting_leave : counting leave_discovery.
Proof. unfold leave_discovery, polite_init, remove_value, broadcast_stop. count_auto. Qed.
Lemma counting_schedule i d1 d2 c : counting (schedule i d1 d2 c).
Proof. unfold schedule. count_auto. Qed.
Hint Resolve counting_leave counting_schedule counting_sender_role : post.
Lemma counting_handler h a from id v sync e : counting (call_handler h a from id v sync e).
Proof.
  destruct h; cbn [call_handler].
  - unfold received_discovery_announcement, discovery_in_DISCOVERY, schedule, copy_date, set_rt_state. count_auto.
  - unfold received_revelation_announcement, revelation_in_DISCOVERY, revelation_in_ELECTION_REVELATION,
      revelation_in_CONNECTION_REVELATION, revelation_in_CONSENSUS_CONVERGENCE, revelation_in_CONSENSUS_REVELATION,
      precedes_me, polite_cancel, schedule, set_rt_state, push_memb. count_auto.
  - unfold received_declaration_announcement, declaration_in_DISCOVERY, declaration_in_ELECTION_REVELATION,
      declaration_in_ELECTION_DECLARATION, declaration_in_CONNECTION_DECLARATION, precedes_me, polite_cancel,
      schedule, set_rt_state, leave_discovery, polite_init, remove_value, broadcast_stop, process_poll. count_auto.
  - unfold received_convergence_announcement, convergence_in_CONNECTION_DECLARATION,
      convergence_in_CONSENSUS_CONVERGENCE, convergence_in_CONSENSUS_SYNCHRONIZATION, acknowledge_slot,
      join_cluster, polite_cancel, schedule, set_rt_state. count_auto.
  - unfold received_synchronization_announcement, synchronization_in_DISCOVERY,
      synchronization_in_CONSENSUS_REVELATION, synchronization_in_CONSENSUS_SYNCHRONIZATION,
      synchronization_at_CB, synchronization_at_CH, synchronization_at_CM, byzantine_voice, blacklisted, accuse,
      enter_byzantine_consensus, push_memb, relay, relay_date, copy_date, strong_signal, polite_cancel, schedule,
      set_rt_state, leave_discovery, polite_init, remove_value, broadcast_stop, process_poll. count_auto.
Qed.
Lemma counting_event e : counting (node_event e).
Proof.
  destruct e; cbn [node_event]; unfold on_clock; try solve [auto with post].
  - unfold RTIMER_HF_CALLBACK. pose proof counting_callback. count_auto.
  - apply post_bind; [exact _|auto with post|].
    intros _. apply (packet_post _ (@counting_net) counting_handler).
  - apply post_skip. exact _.
Qed.

(** The value of the counter where the process waits. *)
Definition counter_ok (p : pc) (c : Z) : Prop :=
  match p with
  | At_synchronization_slot | At_idle | At_idle_end => 0 <= c < NUM_CONS_CTRL_ITERATIONS
  | _ => c = 0
  end.
Definition counts (p : pc) s' : Prop := counter_ok p (cons_ctrl_counter s').

Lemma round_start_counts s : wp round_start counts s.
Proof.
  unfold round_start. wp_step. eapply wp_mono; [apply soft_reset_state|]. intros [] s1 [_ H]. cbv beta.
  intros p s' E. apply bind_inv in E as ([] & s2 & E & [= <- <-]). apply still_print_status in E.
  unfold counts, same, ctl, phase in *. cbn. congruence.
Qed.
Lemma iteration_waits s :
  wp synchronization_iteration (fun o s' => cons_ctrl_counter s' = cons_ctrl_counter s /\
    forall p, o = Some p -> p = At_synchronization_slot \/ p = At_idle) s.
Proof.
  intros o s' E. split; [by apply counting_iteration in E|]. intros p ->.
  apply iteration_yields in E as [_ Ho]. destruct p; auto; done.
Qed.
Lemma synchronization_counts n s : 0 <= cons_ctrl_counter s -> wp (synchronization_while n) counts s.
Proof.
  revert s. induction n as [|n IH]; intros s Hs; [by intros p s'|]. cbn [synchronization_while].
  unfold synchronization_turn. do 2 wp_step. destruct (_ <? _) eqn:Ec; [|apply round_start_counts].
  apply Z.ltb_lt in Ec. wp_step. eapply wp_mono; [apply iteration_waits|]. intros o s1 [H1 Ho]. cbv beta.
  destruct o as [p|].
  - wp_step. unfold counts. rewrite H1. by destruct (Ho p eq_refl) as [-> | ->].
  - unfold next_iteration. do 2 wp_step. apply IH. rsimpl. apply u8_range.
Qed.
Lemma continue_counts o s : 0 <= cons_ctrl_counter s < NUM_CONS_CTRL_ITERATIONS ->
  (forall p, o = Some p -> p = At_synchronization_slot \/ p = At_idle \/ p = At_idle_end) ->
  wp (continue_iteration o) counts s.
Proof.
  intros Hs Ho. destruct o as [p|]; cbn [continue_iteration].
  - wp_step. unfold counts. by destruct (Ho p eq_refl) as [-> | [-> | ->]].
  - unfold next_iteration. do 2 wp_step. apply synchronization_counts. rsimpl. apply u8_range.
Qed.

Lemma wp_counting {A} (m : M node A) (Q : A -> node -> Prop) s : counting m ->
  (forall a s', cons_ctrl_counter s' = cons_ctrl_counter s -> Q a s') -> wp m Q s.
Proof. intros H HQ. eapply wp_post; [exact H|]. intros a s' _. apply HQ. Qed.
Local Ltac count_through := lazymatch goal with
  | |- wp (mbind _ _) _ _ =>
      apply wp_bind; first [apply wp_gets | apply wp_counting; [solve [count_auto]|intros ? ? ?]];
      count_through
  | |- wp (if ?b then _ else _) _ _ => destruct b; count_through
  | |- wp (mret _) _ _ => apply wp_ret
  | _ => idtac
  end.

Lemma after_convergence_counts s : cons_ctrl_counter s = 0 -> wp after_convergence counts s.
Proof.
  intros Hs. unfold after_convergence. count_through; [exact Hs|]. apply synchronization_counts. lia.
Qed.
Lemma counting_convergence_loop n : counting (convergence_loop n).
Proof.
  induction n as [|n IH]; cbn [convergence_loop]; [apply post_fail|].
  unfold convergence_turn, propose_slot, unslotted, schedule_ref, radio, set_instr, set_degree, polite_set_interval,
    next_cons_slot. count_auto.
Qed.
Hint Resolve counting_convergence_loop : post.
Lemma run_convergence_counts s : cons_ctrl_counter s = 0 -> wp run_convergence counts s.
Proof.
  intros Hs. unfold run_convergence. count_through; [unfold counts; cbn; congruence|].
  apply after_convergence_counts. congruence.
Qed.
Lemma convergence_slot_end_counts s : cons_ctrl_counter s = 0 -> wp convergence_slot_end counts s.
Proof.
  intros Hs. unfold convergence_slot_end, radio, schedule_ref, next_cons_slot, get_role.
  count_through; first [apply after_convergence_counts; congruence|apply run_convergence_counts; congruence].
Qed.
Lemma counting_CHB_placing : counting csync_CHB_placing.
Proof. unfold csync_CHB_placing. count_auto. Qed.
Lemma counting_init_convergence : counting init_consensus_convergence.
Proof.
  unfold init_consensus_convergence. count_auto.
  all: match goal with |- counting (convergence_entries ?l) => induction l; cbn [convergence_entries]; count_auto end.
  all: match goal with |- counting (find_addr _ ?l _) => generalize l; intros l0; induction l0; cbn [find_addr]; count_auto end.
Qed.
Hint Resolve counting_CHB_placing counting_init_convergence still_print_status : post.
Lemma counting_print_status : counting csync_print_status.
Proof. apply still_counting, still_print_status. Qed.
Hint Resolve counting_print_status : post.
Lemma convergence_counts s : cons_ctrl_counter s = 0 -> wp convergence counts s.
Proof.
  intros Hs. unfold convergence, leds_on, show_leds, get_role, schedule_ref, set_date, set_cons_rate, add_value,
    copy_date, set_polite_placing, polite_set_interval, restart_convergence, radio, polite_init, get_role.
  count_through; first [apply after_convergence_counts; congruence|apply run_convergence_counts; congruence].
Qed.
Lemma clustering_counts s : cons_ctrl_counter s = 0 -> wp clustering counts s.
Proof.
  intros Hs. unfold clustering. do 2 wp_step. destruct (_ <? _); [|by apply convergence_counts].
  wp_step. eapply wp_post; [apply level_clustering_switch|]. intros [] s1 _ H. wp_step.
  unfold counts, phase, same in *. cbn. congruence.
Qed.
Lemma consensus_revelation_counts s : cons_ctrl_counter s = 0 -> wp consensus_revelation counts s.
Proof.
  intros Hs. unfold consensus_revelation, schedule_ref, get_role, set_my_state, set_degree, set_date,
    set_cons_rate, add_value, copy_date, set_instr.
  count_through; [unfold counts; cbn; congruence|apply synchronization_counts; lia].
Qed.
Lemma counting_synchronization_slot : counting synchronization_slot.
Proof. unfold synchronization_slot, radio, set_degree, set_cons_rate, next_ref_degree. count_auto. Qed.
Lemma counting_idle : counting idle.
Proof.
  unfold idle, get_role, set_my_state, set_degree, set_date, set_cons_rate, add_value, set_ref_addr,
    copy_date, set_instr, radio. count_auto.
Qed.
Lemma counting_run_slots : counting run_slots.
Proof. unfold run_slots, after_slots. count_auto. apply counting_slot_loop. Qed.

Lemma proc_step_counts p s : counts p s -> wp (proc_step p) counts s.
Proof.
  unfold counts at 1. intros Hs. destruct p; cbn [proc_step counter_ok] in *.
  - by apply clustering_counts.
  - by apply clustering_counts.
  - by apply convergence_slot_end_counts.
  - by apply consensus_revelation_counts.
  - apply synchronization_counts. lia.
  - wp_step. apply wp_counting; [apply counting_synchronization_slot|]. intros [] s1 H1. wp_step.
    intros o s2 E. pose proof (run_slots_yields _ _ _ E) as [_ Ho]. apply counting_run_slots in E.
    apply continue_counts; [by rewrite E, H1|]. intros q ->. destruct q; auto; done.
  - wp_step. intros o s2 E. pose proof (idle_yields _ _ _ E) as Ho. apply counting_idle in E.
    apply continue_counts; [by rewrite E|]. intros q ->. destruct Ho as [-> _]. auto.
  - wp_step. apply wp_counting; [unfold idle_end, broadcast_stop, remove_value; count_auto|].
    intros [] s1 H1. apply continue_counts; [by rewrite H1|done].
Qed.

(** ** Runs *)

(** The nodes that the memory [s0] reaches: its process starts, and events follow. *)
Inductive runs (s0 : node) : mote -> Prop :=
  | Boot p s : proc_init s0 = Ok (p, s) -> runs s0 (s, p)
  | Next m e m' : runs s0 m -> mote_step m e m' -> runs s0 m'.

Lemma proc_init_eq : proc_init = (reset_c_gtsp ;; round_start).
Proof. reflexivity. Qed.
Lemma boot_counts p s s0 : proc_init s0 = Ok (p, s) -> counts p s.
Proof.
  rewrite proc_init_eq. revert p s. apply (wp_bind reset_c_gtsp (fun _ => round_start) counts s0).
  intros u s1 _. exact (round_start_counts s1).
Qed.
Lemma event_counts p e s s' : counts p s -> node_event e s = Ok (tt, s') -> counts p s'.
Proof. intros H E. apply counting_event in E. unfold counts. rewrite E. exact H. Qed.
Lemma poll_counts p s p' s' : counts p s -> proc_step p (s <| needspoll := false |>) = Ok (p', s') -> counts p' s'.
Proof. intros H E. apply (proc_step_counts p (s <| needspoll := false |>)); [exact H|exact E]. Qed.

(** C5. In every run of a node, whatever the packets, the timers and their order,
    the counter of the rounds of control is zero until the synchronisation starts
    and below [NUM_CONS_CTRL_ITERATIONS] while it waits there; so the process never
    restarts the convergence, and [process_yields] applies to each of its steps. *)
Theorem counter_bounded s0 s p : runs s0 (s, p) -> counter_ok p (cons_ctrl_counter s).
Proof.
  intros H. change (counts (s, p).2 (s, p).1). revert H. generalize (s, p). clear s p. intros m H.
  induction H as [p s E|m e m' _ IH Hs].
  - by apply boot_counts in E.
  - destruct Hs as [s p e s' _ _ E|s p s' p' _ E]; cbn [fst snd] in *.
    + by apply (event_counts p e s).
    + by apply (poll_counts p s).
Qed.
End motes.

(** The node 70 receives the packet of its neighbour 69, which declares itself
    cluster head. *)
Definition motes_packet : list Z :=
  message (DF := binary32) [(2, phases_value 4)] ++ timesync_bytes (DF := binary32) phases_frame.
Definition motes_example : node := phases_example
  <| net ::= fun t => t <| channel_list := [CONN_POLITE] |> <| channelno := fun _ => LOGICAL_CHANNEL |>
    <| ann := mk_announcement_st [2%nat] None
         (replicate 2 (announcement_boot (DF := binary32)) ++
          [mk_announcement 2 0 (phases_value 0) (Some Received_declaration)]
          ++ replicate 2 (announcement_boot (DF := binary32))) |>
    <| queue ::= fun q => q <| qu_packetbuf := mk_packetbuf
         (motes_packet ++ replicate (128 - length motes_packet) 0) (Z.of_nat (length motes_packet)) 0 0
         (<[PACKETBUF_ATTR_RSSI := 65500]> (replicate 29 0)) (<[0%nat := 69]> (replicate 4 0)) |> |> |>.

Lemma packet_never_goes_back_witness :
  exists s', packet_received (DF := binary32) LOGICAL_CHANNEL motes_example = Ok (tt, s') /\
    my_state s' = ELECTION_DECLARATION /\ forward motes_example s'.
Proof.
  assert (Hm : match packet_received (DF := binary32) LOGICAL_CHANNEL motes_example with
    | Ok (_, s') => my_state s' = ELECTION_DECLARATION | Err _ => False end) by (vm_compute; reflexivity).
  destruct (packet_received (DF := binary32) LOGICAL_CHANNEL motes_example) as [[[] s']|] eqn:E;
    [|exact (False_ind _ Hm)].
  exists s'. split; [reflexivity|]. split; [exact Hm|].
  exact (packet_never_goes_back (DF := binary32) LOGICAL_CHANNEL motes_example s' E).
Defined.

(** The process of a node that starts. *)
Definition boot_example : node := node_boot (DF := binary32) 70 phases_reads (fun _ => 0) (fun _ => 1).
Lemma counter_bounded_witness :
  exists s, runs (DF := binary32) boot_example (s, At_discovery) /\ counter_ok At_discovery (cons_ctrl_counter s).
Proof.
  assert (Hm : match proc_init (DF := binary32) boot_example with
    | Ok (p, s) => p = At_discovery | Err _ => False end) by (vm_compute; reflexivity).
  destruct (proc_init (DF := binary32) boot_example) as [[p s]|] eqn:E; [|exact (False_ind _ Hm)].
  subst p. exists s.
  assert (H : runs (DF := binary32) boot_example (s, At_discovery)) by exact (Boot boot_example At_discovery s E).
  split; [exact H|exact (counter_bounded (DF := binary32) boot_example s At_discovery H)].
Defined.
