(* ===== verification/Neighbours.v ===== *)
(** * Neighbours: the table of neighbours

    [add_to_neighbour] keeps every address once, in the list its topology says, in a
    block of its own; [my_degree] counts the neighbours that count. *)
From stdpp Require Import numbers option sets list.
From S2P Require Import Prelude Lists Memb CDouble Rtimer Packetbuf Announcement Announcers CSync Gtsp Cluster Handlers Frames Phases.

Section table.
Context {DF : DoubleFormat}.
Implicit Types s : node.

(** ** The table *)

(** The address in a block. *)
Definition addrs s : list Z := map n_addr (pl_blocks (neighbour_memb s)).
Definition address s (i : nat) : option Z := addrs s !! i.
Definition listed s : list nat := mod_neighbour_list s ++ neighbour_list s.
Definition counts_as s (b : bool) (i : nat) : Prop :=
  exists a, address s i = Some a /\ c_true (check_mod (my_addr s) a) = b.

Record table_wf s : Prop := {
  tw_pool : length (pl_count (neighbour_memb s)) = length (addrs s);
  tw_used : Forall (pool_used (neighbour_memb s)) (listed s);
  tw_unique : NoDup (map (address s) (listed s));
  tw_mod : Forall (counts_as s true) (mod_neighbour_list s);
  tw_others : Forall (counts_as s false) (neighbour_list s);
  tw_degree : my_degree s = u8 (Z.of_nat (length (mod_neighbour_list s)));
}.

(** All that the table is about. *)
Definition roster s := (mod_neighbour_list s, neighbour_list s, my_addr s, my_degree s,
  pl_count (neighbour_memb s), addrs s).
Lemma roster_wf s s' : roster s' = roster s -> table_wf s -> table_wf s'.
Proof.
  unfold roster. intros [= E1 E2 E3 E4 E5 E6] [H1 H2 H3 H4 H5 H6]. unfold counts_as, address, listed, pool_used in *.
  split; unfold counts_as, address, listed, pool_used; rewrite ?E1, ?E2, ?E3, ?E4, ?E5, ?E6; assumption.
Qed.

(** ** What leaves the table alone *)

Local Abbreviation kept := (post (same roster)).
Lemma kept_net {A} (m : M (net_st callback_t handler_t) A) : kept (zoom net m).
Proof. by apply post_zoom_any. Qed.
Lemma kept_cluster {A} (m : M cluster_t A) : kept (on_cluster m).
Proof. by apply post_zoom_any. Qed.
Lemma kept_get_neighbour i : kept (get_neighbour i).
Proof. intros s a s'. unfold get_neighbour. destruct (_ !! _); [|done]. by intros [= _ <-]. Qed.
Lemma map_alter {A B} (g : A -> B) (f : A -> A) i (l : list A) :
  (forall x, g (f x) = g x) -> map g (alter f i l) = map g l.
Proof.
  intros H. revert i. induction l as [|x l IH]; intros [|i]; [done|done|cbn; by rewrite H|].
  cbn. f_equal. apply IH.
Qed.
Lemma kept_upd i f : (forall x, n_addr (f x) = n_addr x) -> kept (upd_neighbour i f).
Proof.
  intros H. apply post_modify. intros s. unfold same, roster, addrs. rsimpl. by rewrite map_alter.
Qed.
Hint Resolve kept_net kept_cluster kept_get_neighbour : post.
Local Ltac kept_step := first [ progress post_auto | by apply post_modify
  | apply kept_upd; intros; unfold update_rate; repeat case_match; reflexivity
  | progress unfold on_clock, for_neighbours ].
Local Ltac kept_auto := repeat kept_step.
Lemma kept_gtsp_recv n sync b : kept (gtsp_recv n sync b).
Proof. unfold gtsp_recv. kept_auto. Qed.
Lemma kept_sum_loop all l g : kept (sum_loop all l g).
Proof. revert g. induction l as [|i l IH]; intros g; cbn [sum_loop]; kept_auto. Qed.
Hint Resolve kept_gtsp_recv kept_sum_loop : post.
Lemma kept_gtsp_update l : kept (gtsp_update_rtimer l).
Proof. unfold gtsp_update_rtimer. kept_auto. Qed.
Hint Resolve kept_gtsp_update : post.
Lemma kept_refresh n st d sync : kept (refresh_neighbour n st d sync).
Proof. unfold refresh_neighbour. kept_auto. Qed.
Hint Resolve kept_refresh : post.

(** ** The search *)

Lemma address_block s i x : pl_blocks (neighbour_memb s) !! i = Some x -> address s i = Some (n_addr x).
Proof. intros H. unfold address, addrs. by rewrite list_lookup_fmap, H. Qed.
Lemma find_neighbour_spec l addr acc p s :
  (forall a, acc a s = Ok (p a, s)) ->
  wp (find_neighbour l addr acc) (fun o s' => s' = s /\
    match o with
    | Some i => i ∈ l /\ address s i = Some addr /\ p addr = true
    | None => Forall (fun i => address s i <> Some addr \/ p addr = false) l
    end) s.
Proof.
  intros Hacc. induction l as [|i l IH]; cbn [find_neighbour]; [by wp_step|].
  wp_step. intros x s1 E. unfold get_neighbour in E. destruct (_ !! i) as [y|] eqn:Ex; [|done].
  injection E as -> <-. apply address_block in Ex.
  wp_step. destruct (Z.eqb_spec (n_addr x) addr) as [Ea|Ea].
  - intros ok s1 E. rewrite Hacc in E. injection E as <- <-. rewrite Ea in *. destruct (p addr) eqn:Ep.
    + wp_step. set_solver.
    + eapply wp_mono; [apply IH|]. intros [j|] s2 [-> H]; [by destruct H as (_ & _ & ?)|].
      split; [done|]. constructor; auto.
  - wp_step. eapply wp_mono; [apply IH|]. intros [j|] s2 [-> H]; [set_solver|].
    split; [done|]. constructor; [left; congruence|done].
Qed.

(** An address of the table. *)
Definition known s (addr : Z) : Prop := Some addr ∈ map (address s) (listed s).
Definition full s : Prop := forall i, (i < length (pl_count (neighbour_memb s)))%nat -> pool_used (neighbour_memb s) i.

Lemma find_mod_spec addr s : table_wf s ->
  wp (find_neighbour (mod_neighbour_list s) addr accept_mod) (fun o s' => s' = s /\
    match o with
    | Some i => i ∈ mod_neighbour_list s /\ address s i = Some addr
    | None => Some addr ∉ map (address s) (mod_neighbour_list s)
    end) s.
Proof.
  intros H. eapply wp_mono; [by apply (find_neighbour_spec _ _ _ (fun a => c_true (check_mod (my_addr s) a)))|].
  intros [i|] s' [-> Ho]; [naive_solver|]. split; [done|].
  intros Hin. apply list_elem_of_fmap in Hin as (i & Ei & Hi).
  destruct (proj1 (Forall_forall _ _) (tw_mod _ H) i Hi) as (a & Ea & Hc).
  destruct (proj1 (Forall_forall _ _) Ho i Hi) as [Hn|Hn]; congruence.
Qed.
Lemma find_other_spec addr s :
  wp (find_neighbour (neighbour_list s) addr (fun _ => mret true)) (fun o s' => s' = s /\
    match o with
    | Some i => i ∈ neighbour_list s /\ address s i = Some addr
    | None => Some addr ∉ map (address s) (neighbour_list s)
    end) s.
Proof.
  eapply wp_mono; [by apply (find_neighbour_spec _ _ _ (fun _ => true))|].
  intros [i|] s' [-> Ho]; [naive_solver|]. split; [done|].
  intros Hin. apply list_elem_of_fmap in Hin as (i & Ei & Hi).
  by destruct (proj1 (Forall_forall _ _) Ho i Hi).
Qed.

(** ** A new neighbour *)

Definition topology s (addr : Z) : bool := c_true (check_mod (my_addr s) addr).
(** The table after block [n] has been given to [addr]. *)
Definition enrolled s (addr : Z) (n : nat) s' : Prop :=
  exists p, pool_alloc (neighbour_memb s) = (Some n, p) /\
    roster s' =
      (if topology s addr then mod_neighbour_list s ++ [n] else mod_neighbour_list s,
       if topology s addr then neighbour_list s else neighbour_list s ++ [n], my_addr s,
       if topology s addr then my_degree s +8 1 else my_degree s, pl_count p, <[n := addr]> (addrs s)).

Lemma map_addr_alter n addr (l : list neighbour) :
  map n_addr (alter (fun x => x <| n_addr := addr |>) n l) = <[n := addr]> (map n_addr l).
Proof. revert n. induction l as [|x l IH]; intros [|n]; [done..|]. cbn. by rewrite IH. Qed.
Lemma wp_quiet {A} (m : M node A) (Q : A -> node -> Prop) s : kept m ->
  (forall a s', roster s' = roster s -> Q a s') -> wp m Q s.
Proof. intros H HQ. eapply wp_post; [exact H|]. intros a s' _. apply HQ. Qed.
Local Ltac kept_through := lazymatch goal with
  | |- wp (mbind _ _) _ _ =>
      apply wp_bind; first [apply wp_gets | apply wp_quiet; [solve [kept_auto]|intros ? ? ?]]; kept_through
  | _ => idtac
  end.

Lemma seq_add_new (n : nat) l : n ∉ l -> seq_add n l = l ++ [n].
Proof. intros H. unfold seq_add. by rewrite seq_remove_notin. Qed.
Lemma new_neighbour_enrols addr st d sync s : Forall (pool_used (neighbour_memb s)) (listed s) ->
  wp (new_neighbour addr st d sync) (fun o s' =>
    (full s /\ o = None /\ s' = s) \/
    exists n, enrolled s addr n s' /\ o = if topology s addr then Some n else None) s.
Proof.
  intros Hu. unfold new_neighbour, check_mod_neighbours. wp_step. intros o s1 E. unfold neighbour_alloc in E.
  destruct (pool_alloc (neighbour_memb s)) as [[n|] p] eqn:Ha; injection E as <- <-.
  2:{ apply pool_alloc_None in Ha as [-> Hf]. wp_step. left. split_and!; [exact Hf|done|by destruct s]. }
  pose proof (pool_alloc_Some _ _ _ Ha) as (Hn & _ & _ & Hb & _).
  assert (Hnl : n ∉ mod_neighbour_list s /\ n ∉ neighbour_list s).
  { unfold listed in Hu. rewrite Forall_app, !Forall_forall in Hu.
    destruct Hu as [Hu1 Hu2]. split; intros Hin; [by apply Hn, Hu1|by apply Hn, Hu2]. }
  destruct Hnl as [Hm Ho]. cbv beta iota. wp_step. unfold upd_neighbour at 1. wp_step. set (s2 := s <| neighbour_memb := p |> <| neighbour_memb ::= _ |>).
  assert (H2 : roster s2 = (mod_neighbour_list s, neighbour_list s, my_addr s, my_degree s, pl_count p,
    <[n := addr]> (addrs s))).
  { unfold roster, addrs, s2. rsimpl. by rewrite map_addr_alter, Hb. }
  kept_through.
  match goal with |- wp _ _ ?st => assert (H9 : roster st = roster s2) by congruence; set (s9 := st) in * end.
  rewrite H2 in H9. pose proof H9 as H9'. unfold roster in H9'. injection H9' as E1 E2 E3 E4 E5 E6.
  match goal with |- context [check_mod (my_addr ?st) addr] =>
    replace (my_addr st) with (my_addr s) by (unfold roster in *; congruence) end.
  clear - E1 E2 E3 E4 E5 E6 Ha Hm Ho. fold (topology s addr).
  destruct (topology s addr) eqn:Et.
  - do 7 wp_step. apply wp_quiet; [kept_auto|]. intros [] s' E. wp_step. right. exists n. split; [|done].
    exists p. split; [done|]. rewrite E, Et. unfold roster, addrs in *. rsimpl.
    rewrite E1, E2, E3, E4, E5, E6. by rewrite seq_add_new.
  - do 3 wp_step. right. exists n. split; [|done].
    exists p. split; [done|]. rewrite Et. unfold roster, addrs in *. rsimpl.
    rewrite E1, E2, E3, E4, E5, E6. by rewrite seq_add_new.
Qed.

Lemma enrolled_wf s addr n s' :
  table_wf s -> ~ known s addr -> enrolled s addr n s' -> table_wf s'.
Proof.
  intros [H1 H2 H3 H4 H5 H6] Hk (p & Ha & E).
  pose proof (pool_alloc_Some _ _ _ Ha) as (Hn & Hu & Hlt & Hb & Hj).
  unfold roster in E. injection E as E1 E2 E3 E4 E5 E6.
  assert (Hnl : n ∉ listed s) by (intros Hin; by apply Hn, (proj1 (Forall_forall _ _) H2)).
  assert (Hlen : length (pl_count p) = length (pl_count (neighbour_memb s))).
  { unfold pool_alloc in Ha. destruct find_free; [|done]. injection Ha as _ <-. rsimpl. apply length_alter. }
  assert (Hadr : forall i, address s' i = if decide (i = n) then Some addr else address s i).
  { intros i. unfold address. rewrite E6. case_decide as Hi.
    - subst i. apply list_lookup_insert_eq. by rewrite <- H1.
    - by apply list_lookup_insert_ne. }
  assert (Hsame : forall i, i ∈ listed s -> address s' i = address s i).
  { intros i Hi. rewrite Hadr. case_decide; [by subst|done]. }
  assert (Hnew : address s' n = Some addr) by (rewrite Hadr; by case_decide).
  assert (Hperm : listed s' ≡ₚ n :: listed s).
  { unfold listed. rewrite E1, E2. destruct (topology s addr); [|by rewrite app_assoc, Permutation_app_comm].
    rewrite <- app_assoc. cbn. by rewrite <- Permutation_middle. }
  assert (Hcnt : forall b l, (forall i, i ∈ l -> i ∈ listed s) -> Forall (counts_as s b) l -> Forall (counts_as s' b) l).
  { intros b l Hl. rewrite !Forall_forall. intros Hb' i Hi. destruct (Hb' i Hi) as (a & Ea & Hc).
    exists a. rewrite Hsame, E3 by auto. done. }
  assert (Hone : counts_as s' (topology s addr) n) by (exists addr; by rewrite E3).
  split.
  - rewrite E5, E6, Hlen, H1. by rewrite length_insert.
  - rewrite Hperm. constructor.
    + destruct Hu as (c & Hc & ?). exists c. by rewrite E5.
    + rewrite !Forall_forall in *. intros i Hi. assert (i <> n) by (by intros ->).
      destruct (proj2 (Hj i H) (H2 i Hi)) as (c & ? & ?). exists c. by rewrite E5.
  - rewrite Hperm. cbn [map]. rewrite Hnew. apply NoDup_cons. split.
    + intros Hin. apply Hk. unfold known. erewrite map_ext_in; [exact Hin|].
      intros i Hi. symmetry. apply Hsame. by apply list_elem_of_In.
    + erewrite map_ext_in; [exact H3|]. intros i Hi. apply Hsame. by apply list_elem_of_In.
  - rewrite E1. assert (Hm : Forall (counts_as s' true) (mod_neighbour_list s)).
    { apply Hcnt; [unfold listed; set_solver|done]. }
    destruct (topology s addr); [|done]. apply Forall_app. by split; [|constructor].
  - rewrite E2. assert (Hm : Forall (counts_as s' false) (neighbour_list s)).
    { apply Hcnt; [unfold listed; set_solver|done]. }
    destruct (topology s addr); [done|]. apply Forall_app. by split; [|constructor].
  - rewrite E4, E1, H6. destruct (topology s addr); [|done]. rewrite length_app, Nat2Z.inj_add.
    change (Z.of_nat (length [n])) with 1. apply uwrap_add_l.
Qed.

Lemma refresh_same n st d sync s :
  wp (refresh_neighbour n st d sync) (fun o s' => o = Some n /\ roster s' = roster s) s.
Proof.
  intros o s' E. split; [|by apply kept_refresh in E]. unfold refresh_neighbour in E.
  apply bind_inv in E as (a & s1 & _ & E). rewrite bind_gets in E. case_decide; [by injection E as <- _|].
  apply bind_inv in E as (? & s2 & _ & E). apply bind_inv in E as (? & s3 & _ & E).
  apply bind_inv in E as (? & s4 & _ & E). by injection E as <- _.
Qed.
Lemma table_counts s i addr b l : Forall (counts_as s b) l -> i ∈ l -> address s i = Some addr ->
  topology s addr = b.
Proof.
  intros H Hi Ha. destruct (proj1 (Forall_forall _ _) H i Hi) as (a & Ea & Hc). unfold topology. congruence.
Qed.
Lemma listed_known s i addr : i ∈ listed s -> address s i = Some addr -> known s addr.
Proof. intros Hi Ha. unfold known. rewrite <- Ha. by apply list_elem_of_fmap_2. Qed.

(** What [add_to_neighbour] answers. *)
Definition answered s addr (o : option nat) s' : Prop :=
  match o with
  | Some n => n ∈ mod_neighbour_list s' /\ address s' n = Some addr
  | None => topology s addr = false \/ (full s /\ ~ known s addr)
  end.
Definition filed s addr s' : Prop :=
  (known s addr /\ roster s' = roster s) \/
  (~ known s addr /\ full s /\ s' = s) \/
  (~ known s addr /\ exists n, enrolled s addr n s').

Lemma enrolled_answered s addr n s' :
  table_wf s -> enrolled s addr n s' -> answered s addr (if topology s addr then Some n else None) s'.
Proof.
  intros H (p & Ha & E). apply pool_alloc_Some in Ha as (_ & _ & Hlt & _ & _).
  unfold roster in E. injection E as E1 _ _ _ _ E6. unfold answered, address.
  destruct (topology s addr); [|by left]. rewrite E1, E6. split; [set_solver|].
  apply list_lookup_insert_eq. by rewrite <- (tw_pool _ H).
Qed.

(** C21. The table of neighbours stays well formed: every address has one block,
    used by nobody else, and is in the list that the topology of the test bed says,
    and [my_degree] counts the neighbours that count, modulo 256.  An address of
    the table is not entered again, a new one gets a free block; when there is none,
    the sender is ignored and nothing changes.  The answer is the block of the
    sender, when it counts. *)
Theorem add_to_neighbour_spec addr st d sync s o s' :
  table_wf s -> add_to_neighbour addr st d sync s = Ok (o, s') ->
  table_wf s' /\ filed s addr s' /\ answered s addr o s'.
Proof.
  intros H E. unfold add_to_neighbour in E. rewrite bind_gets in E.
  apply bind_inv in E as (f & s1 & E1 & E). apply (find_mod_spec addr s H) in E1 as [-> Hf].
  destruct f as [n|].
  { apply refresh_same in E as [-> E]. destruct Hf as [Hn Ha]. split; [by eapply roster_wf|]. split.
    - left. split; [|done]. apply (listed_known s n); [unfold listed; set_solver|done].
    - unfold answered, address. unfold roster in E. injection E as E1 _ _ _ _ E6. by rewrite E1, E6. }
  rewrite bind_gets in E. apply bind_inv in E as (f & s1 & E1 & E).
  apply find_other_spec in E1 as [-> Ho]. destruct f as [n|].
  { apply bind_inv in E as (a & s1 & E1 & [= <- <-]). apply kept_gtsp_recv in E1. destruct Ho as [Hn Ha].
    split; [by eapply roster_wf|]. split.
    - left. split; [|done]. apply (listed_known s n); [unfold listed; set_solver|done].
    - left. eapply table_counts; [apply (tw_others _ H)|done|done]. }
  assert (Hk : ~ known s addr) by (unfold known, listed; rewrite map_app; set_solver).
  apply (new_neighbour_enrols _ _ _ _ _ (tw_used _ H)) in E as [(Hf' & -> & ->)|(n & He & ->)].
  - split; [done|]. split; [right; left; done|]. by right.
  - split; [by eapply enrolled_wf|]. split; [right; right; eauto|]. by apply enrolled_answered.
Qed.
End table.

(** Node 70, which knows 69, hears 71. *)
Definition table_example : node := phases_example <| my_degree := 1 |>.
Lemma table_example_wf : table_wf table_example.
Proof.
  split; [done| | | | |done].
  - repeat constructor. by exists 1.
  - apply NoDup_singleton.
  - repeat constructor. by exists 69.
  - constructor.
Qed.
Lemma add_to_neighbour_spec_witness :
  exists s', add_to_neighbour (DF := binary32) 71 2 4 phases_frame table_example = Ok (Some 1%nat, s') /\
    table_wf s' /\ 1%nat ∈ mod_neighbour_list s' /\ address s' 1 = Some 71.
Proof.
  assert (Hm : match add_to_neighbour (DF := binary32) 71 2 4 phases_frame table_example with
    | Ok (o, s') => o = Some 1%nat | Err _ => False end) by (vm_compute; reflexivity).
  destruct (add_to_neighbour (DF := binary32) 71 2 4 phases_frame table_example) as [[o s']|] eqn:E;
    [|exact (False_ind _ Hm)].
  subst o. exists s'. split; [reflexivity|].
  destruct (add_to_neighbour_spec (DF := binary32) 71 2 4 phases_frame table_example (Some 1%nat) s'
    table_example_wf E) as (H1 & _ & H2).
  split; [exact H1|exact H2].
Defined.
