(* ===== verification/Trust.v ===== *)
(** * Trust: whose clock a node follows, and whom it accuses

    [csync_trusted_synchronization] and the handling of synchronisation messages
    by the cluster bridges, with the blacklist. *)
From stdpp Require Import numbers option sets list.
From S2P Require Import Prelude Lists Memb CDouble Rtimer Packetbuf Announcement Announcers CSync Gtsp Cluster Handlers HandleLists GtspFacts Frames Phases.

Section trust.
Context {DF : DoubleFormat}.
Implicit Types s : node.

(** ** Following a neighbour *)

Definition heads s : list chb := bl_view (CHs (my_cluster s)).
Definition bridges s : list chb := bl_view (CBs (my_cluster s)).

(** Whom a node follows: a common node its first cluster head, a bridge everybody
    outside its own list, a cluster head the neighbour that all its bridges are. *)
Definition trusted s (addr : Z) : Prop :=
  match role (my_cluster s) with
  | CM => ch_addr <$> head (heads s) = Some addr
  | CB => addr ∉ map ch_addr (bridges s)
  | CH => Forall (fun ch => ch_addr ch = addr) (bridges s)
  end.
(** When: a cluster head in its own slot, or after its local centre. *)
Definition in_turn s (c_addr : Z) : Prop :=
  role (my_cluster s) = CH ->
  my_cons_slot s = this_sync_slot s \/ (sync_LC_addr s <> my_addr s /\ sync_LC_addr s = c_addr).

(** The rates after the message. *)
Definition next_cons_rate (n : neighbour) (curr cons : double) : double :=
  let rate := d_mul (d_div (relative_rate n) curr) cons in if d_eq rate (d_of_Z 0) then d_of_Z 1 else rate.
Definition my_next_cons_rate s (n : neighbour) (curr cons : double) : double :=
  match role (my_cluster s) with
  | CM => my_cons_rate s
  | CB => if this_sync_slot s <? my_cons_slot s then next_cons_rate n curr cons else my_cons_rate s
  | CH => next_cons_rate n curr cons
  end.
Definition next_avg_rate s (n : neighbour) (curr cons : double) : double :=
  let rate := d_mul cons (relative_rate n) in
  match role (my_cluster s) with
  | CM => if my_cons_slot s =? this_sync_slot s then rate else curr
  | CB => if this_sync_slot s <? my_cons_slot s then rate else curr
  | CH => if my_cons_slot s =? this_sync_slot s then rate else d_div (d_add rate curr) (d_of_Z 2)
  end.
Definition shift_fine (d : Z) (n : neighbour) : neighbour := n <| fine_diff := s32 (fine_diff n - d) |>.

Lemma existsb_addr addr (l : list chb) :
  existsb (fun ch => addr =? ch_addr ch) l = true <-> addr ∈ map ch_addr l.
Proof.
  rewrite existsb_exists. setoid_rewrite <- list_elem_of_In. rewrite list_elem_of_fmap.
  setoid_rewrite Z.eqb_eq. naive_solver.
Qed.
Lemma existsb_other addr (l : list chb) :
  existsb (fun ch => negb (addr =? ch_addr ch)) l = false <-> Forall (fun ch => ch_addr ch = addr) l.
Proof.
  rewrite Forall_forall, <- not_true_iff_false, existsb_exists. setoid_rewrite <- list_elem_of_In.
  setoid_rewrite negb_true_iff. setoid_rewrite Z.eqb_neq. split.
  - intros H ch Hch. destruct (decide (ch_addr ch = addr)); [done|]. exfalso. eauto.
  - intros H (ch & Hch & Hne). apply Hne. symmetry. auto.
Qed.

Lemma zoom_gets_id {S T A} (f : S -> T) `{!Update f} (g : T -> A) x :
  update f (fun _ => f x) x = x -> zoom f (gets g) x = Ok (g (f x), x).
Proof. intros H. unfold zoom, gets. by rewrite H. Qed.
Lemma run_avg_rate s : on_clock rtimer_avg_rate s = Ok (avg_rate (clock (net s)), s).
Proof. by destruct s as [[]]. Qed.
Lemma run_role s : get_role s = Ok (role (my_cluster s), s).
Proof. done. Qed.
Lemma run_heads s : on_CHs (gets bl_view) s = Ok (heads s, s).
Proof. unfold heads. by destruct s as [? ? ? ? ? []]. Qed.
Lemma run_bridges s : on_CBs (gets bl_view) s = Ok (bridges s, s).
Proof. unfold bridges. by destruct s as [? ? ? ? ? []]. Qed.
Definition rates s (cons avg : double) : node :=
  s <| my_cons_rate := cons |> <| net ::= fun t => t <| clock ::= fun c => c <| avg_rate := avg |> |> |>.
Lemma rates_same s : rates s (my_cons_rate s) (avg_rate (clock (net s))) = s.
Proof. by destruct s as [[[]]]. Qed.
Lemma run_set_avg_rate avg s :
  on_clock (rtimer_set_avg_rate avg) s = Ok (tt, rates s (my_cons_rate s) avg).
Proof. by destruct s as [[[]]]. Qed.
Lemma rates_cons s c : s <| my_cons_rate := c |> = rates s c (avg_rate (clock (net s))).
Proof. by destruct s as [[[]]]. Qed.
Lemma rates_twice s c avg c' avg' : rates (rates s c avg) c' avg' = rates s c' avg'.
Proof. done. Qed.

Lemma run_take_rate n curr cons s :
  take_rate n curr cons s = Ok (d_mul cons (relative_rate n), s <| my_cons_rate := next_cons_rate n curr cons |>).
Proof. done. Qed.
Lemma set_avg_then (b : bool) avg s :
  (on_clock (rtimer_set_avg_rate avg) ;; mret b) s = Ok (b, rates s (my_cons_rate s) avg).
Proof. by rewrite (bind_Ok _ _ _ _ _ (run_set_avg_rate avg s)). Qed.
(** The decision, and the rates set on the way. *)
Lemma trusted_rates_spec n c_addr cons s (curr := avg_rate (clock (net s))) :
  (role (my_cluster s) = CM -> heads s <> []) ->
  exists b s', trusted_rates n c_addr cons s = Ok (b, s') /\
    (b = true <-> trusted s (n_addr n) /\ in_turn s c_addr) /\
    (b = true -> s' = rates s (my_next_cons_rate s n curr cons) (next_avg_rate s n curr cons)) /\
    (b = false -> s' <| my_cons_rate := my_cons_rate s |> = s).
Proof.
  intros Hh. unfold trusted_rates, trusted, in_turn, my_next_cons_rate, next_avg_rate.
  rewrite (bind_Ok _ _ _ _ _ (run_avg_rate s)), (bind_Ok _ _ _ _ _ (run_role s)), !bind_gets. fold curr.
  destruct (role (my_cluster s)).
  - rewrite (bind_Ok _ _ _ _ _ (run_heads s)). destruct (heads s) as [|ch l]; [by specialize (Hh eq_refl)|].
    cbn [head]. rewrite (bind_Ok _ _ _ ch s eq_refl).
    destruct (Z.eqb_spec (n_addr n) (ch_addr ch)) as [E|E]; cbn [negb].
    + destruct (_ =? _); cbn [when].
      * rewrite (bind_Ok _ _ _ _ _ (run_set_avg_rate _ s)). exists true. eexists. split; [reflexivity|].
        split; [split; [|done]|done]. intros _. cbn. split; [by f_equal|done].
      * exists true, s. split; [reflexivity|]. split; [split; [|done]|split; [|done]].
        -- intros _. cbn. split; [by f_equal|done].
        -- intros _. unfold curr. by rewrite rates_same.
    + exists false, s. split; [reflexivity|]. split; [split; [done|]|split; [done|by destruct s]].
      intros [[= H] _]. by destruct E.
  - rewrite (bind_Ok _ _ _ _ _ (run_bridges s)).
    destruct (existsb (fun ch => negb (n_addr n =? ch_addr ch)) (bridges s)) eqn:Ee.
    { exists false, s. split; [reflexivity|]. split; [split; [done|]|split; [done|by destruct s]].
      intros [H _]. apply existsb_other in H. congruence. }
    apply existsb_other in Ee. rewrite (bind_Ok _ _ _ _ _ (run_take_rate n curr cons s)), !bind_gets. rsimpl.
    set (s1 := s <| my_cons_rate := _ |>).
    destruct (Z.eqb_spec (my_cons_slot s) (this_sync_slot s)) as [Es|Es].
    { rewrite set_avg_then. exists true. eexists. split; [reflexivity|].
      split; [split; [split; [done|by left]|done]|]. split; [|done]. intros _. by destruct s as [[[]]]. }
    destruct (negb (sync_LC_addr s =? my_addr s) && (sync_LC_addr s =? c_addr)) eqn:El.
    + apply andb_true_iff in El as [El1 El2]. apply negb_true_iff, Z.eqb_neq in El1. apply Z.eqb_eq in El2.
      rewrite set_avg_then. exists true. eexists. split; [reflexivity|].
      split; [split; [split; [done|by right]|done]|]. split; [|done]. intros _. by destruct s as [[[]]].
    + exists false, s1. split; [reflexivity|]. split; [split; [done|]|split; [done|by destruct s]].
      intros [_ H]. exfalso. destruct (H eq_refl) as [H1|[H1 H2]]; [done|].
      apply andb_false_iff in El as [El|El]; [apply negb_false_iff, Z.eqb_eq in El; done|].
      by apply Z.eqb_neq in El.
  - rewrite (bind_Ok _ _ _ _ _ (run_bridges s)).
    destruct (existsb (fun ch => n_addr n =? ch_addr ch) (bridges s)) eqn:Ee.
    { exists false, s. split; [reflexivity|]. split; [split; [done|]|split; [done|by destruct s]].
      intros [H _]. by apply existsb_addr in Ee. }
    assert (Ht : n_addr n ∉ map ch_addr (bridges s)) by (intros H; apply existsb_addr in H; congruence).
    destruct (this_sync_slot s <? my_cons_slot s); cbn [when].
    + rewrite (bind_Ok _ _ _ tt (rates s (next_cons_rate n curr cons) (d_mul cons (relative_rate n)))).
      2:{ rewrite (bind_Ok _ _ _ _ _ (run_take_rate n curr cons s)). by destruct s as [[[]]]. }
      exists true. eexists. split; [reflexivity|]. split; [split; [split; done|done]|done].
    + exists true, s. split; [reflexivity|]. split; [split; [split; done|done]|]. split; [|done].
      intros _. unfold curr. by rewrite rates_same.
Qed.


(** ** Accusing a neighbour *)

Definition accused s : list Z := bl_view (blacklist (my_cluster s)).
(** The blacklist after [reset_c_gtsp]. *)
Definition no_accusations s : Prop := blacklist (my_cluster s) = mk_blist [] (pool_new 0 2).

Lemma run_blacklisted addr s : blacklisted addr s = Ok (existsb (fun a => a =? addr) (accused s), s).
Proof. unfold blacklisted, accused. by destruct s as [? ? ? ? ? []]. Qed.

Definition accused_by (addr : Z) (i : nat) (p : pool Z) s : node :=
  s <| my_cluster ::= fun c => c <| blacklist :=
         mk_blist (seq_push i (bl_list (blacklist (my_cluster s)))) (p <| pl_blocks ::= alter (fun _ => addr) i |>) |> |>
    <| my_sync_border := 1 |> <| temp_state := state_val BYZANTINE_CONSENSUS |> <| needspoll := true |>.
Lemma run_accuse addr s :
  accuse addr s = match pool_alloc (bl_memb (blacklist (my_cluster s))) with
    | (Some i, p) => Ok (tt, accused_by addr i p s) | (None, _) => Err FNull end.
Proof.
  unfold accuse, on_blacklist, on_cluster, bl_alloc. unfold mbind at 1, M_bind at 1, zoom at 1 2.
  by destruct (pool_alloc _) as [[i|] p].
Qed.
Lemma blacklist_accused addr i p s : blacklist (my_cluster (accused_by addr i p s)) =
  mk_blist (seq_push i (bl_list (blacklist (my_cluster s)))) (p <| pl_blocks ::= alter (fun _ => addr) i |>).
Proof. done. Qed.
Lemma two_accusations a b s : no_accusations s ->
  exists s1 s', accuse a s = Ok (tt, s1) /\ accuse b s1 = Ok (tt, s') /\
    blacklist (my_cluster s') = mk_blist [1%nat; 0%nat] (mk_pool [1; 1] [a; b]) /\
    my_sync_border s' = 1 /\ temp_state s' = state_val BYZANTINE_CONSENSUS /\ needspoll s' = true.
Proof.
  intros H. unfold no_accusations in H.
  assert (E1 : accuse a s = Ok (tt, accused_by a 0 (mk_pool [1; 0] [0; 0]) s)) by (by rewrite run_accuse, H).
  set (s1 := accused_by a 0 _ s) in E1.
  assert (H1 : blacklist (my_cluster s1) = mk_blist [0%nat] (mk_pool [1; 0] [a; 0])).
  { unfold s1. by rewrite blacklist_accused, H. }
  assert (E2 : accuse b s1 = Ok (tt, accused_by b 1 (mk_pool [1; 1] [a; 0]) s1)) by (by rewrite run_accuse, H1).
  exists s1, (accused_by b 1 (mk_pool [1; 1] [a; 0]) s1). split; [done|]. split; [done|].
  split; [by rewrite blacklist_accused, H1|done].
Qed.

(** Two neighbours can be accused after a reset, and both are blacklisted then:
    each accusation asks for agreement and polls the process.  The pool has no
    block for a third one, which writes through a null pointer. *)
Theorem accusations_spec a b c s : no_accusations s ->
  (exists s', (accuse a ;; accuse b) s = Ok (tt, s') /\ accused s' = [b; a] /\
     blacklisted a s' = Ok (true, s') /\ blacklisted b s' = Ok (true, s') /\
     my_sync_border s' = 1 /\ temp_state s' = state_val BYZANTINE_CONSENSUS /\ needspoll s' = true) /\
  (accuse a ;; accuse b ;; accuse c) s = Err FNull.
Proof.
  intros H. destruct (two_accusations a b s H) as (s1 & s' & E1 & E2 & Hb & Hrest).
  assert (Ha : accused s' = [b; a]) by (unfold accused; by rewrite Hb).
  split.
  - exists s'. rewrite (bind_Ok _ _ _ _ _ E1). split; [done|]. split; [done|]. rewrite !run_blacklisted, Ha.
    split_and!; [| |apply Hrest..].
    + cbn [existsb]. by rewrite Z.eqb_refl, orb_true_r.
    + cbn [existsb]. by rewrite Z.eqb_refl.
  - rewrite (bind_Ok _ _ _ _ _ E1), (bind_Ok _ _ _ _ _ E2), run_accuse, Hb. done.
Qed.

(** ** A slow clock is never accused *)

Definition bl s := blacklist (my_cluster s).
Local Abbreviation spares := (post (same bl)).
Lemma spares_net {A} (m : M (net_st callback_t handler_t) A) : spares (zoom net m).
Proof. by apply post_zoom_any. Qed.
Lemma spares_CHs {A} (m : M (blist chb) A) : spares (on_CHs m).
Proof.
  intros s a s'. unfold on_CHs, on_cluster, zoom. destruct (m _) as [[]|]; [|done]. by intros [= _ <-].
Qed.
Lemma spares_CBs {A} (m : M (blist chb) A) : spares (on_CBs m).
Proof.
  intros s a s'. unfold on_CBs, on_cluster, zoom. destruct (m _) as [[]|]; [|done]. by intros [= _ <-].
Qed.
Lemma spares_get_neighbour i : spares (get_neighbour i).
Proof. intros s a s'. unfold get_neighbour. destruct (_ !! _); [|done]. by intros [= _ <-]. Qed.
Hint Resolve spares_net spares_CHs spares_CBs spares_get_neighbour : post.
Local Ltac spare_auto := repeat first [ progress post_auto | by apply post_modify
  | progress unfold on_clock, on_ann, for_neighbours, upd_neighbour, get_role, polite_cancel, copy_date ].
Lemma spares_follow v n : spares (follow v n).
Proof. unfold follow, csync_trusted_synchronization, trusted_rates, take_rate. spare_auto. Qed.
Lemma spares_relay v : spares (relay v).
Proof. unfold relay, relay_date. spare_auto. Qed.
Lemma spares_bump a : spares (bump_announcement a).
Proof. apply spares_net. Qed.
Hint Resolve spares_follow spares_relay spares_bump : post.

Lemma spared_CB v n x s : blocks s !! n = Some x -> fine_diff x < BYZANTINE_FINE_DIFF ->
  coarse_diff x < BYZANTINE_COARSE_DIFF ->
  wp (synchronization_at_CB v n) (fun _ s' => bl s' = bl s) s.
Proof.
  intros Hx Hf Hc. unfold synchronization_at_CB. apply wp_bind. intros y s1 E.
  unfold get_neighbour, blocks in *. rewrite Hx in E. injection E as <- <-.
  apply wp_bind, wp_gets, wp_bind, wp_gets.
  assert (Hp : forall m : M node unit, spares m -> wp m (fun _ s' => bl s' = bl s) s).
  { intros m Hm a s' E. by apply Hm in E. }
  assert (Hn : too_far x = false) by (unfold too_far; rewrite orb_false_iff, !Z.ltb_ge; lia).
  rewrite (proj2 (Z.ltb_lt _ _) Hf), (proj2 (Z.ltb_lt _ _) Hc), Hn. cbn [andb].
  destruct (_ <? _); [|destruct (_ =? _)]; apply Hp; spare_auto.
Qed.

(** A node accuses only neighbours whose clock is ahead: a neighbour that is
    behind, by however much, is never blacklisted by a synchronisation message,
    whatever it carries. *)
Theorem slow_clock_never_accused th v n s s' x :
  blocks s !! n = Some x -> fine_diff x < BYZANTINE_FINE_DIFF -> coarse_diff x < BYZANTINE_COARSE_DIFF ->
  synchronization_in_CONSENSUS_SYNCHRONIZATION th v n s = Ok (tt, s') ->
  bl s' = bl s.
Proof.
  intros Hx Hf Hc E. unfold synchronization_in_CONSENSUS_SYNCHRONIZATION in E.
  rewrite bind_gets in E. apply bind_inv in E as (y & s1 & E1 & E).
  unfold get_neighbour in E1. unfold blocks in Hx. rewrite Hx in E1. injection E1 as <- <-.
  destruct (_ =? _).
  - rewrite (bind_Ok _ _ _ _ _ (run_blacklisted _ s)), (bind_Ok _ _ _ _ _ (run_role s)) in E.
    destruct (existsb _ _); [by injection E as <-|]. destruct (role (my_cluster s)).
    + revert E. unfold synchronization_at_CM. assert (H : spares (synchronization_at_CM v n)).
      { unfold synchronization_at_CM, relay_date. spare_auto. }
      intros E. by apply H in E.
    + assert (H : spares (synchronization_at_CH v n)).
      { unfold synchronization_at_CH, relay_date. spare_auto. }
      by apply H in E.
    + by apply (spared_CB v n x s Hx Hf Hc) in E.
  - assert (H : spares (when (av_instr v =? state_val BYZANTINE_CONSENSUS)
      (out ← blacklisted (n_addr x); when (negb out) (byzantine_voice th v n)))).
    { unfold byzantine_voice, blacklisted, enter_byzantine_consensus, process_poll. spare_auto.
      all: try (intros s0 a0 s2 [= _ <-]; by destruct s0 as [? ? ? ? ? []]). }
    by apply H in E.
Qed.

(** ** A late joiner *)

Lemma push_memb_faults v s r : push_memb v s <> Ok r.
Proof.
  intros E. destruct r as [[] s']. unfold push_memb in E.
  apply bind_inv in E as (o & s1 & _ & E). apply bind_inv in E as (i & s2 & _ & E).
  by apply bind_inv in E as (u & s3 & _ & E).
Qed.
Definition ch_list s := bl_list (CHs (my_cluster s)).
Lemma leave_ch_list : post (same ch_list) leave_discovery.
Proof.
  unfold leave_discovery, broadcast_stop, remove_value, polite_init, on_ann.
  repeat first [progress post_auto|by apply post_zoom_any].
Qed.
Lemma schedule_ch_list i d1 d2 c : post (same ch_list) (schedule i d1 d2 c).
Proof. unfold schedule, on_clock. repeat first [progress post_auto|by apply post_zoom_any]. Qed.

(** A node in discovery that hears the revelation of the consensus cannot join:
    it has no cluster head yet, so that the handler either cannot set the timer or
    links the pool itself into the list of cluster heads; it never gets to the
    consensus revelation. *)
Theorem late_joiner_never_enters v n s s' :
  ch_list s = [] -> av_instr v = state_val CONSENSUS_REVELATION ->
  revelation_in_DISCOVERY v n s = Ok (tt, s') -> my_state s' = my_state s.
Proof.
  intros Hl Hv E. unfold revelation_in_DISCOVERY in E. rewrite Hv in E.
  apply bind_inv in E as (x & s1 & E1 & E). assert (s1 = s) as ->.
  { unfold get_neighbour in E1. destruct (_ !! _); [|done]. by injection E1 as _ <-. }
  change (state_val CONSENSUS_REVELATION =? state_val ELECTION_REVELATION) with false in E.
  change (state_val CONSENSUS_REVELATION =? state_val CONNECTION_REVELATION) with false in E.
  change (state_val CONSENSUS_REVELATION =? state_val CONSENSUS_REVELATION) with true in E. cbn [when] in E.
  apply bind_inv in E as ([] & s1 & E2 & E). assert (Hs1 : ch_list s1 = [] /\ my_state s1 = my_state s).
  { unfold set_role, on_cluster, zoom, modify in E2. injection E2 as <-. by split. }
  apply bind_inv in E as (ok & s2 & E3 & E). pose proof E3 as E3'. apply schedule_ch_list in E3.
  apply calm_schedule in E3' as [E3' _]. unfold same in *. destruct ok; cbn [when] in E.
  2:{ injection E as <-. rewrite E3'. apply Hs1. }
  apply bind_inv in E as ([] & s3 & E4 & E).
  assert (H3 : ch_list s3 = []).
  { unfold set_rt_state, on_clock, zoom in E4. destruct (upd_rt _ _ _) as [[]|]; [|done]. injection E4 as _ <-.
    change (ch_list s2 = []). rewrite E3. apply Hs1. }
  apply bind_inv in E as ([] & s4 & E5 & E). apply leave_ch_list in E5. unfold same in E5.
  apply bind_inv in E as (len & s5 & E6 & E).
  assert (Hlen : len = 0).
  { unfold on_CHs, on_cluster, zoom, bl_length, gets in E6. injection E6 as <- _.
    change (Z.of_nat (length (ch_list s4)) = 0). by rewrite E5, H3. }
  rewrite Hlen in E. change (0 <? 0) with false in E. cbv iota in E.
  apply bind_inv in E as ([] & s6 & E7 & _). apply bind_inv in E7 as ([] & s7 & E7 & _).
  by apply push_memb_faults in E7.
Qed.
End trust.


Lemma accusations_spec_witness :
  (accuse 69 ;; accuse 71 ;; accuse 72) phases_example = Err FNull.
Proof.
  assert (H : no_accusations phases_example) by (vm_compute; reflexivity).
  exact (proj2 (accusations_spec 69 71 72 phases_example H)).
Defined.

(** A bridge, whose neighbour 69 is a minute behind. *)
Definition slow_example : node := phases_example
  <| my_state := CONSENSUS_SYNCHRONIZATION |>
  <| my_cluster ::= fun c => c <| role := CB |> |>
  <| neighbour_memb ::= fun p => p <| pl_blocks ::= alter (fun x => x <| fine_diff := - 1000000000 |>) 0%nat |> |>.
Lemma slow_clock_never_accused_witness :
  exists s', synchronization_in_CONSENSUS_SYNCHRONIZATION (DF := binary32) 2 (phases_value 14) 0 slow_example
      = Ok (tt, s') /\ bl s' = bl slow_example.
Proof.
  assert (Hm : match synchronization_in_CONSENSUS_SYNCHRONIZATION (DF := binary32) 2 (phases_value 14) 0 slow_example
    with Ok _ => True | Err _ => False end) by (vm_compute; exact I).
  destruct (synchronization_in_CONSENSUS_SYNCHRONIZATION (DF := binary32) 2 (phases_value 14) 0 slow_example)
    as [[[] s']|] eqn:E; [|exact (False_ind _ Hm)].
  exists s'. split; [reflexivity|].
  destruct (blocks slow_example !! 0%nat) as [x|] eqn:Hx; [|discriminate Hx].
  assert (Hd : fine_diff x = - 1000000000 /\ coarse_diff x = 0).
  { vm_compute in Hx. injection Hx as <-. split; reflexivity. }
  destruct Hd as [H1 H2].
  exact (slow_clock_never_accused (DF := binary32) 2 (phases_value 14) 0 slow_example s' x Hx
    ltac:(rewrite H1; reflexivity) ltac:(rewrite H2; reflexivity) E).
Defined.

(** A node in discovery that hears a message without a date. *)
Definition joiner_example : node := phases_example <| my_state := DISCOVERY |>.
Definition joiner_value : announcement_value := mk_value 12 3 0 0 69 (d_of_Z (DF := binary32) 1).
Lemma late_joiner_never_enters_witness :
  exists s', revelation_in_DISCOVERY (DF := binary32) joiner_value 0 joiner_example = Ok (tt, s') /\
    my_state s' = DISCOVERY.
Proof.
  assert (Hm : match revelation_in_DISCOVERY (DF := binary32) joiner_value 0 joiner_example
    with Ok _ => True | Err _ => False end) by (vm_compute; exact I).
  destruct (revelation_in_DISCOVERY (DF := binary32) joiner_value 0 joiner_example) as [[[] s']|] eqn:E;
    [|exact (False_ind _ Hm)].
  exists s'. split; [reflexivity|]. change DISCOVERY with (my_state joiner_example).
  exact (late_joiner_never_enters (DF := binary32) joiner_value 0 joiner_example s' eq_refl eq_refl E).
Defined.
